(* ===== verification/_CoqProject ===== *)
-Q . S2P
Prelude.v
FlashModel.v
Checksum.v
Cell.v
Records.v
Reliable.v
Link.v
Input.v
Reports.v
Aggregator.v
UsbReport.v
UsbFrame.v
Movement.v
Message.v
ControlFragment.v
Timing.v
InputBatch.v
MgmtFrame.v
Settings.v
InputProfile.v
OutputTarget.v
Control.v
StorageImage.v
StorageFlash.v
HostState.v
Bridge.v
BridgeSafety.v
BridgeBehaviour.v
Management.v
StoragePersist.v
Device.v
MirrorImage.v
MirrorPlan.v
ProfileTransfer.v
ProfileStore.v
