(* ===== verification/Prelude.v ===== *)
(** * HIDShift: verification development

    HIDShift turns an ESP32-S3 into a bridge that takes USB keyboards, mice and consumer controls and
    sends their input to one selected computer, over BLE or, with a second ESP32-S3, over USB.  The
    crate under [src/src/] is the part of it that runs without hardware: the state machines, codecs
    and storage that the firmwares call.  This library models that crate as it is built with the
    dual-S3 feature ([dual-s3-wired]) and proves what makes its parts correct.

    ** The program and the files that model it

    The host chip reads USB devices, decides what goes where, and remembers computers and settings:
    - [Input.v], [Aggregator.v] ([input/], [ids.rs]): the keyboard, mouse and consumer state of one
      interface, what is hidden during a switch, and the state of all interfaces together.
    - [Reports.v] ([reports/]): the reports sent to a computer and the BLE report map.
    - [Movement.v] ([input/movement_queue.rs], [mouse_accumulator.rs]): mouse movement that cannot be
      sent yet.
    - [UsbReport.v], [UsbFrame.v] ([usb_hid/report.rs], [frame.rs], [boot_keyboard.rs], [power.rs]): HID
      reports, the input frames they become, and when the USB bus sleeps.
    - [InputProfile.v] ([domain/input_profile.rs]): what is remembered of each input device.
    - [OutputTarget.v] ([output_target.rs]), [HostState.v] ([bridge/host_state.rs], [pairing.rs]): the
      computers, which of them is selected, and pairing.
    - [Bridge.v] ([bridge/mod.rs]): every event handler of the bridge over these states, with
      [BridgeSafety.v] and [BridgeBehaviour.v] holding what is proved of them.
    - [Control.v] ([target_control.rs], [remote_wakeup.rs], [routing.rs], [mirror/control.rs],
      [mirror/candidate.rs]): buttons, wake-up, host slots and the control requests of a mirrored device.
    - [StorageImage.v], [StorageFlash.v], [StoragePersist.v] ([storage.rs], and a turn of
      the firmware's [storage_task.rs]): what survives a restart, and when it is written.
    - [Settings.v] ([settings.rs]), [Management.v] ([management.rs]), [MgmtFrame.v]
      ([management/frame.rs]): the settings and the management protocol.

    The two chips talk over SPI:
    - [Checksum.v] ([checksum.rs]), [Cell.v], [Records.v], [Reliable.v], [Link.v], [Timing.v],
      [Message.v], [ControlFragment.v], [InputBatch.v], [Device.v] ([interchip/]): cells, records,
      exactly-once delivery, the ready line, recovery, messages, and the device's end of the link.

    The device chip presents a wired keyboard and mouse or mirrors a captured device:
    - [MirrorImage.v], [MirrorPlan.v] ([mirror/image.rs], [parser.rs], [validator.rs], [plan.rs]): the
      image of a captured device and its validation.
    - [ProfileTransfer.v] ([interchip/profile_transfer.rs]), [ProfileStore.v] ([mirror/store.rs]): its
      way to the device chip and into flash.  [FlashModel.v] is the flash under both stores.

    [Prelude.v] holds what all files share: [Result] with Rust's [?], record update, machine integers,
    byte strings, fixed-capacity vectors, and an outcome type for code that may panic.

    ** How Rust becomes Rocq

    Integers are [Z] with their width written where it matters ([as_u8], [u32_saturating_add], ...);
    bytes are [list Z]; a [heapless::Vec] is a list pushed with [vec_push] and its capacity; arrays are
    lists of their length; enums are inductive types, structs records of the same fields.  A method that
    takes [&mut self] returns the new state, next to its [Result] where an error leaves a change behind;
    handlers of the bridge are computations over the state and the action vector.  Names are the
    source's, with a prefix where two types use the same one.  Functions of other crates
    (embedded-storage, USB and BLE stacks) are parameters or class methods.  [Z] lists have no bound, so
    a statement about bytes says [bytes_ok].

    ** What the theorems show

    - Codecs ([Cell], [Records], [Message], [ControlFragment], [MgmtFrame], [Management],
      [MirrorImage], [StorageImage]): what is encoded is decoded again, what is accepted is what the
      encoder writes or is stable when encoded again, and corrupted bytes are refused as far as the
      CRC promises.
    - Delivery ([Link], [Reliable], [ProfileTransfer], [InputBatch], [Device]): messages arrive once
      and in order over any loss, reports arrive unchanged, repeated chunks and cells have no effect.
    - Input ([UsbReport], [UsbFrame], [Input], [Aggregator], [Movement], [InputProfile], [Reports]): a frame
      is what its report says, the aggregate is the union of the devices, hidden keys stay hidden until
      released, no motion is lost but what is reported, a chord fires once.
    - Bridge ([BridgeSafety], [BridgeBehaviour]): in every reachable state each event keeps the
      invariant, reports go only where they should, at most seventeen actions are needed; the exact
      effect of frames, switches, disconnects and restarts.
    - Storage ([ProfileStore], [StorageFlash], [StoragePersist]): what was reported stored survives power
      loss at any byte; failed writes are retried and nothing asked for is dropped.
    - Timing, settings, targets, controls: budgets, quiet periods, schema, cycling order, presses, one
      request at a time.
    Statements that hold of all reachable states say so with the step relation of their file.  Where the
    code falls short of its purpose, a theorem states what it does instead
    ([BridgeBehaviour.switch_overflows_capacity], [BridgeBehaviour.removal_silent_when_wired],
    [Device.refused_request_sent], [MgmtFrame.decode_stream_panics_iff],
    [StorageFlash.retried_persist_lost]).

    ** Bounds and fuel

    Loops over indices carry fuel that is the length of the data they walk (the readers of records,
    descriptors, frames and flash) and the lemmas that use them show it never runs out; capacities are
    the constants of the source.  [Bridge] is parametric in the capacity of its action vector; four
    hosts are assumed where the invariant is stated, as the program instantiates it.

    ** Not modelled

    The runtime ([runtime.rs], [runtime/]) that owns the bridge and turns actions into commands, the
    USB enumeration, topology and output requests (the rest of [usb_hid/]), the BLE session layer ([ble*.rs]), the fallback
    presentation ([fallback.rs]) and the capture of mirrored devices ([mirror/capture.rs]) are left to callers of the parts above.
    The firmwares, the desktop companion, the web page, the command-line tools and the end-to-end
    runners are thin users of this crate around hardware, operating system or UI calls.
    Diagnostics counters are modelled only where a handler's answer depends on them.  The single-chip
    build differs from the dual-chip one in [cfg] branches that are left out. *)

From Stdlib Require Export ZArith Lia ZifyNat.
From stdpp Require Export base tactics numbers list option.

#[export] Set Default Goal Selector "!".

Declare Scope rust_scope.
Delimit Scope rust_scope with rust.
Open Scope rust_scope.
Open Scope Z_scope.

(** ** [Result], as in Rust *)

Inductive Result (E A : Type) : Type :=
| Ok (a : A)
| Err (e : E).
Arguments Ok {E A} a.
Arguments Err {E A} e.

Definition result_bind {E A B} (m : Result E A) (k : A → Result E B) : Result E B :=
  match m with Ok a => k a | Err e => Err e end.

Definition map_err {E F A} (f : E → F) (m : Result E A) : Result F A :=
  match m with Ok a => Ok a | Err e => Err (f e) end.

Definition result_ok {E A} (m : Result E A) : option A :=
  match m with Ok a => Some a | Err _ => None end.

Definition is_ok {E A} (m : Result E A) : bool :=
  match m with Ok _ => true | Err _ => false end.

(** [let? x := e in k] is Rust's [let x = e?; k]. *)
Notation "'let?' x ':=' m 'in' k" := (result_bind m (fun x => k))
  (at level 10, x pattern, m at level 100, k at level 200) : rust_scope.

(** [let+ x := e in k] is the same for [Option]. *)
Notation "'let+' x ':=' m 'in' k" :=
  (match m with Some x => k | None => None end)
  (at level 10, x pattern, m at level 100, k at level 200) : rust_scope.

#[export] Instance Result_eq_dec {E A} `{EqDecision E, EqDecision A} :
  EqDecision (Result E A).
Proof. solve_decision. Defined.

(** ** Record update

    [r <| f := v |>] is Rust's [r.f = v] and [r <| f ::= g |>] applies [g] to the
    field.  A record that wants the notation gives its eta expansion. *)

Class Eta (R : Type) := eta : R → R.
Class Upd {R T} (proj : R → T) := upd : (T → T) → R → R.

Ltac solve_upd :=
  match goal with
  | |- @Upd ?R ?T ?proj =>
      let f := fresh "f" in
      let r := fresh "r" in
      intros f r;
      let inst := constr:(_ : Eta R) in
      let i := eval hnf in inst in
      let body := eval cbv beta in (i r) in
      match eval pattern (proj r) in body with
      | ?g _ => let b := eval cbv beta in (g (f (proj r))) in exact b
      end
  end.
#[export] Hint Extern 1 (Upd _) => solve_upd : typeclass_instances.

#[warnings="-postfix-notation-not-level-1"]
Notation "r '<|' p '::=' f '|>'" := (upd (proj := p) f r)
  (at level 12, p at level 10, f at level 99, left associativity) : rust_scope.
#[warnings="-postfix-notation-not-level-1"]
Notation "r '<|' p ':=' v '|>'" := (upd (proj := p) (fun _ => v) r)
  (at level 12, p at level 10, v at level 99, left associativity) : rust_scope.

(** ** Machine integers

    An unsigned integer is a [Z] in range; the wrapping and saturating operations
    are written out. *)

Definition u8_ok (x : Z) : Prop := 0 <= x < 2 ^ 8.
Definition u16_ok (x : Z) : Prop := 0 <= x < 2 ^ 16.
Definition u32_ok (x : Z) : Prop := 0 <= x < 2 ^ 32.
Definition u64_ok (x : Z) : Prop := 0 <= x < 2 ^ 64.

Definition U8_MAX : Z := 255.
Definition U16_MAX : Z := 65535.
Definition U32_MAX : Z := 4294967295.
Definition U64_MAX : Z := 18446744073709551615.

(** [usize] on the ESP32-S3 is 32 bits wide. *)
Definition USIZE_MAX : Z := U32_MAX.

Definition as_u8 (x : Z) : Z := x mod 2 ^ 8.
Definition as_u16 (x : Z) : Z := x mod 2 ^ 16.
Definition as_u32 (x : Z) : Z := x mod 2 ^ 32.

(** Signed types; a cast to a smaller signed type wraps to two's complement, and the
    little-endian bytes of a signed integer are those of its residue. *)
Definition i8_ok (x : Z) : Prop := - 2 ^ 7 ≤ x < 2 ^ 7.
Definition i16_ok (x : Z) : Prop := - 2 ^ 15 ≤ x < 2 ^ 15.
Definition i32_ok (x : Z) : Prop := - 2 ^ 31 ≤ x < 2 ^ 31.

Definition I8_MIN : Z := -128.
Definition I8_MAX : Z := 127.
Definition I16_MIN : Z := -32768.
Definition I16_MAX : Z := 32767.
Definition I32_MIN : Z := -2147483648.
Definition I32_MAX : Z := 2147483647.

Definition as_i8 (x : Z) : Z := (x + 128) mod 256 - 128.
Definition as_i16 (x : Z) : Z := (x + 32768) mod 65536 - 32768.
Definition as_i32 (x : Z) : Z := (x + 2147483648) mod 4294967296 - 2147483648.

Definition clamp (lo hi x : Z) : Z := Z.max lo (Z.min hi x).

(** [!x] on a [u8]. *)
Definition u8_not (x : Z) : Z := Z.lxor x 255.

Definition saturating_sub (a b : Z) : Z := Z.max 0 (a - b).
Definition u8_saturating_add (a b : Z) : Z := Z.min U8_MAX (a + b).
Definition u16_saturating_add (a b : Z) : Z := Z.min U16_MAX (a + b).
Definition u32_saturating_add (a b : Z) : Z := Z.min U32_MAX (a + b).
Definition u64_saturating_add (a b : Z) : Z := Z.min U64_MAX (a + b).
Definition u64_saturating_mul (a b : Z) : Z := Z.min U64_MAX (a * b).

#[export] Instance u8_ok_dec x : Decision (u8_ok x).
Proof. unfold u8_ok; apply _. Defined.
#[export] Instance u16_ok_dec x : Decision (u16_ok x).
Proof. unfold u16_ok; apply _. Defined.
#[export] Instance u32_ok_dec x : Decision (u32_ok x).
Proof. unfold u32_ok; apply _. Defined.
#[export] Instance u64_ok_dec x : Decision (u64_ok x).
Proof. unfold u64_ok; apply _. Defined.

#[export] Instance i8_ok_dec x : Decision (i8_ok x).
Proof. unfold i8_ok; apply _. Defined.
#[export] Instance i16_ok_dec x : Decision (i16_ok x).
Proof. unfold i16_ok; apply _. Defined.
#[export] Instance i32_ok_dec x : Decision (i32_ok x).
Proof. unfold i32_ok; apply _. Defined.

#[export] Instance nat_gt_dec (a b : nat) : Decision (a > b)%nat := decide (b < a)%nat.
#[export] Instance nat_ge_dec (a b : nat) : Decision (a ≥ b)%nat := decide (b ≤ a)%nat.
#[export] Instance Z_gt_dec' (a b : Z) : Decision (Z.gt a b).
Proof. refine (cast_if (decide (b < a))); lia. Defined.
#[export] Instance Z_ge_dec' (a b : Z) : Decision (Z.ge a b).
Proof. refine (cast_if (decide (b ≤ a))); lia. Defined.

(** [words] unfolds every machine-integer constant and calls [lia]. *)
Ltac words :=
  unfold i8_ok, i16_ok, i32_ok, I8_MIN, I8_MAX, I16_MIN, I16_MAX, I32_MIN, I32_MAX, as_i8,
    as_i16, clamp, u8_ok, u16_ok, u32_ok, u64_ok, U8_MAX, U16_MAX, USIZE_MAX, U32_MAX, U64_MAX,
    as_u8, as_u16, as_u32, saturating_sub, u8_saturating_add, u16_saturating_add,
    u32_saturating_add, u64_saturating_add, u64_saturating_mul in *;
  try lia.

(** Linear arithmetic with division and remainder by constants. *)
Ltac divmod := zify; Z.to_euclidean_division_equations; lia.

(** ** Bytes and slices

    A byte is a [Z]; an array [[u8; N]] or a slice is a [list Z].  [blit off src dst]
    is [dst[off..off + src.len()].copy_from_slice(src)]; [slice lo hi l] is
    [&l[lo..hi]].  Both agree with Rust when the range is inside the array, which
    every use proves. *)

Definition bytes_ok (l : list Z) : Prop := Forall u8_ok l.

Definition slice {A} (lo hi : nat) (l : list A) : list A := take (hi - lo) (drop lo l).

Definition blit {A} (off : nat) (src dst : list A) : list A :=
  take off dst ++ src ++ drop (off + length src) dst.

Definition zeros (n : nat) : list Z := replicate n 0.

(** [l[i]] on a byte array. *)
Definition usize_len (l : list Z) : Z := Z.of_nat (length l).

Definition byte_at (l : list Z) (i : nat) : Z := nth i l 0.

Definition u16_to_le_bytes (x : Z) : list Z := [x mod 256; x / 256 mod 256].
Definition u16_from_le_bytes (a b : Z) : Z := a + 256 * b.
Definition i16_from_le_bytes (a b : Z) : Z := as_i16 (u16_from_le_bytes a b).
Definition u32_to_le_bytes (x : Z) : list Z :=
  [x mod 256; x / 256 mod 256; x / 65536 mod 256; x / 16777216 mod 256].
Definition u32_from_le_bytes (a b c d : Z) : Z :=
  a + 256 * b + 65536 * c + 16777216 * d.

(** [i32::to_le_bytes] and back: the bytes of the two's complement residue. *)
Definition i32_to_le_bytes (x : Z) : list Z := u32_to_le_bytes (as_u32 x).
Definition i32_from_le_bytes (a b c d : Z) : Z := as_i32 (u32_from_le_bytes a b c d).

(** [heapless::Vec::push] of a vector of capacity [cap]. *)
Definition vec_push {A} (cap : nat) (v : A) (l : list A) : option (list A) :=
  if decide (length l < cap)%nat then Some (l ++ [v]) else None.

(** [iter().position(p)]. *)
Fixpoint position {A} (p : A → bool) (l : list A) : option nat :=
  match l with
  | [] => None
  | x :: l => if p x then Some 0%nat else Datatypes.S <$> position p l
  end.

Definition is_none {A} (o : option A) : bool := match o with None => true | _ => false end.
Definition is_some {A} (o : option A) : bool := negb (is_none o).

(** [read_u16] and [read_u32] of [interchip/message.rs] and [control_fragment.rs]. *)
Definition read_u16 (bytes : list Z) : Z :=
  u16_from_le_bytes (byte_at bytes 0) (byte_at bytes 1).
Definition read_u32 (bytes : list Z) : Z :=
  u32_from_le_bytes (byte_at bytes 0) (byte_at bytes 1) (byte_at bytes 2) (byte_at bytes 3).

(** ** Panics and loops

    What a run of code that may panic gives; [OutOfFuel] is the model's own, for a loop whose
    number of rounds is not structural, and the theorems exclude it. *)

Inductive Run (A : Type) := Returns (a : A) | Panics | OutOfFuel.
Arguments Returns {A} a.
Arguments Panics {A}.
Arguments OutOfFuel {A}.

Definition run_bind {A B} (m : Run A) (k : A → Run B) : Run B :=
  match m with Returns a => k a | Panics => Panics | OutOfFuel => OutOfFuel end.
Notation "'let!' x ':=' m 'in' k" := (run_bind m (fun x => k))
  (at level 10, x pattern, m at level 100, k at level 200) : rust_scope.

(** [let!? x := m in k] is [let x = m?; k] where computing [m] may also panic. *)
Definition try_bind {E A B} (m : Run (Result E A)) (k : A → Run (Result E B)) : Run (Result E B) :=
  let! r := m in match r with Ok a => k a | Err e => Returns (Err e) end.
Notation "'let!?' x ':=' m 'in' k" := (try_bind m (fun x => k))
  (at level 10, x pattern, m at level 100, k at level 200) : rust_scope.

(** [bytes[i]] and [&bytes[lo..hi]], which panic out of range. *)
Definition at_index {A} (l : list A) (i : nat) : Run A :=
  match l !! i with Some x => Returns x | None => Panics end.
Definition sub_slice {A} (lo hi : nat) (l : list A) : Run (list A) :=
  if decide (lo ≤ hi ≤ length l)%nat then Returns (slice lo hi l) else Panics.

(** [yields m Q]: [m] ends without a panic, and if it ends in [Ok a] then [Q a]. *)
Definition yields {E A} (m : Run (Result E A)) (Q : A → Prop) : Prop :=
  ∃ r, m = Returns r ∧ ∀ a, r = Ok a → Q a.

(** ** Shared lemmas *)

Create HintDb hid discriminated.

Lemma yields_ok {E A} (a : A) (Q : A → Prop) : Q a → yields (Returns (@Ok E A a)) Q.
Proof. intros H. eexists. split; [done|]. by intros ? [= <-]. Qed.

Lemma yields_err {E A} (e : E) (Q : A → Prop) : yields (Returns (Err e)) Q.
Proof. eexists. split; done. Qed.

Lemma yields_result {E A} (r : Result E A) (Q : A → Prop) : (∀ a, r = Ok a → Q a) → yields (Returns r) Q.
Proof. intros H. by eexists. Qed.

Lemma yields_try {E A B} (m : Run (Result E A)) (k : A → Run (Result E B)) (P : A → Prop) (Q : B → Prop) :
  yields m P → (∀ a, P a → yields (k a) Q) → yields (let!? x := m in k x) Q.
Proof.
  intros (r & -> & Hr) Hk. unfold try_bind. cbn [run_bind]. destruct r as [a|e]; [|apply yields_err].
  by apply Hk, Hr.
Qed.

Lemma yields_at {E A} (l : list Z) i (k : Z → Run (Result E A)) Q : (i < length l)%nat →
  yields (k (byte_at l i)) Q → yields (let! x := at_index l i in k x) Q.
Proof.
  intros Hi H. unfold at_index. destruct (l !! i) as [x|] eqn:Hx.
  - cbn [run_bind]. unfold byte_at in H. by rewrite (nth_lookup_Some _ _ _ _ Hx) in H.
  - apply lookup_ge_None in Hx. lia.
Qed.

Lemma yields_slice {E A} (l : list Z) lo hi (k : list Z → Run (Result E A)) Q : (lo ≤ hi ≤ length l)%nat →
  yields (k (slice lo hi l)) Q → yields (let! x := sub_slice lo hi l in k x) Q.
Proof. intros Hi H. unfold sub_slice. by rewrite decide_True. Qed.

Lemma yields_weaken {E A} (m : Run (Result E A)) (P Q : A → Prop) :
  yields m P → (∀ a, P a → Q a) → yields m Q.
Proof. intros (r & -> & Hr) H. eexists. split; [done|]. intros a Ha. by apply H, Hr. Qed.

Lemma bind_ok {E A B} (m : Result E A) (k : A → Result E B) b :
  result_bind m k = Ok b ↔ ∃ a, m = Ok a ∧ k a = Ok b.
Proof.
  destruct m as [a|e]; simpl; split; [eauto| |done|].
  - by intros (? & [= ->] & ?).
  - by intros (? & ? & ?).
Qed.

(** [inv_ok H] opens a [let?] chain that ended in [Ok]. *)
Ltac inv_ok H :=
  repeat match type of H with
  | result_bind _ _ = Ok _ =>
      let a := fresh "a" in let Ha := fresh "Ha" in
      apply bind_ok in H as (a & Ha & H)
  | (if decide ?P then _ else _) = Ok _ => destruct (decide P); try discriminate H
  | Err _ = Ok _ => discriminate H
  | Ok _ = Ok _ => injection H as H
  end.

(** *** Little-endian codes *)

Lemma u16_from_to_le x : u16_ok x →
  u16_from_le_bytes (x mod 256) (x / 256 mod 256) = x.
Proof. unfold u16_from_le_bytes, u16_ok. intros H. Z.to_euclidean_division_equations. lia. Qed.

Lemma u32_from_to_le x : u32_ok x →
  u32_from_le_bytes (x mod 256) (x / 256 mod 256) (x / 65536 mod 256)
    (x / 16777216 mod 256) = x.
Proof. unfold u32_from_le_bytes, u32_ok. intros H. Z.to_euclidean_division_equations. lia. Qed.

Lemma u16_to_from_le a b : u8_ok a → u8_ok b →
  u16_to_le_bytes (u16_from_le_bytes a b) = [a; b].
Proof.
  unfold u16_from_le_bytes, u16_to_le_bytes, u8_ok. intros Ha Hb.
  f_equal; [|f_equal]; Z.to_euclidean_division_equations; lia.
Qed.

Lemma u32_to_from_le a b c d : u8_ok a → u8_ok b → u8_ok c → u8_ok d →
  u32_to_le_bytes (u32_from_le_bytes a b c d) = [a; b; c; d].
Proof.
  unfold u32_from_le_bytes, u32_to_le_bytes, u8_ok. intros Ha Hb Hc Hd.
  f_equal; [|f_equal; [|f_equal; [|f_equal]]]; Z.to_euclidean_division_equations; lia.
Qed.

Lemma u32_to_le_inj x y : u32_ok x → u32_ok y → u32_to_le_bytes x = u32_to_le_bytes y → x = y.
Proof.
  intros Hx Hy H. rewrite <- (u32_from_to_le x), <- (u32_from_to_le y) by done.
  by injection H as -> -> -> ->.
Qed.

Lemma as_i32_as_u32 x : i32_ok x → as_i32 (as_u32 x) = x.
Proof. unfold i32_ok, as_i32, as_u32. intros H. divmod. Qed.

Lemma as_u32_ok x : u32_ok (as_u32 x).
Proof. unfold as_u32, u32_ok. apply Z.mod_pos_bound. lia. Qed.

Lemma i32_from_to_le x : i32_ok x →
  let b := i32_to_le_bytes x in
  i32_from_le_bytes (byte_at b 0) (byte_at b 1) (byte_at b 2) (byte_at b 3) = x.
Proof.
  intros H. unfold i32_from_le_bytes, i32_to_le_bytes, u32_to_le_bytes, byte_at. cbn [nth].
  rewrite u32_from_to_le by apply as_u32_ok. by apply as_i32_as_u32.
Qed.

Lemma as_i32_ok x : i32_ok (as_i32 x).
Proof. unfold as_i32, i32_ok. divmod. Qed.

Lemma u16_from_le_ok a b : u8_ok a → u8_ok b → u16_ok (u16_from_le_bytes a b).
Proof. unfold u16_from_le_bytes. words. Qed.

Lemma u32_from_le_ok a b c d : u8_ok a → u8_ok b → u8_ok c → u8_ok d →
  u32_ok (u32_from_le_bytes a b c d).
Proof. unfold u32_from_le_bytes. words. Qed.

Lemma u8_ok_mod x : u8_ok (x mod 256).
Proof. unfold u8_ok. change (2 ^ 8) with 256. apply Z.mod_pos_bound. lia. Qed.

Lemma u16_to_le_bytes_ok x : bytes_ok (u16_to_le_bytes x).
Proof. repeat constructor; apply u8_ok_mod. Qed.

Lemma u32_to_le_bytes_ok x : bytes_ok (u32_to_le_bytes x).
Proof. repeat constructor; apply u8_ok_mod. Qed.

Lemma land_u8 a b : u8_ok a → u8_ok b → u8_ok (Z.land a b).
Proof.
  unfold u8_ok. intros Ha Hb. split; [apply Z.land_nonneg; lia|].
  destruct (decide (Z.land a b = 0)) as [->|Hne]; [lia|].
  assert (0 ≤ Z.land a b) by (apply Z.land_nonneg; lia).
  apply Z.log2_lt_pow2; [lia|]. eapply Z.le_lt_trans; [apply Z.log2_land; lia|].
  assert (a ≠ 0) by (intros ->; by rewrite Z.land_0_l in Hne).
  assert (Z.log2 a < 8) by (apply Z.log2_lt_pow2; lia). lia.
Qed.

Lemma log2_u8 a : u8_ok a → Z.log2 a < 8.
Proof. intros [Ha Ha']. destruct (Z.eq_dec a 0) as [->|]; [done|]. apply Z.log2_lt_pow2; lia. Qed.

Lemma lor_u8 a b : u8_ok a → u8_ok b → u8_ok (Z.lor a b).
Proof.
  intros Ha Hb. pose proof (log2_u8 a Ha). pose proof (log2_u8 b Hb). destruct Ha as [Ha _], Hb as [Hb _].
  split; [by apply Z.lor_nonneg|]. apply Z.log2_lt_cancel. rewrite Z.log2_lor by done.
  change (Z.log2 256) with 8. by apply Z.max_lub_lt.
Qed.

Lemma land_ff x : u8_ok x → Z.land 0xff x = x.
Proof.
  unfold u8_ok. change (2 ^ 8) with 256. intros H. rewrite Z.land_comm. change 0xff with (Z.ones 8).
  rewrite Z.land_ones by lia. change (2 ^ 8) with 256. apply Z.mod_small. lia.
Qed.

#[export] Hint Resolve u16_from_le_ok u32_from_le_ok u8_ok_mod u16_to_le_bytes_ok
  u32_to_le_bytes_ok : hid.

Lemma fold_left_cons_eq {A B} (f : A → B → A) x l a :
  fold_left f (x :: l) a = fold_left f l (f a x).
Proof. reflexivity. Qed.

(** *** Loops over [iter().enumerate()] *)

Lemma fold_indexed_app {A} (f : A → nat * Z → A) a b k acc :
  fold_left f (combine (seq k (length (a ++ b))) (a ++ b)) acc =
  fold_left f (combine (seq (k + length a) (length b)) b)
    (fold_left f (combine (seq k (length a)) a) acc).
Proof.
  revert k acc. induction a as [|x a IH]; intros k acc; cbn [app length seq combine fold_left].
  - by rewrite Nat.add_0_r.
  - rewrite IH. by replace (k + S (length a))%nat with (S k + length a)%nat by lia.
Qed.

Lemma fold_indexed_ext {A} (f : A → nat * Z → A) (g : A → Z → A) l k acc :
  (∀ i x acc, (k ≤ i < k + length l)%nat → f acc (i, x) = g acc x) →
  fold_left f (combine (seq k (length l)) l) acc = fold_left g l acc.
Proof.
  revert k acc. induction l as [|x l IH]; intros k acc H; [done|].
  cbn [length seq combine]. rewrite !fold_left_cons_eq, H by (cbn; lia).
  apply IH. intros i y acc' Hi. apply H. cbn. lia.
Qed.

(** *** Slices and [copy_from_slice] *)

Lemma length_zeros n : length (zeros n) = n.
Proof. apply length_replicate. Qed.

Lemma length_slice {A} lo hi (l : list A) : (hi ≤ length l)%nat →
  length (slice lo hi l) = (hi - lo)%nat.
Proof. intros H. unfold slice. rewrite length_take, length_drop. lia. Qed.

Lemma length_blit {A} off (s d : list A) : (off + length s ≤ length d)%nat →
  length (blit off s d) = length d.
Proof. intros H. unfold blit. rewrite !length_app, length_take, length_drop. lia. Qed.

Lemma blit_app {A} n (s a b : list A) : n = length a →
  blit n s (a ++ b) = a ++ blit 0 s b.
Proof.
  intros ->. unfold blit. rewrite take_app_length. f_equal. simpl. f_equal.
  rewrite drop_app. rewrite drop_ge by lia. simpl. f_equal. lia.
Qed.

Lemma blit_app_off {A} i (s a b : list A) :
  blit (length a + i) s (a ++ b) = a ++ blit i s b.
Proof.
  unfold blit. rewrite take_app, take_ge by lia.
  replace (length a + i - length a)%nat with i by lia.
  rewrite <- app_assoc. do 3 f_equal.
  replace (length a + i + length s)%nat with (length a + (i + length s))%nat by lia.
  rewrite drop_app, drop_ge by lia. simpl. f_equal. lia.
Qed.

Lemma blit_zeros s n : (length s ≤ n)%nat →
  blit 0 s (zeros n) = s ++ zeros (n - length s).
Proof. intros H. unfold blit, zeros. simpl. by rewrite drop_replicate. Qed.

Lemma blit_all {A} (s d : list A) : length s = length d → blit 0 s d = s.
Proof. intros H. unfold blit. simpl. rewrite drop_ge by lia. apply app_nil_r. Qed.

Lemma slice_app_mid {A} (a b c : list A) lo hi :
  lo = length a → hi = (length a + length b)%nat → slice lo hi (a ++ b ++ c) = b.
Proof.
  intros -> ->. unfold slice. rewrite drop_app_length.
  replace (length a + length b - length a)%nat with (length b) by lia.
  apply take_app_length.
Qed.

Lemma slice_0 {A} n (l : list A) : slice 0 n l = take n l.
Proof. unfold slice. by rewrite Nat.sub_0_r. Qed.

Lemma slice_full {A} (l : list A) n : n = length l → slice 0 n l = l.
Proof. intros ->. unfold slice. simpl. apply take_ge. lia. Qed.

Lemma take_blit {A} n (s d : list A) : n = length s → take n (blit 0 s d) = s.
Proof. intros ->. unfold blit. simpl. apply take_app_length. Qed.

Lemma slice_split {A} lo mid hi (l : list A) : (lo ≤ mid ≤ hi)%nat →
  slice lo mid l ++ slice mid hi l = slice lo hi l.
Proof.
  intros H. unfold slice. replace (hi - lo)%nat with ((mid - lo) + (hi - mid))%nat by lia.
  rewrite <- take_take_drop, drop_drop. do 3 f_equal. lia.
Qed.

Lemma bytes_ok_app a b : bytes_ok (a ++ b) ↔ bytes_ok a ∧ bytes_ok b.
Proof. apply Forall_app. Qed.

Lemma bytes_ok_zeros n : bytes_ok (zeros n).
Proof. apply Forall_replicate. words. Qed.

Lemma bytes_ok_take n l : bytes_ok l → bytes_ok (take n l).
Proof. apply Forall_take. Qed.

Lemma bytes_ok_drop n l : bytes_ok l → bytes_ok (drop n l).
Proof. apply Forall_drop. Qed.

Lemma bytes_ok_slice lo hi l : bytes_ok l → bytes_ok (slice lo hi l).
Proof. intros H. by apply bytes_ok_take, bytes_ok_drop. Qed.

Lemma bytes_ok_blit off s d : bytes_ok s → bytes_ok d → bytes_ok (blit off s d).
Proof.
  intros Hs Hd. unfold blit. rewrite !bytes_ok_app.
  eauto using bytes_ok_take, bytes_ok_drop.
Qed.

Lemma byte_at_ok l i : bytes_ok l → u8_ok (byte_at l i).
Proof.
  intros H. unfold byte_at. destruct (nth_in_or_default i l 0) as [Hi | ->].
  - unfold bytes_ok in H. rewrite List.Forall_forall in H. by apply H.
  - words.
Qed.

#[export] Hint Resolve bytes_ok_zeros bytes_ok_take bytes_ok_drop bytes_ok_slice
  bytes_ok_blit byte_at_ok : hid.

(** *** [Iterator::position] and [heapless::Vec::push] *)

Lemma position_app_None {A} (p : A → bool) l l' : (∀ x, x ∈ l' → p x = false) →
  position p (l ++ l') = position p l.
Proof.
  intros H. induction l as [|x l IH]; simpl.
  - induction l' as [|y l' IH']; simpl; [done|].
    rewrite H by apply list_elem_of_here.
    rewrite IH'; [done|]. intros x Hx. by apply H, list_elem_of_further.
  - destruct (p x); [done|]. by rewrite IH.
Qed.

Lemma position_map {A B} (f : A → B) (p : B → bool) l :
  position p (map f l) = position (λ x, p (f x)) l.
Proof. induction l as [|x l IH]; simpl; [done|]. destruct (p (f x)); [done|by rewrite IH]. Qed.

Lemma position_lt {A} (p : A → bool) l i : position p l = Some i → (i < length l)%nat.
Proof.
  revert i. induction l as [|x l IH]; intros i Hi; simpl in *; [done|].
  destruct (p x); [injection Hi as <-; lia|].
  destruct (position p l) as [j|]; [|done]. injection Hi as <-.
  specialize (IH j eq_refl). lia.
Qed.

Lemma position_Some {A} (p : A → bool) l i : position p l = Some i →
  ∃ x, l !! i = Some x ∧ p x = true.
Proof.
  revert i. induction l as [|x l IH]; intros i Hi; simpl in *; [done|].
  destruct (p x) eqn:Hx; [injection Hi as <-; by exists x|].
  destruct (position p l) as [j|]; [|done]. injection Hi as <-. by apply IH.
Qed.

Lemma position_None {A} (p : A → bool) l i x : position p l = None →
  l !! i = Some x → p x = false.
Proof.
  revert i. induction l as [|y l IH]; intros i Hp Hi; simpl in *; [done|].
  destruct (p y) eqn:Hy; [done|]. destruct (position p l); [done|].
  destruct i as [|i]; [by injection Hi as <-|by eapply IH].
Qed.

Lemma vec_push_Some {A} cap (v : A) l l' : vec_push cap v l = Some l' ↔
  (length l < cap)%nat ∧ l' = l ++ [v].
Proof.
  unfold vec_push. case_decide; split; [by intros [= <-]|by intros [_ ->]|done|].
  by intros [? _].
Qed.

Lemma vec_push_None {A} cap (v : A) l : vec_push cap v l = None ↔ (cap ≤ length l)%nat.
Proof. unfold vec_push. case_decide; split; first [done|lia]. Qed.

(** Destruct a list whose length is a known numeral into its elements. *)
Ltac explode l H :=
  repeat (let x := fresh "b" in destruct l as [|x l]; [discriminate H|]; simpl in H);
  destruct l; [|discriminate H]; clear H.

(** Split [bytes_ok] of an explicit list, and rebuild it. *)
Ltac split_bytes H :=
  unfold bytes_ok in H; repeat (apply List.Forall_cons_iff in H as [? H]).
Ltac solve_bytes :=
  repeat (apply bytes_ok_app; split); try apply u32_to_le_bytes_ok; try apply u16_to_le_bytes_ok;
  repeat (apply List.Forall_cons_iff; split); try apply List.Forall_nil; try done;
  try (unfold u8_ok; change (2 ^ 8) with 256; lia).
