(* ===== verification/FlashModel.v ===== *)
(** * A NOR flash that may lose power

    The flash under both stores: the profile slots of the device chip and the storage records of the
    host chip.  Erasing sets bytes to [0xff], programming clears bits; [fl_power] counts the bytes
    that can still be changed, in ascending order, before the supply fails. *)

From S2P Require Import Prelude.

Record Flash := mkFlash { fl_mem : Z → Z; fl_power : Z }.
Inductive FlashError := PowerLost.

Definition flash_read (m : Z → Z) (off : Z) (n : nat) : list Z := map (λ i, m (off + Z.of_nat i)) (seq 0 n).
Definition erased (m : Z → Z) (off n : Z) : Z → Z :=
  λ a, if decide (off ≤ a < off + n) then 0xff else m a.
Definition programmed (m : Z → Z) (off : Z) (data : list Z) (n : Z) : Z → Z :=
  λ a, if decide (off ≤ a < off + n) then Z.land (m a) (byte_at data (Z.to_nat (a - off))) else m a.

Definition flash_ok (m : Z → Z) : Prop := ∀ a, u8_ok (m a).

Definition same_on (off len : Z) (m m' : Z → Z) : Prop := ∀ a, off ≤ a < off + len → m' a = m a.

Lemma length_flash_read m off n : length (flash_read m off n) = n.
Proof. unfold flash_read. by rewrite length_map, length_seq. Qed.

Lemma flash_read_same m m' off n : same_on off (Z.of_nat n) m m' → flash_read m' off n = flash_read m off n.
Proof.
  intros H. unfold flash_read. apply List.map_ext_in. intros i Hi. apply in_seq in Hi. apply H. lia.
Qed.

Lemma flash_read_at m off n i : (i < n)%nat → byte_at (flash_read m off n) i = m (off + Z.of_nat i).
Proof.
  intros Hi. unfold byte_at, flash_read.
  rewrite (nth_indep _ 0 (m (off + Z.of_nat 0))) by (rewrite length_map, length_seq; lia).
  rewrite (map_nth (λ i, m (off + Z.of_nat i))), seq_nth by done. done.
Qed.

Lemma byte_at_ext a b : length a = length b → (∀ i, (i < length a)%nat → byte_at a i = byte_at b i) → a = b.
Proof. intros Hl H. apply (nth_ext _ _ 0 0); [done|]. exact H. Qed.

Lemma flash_read_app m off a b : flash_read m off (a + b) = flash_read m off a ++ flash_read m (off + Z.of_nat a) b.
Proof.
  apply byte_at_ext; [by rewrite length_app, !length_flash_read|]. intros i Hi. rewrite length_flash_read in Hi.
  rewrite flash_read_at by done. unfold byte_at at 1. destruct (decide (i < a)%nat).
  - rewrite app_nth1 by (by rewrite length_flash_read). fold (byte_at (flash_read m off a) i).
    by rewrite flash_read_at.
  - rewrite app_nth2 by (rewrite length_flash_read; lia). rewrite length_flash_read.
    fold (byte_at (flash_read m (off + Z.of_nat a) b) (i - a)). rewrite flash_read_at by lia. f_equal. lia.
Qed.

Lemma flash_read_ok m off n : flash_ok m → bytes_ok (flash_read m off n).
Proof. intros H. unfold flash_read, bytes_ok. apply List.Forall_map, List.Forall_forall. intros i _. apply H. Qed.

Lemma erased_ok m off n : flash_ok m → flash_ok (erased m off n).
Proof. intros H a. unfold erased. case_decide; [words|apply H]. Qed.

Lemma programmed_ok m off data n : flash_ok m → bytes_ok data → flash_ok (programmed m off data n).
Proof. intros H Hd a. unfold programmed. case_decide; [|apply H]. apply land_u8; [apply H|by apply byte_at_ok]. Qed.

Lemma erased_other m off n lo len : lo + len ≤ off ∨ off + n ≤ lo → same_on lo len m (erased m off n).
Proof. intros H a Ha. unfold erased. by rewrite decide_False by lia. Qed.

Lemma programmed_other m off data n lo len : lo + len ≤ off ∨ off + n ≤ lo → same_on lo len m (programmed m off data n).
Proof. intros H a Ha. unfold programmed. by rewrite decide_False by lia. Qed.

Lemma same_on_trans lo len m m' m'' : same_on lo len m m' → same_on lo len m' m'' → same_on lo len m m''.
Proof. intros H1 H2 a Ha. by rewrite H2, H1. Qed.

Lemma same_on_sub lo len lo' len' m m' : lo ≤ lo' → lo' + len' ≤ lo + len → same_on lo len m m' → same_on lo' len' m m'.
Proof. intros H1 H2 H a Ha. apply H. lia. Qed.

(** What is programmed on erased flash is what is read. *)
Lemma programmed_read m off data : bytes_ok data → (∀ i, (i < length data)%nat → m (off + Z.of_nat i) = 0xff) →
  flash_read (programmed m off data (usize_len data)) off (length data) = data.
Proof.
  intros Hd Hm. apply byte_at_ext; [apply length_flash_read|]. intros i Hi. rewrite length_flash_read in Hi.
  rewrite flash_read_at by done. unfold programmed, usize_len. rewrite decide_True by lia. rewrite Hm by done.
  replace (Z.to_nat (off + Z.of_nat i - off)) with i by lia. by apply land_ff, byte_at_ok.
Qed.
