(* ===== verification/Checksum.v ===== *)
(** * Checksums ([src/src/checksum.rs])

    The two CRCs of the program, bit by bit as the code computes them, and the
    error-detection guarantees the framing layers rest on. *)

From S2P Require Import Prelude.

(** ** The code *)

(** One turn of the inner loop of [crc16_ccitt_false]. *)
Definition crc16_bit (crc : Z) : Z :=
  if decide (Z.land crc 0x8000 ≠ 0)
  then Z.lxor (as_u16 (Z.shiftl crc 1)) 0x1021
  else as_u16 (Z.shiftl crc 1).

Definition crc16_byte (crc byte : Z) : Z :=
  Nat.iter 8 crc16_bit (Z.lxor crc (as_u16 (Z.shiftl byte 8))).

Definition crc16_ccitt_false (bytes : list Z) : Z :=
  fold_left crc16_byte bytes 0xffff.

Definition wrapping_neg32 (x : Z) : Z := as_u32 (- x).

Record Crc32 := mkCrc32 { crc32_state : Z }.

Definition Crc32_new : Crc32 := mkCrc32 0xffffffff.

(** One turn of the inner loop of [Crc32::update]. *)
Definition crc32_bit (state : Z) : Z :=
  let mask := wrapping_neg32 (Z.land state 1) in
  Z.lxor (Z.shiftr state 1) (Z.land 0xedb88320 mask).

Definition crc32_byte (state byte : Z) : Z :=
  Nat.iter 8 crc32_bit (Z.lxor state byte).

Definition Crc32_update (crc : Crc32) (bytes : list Z) : Crc32 :=
  mkCrc32 (fold_left crc32_byte bytes (crc32_state crc)).

Definition Crc32_finalize (crc : Crc32) : Z := Z.lxor (crc32_state crc) 0xffffffff.

Definition crc32_ieee (bytes : list Z) : Z :=
  Crc32_finalize (Crc32_update Crc32_new bytes).

(** The check values of the repository's own tests. *)
Example crc16_check : crc16_ccitt_false [49;50;51;52;53;54;55;56;57] = 0x29b1.
Proof. vm_compute. reflexivity. Qed.
Example crc32_check : crc32_ieee [49;50;51;52;53;54;55;56;57] = 0xcbf43926.
Proof. vm_compute. reflexivity. Qed.

(** ** Words as vectors over GF(2)

    Both inner loops are linear maps; that and their injectivity give the
    detection theorems. *)

Lemma lxor_u16 a b : u16_ok a → u16_ok b → u16_ok (Z.lxor a b).
Proof.
  unfold u16_ok. intros Ha Hb. split; [apply Z.lxor_nonneg; lia|].
  destruct (decide (Z.lxor a b = 0)) as [->|Hne]; [lia|].
  assert (0 ≤ Z.lxor a b) by (apply Z.lxor_nonneg; lia).
  apply Z.log2_lt_pow2; [lia|].
  eapply Z.le_lt_trans; [apply Z.log2_lxor; lia|].
  destruct (decide (a = 0)) as [->|]; destruct (decide (b = 0)) as [->|]; try (simpl; lia);
  apply Z.max_lub_lt; try (simpl; lia); apply Z.log2_lt_pow2; lia.
Qed.

Lemma lxor_u32 a b : u32_ok a → u32_ok b → u32_ok (Z.lxor a b).
Proof.
  unfold u32_ok. intros Ha Hb. split; [apply Z.lxor_nonneg; lia|].
  destruct (decide (Z.lxor a b = 0)) as [->|Hne]; [lia|].
  assert (0 ≤ Z.lxor a b) by (apply Z.lxor_nonneg; lia).
  apply Z.log2_lt_pow2; [lia|].
  eapply Z.le_lt_trans; [apply Z.log2_lxor; lia|].
  destruct (decide (a = 0)) as [->|]; destruct (decide (b = 0)) as [->|]; try (simpl; lia);
  apply Z.max_lub_lt; try (simpl; lia); apply Z.log2_lt_pow2; lia.
Qed.

Lemma as_u16_ok x : u16_ok (as_u16 x).
Proof. unfold u16_ok, as_u16. apply Z.mod_pos_bound. lia. Qed.
#[local] Hint Resolve lxor_u16 lxor_u32 as_u16_ok : hid.

Lemma crc16_bit_eq x :
  crc16_bit x = Z.lxor (as_u16 (Z.shiftl x 1)) (if Z.testbit x 15 then 0x1021 else 0).
Proof.
  unfold crc16_bit. replace (Z.land x 0x8000) with (if Z.testbit x 15 then 0x8000 else 0).
  - destruct (Z.testbit x 15); case_decide; try done; by rewrite ?Z.lxor_0_r.
  - apply Z.bits_inj'. intros n Hn. rewrite Z.land_spec.
    change 0x8000 with (2 ^ 15). destruct (decide (n = 15)) as [->|Hne].
    + rewrite Z.pow2_bits_true by lia. rewrite andb_true_r.
      destruct (Z.testbit x 15); [by rewrite Z.pow2_bits_true by lia|by rewrite Z.bits_0].
    + rewrite (Z.pow2_bits_false 15 n) by lia. rewrite andb_false_r.
      destruct (Z.testbit x 15); [by rewrite Z.pow2_bits_false by lia|by rewrite Z.bits_0].
Qed.

Lemma as_u16_lxor a b : as_u16 (Z.lxor a b) = Z.lxor (as_u16 a) (as_u16 b).
Proof.
  unfold as_u16. rewrite <- !Z.land_ones by lia. apply Z.bits_inj'. intros n Hn.
  rewrite !Z.land_spec, !Z.lxor_spec, !Z.land_spec.
  destruct (Z.testbit (Z.ones 16) n), (Z.testbit a n), (Z.testbit b n); done.
Qed.

Lemma crc16_bit_lxor a b : crc16_bit (Z.lxor a b) = Z.lxor (crc16_bit a) (crc16_bit b).
Proof.
  rewrite !crc16_bit_eq, Z.shiftl_lxor, as_u16_lxor, Z.lxor_spec.
  apply Z.bits_inj'. intros n Hn. rewrite !Z.lxor_spec.
  destruct (Z.testbit a 15), (Z.testbit b 15); rewrite ?Z.bits_0; simpl;
  destruct (Z.testbit (as_u16 (Z.shiftl a 1)) n), (Z.testbit (as_u16 (Z.shiftl b 1)) n),
    (Z.testbit 4129 n); done.
Qed.

Lemma crc16_bit_ok x : u16_ok (crc16_bit x).
Proof. rewrite crc16_bit_eq. apply lxor_u16; [apply as_u16_ok|]. destruct Z.testbit; words. Qed.

Lemma crc16_bit_zero x : u16_ok x → crc16_bit x = 0 → x = 0.
Proof.
  intros Hx H. rewrite crc16_bit_eq in H. apply Z.lxor_eq in H.
  unfold as_u16 in H. rewrite Z.shiftl_mul_pow2 in H by lia.
  destruct (Z.testbit x 15) eqn:Hb.
  - exfalso. Z.to_euclidean_division_equations. lia.
  - assert (x < 2 ^ 15).
    { destruct (decide (2 ^ 15 ≤ x)) as [Hge|]; [|lia].
      rewrite <- Z.mod_pow2_bits_low with (n := 16) in Hb by lia.
      rewrite Z.mod_small in Hb by (unfold u16_ok in Hx; lia).
      assert (x / 2 ^ 15 = 1) as Hdiv
        by (unfold u16_ok in Hx; Z.to_euclidean_division_equations; lia).
      rewrite Z.testbit_eqb, Hdiv in Hb by lia. discriminate. }
    words; Z.to_euclidean_division_equations; lia.
Qed.

(** Iterating a linear injective step keeps both properties; both CRCs are
    instances. *)
Section LinearStep.
Context (ok : Z → Prop) (step : Z → Z).
Hypothesis ok_lxor : ∀ a b, ok a → ok b → ok (Z.lxor a b).
Hypothesis step_ok : ∀ a, ok a → ok (step a).
Hypothesis step_lxor : ∀ a b, step (Z.lxor a b) = Z.lxor (step a) (step b).
Hypothesis step_zero : ∀ a, ok a → step a = 0 → a = 0.

Lemma iter_step_ok k a : ok a → ok (Nat.iter k step a).
Proof. intros Ha. induction k; simpl; auto. Qed.

Lemma iter_step_lxor k a b :
  Nat.iter k step (Z.lxor a b) = Z.lxor (Nat.iter k step a) (Nat.iter k step b).
Proof. induction k as [|k IH]; simpl; [done|]. by rewrite IH, step_lxor. Qed.

Lemma iter_step_inj k a b : ok a → ok b →
  Nat.iter k step a = Nat.iter k step b → a = b.
Proof.
  intros Ha Hb H. apply Z.lxor_eq.
  assert (Nat.iter k step (Z.lxor a b) = 0) as Hz
    by (rewrite iter_step_lxor, H; apply Z.lxor_nilpotent).
  clear H. induction k as [|k IH]; simpl in Hz; [done|].
  apply IH, step_zero; auto using iter_step_ok.
Qed.

(** A byte-wise fold whose byte step xors an injected byte and iterates. *)
Context (inject : Z → Z).
Hypothesis inject_ok : ∀ x, u8_ok x → ok (inject x).

Let byte_step (c x : Z) : Z := Nat.iter 8 step (Z.lxor c (inject x)).

Lemma fold_step_ok l c : ok c → bytes_ok l → ok (fold_left byte_step l c).
Proof.
  intros Hc Hl. revert c Hc. induction Hl as [|x l Hx Hl IH]; intros c Hc; simpl; [done|].
  apply IH. apply iter_step_ok; auto.
Qed.

Lemma fold_step_inj l a b : ok a → ok b → bytes_ok l →
  fold_left byte_step l a = fold_left byte_step l b → a = b.
Proof.
  intros Ha Hb Hl. revert a b Ha Hb.
  induction Hl as [|x l Hx Hl IH]; intros a b Ha Hb H; simpl in H; [done|].
  apply IH in H; [|apply iter_step_ok; auto..].
  apply iter_step_inj in H; auto.
  rewrite <- (Z.lxor_0_r a), <- (Z.lxor_0_r b), <- (Z.lxor_nilpotent (inject x)),
    <- !Z.lxor_assoc. by rewrite H.
Qed.
End LinearStep.

Lemma crc32_bit_eq x :
  crc32_bit x = Z.lxor (Z.shiftr x 1) (if Z.testbit x 0 then 0xedb88320 else 0).
Proof.
  unfold crc32_bit, wrapping_neg32.
  change (Z.land x 1) with (Z.land x (Z.ones 1)). rewrite Z.land_ones by lia.
  rewrite <- Z.bit0_mod. by destruct (Z.testbit x 0).
Qed.

Lemma shiftr1_u32 x : u32_ok x → u32_ok (Z.shiftr x 1).
Proof. unfold u32_ok. rewrite Z.shiftr_div_pow2 by lia. intros H.
  Z.to_euclidean_division_equations. lia. Qed.

Lemma crc32_bit_ok x : u32_ok x → u32_ok (crc32_bit x).
Proof.
  intros Hx. rewrite crc32_bit_eq. apply lxor_u32; [by apply shiftr1_u32|].
  destruct Z.testbit; words.
Qed.

Lemma crc32_bit_lxor a b : crc32_bit (Z.lxor a b) = Z.lxor (crc32_bit a) (crc32_bit b).
Proof.
  rewrite !crc32_bit_eq, Z.shiftr_lxor, Z.lxor_spec.
  apply Z.bits_inj'. intros n Hn. rewrite !Z.lxor_spec.
  destruct (Z.testbit a 0), (Z.testbit b 0); rewrite ?Z.bits_0; simpl;
  destruct (Z.testbit (Z.shiftr a 1) n), (Z.testbit (Z.shiftr b 1) n),
    (Z.testbit 0xedb88320 n); done.
Qed.

Lemma crc32_bit_zero x : u32_ok x → crc32_bit x = 0 → x = 0.
Proof.
  intros Hx H. rewrite crc32_bit_eq in H. apply Z.lxor_eq in H.
  rewrite Z.shiftr_div_pow2 in H by lia.
  rewrite Z.bit0_odd in H. destruct (Z.odd x) eqn:Ho.
  - unfold u32_ok in Hx. Z.to_euclidean_division_equations. lia.
  - rewrite Zodd_even_bool, negb_false_iff, Z.even_spec in Ho. destruct Ho as [k ->].
    replace (2 ^ 1) with 2 in H by lia. rewrite Z.mul_comm, Z.div_mul in H by lia. lia.
Qed.

Lemma u8_u16 x : u8_ok x → u16_ok x.
Proof. words. Qed.
Lemma u8_u32 x : u8_ok x → u32_ok x.
Proof. words. Qed.

Lemma crc16_iter_lxor k a b : Nat.iter k crc16_bit (Z.lxor a b) =
  Z.lxor (Nat.iter k crc16_bit a) (Nat.iter k crc16_bit b).
Proof. apply iter_step_lxor, crc16_bit_lxor. Qed.

Lemma crc32_iter_lxor k a b : Nat.iter k crc32_bit (Z.lxor a b) =
  Z.lxor (Nat.iter k crc32_bit a) (Nat.iter k crc32_bit b).
Proof. apply iter_step_lxor, crc32_bit_lxor. Qed.

Lemma crc16_iter_inj k a b : u16_ok a → u16_ok b →
  Nat.iter k crc16_bit a = Nat.iter k crc16_bit b → a = b.
Proof.
  apply (iter_step_inj u16_ok crc16_bit lxor_u16 (λ a _, crc16_bit_ok a) crc16_bit_lxor
    crc16_bit_zero).
Qed.

Lemma crc32_iter_inj k a b : u32_ok a → u32_ok b →
  Nat.iter k crc32_bit a = Nat.iter k crc32_bit b → a = b.
Proof.
  apply (iter_step_inj u32_ok crc32_bit lxor_u32 crc32_bit_ok crc32_bit_lxor crc32_bit_zero).
Qed.

Lemma crc16_fold_ok l c : u16_ok c → bytes_ok l → u16_ok (fold_left crc16_byte l c).
Proof.
  apply (fold_step_ok u16_ok crc16_bit lxor_u16 (λ a _, crc16_bit_ok a)
    (λ x, as_u16 (Z.shiftl x 8)) (λ x _, as_u16_ok _)).
Qed.

Lemma crc32_fold_ok l c : u32_ok c → bytes_ok l → u32_ok (fold_left crc32_byte l c).
Proof. apply (fold_step_ok u32_ok crc32_bit lxor_u32 crc32_bit_ok (λ x, x) u8_u32). Qed.

Lemma crc16_fold_inj l a b : u16_ok a → u16_ok b → bytes_ok l →
  fold_left crc16_byte l a = fold_left crc16_byte l b → a = b.
Proof.
  apply (fold_step_inj u16_ok crc16_bit lxor_u16 (λ a _, crc16_bit_ok a) crc16_bit_lxor
    crc16_bit_zero (λ x, as_u16 (Z.shiftl x 8)) (λ x _, as_u16_ok _)).
Qed.

Lemma crc32_fold_inj l a b : u32_ok a → u32_ok b → bytes_ok l →
  fold_left crc32_byte l a = fold_left crc32_byte l b → a = b.
Proof.
  apply (fold_step_inj u32_ok crc32_bit lxor_u32 crc32_bit_ok crc32_bit_lxor crc32_bit_zero
    (λ x, x) u8_u32).
Qed.

(** Conversion must not unroll the bit steps, which duplicate their argument. *)
#[local] Opaque crc16_bit crc32_bit.

(** ** Bounds *)

Lemma crc16_u16 l : bytes_ok l → u16_ok (crc16_ccitt_false l).
Proof. intros Hl. apply (crc16_fold_ok l 0xffff); [words|done]. Qed.

Lemma crc32_u32 l : bytes_ok l → u32_ok (crc32_ieee l).
Proof.
  intros Hl. unfold crc32_ieee, Crc32_finalize. simpl.
  apply lxor_u32; [|words]. apply (crc32_fold_ok l 0xffffffff); [words|done].
Qed.
#[export] Hint Resolve crc16_u16 crc32_u32 : hid.

(** ** Error detection *)

(** Eight turns move an isolated byte to the other end of the register. *)
Lemma crc16_iter8_byte x : u8_ok x → Nat.iter 8 crc16_bit x = as_u16 (Z.shiftl x 8).
Proof.
  intros Hx.
  assert (forallb (λ i, Nat.iter 8 crc16_bit (Z.of_nat i) =? as_u16 (Z.shiftl (Z.of_nat i) 8))
    (seq 0 256) = true) as H by (vm_compute; reflexivity).
  rewrite List.forallb_forall in H. specialize (H (Z.to_nat x)).
  rewrite Z2Nat.id in H by words. apply Z.eqb_eq, H, List.in_seq. words.
Qed.

Lemma crc32_iter8_shift x : 0 ≤ x → Nat.iter 8 crc32_bit (256 * x) = x.
Proof.
  intros Hx.
  assert (∀ y, crc32_bit (2 * y) = y) as Hd.
  { intros y. rewrite crc32_bit_eq, Z.shiftr_div_pow2 by lia.
    rewrite Z.bit0_odd, Z.odd_mul. simpl. rewrite Z.lxor_0_r.
    change (2 ^ 1) with 2. rewrite Z.mul_comm. apply Z.div_mul. lia. }
  simpl. replace (256 * x) with (2 * (2 * (2 * (2 * (2 * (2 * (2 * (2 * x)))))))) by lia.
  by rewrite !Hd.
Qed.

(** Bytes as one word, last byte lowest for the CRC-16 and first byte lowest for
    the CRC-32: the order in which the loops consume them. *)
Fixpoint le_value (l : list Z) : Z :=
  match l with [] => 0 | x :: l => x + 256 * le_value l end.

Lemma le_value_bound l : bytes_ok l → 0 ≤ le_value l < 256 ^ Z.of_nat (length l).
Proof.
  induction 1 as [|x l Hx Hl IH]; [simpl; lia|].
  cbn [le_value length]. rewrite Nat2Z.inj_succ, Z.pow_succ_r by lia. words.
Qed.

Lemma le_value_inj a b : bytes_ok a → bytes_ok b → length a = length b →
  le_value a = le_value b → a = b.
Proof.
  intros Ha. revert b. induction Ha as [|x a Hx Ha IH]; intros [|y b] Hb Hlen H;
    try discriminate; [done|].
  inversion_clear Hb as [|? ? Hy Hb']. simpl in H, Hlen.
  assert (x = y ∧ le_value a = le_value b) as [-> Hv] by words.
  f_equal. apply IH; auto.
Qed.

Lemma lxor_disjoint x y : u8_ok x → 0 ≤ y → Z.lxor x (256 * y) = x + 256 * y.
Proof.
  intros Hx Hy. symmetry. apply Z.add_nocarry_lxor. apply Z.bits_inj'. intros n Hn.
  rewrite Z.land_spec, Z.bits_0. destruct (decide (n < 8)).
  - rewrite Z.mul_comm. change 256 with (2 ^ 8).
    rewrite Z.mul_pow2_bits_low by lia. apply andb_false_r.
  - destruct (decide (x = 0)) as [->|]; [by rewrite Z.bits_0|].
    rewrite Z.bits_above_log2; [done|words|].
    apply Z.log2_lt_pow2; [words|].
    assert (2 ^ 8 ≤ 2 ^ n) by (apply Z.pow_le_mono_r; lia). words.
Qed.

(** Feeding a list of at most four bytes is one iteration over their word. *)
Lemma crc32_fold_word l c : bytes_ok l →
  fold_left crc32_byte l c = Nat.iter (8 * length l) crc32_bit (Z.lxor c (le_value l)).
Proof.
  intros Hl. revert c. induction Hl as [|x l Hx Hl IH]; intros c.
  { simpl. by rewrite Z.lxor_0_r. }
  cbn [fold_left length le_value]. rewrite IH. unfold crc32_byte.
  pose proof (le_value_bound l Hl) as Hv.
  rewrite <- (crc32_iter8_shift (le_value l)) at 1 by lia.
  rewrite <- crc32_iter_lxor, Z.lxor_assoc, lxor_disjoint by (done || lia).
  rewrite <- Nat.iter_add. f_equal. lia.
Qed.

Lemma crc16_byte_eq c x :
  crc16_byte c x = Nat.iter 8 crc16_bit (Z.lxor c (as_u16 (Z.shiftl x 8))).
Proof. reflexivity. Qed.

Lemma crc16_app pre suf :
  crc16_ccitt_false (pre ++ suf) = fold_left crc16_byte suf (crc16_ccitt_false pre).
Proof. apply fold_left_app. Qed.

Lemma crc16_fold_two x y c :
  u8_ok x → u8_ok y → fold_left crc16_byte [x; y] c =
    Nat.iter 16 crc16_bit (Z.lxor c (Z.lxor (as_u16 (Z.shiftl x 8)) y)).
Proof.
  intros Hx Hy. rewrite !fold_left_cons_eq. cbn [fold_left]. rewrite !crc16_byte_eq.
  rewrite <- (crc16_iter8_byte y), <- crc16_iter_lxor, <- Nat.iter_add by done.
  by rewrite Z.lxor_assoc.
Qed.

Lemma shl8_lxor_inj x y x' y' : u8_ok x → u8_ok y → u8_ok x' → u8_ok y' →
  Z.lxor (as_u16 (Z.shiftl x 8)) y = Z.lxor (as_u16 (Z.shiftl x' 8)) y' →
  x = x' ∧ y = y'.
Proof.
  intros Hx Hy Hx' Hy'.
  assert (∀ z, u8_ok z → as_u16 (Z.shiftl z 8) = 256 * z) as Hs.
  { intros z Hz. rewrite Z.shiftl_mul_pow2 by lia.
    unfold as_u16, u8_ok in *. rewrite Z.mod_small by lia. lia. }
  rewrite !Hs, !(Z.lxor_comm (256 * _)), !lxor_disjoint by (done || words). words.
Qed.

Lemma crc16_byte_ok c x : u16_ok c → u16_ok (crc16_byte c x).
Proof.
  intros Hc. unfold crc16_byte. apply iter_step_ok; [intros; apply crc16_bit_ok|].
  apply lxor_u16; [exact Hc|apply as_u16_ok].
Qed.

Lemma crc16_byte_inj c x x' : u16_ok c → u8_ok x → u8_ok x' →
  crc16_byte c x = crc16_byte c x' → x = x'.
Proof.
  intros Hc Hx Hx' H. rewrite !crc16_byte_eq in H.
  assert (∀ z, u16_ok (Z.lxor c (as_u16 (Z.shiftl z 8)))) as Hw
    by (intros z; apply lxor_u16; [exact Hc|apply as_u16_ok]).
  apply (crc16_iter_inj 8 _ _ (Hw _) (Hw _)) in H.
  apply (f_equal (Z.lxor c)) in H.
  rewrite <- !Z.lxor_assoc, !Z.lxor_nilpotent, !Z.lxor_0_l in H.
  rewrite !Z.shiftl_mul_pow2 in H by lia. unfold as_u16 in H.
  rewrite !Z.mod_small in H by words. lia.
Qed.

(** A change confined to two adjacent bytes always changes the CRC-16. *)
Lemma crc16_two_byte_burst pre x y x' y' suf :
  bytes_ok pre → bytes_ok suf → u8_ok x → u8_ok y → u8_ok x' → u8_ok y' →
  crc16_ccitt_false (pre ++ [x; y] ++ suf) = crc16_ccitt_false (pre ++ [x'; y'] ++ suf) →
  x = x' ∧ y = y'.
Proof.
  intros Hp Hs Hx Hy Hx' Hy' H. rewrite !crc16_app, !fold_left_app in H.
  pose proof (crc16_u16 pre Hp) as Hc. set (c := crc16_ccitt_false pre) in *. clearbody c.
  assert (∀ z w, u8_ok z → u8_ok w → u16_ok (fold_left crc16_byte [z; w] c)) as Hf
    by (intros; apply crc16_fold_ok; [done|repeat apply Forall_cons; done]).
  pose proof (crc16_fold_inj suf _ _ (Hf x y Hx Hy) (Hf x' y' Hx' Hy') Hs H) as H2.
  rewrite !crc16_fold_two in H2 by done.
  assert (∀ u v, u8_ok v → u16_ok (Z.lxor c (Z.lxor (as_u16 (Z.shiftl u 8)) v))) as Hw
    by (intros u v Hv; apply lxor_u16; [exact Hc|];
        apply lxor_u16; [apply as_u16_ok|by apply u8_u16]).
  pose proof (crc16_iter_inj 16 _ _ (Hw _ _ Hy) (Hw _ _ Hy') H2) as H3.
  apply (f_equal (Z.lxor c)) in H3.
  rewrite <- !(Z.lxor_assoc c c), !Z.lxor_nilpotent, !Z.lxor_0_l in H3.
  by apply shl8_lxor_inj.
Qed.

Lemma crc16_one_byte pre x x' suf :
  bytes_ok pre → bytes_ok suf → u8_ok x → u8_ok x' →
  crc16_ccitt_false (pre ++ x :: suf) = crc16_ccitt_false (pre ++ x' :: suf) → x = x'.
Proof.
  intros Hp Hs Hx Hx' H. rewrite !crc16_app, !fold_left_cons_eq in H.
  pose proof (crc16_u16 pre Hp) as Hc.
  pose proof (crc16_fold_inj suf _ _ (crc16_byte_ok _ x Hc) (crc16_byte_ok _ x' Hc) Hs H) as Hb.
  by apply crc16_byte_inj with (crc16_ccitt_false pre).
Qed.

Lemma crc32_state_burst c a b suf :
  u32_ok c → bytes_ok a → bytes_ok b → bytes_ok suf → length a = length b →
  (length a ≤ 4)%nat →
  fold_left crc32_byte (a ++ suf) c = fold_left crc32_byte (b ++ suf) c → a = b.
Proof.
  intros Hc Ha Hb Hs Hlen Hle H. rewrite !fold_left_app in H.
  pose proof (crc32_fold_inj suf _ _ (crc32_fold_ok a c Hc Ha) (crc32_fold_ok b c Hc Hb) Hs H)
    as H2.
  rewrite !crc32_fold_word, <- Hlen in H2 by done.
  assert (∀ l, bytes_ok l → (length l ≤ 4)%nat → u32_ok (Z.lxor c (le_value l))) as Hw.
  { intros l Hl Hk. pose proof (le_value_bound l Hl) as Hv. apply lxor_u32; [done|].
    assert (256 ^ Z.of_nat (length l) ≤ 256 ^ 4) by (apply Z.pow_le_mono_r; lia). words. }
  assert (length b ≤ 4)%nat as Hle' by lia.
  pose proof (crc32_iter_inj _ _ _ (Hw a Ha Hle) (Hw b Hb Hle') H2) as H3.
  apply (f_equal (Z.lxor c)) in H3.
  rewrite <- !Z.lxor_assoc, !Z.lxor_nilpotent, !Z.lxor_0_l in H3.
  by apply le_value_inj.
Qed.

Lemma crc32_ieee_eq l :
  crc32_ieee l = Z.lxor (fold_left crc32_byte l 0xffffffff) 0xffffffff.
Proof. reflexivity. Qed.

#[global] Opaque crc16_bit crc32_bit crc16_ccitt_false crc32_ieee.

(** CRC-32 detects every burst of up to four bytes: two messages that differ only
    inside a window of at most 32 bits, and do differ there, have different
    checksums, whatever comes before and after the window. *)
Theorem crc32_detects_burst pre a b suf :
  bytes_ok pre → bytes_ok a → bytes_ok b → bytes_ok suf →
  length a = length b → (length a ≤ 4)%nat →
  crc32_ieee (pre ++ a ++ suf) = crc32_ieee (pre ++ b ++ suf) → a = b.
Proof.
  intros Hp Ha Hb Hs Hl H4 H.
  apply (crc32_state_burst (fold_left crc32_byte pre 0xffffffff) a b suf); auto.
  - apply crc32_fold_ok; [words|done].
  - rewrite <- !fold_left_app.
    apply (f_equal (λ x, Z.lxor x 0xffffffff)) in H.
    rewrite !crc32_ieee_eq, !Z.lxor_assoc, !Z.lxor_nilpotent, !Z.lxor_0_r in H. exact H.
Qed.

Lemma crc32_detects_burst_witness :
  crc32_ieee ([1] ++ [2; 3] ++ [4]) ≠ crc32_ieee ([1] ++ [2; 4] ++ [4]).
Proof.
  intros H. assert ([2; 3] = [2; 4]) as Habs; [|discriminate Habs].
  apply (crc32_detects_burst [1] [2; 3] [2; 4] [4]); try exact H;
    try reflexivity; try (repeat constructor; words).
Defined.
