(* ===== verification/Cell.v ===== *)
(** * SPI cells ([src/src/interchip/cell.rs])

    The fixed 128-byte transaction of the inter-chip link: a 16-byte header, 110
    bytes of records and a CRC-16. *)

From S2P Require Import Prelude Checksum.

Definition SPI_CELL_LEN : nat := 128.
Definition SPI_CELL_HEADER_LEN : nat := 16.
Definition SPI_CELL_PAYLOAD_LEN : nat := 110.
Definition SPI_CELL_MAGIC : Z := 0x4853.
Definition SPI_PROTOCOL_VERSION : Z := 1.

Record SpiCellHeader := mkSpiCellHeader {
  magic : Z;
  version : Z;
  cell_flags : Z;
  session_id : Z;
  tx_sequence : Z;
  cumulative_ack : Z;
  payload_len : Z;
  record_count : Z;
  receive_window : Z
}.
#[export] Instance eta_SpiCellHeader : Eta SpiCellHeader := λ h,
  mkSpiCellHeader (magic h) (version h) (cell_flags h) (session_id h) (tx_sequence h)
    (cumulative_ack h) (payload_len h) (record_count h) (receive_window h).
#[export] Instance SpiCellHeader_eq_dec : EqDecision SpiCellHeader.
Proof. solve_decision. Defined.

Definition SpiCellHeader_new (session : Z) : SpiCellHeader :=
  {| magic := SPI_CELL_MAGIC;
     version := SPI_PROTOCOL_VERSION;
     cell_flags := 0;
     session_id := session;
     tx_sequence := 0;
     cumulative_ack := 0;
     payload_len := 0;
     record_count := 0;
     receive_window := 4 |}.

Record SpiCell := mkSpiCell {
  header : SpiCellHeader;
  cell_payload : list Z
}.
#[export] Instance eta_SpiCell : Eta SpiCell := λ c, mkSpiCell (header c) (cell_payload c).
#[export] Instance SpiCell_eq_dec : EqDecision SpiCell.
Proof. solve_decision. Defined.

Definition SpiCell_empty (session : Z) : SpiCell :=
  {| header := SpiCellHeader_new session;
     cell_payload := zeros SPI_CELL_PAYLOAD_LEN |}.

Inductive SpiCellError :=
| InvalidMagic
| UnsupportedVersion
| PayloadTooLong
| SequenceZeroHasPayload
| NonZeroTrailingBytes
| CrcMismatch.
#[export] Instance SpiCellError_eq_dec : EqDecision SpiCellError.
Proof. solve_decision. Defined.

Definition SpiCell_encode (self : SpiCell) : Result SpiCellError (list Z) :=
  let h := header self in
  let len := Z.to_nat (payload_len h) in
  if decide (len > SPI_CELL_PAYLOAD_LEN)%nat then Err PayloadTooLong
  else if decide (tx_sequence h = 0 ∧ (len ≠ 0%nat ∨ record_count h ≠ 0))
  then Err SequenceZeroHasPayload
  else
    let bytes := zeros SPI_CELL_LEN in
    let bytes := blit 0 (u16_to_le_bytes (magic h)) bytes in
    let bytes := blit 2 [version h] bytes in
    let bytes := blit 3 [cell_flags h] bytes in
    let bytes := blit 4 (u32_to_le_bytes (session_id h)) bytes in
    let bytes := blit 8 (u16_to_le_bytes (tx_sequence h)) bytes in
    let bytes := blit 10 (u16_to_le_bytes (cumulative_ack h)) bytes in
    let bytes := blit 12 (u16_to_le_bytes (payload_len h)) bytes in
    let bytes := blit 14 [record_count h] bytes in
    let bytes := blit 15 [receive_window h] bytes in
    let bytes := blit SPI_CELL_HEADER_LEN (take len (cell_payload self)) bytes in
    let crc := crc16_ccitt_false (take (SPI_CELL_LEN - 2) bytes) in
    Ok (blit (SPI_CELL_LEN - 2) (u16_to_le_bytes crc) bytes).

(** The header literal of [decode]. *)
Definition decode_header (bytes : list Z) : SpiCellHeader :=
  {| magic := u16_from_le_bytes (byte_at bytes 0) (byte_at bytes 1);
     version := byte_at bytes 2;
     cell_flags := byte_at bytes 3;
     session_id := u32_from_le_bytes (byte_at bytes 4) (byte_at bytes 5)
                     (byte_at bytes 6) (byte_at bytes 7);
     tx_sequence := u16_from_le_bytes (byte_at bytes 8) (byte_at bytes 9);
     cumulative_ack := u16_from_le_bytes (byte_at bytes 10) (byte_at bytes 11);
     payload_len := u16_from_le_bytes (byte_at bytes 12) (byte_at bytes 13);
     record_count := byte_at bytes 14;
     receive_window := byte_at bytes 15 |}.

Definition SpiCell_decode (bytes : list Z) : Result SpiCellError SpiCell :=
  let expected := u16_from_le_bytes (byte_at bytes (SPI_CELL_LEN - 2))
                    (byte_at bytes (SPI_CELL_LEN - 1)) in
  if decide (crc16_ccitt_false (take (SPI_CELL_LEN - 2) bytes) ≠ expected)
  then Err CrcMismatch
  else
    let h := decode_header bytes in
    if decide (magic h ≠ SPI_CELL_MAGIC) then Err InvalidMagic
    else if decide (version h ≠ SPI_PROTOCOL_VERSION) then Err UnsupportedVersion
    else
      let len := Z.to_nat (payload_len h) in
      if decide (len > SPI_CELL_PAYLOAD_LEN)%nat then Err PayloadTooLong
      else if decide (tx_sequence h = 0 ∧ (len ≠ 0%nat ∨ record_count h ≠ 0))
      then Err SequenceZeroHasPayload
      else if decide (Exists (λ b, b ≠ 0)
             (slice (SPI_CELL_HEADER_LEN + len) (SPI_CELL_LEN - 2) bytes))
      then Err NonZeroTrailingBytes
      else Ok {| header := h;
                 cell_payload :=
                   blit 0 (slice SPI_CELL_HEADER_LEN (SPI_CELL_HEADER_LEN + len) bytes)
                     (zeros SPI_CELL_PAYLOAD_LEN) |}.

(** [SpiCell::payload]: the used prefix. *)
Definition SpiCell_payload (self : SpiCell) : list Z :=
  take (Z.to_nat (payload_len (header self))) (cell_payload self).

(** ** Well-formed cells: every field in range of its type *)

Record header_ok (h : SpiCellHeader) : Prop := {
  ok_magic : u16_ok (magic h);
  ok_version : u8_ok (version h);
  ok_flags : u8_ok (cell_flags h);
  ok_session : u32_ok (session_id h);
  ok_sequence : u16_ok (tx_sequence h);
  ok_ack : u16_ok (cumulative_ack h);
  ok_len : u16_ok (payload_len h);
  ok_count : u8_ok (record_count h);
  ok_window : u8_ok (receive_window h)
}.

Record cell_ok (c : SpiCell) : Prop := {
  cell_header_ok : header_ok (header c);
  cell_payload_ok : bytes_ok (cell_payload c);
  cell_payload_length : length (cell_payload c) = SPI_CELL_PAYLOAD_LEN
}.

(** The checks [encode] makes. *)
Definition cell_sendable (c : SpiCell) : Prop :=
  payload_len (header c) ≤ 110 ∧
  (tx_sequence (header c) = 0 → payload_len (header c) = 0 ∧ record_count (header c) = 0).

(** A cell whose unused payload bytes are zero, as [empty] and [queue] build it. *)
Definition cell_canonical (c : SpiCell) : Prop :=
  cell_payload c = SpiCell_payload c ++
    zeros (SPI_CELL_PAYLOAD_LEN - Z.to_nat (payload_len (header c))).

Lemma SpiCell_empty_ok s : u32_ok s → cell_ok (SpiCell_empty s).
Proof. intros Hs. split; [split; simpl; done|apply bytes_ok_zeros|done]. Qed.

(** ** The wire image *)

Definition header_bytes (h : SpiCellHeader) : list Z :=
  u16_to_le_bytes (magic h) ++ [version h; cell_flags h] ++
  u32_to_le_bytes (session_id h) ++ u16_to_le_bytes (tx_sequence h) ++
  u16_to_le_bytes (cumulative_ack h) ++ u16_to_le_bytes (payload_len h) ++
  [record_count h; receive_window h].

(** The 126 bytes the CRC covers. *)
Definition cell_body (h : SpiCellHeader) (used : list Z) : list Z :=
  header_bytes h ++ used ++ zeros (SPI_CELL_PAYLOAD_LEN - length used).

Lemma header_bytes_ok h : header_ok h → bytes_ok (header_bytes h).
Proof.
  intros []. unfold header_bytes.
  repeat (apply bytes_ok_app; split); auto with hid; by repeat apply Forall_cons.
Qed.

Lemma length_cell_body h used : (length used ≤ SPI_CELL_PAYLOAD_LEN)%nat →
  length (cell_body h used) = (SPI_CELL_LEN - 2)%nat.
Proof.
  intros H. unfold cell_body. rewrite !length_app, length_zeros.
  unfold SPI_CELL_PAYLOAD_LEN, SPI_CELL_LEN in *. simpl length at 1. lia.
Qed.

Lemma length_used c : cell_ok c → payload_len (header c) ≤ 110 →
  length (SpiCell_payload c) = Z.to_nat (payload_len (header c)).
Proof.
  intros [Hh _ Hl] Hle. unfold SpiCell_payload. rewrite length_take, Hl.
  unfold SPI_CELL_PAYLOAD_LEN. lia.
Qed.

(** The nine header stores and the payload copy build the body in front of two
    zero bytes. *)
Lemma encode_stores h used : (length used ≤ SPI_CELL_PAYLOAD_LEN)%nat →
  blit SPI_CELL_HEADER_LEN used
    (blit 15 [receive_window h] (blit 14 [record_count h]
    (blit 12 (u16_to_le_bytes (payload_len h)) (blit 10 (u16_to_le_bytes (cumulative_ack h))
    (blit 8 (u16_to_le_bytes (tx_sequence h)) (blit 4 (u32_to_le_bytes (session_id h))
    (blit 3 [cell_flags h] (blit 2 [version h] (blit 0 (u16_to_le_bytes (magic h))
      (zeros SPI_CELL_LEN)))))))))) = cell_body h used ++ zeros 2.
Proof.
  intros Hl. etrans.
  { apply (f_equal (blit SPI_CELL_HEADER_LEN used)). instantiate (1 := header_bytes h ++ zeros 112).
    reflexivity. }
  rewrite blit_app by done. unfold SPI_CELL_PAYLOAD_LEN in Hl.
  rewrite blit_zeros by lia. unfold cell_body, zeros, SPI_CELL_PAYLOAD_LEN.
  rewrite <- !app_assoc, <- replicate_add. do 4 f_equal. lia.
Qed.

Lemma encode_spec c : cell_ok c → cell_sendable c →
  let body := cell_body (header c) (SpiCell_payload c) in
  SpiCell_encode c = Ok (body ++ u16_to_le_bytes (crc16_ccitt_false body)).
Proof.
  intros Hc [Hle Hz] body. pose proof (length_used c Hc Hle) as Hlen.
  destruct Hc as [Hh Hp Hl]. destruct Hh.
  assert (length (SpiCell_payload c) ≤ SPI_CELL_PAYLOAD_LEN)%nat as Hu
    by (unfold SPI_CELL_PAYLOAD_LEN; lia).
  unfold SpiCell_encode.
  rewrite decide_False by (unfold SPI_CELL_PAYLOAD_LEN; lia).
  rewrite decide_False by (unfold u16_ok in *; lia).
  cbv zeta. fold (SpiCell_payload c). rewrite encode_stores by done.
  fold body. assert (length body = SPI_CELL_LEN - 2)%nat as Hb by by apply length_cell_body.
  rewrite <- Hb at 2. rewrite take_app_length.
  rewrite blit_app by done. rewrite blit_all; done.
Qed.

(** Decoding a body followed by its CRC inspects the header alone. *)
Definition decode_checks (h : SpiCellHeader) (used : list Z) : Result SpiCellError SpiCell :=
  if decide (magic h ≠ SPI_CELL_MAGIC) then Err InvalidMagic
  else if decide (version h ≠ SPI_PROTOCOL_VERSION) then Err UnsupportedVersion
  else Ok {| header := h;
             cell_payload := used ++ zeros (SPI_CELL_PAYLOAD_LEN - length used) |}.

Lemma decode_header_bytes h rest : header_ok h → decode_header (header_bytes h ++ rest) = h.
Proof.
  intros []. destruct h; simpl in *. unfold decode_header, byte_at. cbn.
  f_equal; by (apply u16_from_to_le || apply u32_from_to_le).
Qed.

Lemma byte_at_app_r a b i : byte_at (a ++ b) (length a + i) = byte_at b i.
Proof. unfold byte_at. rewrite app_nth2_plus. done. Qed.

Lemma decode_body h used : header_ok h → bytes_ok used →
  Z.of_nat (length used) = payload_len h → payload_len h ≤ 110 →
  (tx_sequence h = 0 → payload_len h = 0 ∧ record_count h = 0) →
  let body := cell_body h used in
  SpiCell_decode (body ++ u16_to_le_bytes (crc16_ccitt_false body)) = decode_checks h used.
Proof.
  intros Hh Hu Hl Hle Hz body. unfold SpiCell_decode, decode_checks.
  assert (length used ≤ SPI_CELL_PAYLOAD_LEN)%nat as Hcap
    by (unfold SPI_CELL_PAYLOAD_LEN; lia).
  assert (length body = SPI_CELL_LEN - 2)%nat as Hb by by apply length_cell_body.
  assert (bytes_ok body) as Hbo.
  { unfold body, cell_body. rewrite !bytes_ok_app. auto using header_bytes_ok, bytes_ok_zeros. }
  set (bytes := body ++ _).
  assert (take (SPI_CELL_LEN - 2) bytes = body) as ->
    by (rewrite <- Hb; apply take_app_length).
  assert (u16_from_le_bytes (byte_at bytes (SPI_CELL_LEN - 2))
    (byte_at bytes (SPI_CELL_LEN - 1)) = crc16_ccitt_false body) as ->.
  { change (SPI_CELL_LEN - 1)%nat with ((SPI_CELL_LEN - 2) + 1)%nat.
    replace (SPI_CELL_LEN - 2)%nat with ((SPI_CELL_LEN - 2) + 0)%nat at 1 by done.
    rewrite <- Hb. unfold bytes. rewrite !byte_at_app_r.
    by apply u16_from_to_le, crc16_u16. }
  rewrite decide_False by (intros Hn; by apply Hn).
  assert (decode_header bytes = h) as ->.
  { unfold bytes, body, cell_body. rewrite <- app_assoc. by apply decode_header_bytes. }
  cbv zeta.
  case_decide; [done|]. case_decide; [done|].
  replace (Z.to_nat (payload_len h)) with (length used) by lia.
  rewrite decide_False by lia. rewrite decide_False by (destruct Hh; words).
  unfold bytes, body, cell_body. rewrite <- !app_assoc.
  set (crc := u16_to_le_bytes _).
  change SPI_CELL_HEADER_LEN with (length (header_bytes h)).
  rewrite decide_False.
  - do 2 f_equal. rewrite slice_app_mid by done. rewrite blit_zeros; done.
  - rewrite app_assoc. rewrite slice_app_mid.
    + unfold zeros. intros [b [Hin Hne]]%Exists_exists.
      by apply list_elem_of_In, elem_of_replicate in Hin as [-> _].
    + by rewrite length_app.
    + rewrite length_app, length_zeros. unfold SPI_CELL_PAYLOAD_LEN, SPI_CELL_LEN in *.
      simpl length at 1. lia.
Qed.

(** ** Properties *)

(** A cell the firmware can put on the wire: what [empty] and [queue] build. *)
Definition cell_wire (c : SpiCell) : Prop :=
  cell_ok c ∧ cell_sendable c ∧ cell_canonical c ∧
  magic (header c) = SPI_CELL_MAGIC ∧ version (header c) = SPI_PROTOCOL_VERSION.

Lemma cell_wire_roundtrip c : cell_wire c →
  ∃ b, SpiCell_encode c = Ok b ∧ length b = SPI_CELL_LEN ∧ bytes_ok b ∧
       SpiCell_decode b = Ok c.
Proof.
  intros (Hc & Hs & Hcan & Hm & Hv). pose proof (length_used c Hc (proj1 Hs)) as Hlen.
  assert (length (SpiCell_payload c) ≤ SPI_CELL_PAYLOAD_LEN)%nat as Hcap
    by (destruct Hs; unfold SPI_CELL_PAYLOAD_LEN; lia).
  assert (bytes_ok (SpiCell_payload c)) as Hu by (apply bytes_ok_take; by destruct Hc).
  eexists. split; [by apply encode_spec|]. split; [|split].
  - rewrite length_app, length_cell_body by done. done.
  - apply bytes_ok_app. split; [|apply u16_to_le_bytes_ok].
    unfold cell_body. rewrite !bytes_ok_app.
    split; [by apply header_bytes_ok; destruct Hc|]. split; [done|apply bytes_ok_zeros].
  - destruct Hc as [Hh Hp Hl], Hs as [Hle Hz].
    rewrite decode_body; [|done|done| |done|done].
    + unfold decode_checks. rewrite decide_False by (intros Hn; by apply Hn).
      rewrite decide_False by (intros Hn; by apply Hn). f_equal. destruct c as [h p].
      simpl in *. f_equal. by rewrite Hlen.
    + rewrite Hlen. rewrite Z2Nat.id; [done|]. destruct Hh. words.
Qed.

(** The CRC field [decode] compares with. *)
Definition crc_field (b : list Z) : Z :=
  u16_from_le_bytes (byte_at b (SPI_CELL_LEN - 2)) (byte_at b (SPI_CELL_LEN - 1)).

Definition crc_valid (b : list Z) : Prop :=
  crc16_ccitt_false (take (SPI_CELL_LEN - 2) b) = crc_field b.

Lemma decode_crc_mismatch b : ¬ crc_valid b → SpiCell_decode b = Err CrcMismatch.
Proof. intros H. unfold SpiCell_decode. by rewrite decide_True. Qed.

Lemma decode_crc_valid b e : SpiCell_decode b = e → e ≠ Err CrcMismatch → crc_valid b.
Proof.
  intros <- H. unfold SpiCell_decode in H. by case_decide as Hc.
Qed.

Lemma decode_header_ok b : bytes_ok b → header_ok (decode_header b).
Proof. intros Hb. split; simpl; auto with hid. Qed.

Lemma header_bytes_decode b : (16 ≤ length b)%nat → bytes_ok b →
  header_bytes (decode_header b) = take SPI_CELL_HEADER_LEN b.
Proof.
  intros Hl Hb.
  assert (length (take 16 b) = 16%nat) as Ht by (rewrite length_take; lia).
  assert (b = take 16 b ++ drop 16 b) as Hs by by rewrite take_drop.
  change SPI_CELL_HEADER_LEN with 16%nat.
  apply (bytes_ok_take 16) in Hb. revert Hs Ht Hb. generalize (take 16 b), (drop 16 b).
  intros l r -> Hlen Hb. explode l Hlen.
  unfold bytes_ok in Hb. repeat (apply List.Forall_cons_iff in Hb as [? Hb]).
  unfold header_bytes, decode_header, byte_at. cbn [nth app magic version cell_flags
    session_id tx_sequence cumulative_ack payload_len record_count receive_window].
  by rewrite !u16_to_from_le, u32_to_from_le by done.
Qed.

Lemma crc_field_bytes b : length b = SPI_CELL_LEN → bytes_ok b →
  u16_to_le_bytes (crc_field b) = drop (SPI_CELL_LEN - 2) b.
Proof.
  intros Hl Hb. unfold crc_field. rewrite u16_to_from_le by auto with hid.
  assert (length (drop (SPI_CELL_LEN - 2) b) = 2%nat) as Hd by (rewrite length_drop, Hl; done).
  assert (∀ i, nth i (drop (SPI_CELL_LEN - 2) b) 0 = byte_at b (126 + i)) as Hn.
  { intros i. unfold byte_at. by rewrite !nth_lookup, lookup_drop. }
  pose proof (Hn 0%nat) as H0. pose proof (Hn 1%nat) as H1.
  destruct (drop _ b) as [|x [|y []]]; try discriminate.
  simpl in H0, H1. by rewrite H0, H1.
Qed.

Lemma all_zero_zeros l : ¬ Exists (λ b, b ≠ 0) l → l = zeros (length l).
Proof.
  induction l as [|x l IH]; intros H; [done|].
  unfold zeros in *. cbn [length replicate]. f_equal.
  - destruct (decide (x = 0)) as [|Hne]; [done|]. destruct H. by apply Exists_cons_hd.
  - apply IH. intros He. destruct H. by apply Exists_cons_tl.
Qed.

Lemma decode_Ok_inv b c : SpiCell_decode b = Ok c →
  let h := decode_header b in
  let len := Z.to_nat (payload_len h) in
  crc_valid b ∧ magic h = SPI_CELL_MAGIC ∧ version h = SPI_PROTOCOL_VERSION ∧
  (len ≤ SPI_CELL_PAYLOAD_LEN)%nat ∧
  (tx_sequence h = 0 → len = 0%nat ∧ record_count h = 0) ∧
  ¬ Exists (λ b, b ≠ 0) (slice (SPI_CELL_HEADER_LEN + len) (SPI_CELL_LEN - 2) b) ∧
  c = mkSpiCell h (blit 0 (slice SPI_CELL_HEADER_LEN (SPI_CELL_HEADER_LEN + len) b)
                     (zeros SPI_CELL_PAYLOAD_LEN)).
Proof.
  intros H h len. unfold SpiCell_decode in H.
  fold h in H. cbv zeta in H. fold len in H.
  repeat (case_decide; [discriminate H|]).
  injection H as <-. repeat split; auto; lia.
Qed.

Lemma decode_inv b c : length b = SPI_CELL_LEN → bytes_ok b → SpiCell_decode b = Ok c →
  cell_wire c ∧ SpiCell_encode c = Ok b.
Proof.
  intros Hlb Hb H. apply decode_Ok_inv in H as (Hcrc & Hm & Hv & Hle & Hz & Hzero & Hc).
  set (h := decode_header b) in *. set (len := Z.to_nat (payload_len h)) in *.
  set (used := slice SPI_CELL_HEADER_LEN (SPI_CELL_HEADER_LEN + len) b) in *.
  unfold SPI_CELL_PAYLOAD_LEN, SPI_CELL_LEN, SPI_CELL_HEADER_LEN in *.
  pose proof (decode_header_ok b Hb) as Hh. fold h in Hh.
  assert (length used = len) as Hul by (unfold used; rewrite length_slice; lia).
  rewrite blit_zeros in Hc by lia.
  assert (SpiCell_payload c = used) as Hpay.
  { subst c. unfold SpiCell_payload. cbn [header cell_payload]. fold len. rewrite <- Hul. apply take_app_length. }
  assert (0 ≤ payload_len h) as Hpos by (destruct Hh; words).
  assert (cell_ok c) as Hok.
  { subst c. split; cbn [header cell_payload]; [done| |].
    - apply bytes_ok_app. unfold used. auto with hid.
    - rewrite length_app, length_zeros. unfold SPI_CELL_PAYLOAD_LEN. lia. }
  assert (cell_sendable c) as Hs.
  { subst c. split; cbn [header cell_payload]; [lia|]. intros Hseq. destruct (Hz Hseq). lia. }
  split.
  - split; [done|]. split; [done|]. split; [|by subst c].
    unfold cell_canonical. rewrite Hpay. subst c. cbn [header cell_payload]. unfold SPI_CELL_PAYLOAD_LEN.
    fold len. by rewrite Hul.
  - rewrite encode_spec by done. rewrite Hpay. f_equal.
    assert (header c = h) as -> by by subst c.
    assert (cell_body h used = take (SPI_CELL_LEN - 2) b) as Hbody.
    { unfold cell_body, h. rewrite header_bytes_decode by (done || lia).
      apply all_zero_zeros in Hzero. rewrite length_slice in Hzero by lia.
      rewrite Hul. unfold SPI_CELL_PAYLOAD_LEN, SPI_CELL_LEN, SPI_CELL_HEADER_LEN.
      replace (110 - len)%nat with (128 - 2 - (16 + len))%nat by lia.
      rewrite <- Hzero, <- !slice_0. unfold used.
      rewrite !slice_split by lia. done. }
    rewrite Hbody. unfold crc_valid in Hcrc. rewrite Hcrc, crc_field_bytes by done.
    by rewrite take_drop.
Qed.

(** ** Corruption *)

Lemma crc_valid_app body l h : length body = 126%nat →
  crc_valid (body ++ [l; h]) ↔ crc16_ccitt_false body = u16_from_le_bytes l h.
Proof.
  intros Hl. unfold crc_valid, crc_field. change (SPI_CELL_LEN - 2)%nat with 126%nat.
  change (SPI_CELL_LEN - 1)%nat with 127%nat.
  rewrite <- Hl at 1. rewrite take_app_length. unfold byte_at.
  rewrite !app_nth2 by lia. by rewrite Hl.
Qed.

Lemma cell_split (b : list Z) : length b = SPI_CELL_LEN →
  ∃ body l h, b = body ++ [l; h] ∧ length body = 126%nat.
Proof.
  intros H. exists (take 126 b).
  assert (length (drop 126 b) = 2%nat) as Hd by (rewrite length_drop, H; done).
  destruct (drop 126 b) as [|l [|h []]] eqn:E; try discriminate.
  exists l, h. split; [by rewrite <- E, take_drop|]. rewrite length_take, H. done.
Qed.

Lemma insert_split {A} (l : list A) i x : (i < length l)%nat →
  ∃ pre old suf, l = pre ++ old :: suf ∧ length pre = i ∧ <[i:=x]> l = pre ++ x :: suf.
Proof.
  intros Hi. destruct (lookup_lt_is_Some_2 l i Hi) as [old Hold].
  exists (take i l), old, (drop (S i) l). split; [by rewrite take_drop_middle|].
  split; [rewrite length_take; lia|].
  by rewrite insert_take_drop.
Qed.

Lemma bytes_ok_mid a x b : bytes_ok (a ++ x :: b) ↔ bytes_ok a ∧ u8_ok x ∧ bytes_ok b.
Proof. rewrite bytes_ok_app. unfold bytes_ok. rewrite List.Forall_cons_iff. tauto. Qed.

(** Changing one byte, the CRC field included, breaks a valid CRC. *)
Lemma crc_invalid_one b i x : length b = SPI_CELL_LEN → bytes_ok b → crc_valid b →
  (i < SPI_CELL_LEN)%nat → u8_ok x → byte_at b i ≠ x → ¬ crc_valid (<[i:=x]> b).
Proof.
  intros Hl Hb Hv Hi Hx Hne Hv'. destruct (cell_split b Hl) as (body & l & h & -> & Hlb).
  apply bytes_ok_app in Hb as [Hbody Hlh]. unfold bytes_ok in Hlh.
  apply List.Forall_cons_iff in Hlh as [Hl8 Hlh].
  apply List.Forall_cons_iff in Hlh as [Hh8 _].
  apply (crc_valid_app _ _ _ Hlb) in Hv.
  destruct (decide (i < 126)%nat).
  - rewrite insert_app_l in Hv' by lia.
    assert (length (<[i:=x]> body) = 126%nat) as Hli by by rewrite length_insert.
    apply (crc_valid_app _ _ _ Hli) in Hv'. clear Hli.
    destruct (insert_split body i x) as (pre & old & suf & -> & Hpre & Hins); [lia|].
    rewrite Hins, <- Hv in Hv'. apply bytes_ok_mid in Hbody as (Hp & Ho & Hs).
    apply crc16_one_byte in Hv'; [|done..].
    apply Hne. unfold byte_at. rewrite <- app_assoc, app_nth2, Hpre, Nat.sub_diag by lia.
    by rewrite Hv'.
  - rewrite insert_app_r_alt in Hv' by lia.
    unfold byte_at in Hne. rewrite app_nth2 in Hne by lia.
    rewrite Hlb in *. unfold SPI_CELL_LEN in Hi.
    destruct (decide (i = 126%nat)) as [->|]; [|replace i with 127%nat in * by lia];
      simpl in Hv', Hne; apply (crc_valid_app _ _ _ Hlb) in Hv'; apply Hne;
      unfold u16_from_le_bytes in *; lia.
Qed.

(** Changing two adjacent bytes of the body breaks a valid CRC. *)
Lemma crc_invalid_two b i x y : length b = SPI_CELL_LEN → bytes_ok b → crc_valid b →
  (S i < SPI_CELL_LEN - 2)%nat → u8_ok x → u8_ok y →
  (byte_at b i ≠ x ∨ byte_at b (S i) ≠ y) → ¬ crc_valid (<[i:=x]> (<[S i:=y]> b)).
Proof.
  intros Hl Hb Hv Hi Hx Hy Hne Hv'. destruct (cell_split b Hl) as (body & l & h & -> & Hlb).
  apply bytes_ok_app in Hb as [Hbody _]. change (SPI_CELL_LEN - 2)%nat with 126%nat in Hi.
  apply (crc_valid_app _ _ _ Hlb) in Hv.
  rewrite (insert_app_l body), (insert_app_l (<[S i:=y]> body)) in Hv'
    by (rewrite ?length_insert; lia).
  assert (length (<[i:=x]> (<[S i:=y]> body)) = 126%nat) as Hli by by rewrite !length_insert.
  apply (crc_valid_app _ _ _ Hli) in Hv'. clear Hli.
  destruct (insert_split body i x) as (pre & ox & suf & -> & Hpre & _); [lia|].
  rewrite length_app in Hlb. cbn [length] in Hlb.
  destruct suf as [|oy suf]; [simpl in Hlb; lia|].
  replace (S i) with (length pre + 1)%nat in * by lia.
  replace i with (length pre + 0)%nat in * by lia.
  assert (<[(length pre + 0)%nat:=x]> (<[(length pre + 1)%nat:=y]> (pre ++ ox :: oy :: suf))
    = pre ++ [x; y] ++ suf) as Hins by by rewrite !insert_app_r.
  rewrite Hins, <- Hv in Hv'.
  apply bytes_ok_mid in Hbody as (Hp & Ho & Hs). apply List.Forall_cons_iff in Hs as [Hoy Hs].
  destruct (crc16_two_byte_burst pre x y ox oy suf Hp Hs Hx Hy Ho Hoy Hv') as [-> ->].
  unfold byte_at in Hne. rewrite <- app_assoc in Hne. rewrite !app_nth2_plus in Hne.
  simpl in Hne. tauto.
Qed.

(** A damaged cell is refused before any of its records is looked at: one wrong
    byte anywhere in the 128 bytes, or any change of two adjacent covered bytes,
    makes [decode] answer [CrcMismatch]. *)
Theorem cell_corruption_detected b c i x y :
  length b = SPI_CELL_LEN → bytes_ok b → SpiCell_decode b = Ok c →
  u8_ok x → u8_ok y →
  ((i < SPI_CELL_LEN)%nat → byte_at b i ≠ x →
     SpiCell_decode (<[i:=x]> b) = Err CrcMismatch) ∧
  ((S i < SPI_CELL_LEN - 2)%nat → byte_at b i ≠ x ∨ byte_at b (S i) ≠ y →
     SpiCell_decode (<[i:=x]> (<[S i:=y]> b)) = Err CrcMismatch).
Proof.
  intros Hl Hb Hd Hx Hy.
  assert (crc_valid b) as Hv by by eapply decode_crc_valid.
  split; intros; apply decode_crc_mismatch; eauto using crc_invalid_one, crc_invalid_two.
Qed.

Lemma cell_corruption_detected_witness :
  match SpiCell_encode (SpiCell_empty 7) with
  | Ok b => SpiCell_decode (<[20%nat := 1]> b) = Err CrcMismatch
  | Err _ => False
  end.
Proof.
  destruct (SpiCell_encode (SpiCell_empty 7)) as [b|e] eqn:E; vm_compute in E; [|discriminate E].
  injection E as <-.
  refine (proj1 (cell_corruption_detected _ (SpiCell_empty 7) 20 1 0 _ _ _ _ _) _ _);
    try (vm_compute; reflexivity); try (apply (bool_decide_unpack _); vm_compute; exact I).
Defined.

(** C9: the cell codec is a bijection between the cells a sender may emit and the
    128-byte images [decode] accepts: every such cell is encoded and read back
    unchanged, and an accepted image is the encoding of the cell it was read as, so
    no two images are read as one cell. *)
Theorem cell_codec_bijection :
  (∀ c, cell_wire c → ∃ b, SpiCell_encode c = Ok b ∧ length b = SPI_CELL_LEN ∧
     bytes_ok b ∧ SpiCell_decode b = Ok c) ∧
  (∀ b c, length b = SPI_CELL_LEN → bytes_ok b → SpiCell_decode b = Ok c →
     cell_wire c ∧ SpiCell_encode c = Ok b).
Proof. split; [apply cell_wire_roundtrip|apply decode_inv]. Qed.

Lemma cell_codec_bijection_witness :
  ∃ b, SpiCell_encode (SpiCell_empty 9) = Ok b ∧ SpiCell_decode b = Ok (SpiCell_empty 9).
Proof.
  destruct (proj1 cell_codec_bijection (SpiCell_empty 9)) as (b & He & _ & _ & Hd).
  - repeat split; try (vm_compute; reflexivity);
      try (apply (bool_decide_unpack _); vm_compute; exact I); vm_compute; discriminate.
  - exists b. split; assumption.
Defined.
