(* ===== verification/Records.v ===== *)
(** * Records inside a cell ([src/src/interchip/record.rs])

    A cell's payload is a sequence of type-length-value records, each padded to
    four bytes.  [encode_records] writes them, [RecordIter] reads them back. *)

From S2P Require Import Prelude Cell.

Definition RECORD_HEADER_LEN : nat := 4.

(** [Record] and [RecordRef], which have the same fields. *)
Record WireRecord := mkWireRecord {
  record_type : Z;
  record_flags : Z;
  record_data : list Z
}.
#[export] Instance WireRecord_eq_dec : EqDecision WireRecord.
Proof. solve_decision. Defined.

Inductive RecordCodecError :=
| TooManyRecords
| RecordTooLong
| PayloadCapacity
| MalformedRecord
| NonZeroPadding
| RecordCountMismatch.
#[export] Instance RecordCodecError_eq_dec : EqDecision RecordCodecError.
Proof. solve_decision. Defined.

Definition align4 (value : nat) : option nat :=
  if decide (Z.of_nat value + 3 ≤ USIZE_MAX)
  then Some (Z.to_nat (Z.land (Z.of_nat value + 3) (Z.lnot 3)))
  else None.

(** The [for record in records] loop: the buffer it leaves and the final offset. *)
Fixpoint encode_records_loop (records : list WireRecord) (out : list Z) (offset : nat)
  : list Z * Result RecordCodecError nat :=
  match records with
  | [] => (out, Ok offset)
  | r :: records =>
      let len := length (record_data r) in
      if decide (Z.of_nat len > U16_MAX) then (out, Err RecordTooLong)
      else
        match align4 (RECORD_HEADER_LEN + len) with
        | None => (out, Err RecordTooLong)
        | Some padded_len =>
            if decide (offset + padded_len > length out)%nat
            then (out, Err PayloadCapacity)
            else
              let out := blit offset [record_type r] out in
              let out := blit (offset + 1) [record_flags r] out in
              let out := blit (offset + 2) (u16_to_le_bytes (Z.of_nat len)) out in
              let out := blit (offset + 4) (record_data r) out in
              encode_records_loop records out (offset + padded_len)
        end
  end.

(** [encode_records(records, &mut out)]: the buffer and [(length, count)]. *)
Definition encode_records (records : list WireRecord) (out : list Z)
  : list Z * Result RecordCodecError (Z * Z) :=
  if decide (Z.of_nat (length records) > U8_MAX) then (out, Err TooManyRecords)
  else
    let out := zeros (length out) in
    match encode_records_loop records out 0 with
    | (out, Ok offset) =>
        (out, Ok (as_u16 (Z.of_nat offset), as_u8 (Z.of_nat (length records))))
    | (out, Err e) => (out, Err e)
    end.

Record RecordIter := mkRecordIter {
  iter_bytes : list Z;
  iter_offset : nat;
  iter_remaining : Z;
  iter_failed : bool
}.
#[export] Instance eta_RecordIter : Eta RecordIter := λ i,
  mkRecordIter (iter_bytes i) (iter_offset i) (iter_remaining i) (iter_failed i).

Definition RecordIter_new (bytes : list Z) (record_count : Z) : RecordIter :=
  {| iter_bytes := bytes; iter_offset := 0; iter_remaining := record_count;
     iter_failed := false |}.

Definition RecordIter_finish (self : RecordIter) : Result RecordCodecError unit :=
  if iter_failed self then Err MalformedRecord
  else if decide (iter_remaining self ≠ 0 ∨ iter_offset self ≠ length (iter_bytes self))
  then Err RecordCountMismatch
  else Ok ().

(** [Iterator::next]: the item, if any, and the iterator afterwards. *)
Definition RecordIter_next (self : RecordIter)
  : option (Result RecordCodecError WireRecord) * RecordIter :=
  let bytes := iter_bytes self in
  let fail e := (Some (Err e), self <| iter_failed := true |>) in
  if iter_failed self || bool_decide (iter_remaining self = 0) then (None, self)
  else if decide (iter_offset self + RECORD_HEADER_LEN > length bytes)%nat
  then fail MalformedRecord
  else
    let start := iter_offset self in
    let data_len := Z.to_nat (u16_from_le_bytes (byte_at bytes (start + 2))
                                (byte_at bytes (start + 3))) in
    let raw_len := (RECORD_HEADER_LEN + data_len)%nat in
    if decide (Z.of_nat raw_len > USIZE_MAX) then fail MalformedRecord
    else
      match align4 raw_len with
      | None => fail MalformedRecord
      | Some padded_len =>
          if decide (start + padded_len > length bytes)%nat then fail MalformedRecord
          else if decide (Exists (λ b, b ≠ 0)
                 (slice (start + raw_len) (start + padded_len) bytes))
          then fail NonZeroPadding
          else
            (Some (Ok {| record_type := byte_at bytes start;
                         record_flags := byte_at bytes (start + 1);
                         record_data :=
                           slice (start + RECORD_HEADER_LEN) (start + raw_len) bytes |}),
             self <| iter_offset := (start + padded_len)%nat |>
                  <| iter_remaining ::= λ n, n - 1 |>)
      end.

(** A [for record in records.by_ref()] loop that leaves on the first [None]:
    the items it sees and the iterator it leaves for [finish]. *)
Fixpoint RecordIter_drain (fuel : nat) (self : RecordIter)
  : list (Result RecordCodecError WireRecord) * RecordIter :=
  match fuel with
  | O => ([], self)
  | S fuel =>
      match RecordIter_next self with
      | (None, self) => ([], self)
      | (Some item, self) =>
          let '(items, self) := RecordIter_drain fuel self in (item :: items, self)
      end
  end.

(** Enough fuel: one call per remaining record and one for the final [None]. *)
Definition drain_fuel (self : RecordIter) : nat := S (Z.to_nat (iter_remaining self)).

(** ** The wire form of a record list *)

Definition record_padding (len : nat) : nat := (4 * ((len + 3) / 4) - len)%nat.

Definition record_wire (r : WireRecord) : list Z :=
  [record_type r; record_flags r] ++ u16_to_le_bytes (Z.of_nat (length (record_data r))) ++
  record_data r ++ zeros (record_padding (length (record_data r))).

Definition records_wire (rs : list WireRecord) : list Z := concat (map record_wire rs).

(** A record whose fields fit their types. *)
Definition record_ok (r : WireRecord) : Prop :=
  u8_ok (record_type r) ∧ u8_ok (record_flags r) ∧ bytes_ok (record_data r) ∧
  Z.of_nat (length (record_data r)) ≤ U16_MAX.

Lemma align4_Some n : Z.of_nat n ≤ 65539 → align4 n = Some (4 * ((n + 3) / 4))%nat.
Proof.
  intros H. unfold align4. rewrite decide_True by words. f_equal.
  rewrite <- Z.ldiff_land. change 3 with (Z.ones 2) at 2.
  rewrite Z.ldiff_ones_r, Z.shiftr_div_pow2, Z.shiftl_mul_pow2 by lia.
  change (2 ^ 2) with 4. apply Nat2Z.inj.
  rewrite Z2Nat.id, Nat2Z.inj_mul, Nat2Z.inj_div, Nat2Z.inj_add; divmod.
Qed.

Lemma length_record_wire r :
  length (record_wire r) = (4 * ((RECORD_HEADER_LEN + length (record_data r) + 3) / 4))%nat.
Proof.
  unfold record_wire, record_padding, RECORD_HEADER_LEN. rewrite !length_app, length_zeros.
  cbn [length u16_to_le_bytes]. divmod.
Qed.

Lemma records_wire_ok rs : Forall record_ok rs → bytes_ok (records_wire rs).
Proof.
  unfold records_wire. induction 1 as [|r rs (Ht & Hf & Hd & Hl) Hrs IH]; [apply List.Forall_nil|].
  cbn [map concat]. apply bytes_ok_app. split; [|done]. unfold record_wire.
  rewrite !bytes_ok_app. split; [by repeat apply List.Forall_cons|].
  split; [auto with hid|]. split; [done|apply bytes_ok_zeros].
Qed.

(** The four stores of one loop turn append the record. *)
Lemma encode_record_stores pre n r : (length (record_wire r) ≤ n)%nat →
  let o := length pre in
  blit (o + 4) (record_data r)
    (blit (o + 2) (u16_to_le_bytes (Z.of_nat (length (record_data r))))
      (blit (o + 1) [record_flags r] (blit o [record_type r] (pre ++ zeros n)))) =
  (pre ++ record_wire r) ++ zeros (n - length (record_wire r)).
Proof.
  intros Hn o. pose proof (length_record_wire r) as Hw.
  set (l := length (record_data r)) in *.
  assert (4 + l ≤ length (record_wire r))%nat as Hl
    by (rewrite Hw; unfold RECORD_HEADER_LEN; divmod).
  replace n with (4 + (n - 4))%nat by lia.
  unfold zeros at 1. rewrite replicate_add. fold (zeros (n - 4)).
  transitivity (blit (o + 4) (record_data r)
    ((pre ++ [record_type r; record_flags r] ++ u16_to_le_bytes (Z.of_nat l)) ++ zeros (n - 4))).
  - f_equal. unfold o. rewrite (blit_app (length pre)) by done.
    by rewrite !blit_app_off, <- !app_assoc.
  - rewrite blit_app by (rewrite !length_app; unfold o; simpl; lia).
    rewrite blit_zeros by (fold l; lia).
    rewrite Hw in Hn |- *. unfold record_wire, zeros. rewrite <- !app_assoc, <- replicate_add.
    do 4 f_equal. unfold record_padding, RECORD_HEADER_LEN in *. fold l. f_equal.
    divmod.
Qed.

Definition data_fits (r : WireRecord) : Prop := Z.of_nat (length (record_data r)) ≤ U16_MAX.

Lemma encode_loop_spec rs pre n : Forall data_fits rs →
  encode_records_loop rs (pre ++ zeros n) (length pre) =
    if decide (length (records_wire rs) ≤ n)%nat
    then ((pre ++ records_wire rs) ++ zeros (n - length (records_wire rs)),
          Ok (length pre + length (records_wire rs))%nat)
    else (fst (encode_records_loop rs (pre ++ zeros n) (length pre)), Err PayloadCapacity).
Proof.
  intros Hrs. revert pre n. induction Hrs as [|r rs Hr Hrs IH]; intros pre n.
  - unfold records_wire. simpl. rewrite !app_nil_r, Nat.sub_0_r, Nat.add_0_r. done.
  - cbn [encode_records_loop]. unfold data_fits in Hr.
    rewrite (decide_False (P := _ > U16_MAX)) by words.
    rewrite align4_Some by (unfold RECORD_HEADER_LEN; words).
    rewrite <- length_record_wire.
    rewrite length_app, length_zeros.
    unfold records_wire. cbn [map concat]. fold (records_wire rs). rewrite length_app.
    case_decide as Hc.
    + rewrite decide_False by lia. done.
    + rewrite encode_record_stores by lia. rewrite <- length_app.
      rewrite IH. rewrite length_app.
      case_decide as H1; case_decide as H2; try lia; [|done].
      rewrite <- !app_assoc. f_equal; [do 4 f_equal; lia|f_equal; lia].
Qed.

Lemma byte_at_app_off a b i : byte_at (a ++ b) (length a + i) = byte_at b i.
Proof. unfold byte_at. by rewrite app_nth2_plus. Qed.

Lemma slice_app_off {A} (a b : list A) lo hi :
  slice (length a + lo) (length a + hi) (a ++ b) = slice lo hi b.
Proof.
  unfold slice. rewrite drop_app, drop_ge by lia. simpl.
  replace (length a + lo - length a)%nat with lo by lia.
  by replace (length a + hi - (length a + lo))%nat with (hi - lo)%nat by lia.
Qed.

Lemma zeros_no_nonzero n : ¬ Exists (λ b, b ≠ 0) (zeros n).
Proof.
  intros [b [Hin Hne]]%List.Exists_exists. apply Hne.
  by apply list_elem_of_In, elem_of_replicate in Hin as [-> _].
Qed.

Lemma padded_len_eq r :
  length (record_wire r) = (RECORD_HEADER_LEN + length (record_data r) +
    record_padding (length (record_data r)))%nat.
Proof. rewrite length_record_wire. unfold RECORD_HEADER_LEN, record_padding. divmod. Qed.

(** The iterator reads back the record in front of it. *)
Lemma next_record pre r post k : record_ok r → 0 ≤ k →
  let bytes := pre ++ record_wire r ++ post in
  RecordIter_next (mkRecordIter bytes (length pre) (k + 1) false) =
    (Some (Ok r), mkRecordIter bytes (length pre + length (record_wire r)) k false).
Proof.
  intros (Ht & Hf & Hd & Hl) Hk bytes. unfold RecordIter_next.
  cbn [iter_bytes iter_offset iter_remaining iter_failed orb].
  pose proof (padded_len_eq r) as Hw. set (l := length (record_data r)) in *.
  rewrite bool_decide_false by lia. cbn [orb].
  assert (length bytes = length pre + (length (record_wire r) + length post))%nat as Hb
    by (unfold bytes; by rewrite !length_app).
  rewrite decide_False by lia. cbv zeta.
  assert (Z.to_nat (u16_from_le_bytes (byte_at bytes (length pre + 2))
    (byte_at bytes (length pre + 3))) = l) as ->.
  { unfold bytes. rewrite !byte_at_app_off.
    unfold record_wire, byte_at, u16_to_le_bytes. cbn [app nth].
    rewrite u16_from_to_le by (fold l; words). fold l. lia. }
  rewrite decide_False by (unfold RECORD_HEADER_LEN; words).
  rewrite align4_Some by (unfold RECORD_HEADER_LEN; words).
  pose proof (length_record_wire r) as Hw'. fold l in Hw'. rewrite <- Hw'.
  rewrite decide_False by lia.
  assert (∀ lo hi, slice (length pre + lo) (length pre + hi) bytes =
    slice lo hi (record_wire r ++ post)) as Hs by (intros; apply slice_app_off).
  assert (slice (length pre + (RECORD_HEADER_LEN + l)) (length pre + length (record_wire r)) bytes
    = zeros (record_padding l)) as ->.
  { rewrite Hs, Hw. unfold record_wire. rewrite <- !app_assoc.
    rewrite (app_assoc [_; _]), (app_assoc _ (record_data r)).
    apply slice_app_mid; rewrite !length_app, ?length_zeros; done. }
  rewrite decide_False by apply zeros_no_nonzero.
  assert (slice (length pre + RECORD_HEADER_LEN) (length pre + (RECORD_HEADER_LEN + l)) bytes
    = record_data r) as ->.
  { rewrite Hs. unfold record_wire. rewrite <- !app_assoc, (app_assoc [_; _]).
    by apply slice_app_mid. }
  assert (byte_at bytes (length pre) = record_type r) as ->
    by (rewrite <- (Nat.add_0_r (length pre)); unfold bytes; by rewrite byte_at_app_off).
  assert (byte_at bytes (length pre + 1) = record_flags r) as ->
    by (unfold bytes; by rewrite byte_at_app_off).
  unfold upd. cbn. repeat f_equal; [by destruct r|lia].
Qed.

Lemma drain_records rs pre post fuel : Forall record_ok rs → (length rs < fuel)%nat →
  let bytes := pre ++ records_wire rs ++ post in
  RecordIter_drain fuel
    (mkRecordIter bytes (length pre) (Z.of_nat (length rs)) false) =
  (map Ok rs, mkRecordIter bytes (length pre + length (records_wire rs)) 0 false).
Proof.
  intros Hrs. revert pre fuel.
  induction Hrs as [|r rs Hr Hrs IH]; intros pre fuel Hfuel bytes;
    (destruct fuel as [|fuel]; [simpl in Hfuel; lia|]).
  - simpl. rewrite Nat.add_0_r. done.
  - cbn [RecordIter_drain length]. rewrite Nat2Z.inj_succ. unfold Z.succ.
    unfold bytes, records_wire. cbn [map concat]. fold (records_wire rs).
    rewrite <- app_assoc. rewrite next_record by (done || lia).
    rewrite <- length_app, (app_assoc pre). cbn [length] in Hfuel.
    rewrite IH by lia. by rewrite !length_app, Nat.add_assoc.
Qed.

(** ** Reading is unambiguous *)

(** An [Ok] item is a well-formed record whose wire form is exactly the bytes the
    iterator stepped over. *)
Lemma next_Ok_inv it r it' : bytes_ok (iter_bytes it) →
  RecordIter_next it = (Some (Ok r), it') →
  record_ok r ∧ iter_remaining it ≠ 0 ∧ iter_failed it = false ∧
  (iter_offset it + length (record_wire r) ≤ length (iter_bytes it))%nat ∧
  slice (iter_offset it) (iter_offset it + length (record_wire r)) (iter_bytes it)
    = record_wire r ∧
  it' = mkRecordIter (iter_bytes it) (iter_offset it + length (record_wire r))
          (iter_remaining it - 1) false.
Proof.
  intros Hb. destruct it as [bytes start remaining failed].
  unfold RecordIter_next. cbn [iter_bytes iter_offset iter_remaining iter_failed] in *.
  intros H. destruct (failed || bool_decide (remaining = 0)) eqn:Hf; [discriminate H|].
  apply orb_false_iff in Hf as [-> Hrem]. apply bool_decide_eq_false in Hrem.
  case_decide as Hlen; [discriminate H|]. cbv zeta in H.
  set (dl := Z.to_nat _) in H.
  assert (Z.of_nat dl = u16_from_le_bytes (byte_at bytes (start + 2)) (byte_at bytes (start + 3))
    ∧ Z.of_nat dl ≤ U16_MAX) as [Hdl Hdl'].
  { assert (u16_ok (u16_from_le_bytes (byte_at bytes (start + 2)) (byte_at bytes (start + 3))))
      by auto with hid. unfold dl. words. }
  rewrite decide_False in H by (unfold RECORD_HEADER_LEN; words).
  rewrite align4_Some in H by (unfold RECORD_HEADER_LEN; words).
  remember (4 * ((RECORD_HEADER_LEN + dl + 3) / 4))%nat as pl eqn:Hpl.
  case_decide as Hpad; [discriminate H|]. case_decide as Hz; [discriminate H|].
  injection H as <- <-.
  set (r := mkWireRecord _ _ _).
  assert (length (record_data r) = dl) as Hl.
  { unfold r. cbn [record_data]. rewrite length_slice;
      unfold RECORD_HEADER_LEN in *; divmod. }
  assert (length (record_wire r) = pl) as Hw
    by (by rewrite length_record_wire, Hl).
  pose proof (padded_len_eq r) as Hw'. rewrite Hl in Hw'.
  rewrite <- Hw in *.
  split; [|split; [done|split; [done|split; [lia|split; [|done]]]]].
  - unfold record_ok. rewrite Hl. unfold r. cbn [record_type record_flags record_data].
    repeat split; auto with hid; apply byte_at_ok; done.
  - apply all_zero_zeros in Hz. rewrite length_slice in Hz by lia.
    unfold record_wire at 2. rewrite Hl, Hdl, u16_to_from_le by auto with hid.
    replace (record_padding dl) with (start + length (record_wire r)
      - (start + (RECORD_HEADER_LEN + dl)))%nat by lia.
    rewrite <- Hz. unfold r at 2 3 4. cbn [record_type record_flags record_data].
    rewrite app_assoc.
    assert ([byte_at bytes start; byte_at bytes (start + 1)] ++
      [byte_at bytes (start + 2); byte_at bytes (start + 3)] =
      slice start (start + RECORD_HEADER_LEN) bytes) as ->.
    { unfold slice, byte_at, RECORD_HEADER_LEN.
      replace (start + 4 - start)%nat with 4%nat by lia.
      assert (∀ i, nth (start + i) bytes 0 = nth i (drop start bytes) 0) as Hn
        by (intros i; by rewrite !nth_lookup, lookup_drop).
      rewrite !Hn. rewrite <- (Nat.add_0_r start) at 1. rewrite Hn.
      assert (4 ≤ length (drop start bytes))%nat as Hd
        by (rewrite length_drop; unfold RECORD_HEADER_LEN in *; lia).
      destruct (drop start bytes) as [|? [|? [|? [|? ?]]]]; simpl in Hd; try lia. done. }
    rewrite !slice_split by lia. done.
Qed.

Lemma drain_Ok_inv fuel it rs it' : bytes_ok (iter_bytes it) → 0 ≤ iter_remaining it →
  RecordIter_drain fuel it = (map Ok rs, it') →
  iter_bytes it' = iter_bytes it ∧ Forall record_ok rs ∧
  iter_remaining it = iter_remaining it' + Z.of_nat (length rs) ∧
  iter_offset it' = (iter_offset it + length (records_wire rs))%nat ∧
  slice (iter_offset it) (iter_offset it') (iter_bytes it) = records_wire rs.
Proof.
  revert it rs. induction fuel as [|fuel IH]; intros it rs Hb Hrem H.
  - injection H as Hnil <-. destruct rs; [|discriminate]. simpl.
    repeat split; auto; [lia..|]. unfold slice. by rewrite Nat.sub_diag.
  - cbn [RecordIter_drain] in H. destruct (RecordIter_next it) as [[item|] it1] eqn:E.
    + destruct (RecordIter_drain fuel it1) as [items it2] eqn:E2.
      destruct rs as [|r rs]; [discriminate|]. injection H as -> -> ->.
      apply next_Ok_inv in E as (Hr & Hne & _ & Hle & Hs & ->); [|done].
      apply IH in E2 as (Hb' & Hrs & Hk & Ho & Hs'); cbn [iter_bytes iter_remaining iter_offset] in *;
        [|done|lia].
      unfold records_wire. cbn [map concat length]. fold (records_wire rs).
      split; [done|]. split; [by apply Forall_cons|]. rewrite length_app.
      split; [lia|]. split; [lia|]. 
      rewrite <- (slice_split _ (iter_offset it + length (record_wire r))) by lia.
      by rewrite Hs, Hs'.
    + injection H as Hnil <-. destruct rs; [|discriminate].
      assert (it1 = it) as ->.
      { unfold RecordIter_next in E. repeat case_match; simplify_eq; done. }
      simpl. repeat split; auto; [lia..|]. unfold slice. by rewrite Nat.sub_diag.
Qed.

Lemma next_None it it' : RecordIter_next it = (None, it') →
  it' = it ∧ (iter_failed it = true ∨ iter_remaining it = 0).
Proof.
  intros H. unfold RecordIter_next in H.
  destruct (iter_failed it || _) eqn:E; [|repeat case_match; simplify_eq; done].
  injection H as <-. split; [done|]. apply orb_true_iff in E as [E|E]; [by left|right].
  by apply bool_decide_eq_true in E.
Qed.

(** One call either fails for good or consumes one of the announced records. *)
Lemma next_Some it item it' : RecordIter_next it = (Some item, it') →
  iter_remaining it ≠ 0 ∧ iter_bytes it' = iter_bytes it ∧
  ((∃ e, item = Err e) ∧ iter_failed it' = true ∨
   (∃ r, item = Ok r) ∧ iter_remaining it' = iter_remaining it - 1).
Proof.
  intros H. unfold RecordIter_next in H. destruct (iter_failed it || _) eqn:E; [done|].
  apply orb_false_iff in E as [_ E]. apply bool_decide_eq_false in E.
  split; [done|]. repeat case_match; simplify_eq; (split; [done|]);
    first [left; by eauto | right; by eauto].
Qed.

(** Whatever the bytes, [drain_fuel] calls reach the final [None]. *)
Lemma drain_complete fuel it : 0 ≤ iter_remaining it → (Z.to_nat (iter_remaining it) ≤ fuel)%nat →
  fst (RecordIter_next (snd (RecordIter_drain fuel it))) = None.
Proof.
  assert (∀ fuel it, iter_failed it = true →
    fst (RecordIter_next (snd (RecordIter_drain fuel it))) = None) as Hfail.
  { intros f j Hj. assert (RecordIter_next j = (None, j)) as Hnext
      by (unfold RecordIter_next; by rewrite Hj).
    destruct f; simpl; rewrite Hnext; simpl; by rewrite ?Hnext. }
  revert it. induction fuel as [|fuel IH]; intros it Hrem Hle.
  - simpl. unfold RecordIter_next. rewrite (bool_decide_true (iter_remaining it = 0)) by lia.
    by rewrite orb_true_r.
  - cbn [RecordIter_drain]. destruct (RecordIter_next it) as [[item|] it1] eqn:E.
    + assert (fst (RecordIter_next (snd (RecordIter_drain fuel it1))) = None) as Hg.
      { apply next_Some in E as (Hne & _ & [[_ Hfl]|[_ Hk]]); [by apply Hfail|].
        apply IH; lia. }
      by destruct (RecordIter_drain fuel it1).
    + apply next_None in E as E'. destruct E' as [-> _]. simpl. by rewrite E.
Qed.

(** What [encode_records] leaves in a cell-sized buffer. *)
Lemma encode_records_spec rs out :
  Forall record_ok rs → (length rs ≤ 255)%nat → length out = SPI_CELL_PAYLOAD_LEN →
  if decide (length (records_wire rs) ≤ SPI_CELL_PAYLOAD_LEN)%nat then
    encode_records rs out =
      (records_wire rs ++ zeros (SPI_CELL_PAYLOAD_LEN - length (records_wire rs)),
       Ok (Z.of_nat (length (records_wire rs)), Z.of_nat (length rs)))
  else (encode_records rs out).2 = Err PayloadCapacity.
Proof.
  intros Hrs Hn Hout. assert (encode_records rs out =
    match encode_records_loop rs (zeros SPI_CELL_PAYLOAD_LEN) 0 with
    | (out, Ok offset) => (out, Ok (as_u16 (Z.of_nat offset), as_u8 (Z.of_nat (length rs))))
    | (out, Err e) => (out, Err e)
    end) as ->.
  { unfold encode_records. rewrite decide_False by words. by rewrite Hout. }
  assert (Forall data_fits rs) as Hfits
    by (eapply List.Forall_impl; [|exact Hrs]; intros r (_ & _ & _ & Hl); exact Hl).
  pose proof (encode_loop_spec rs [] SPI_CELL_PAYLOAD_LEN Hfits) as Hloop.
  cbn [app length] in Hloop. rewrite Hloop.
  unfold SPI_CELL_PAYLOAD_LEN in *. case_decide as Hfit; [|done].
  unfold as_u16, as_u8. cbn [length app plus]. rewrite !Z.mod_small by lia. done.
Qed.

(** What the iterator reads of a wire form. *)
Lemma drain_new_records rs : Forall record_ok rs →
  let it := RecordIter_new (records_wire rs) (Z.of_nat (length rs)) in
  let '(items, it') := RecordIter_drain (drain_fuel it) it in
  items = map Ok rs ∧ RecordIter_finish it' = Ok ().
Proof.
  intros Hrs it. assert (length rs < drain_fuel it)%nat as Hfuel by (unfold it, drain_fuel; simpl; lia).
  pose proof (drain_records rs [] [] (drain_fuel it) Hrs Hfuel) as Hd.
  rewrite app_nil_r in Hd. cbn [app length] in Hd. fold (RecordIter_new (records_wire rs)
    (Z.of_nat (length rs))) in Hd. fold it in Hd. rewrite Hd.
  split; [done|]. unfold RecordIter_finish. cbn. by rewrite decide_False by tauto.
Qed.

(** ** Properties *)

(** A record list that fits is written as its wire form, padded with zeros, and
    read back unchanged with a clean [finish]; one that does not fit is refused. *)
Theorem records_roundtrip rs out :
  Forall record_ok rs → (length rs ≤ 255)%nat → length out = SPI_CELL_PAYLOAD_LEN →
  let '(out', result) := encode_records rs out in
  if decide (length (records_wire rs) ≤ SPI_CELL_PAYLOAD_LEN)%nat then
    result = Ok (Z.of_nat (length (records_wire rs)), Z.of_nat (length rs)) ∧
    out' = records_wire rs ++ zeros (SPI_CELL_PAYLOAD_LEN - length (records_wire rs)) ∧
    let it := RecordIter_new (take (length (records_wire rs)) out') (Z.of_nat (length rs)) in
    let '(items, it') := RecordIter_drain (drain_fuel it) it in
    items = map Ok rs ∧ RecordIter_finish it' = Ok ()
  else result = Err PayloadCapacity.
Proof.
  intros Hrs Hn Hout. pose proof (encode_records_spec rs out Hrs Hn Hout) as H.
  destruct (encode_records rs out) as [out' result]. case_decide; [|done].
  injection H as -> ->. split; [done|split; [done|]].
  rewrite take_app_length. by apply drain_new_records.
Qed.

Lemma records_roundtrip_witness :
  let rs := [mkWireRecord 3 0 [1; 2; 3]; mkWireRecord 4 1 []] in
  (encode_records rs (zeros 110)).2 = Ok (12, 2).
Proof.
  intros rs. pose proof (records_roundtrip rs (zeros 110)
    ltac:(apply (bool_decide_unpack _); vm_compute; exact I)
    ltac:(vm_compute; lia) ltac:(reflexivity)) as H.
  destruct (encode_records rs (zeros 110)) as [o r]. apply H.
Defined.

(** Reading is unambiguous: when the iterator yields only records and [finish]
    succeeds, the payload is exactly the wire form of those records. *)
Theorem records_parse_unique bytes count rs it' :
  bytes_ok bytes → u8_ok count →
  let it := RecordIter_new bytes count in
  RecordIter_drain (drain_fuel it) it = (map Ok rs, it') →
  RecordIter_finish it' = Ok () →
  bytes = records_wire rs ∧ Forall record_ok rs ∧ Z.of_nat (length rs) = count.
Proof.
  intros Hb Hc it H Hf. apply drain_Ok_inv in H as (Hb' & Hrs & Hk & Ho & Hs);
    [|done|unfold it, RecordIter_new; simpl; words].
  unfold RecordIter_finish in Hf. destruct (iter_failed it'); [done|].
  case_decide as Hx; [done|]. cbn in Hb', Hk, Ho, Hs.
  split; [|split; [done|lia]].
  rewrite <- Hs. rewrite slice_0, take_ge; [done|]. rewrite <- Hb'. lia.
Qed.

Lemma records_parse_unique_witness :
  [3; 0; 2; 0; 7; 8; 0; 0] = records_wire [mkWireRecord 3 0 [7; 8]].
Proof.
  refine (proj1 (records_parse_unique [3; 0; 2; 0; 7; 8; 0; 0] 1 [mkWireRecord 3 0 [7; 8]] _
    _ _ _ _)); try (vm_compute; reflexivity);
    apply (bool_decide_unpack _); vm_compute; exact I.
Defined.
