(* ===== verification/Reliable.v ===== *)
(** * Reliable delivery ([src/src/interchip/reliable.rs])

    The sliding-window sender, the cumulative-ack receiver and the replay queue of
    the inter-chip link, operation by operation. *)

From S2P Require Import Prelude Cell.

Definition SPI_TX_WINDOW : nat := 4.

(** ** Sequence numbers

    1..65535, with 0 reserved for cells that carry no records. *)

Definition next_sequence (sequence : Z) : Z :=
  if decide (sequence = U16_MAX ∨ sequence = 0) then 1 else sequence + 1.

Definition previous_sequence (sequence : Z) : Z :=
  if decide (sequence ≤ 1) then U16_MAX else sequence - 1.

(** The loop of [is_recent_sequence]: [n] more candidates from [recent] down. *)
Fixpoint is_recent_loop (n : nat) (candidate recent : Z) : bool :=
  match n with
  | O => false
  | S n =>
      if decide (candidate = recent) then true
      else is_recent_loop n candidate (previous_sequence recent)
  end.

Definition is_recent_sequence (candidate cumulative_ack : Z) : bool :=
  is_recent_loop SPI_TX_WINDOW candidate cumulative_ack.

(** ** [ReliableDeliveryQueue<T>]

    [heapless::Deque<T, 4>] as a list, front first; [push_*] fails when full. *)

Definition deque_push_back {A} (cap : nat) (v : A) (q : list A) : Result A (list A) :=
  if decide (length q < cap)%nat then Ok (q ++ [v]) else Err v.

Definition deque_push_front {A} (cap : nat) (v : A) (q : list A) : Result A (list A) :=
  if decide (length q < cap)%nat then Ok (v :: q) else Err v.

Definition deque_pop_back {A} (q : list A) : option (A * list A) :=
  match rev q with [] => None | v :: r => Some (v, rev r) end.

Record ReliableDeliveryQueue (T : Type) := mkDeliveryQueue {
  inflight : list T;
  retry : list T
}.
Arguments mkDeliveryQueue {T}.
Arguments inflight {T}.
Arguments retry {T}.

Section DeliveryQueue.
Context {T : Type}.
Implicit Types q : ReliableDeliveryQueue T.

Definition DeliveryQueue_new : ReliableDeliveryQueue T := mkDeliveryQueue [] [].

Definition record_queued q (value : T) : Result T (ReliableDeliveryQueue T) :=
  match deque_push_back SPI_TX_WINDOW value (inflight q) with
  | Ok l => Ok (mkDeliveryQueue l (retry q))
  | Err v => Err v
  end.

(** [count] pops from the front; popping an empty deque does nothing. *)
Definition delivery_acknowledge q (count : nat) : ReliableDeliveryQueue T :=
  mkDeliveryQueue (Nat.iter count (@tail T) (inflight q)) (retry q).

Definition next_retry q : option T * ReliableDeliveryQueue T :=
  match retry q with
  | [] => (None, q)
  | v :: r => (Some v, mkDeliveryQueue (inflight q) r)
  end.

(** The [while let] loop; the fuel is the length of [inflight], which shrinks. *)
Fixpoint retry_loop (fuel : nat) q : ReliableDeliveryQueue T :=
  match fuel with
  | O => q
  | S fuel =>
      match deque_pop_back (inflight q) with
      | None => q
      | Some (value, rest) =>
          match deque_push_front SPI_TX_WINDOW value (retry q) with
          | Ok r => retry_loop fuel (mkDeliveryQueue rest r)
          | Err value =>
              match deque_push_back SPI_TX_WINDOW value rest with
              | Ok l => mkDeliveryQueue l (retry q)
              | Err _ => mkDeliveryQueue rest (retry q)
              end
          end
      end
  end.

Definition retry_after_session_reset q : ReliableDeliveryQueue T :=
  retry_loop (length (inflight q)) q.

Definition has_inflight q : bool :=
  match inflight q with [] => false | _ => true end.
End DeliveryQueue.

(** ** [ReliableSender] *)

Record PendingCell := mkPendingCell {
  pending_cell : SpiCell;
  last_sent_ms : Z;
  attempts : Z
}.
#[export] Instance PendingCell_eq_dec : EqDecision PendingCell.
Proof. solve_decision. Defined.

Record ReliableSender := mkReliableSender {
  sender_session_id : Z;
  sender_next_sequence : Z;
  sender_cumulative_ack : Z;
  pending : list (option PendingCell)
}.
#[export] Instance eta_ReliableSender : Eta ReliableSender := λ s,
  mkReliableSender (sender_session_id s) (sender_next_sequence s)
    (sender_cumulative_ack s) (pending s).

Inductive SenderError :=
| SenderPayloadTooLong
| WindowFull.

Inductive RetransmitAction :=
| RetransmitIdle
| RetransmitSend (cell : SpiCell)
| LinkResetRequired.

Definition ReliableSender_new (session : Z) : ReliableSender :=
  {| sender_session_id := session;
     sender_next_sequence := 1;
     sender_cumulative_ack := 0;
     pending := replicate SPI_TX_WINDOW None |}.

Definition pending_len (self : ReliableSender) : nat :=
  length (omap id (pending self)).

Definition sender_reset_session (self : ReliableSender) (session : Z) : ReliableSender :=
  {| sender_session_id := session;
     sender_next_sequence := 1;
     sender_cumulative_ack := 0;
     pending := replicate SPI_TX_WINDOW None |}.

Definition sender_queue (self : ReliableSender) (payload : list Z) (count now_ms : Z)
  : Result SenderError (SpiCell * ReliableSender) :=
  if decide (length payload > SPI_CELL_PAYLOAD_LEN)%nat then Err SenderPayloadTooLong
  else
    match position is_none (pending self) with
    | None => Err WindowFull
    | Some slot =>
        let sequence := sender_next_sequence self in
        let empty := SpiCell_empty (sender_session_id self) in
        let cell :=
          {| header := header empty <| tx_sequence := sequence |>
               <| cumulative_ack := sender_cumulative_ack self |>
               <| payload_len := as_u16 (Z.of_nat (length payload)) |>
               <| record_count := count |>;
             cell_payload := blit 0 payload (cell_payload empty) |} in
        Ok (cell,
            self <| sender_next_sequence := next_sequence sequence |>
                 <| pending ::= <[slot := Some (mkPendingCell cell now_ms 1)]> |>)
    end.

(** The cell [queue] builds is one the codec carries, and holds the payload. *)
Lemma queue_cell_wire s payload count now cell s' :
  u32_ok (sender_session_id s) → 1 ≤ sender_next_sequence s ≤ U16_MAX →
  u16_ok (sender_cumulative_ack s) → bytes_ok payload → u8_ok count →
  sender_queue s payload count now = Ok (cell, s') →
  cell_wire cell ∧ SpiCell_payload cell = payload ∧
  session_id (header cell) = sender_session_id s ∧
  tx_sequence (header cell) = sender_next_sequence s ∧ record_count (header cell) = count ∧
  s' = s <| sender_next_sequence := next_sequence (sender_next_sequence s) |>
         <| pending := pending s' |>.
Proof.
  intros Hs Hn Ha Hp Hc H. unfold sender_queue in H. case_decide as Hl; [done|].
  destruct (position is_none (pending s)); [|done]. injection H as <- <-.
  unfold SPI_CELL_PAYLOAD_LEN in *. replace (as_u16 (Z.of_nat (length payload))) with (Z.of_nat (length payload)) by words.
  assert (blit 0 payload (zeros 110) = payload ++ zeros (110 - length payload)) as Hb.
  { rewrite blit_zeros by lia. done. }
  cbn [header cell_payload SpiCell_empty]. unfold SPI_CELL_PAYLOAD_LEN. rewrite Hb.
  set (c := mkSpiCell _ _).
  assert (SpiCell_payload c = payload) as Hpay.
  { unfold SpiCell_payload. change (payload_len (header c)) with (Z.of_nat (length payload)).
    rewrite Nat2Z.id. apply take_app_length. }
  split; [|by repeat split].
  split; [|split; [|split; [|done]]].
  - split; cbn [header cell_payload c].
    + split; cbn; try done; words.
    + apply bytes_ok_app. auto using bytes_ok_zeros.
    + rewrite length_app, length_zeros. unfold SPI_CELL_PAYLOAD_LEN. lia.
  - split; cbn; lia.
  - unfold cell_canonical. rewrite Hpay.
    change (payload_len (header c)) with (Z.of_nat (length payload)). by rewrite Nat2Z.id.
Qed.

(** The compaction loop of [acknowledge]: each slot takes the one [removed] further. *)
Definition shift_pending (removed : nat) (l : list (option PendingCell))
  : list (option PendingCell) :=
  fold_left (λ l destination, <[destination := mjoin (l !! (destination + removed)%nat)]> l)
    (seq 0 SPI_TX_WINDOW) l.

Definition sender_acknowledge (self : ReliableSender) (ack : Z) : nat * ReliableSender :=
  match position (λ p, match p with
                       | Some p => bool_decide (tx_sequence (header (pending_cell p)) = ack)
                       | None => false
                       end) (pending self) with
  | None => (0%nat, self)
  | Some index =>
      let removed := S index in
      (removed, self <| pending ::= shift_pending removed |>)
  end.

Definition set_cell_ack (ack : Z) (p : PendingCell) : PendingCell :=
  let c := pending_cell p in
  {| pending_cell := c <| header := header c <| cumulative_ack := ack |> |>;
     last_sent_ms := last_sent_ms p;
     attempts := attempts p |}.

Definition set_cumulative_ack (self : ReliableSender) (ack : Z) : ReliableSender :=
  self <| sender_cumulative_ack := ack |> <| pending ::= map (option_map (set_cell_ack ack)) |>.

Definition poll_retransmit (self : ReliableSender) (now_ms timeout_ms max_attempts : Z)
  : RetransmitAction * ReliableSender :=
  match position is_some (pending self) with
  | None => (RetransmitIdle, self)
  | Some slot =>
      match mjoin (pending self !! slot) with
      | None => (RetransmitIdle, self)
      | Some p =>
          if decide (saturating_sub now_ms (last_sent_ms p) < timeout_ms)
          then (RetransmitIdle, self)
          else if decide (max_attempts ≤ attempts p) then (LinkResetRequired, self)
          else
            let p := {| pending_cell := pending_cell p;
                        last_sent_ms := now_ms;
                        attempts := u8_saturating_add (attempts p) 1 |} in
            (RetransmitSend (pending_cell p), self <| pending ::= <[slot := Some p]> |>)
      end
  end.

(** ** [ReliableReceiver] *)

Record ReliableReceiver := mkReliableReceiver {
  receiver_session_id : option Z;
  receiver_cumulative_ack : Z
}.
#[export] Instance ReliableReceiver_eq_dec : EqDecision ReliableReceiver.
Proof. solve_decision. Defined.

Definition ReliableReceiver_new : ReliableReceiver := mkReliableReceiver None 0.

Definition receiver_reset_session (session : Z) : ReliableReceiver :=
  mkReliableReceiver (Some session) 0.

Inductive ReceiveDisposition :=
| DispEmpty
| DispSessionChanged
| DispAccepted (session_changed : bool) (cumulative_ack : Z)
| DispDuplicate (cumulative_ack : Z)
| DispGap (expected cumulative_ack : Z).
#[export] Instance ReceiveDisposition_eq_dec : EqDecision ReceiveDisposition.
Proof. solve_decision. Defined.

Definition receive (self : ReliableReceiver) (cell : SpiCell)
  : ReceiveDisposition * ReliableReceiver :=
  let h := header cell in
  let session_changed := bool_decide (receiver_session_id self ≠ Some (session_id h)) in
  let self := if session_changed then mkReliableReceiver (Some (session_id h)) 0 else self in
  if decide (tx_sequence h = 0) then
    ((if session_changed then DispSessionChanged else DispEmpty), self)
  else
    let expected := next_sequence (receiver_cumulative_ack self) in
    if decide (tx_sequence h = expected) then
      let self := mkReliableReceiver (receiver_session_id self) (tx_sequence h) in
      (DispAccepted session_changed (receiver_cumulative_ack self), self)
    else if is_recent_sequence (tx_sequence h) (receiver_cumulative_ack self) then
      (DispDuplicate (receiver_cumulative_ack self), self)
    else (DispGap expected (receiver_cumulative_ack self), self).

(** ** Sequence arithmetic

    [seq_of k] is the sequence number of the [k]-th cell of a session and [ack_of r]
    the cumulative acknowledgement after [r] accepted cells. *)

Definition seq_of (k : nat) : Z := Z.of_nat k mod U16_MAX + 1.

Definition ack_of (r : nat) : Z := match r with O => 0 | S k => seq_of k end.

Lemma seq_of_bound k : 1 ≤ seq_of k ≤ U16_MAX.
Proof. unfold seq_of, U16_MAX. divmod. Qed.

Lemma seq_of_u16 k : u16_ok (seq_of k).
Proof. pose proof (seq_of_bound k). words. Qed.

Lemma next_sequence_seq k : next_sequence (seq_of k) = seq_of (S k).
Proof.
  unfold next_sequence, seq_of, U16_MAX. rewrite Nat2Z.inj_succ. case_decide; divmod.
Qed.

Lemma next_sequence_ack r : next_sequence (ack_of r) = seq_of r.
Proof. destruct r; [done|]. apply next_sequence_seq. Qed.

Lemma previous_sequence_ack r : (0 < r)%nat → previous_sequence (ack_of (S r)) = ack_of r.
Proof.
  intros Hr. destruct r as [|r]; [lia|]. unfold previous_sequence, ack_of, seq_of, U16_MAX.
  rewrite Nat2Z.inj_succ. case_decide; divmod.
Qed.

Lemma seq_of_inj k k' : (k < k' + 1000)%nat → (k' < k + 1000)%nat →
  seq_of k = seq_of k' → k = k'.
Proof. unfold seq_of, U16_MAX. intros H1 H2 H. divmod. Qed.

Lemma is_recent_loop_true n k r : (k < r)%nat → (r ≤ k + n)%nat →
  is_recent_loop n (seq_of k) (ack_of r) = true.
Proof.
  revert r. induction n as [|n IH]; intros r Hk Hr; [lia|]. simpl. case_decide as Hd; [done|].
  destruct r as [|r]; [lia|]. destruct (decide (k = r)) as [->|Hne]; [done|].
  rewrite previous_sequence_ack by lia. apply IH; lia.
Qed.

Lemma is_recent_ahead k r : (r < k ≤ r + 3)%nat → is_recent_sequence (seq_of k) (ack_of r) = false.
Proof.
  intros H. unfold is_recent_sequence, SPI_TX_WINDOW.
  destruct (decide (4 ≤ r)%nat) as [Hr|Hr].
  - do 4 (destruct r as [|r]; [lia|]). cbn [is_recent_loop].
    rewrite !previous_sequence_ack by lia.
    assert (∀ r', (r' < k ≤ r' + 8)%nat → seq_of k ≠ ack_of (S r')) as Hne.
    { intros r' Hr' Heq. apply seq_of_inj in Heq; lia. }
    rewrite !decide_False by (apply Hne; lia). done.
  - destruct r as [|[|[|[|r]]]]; [..|lia];
      destruct k as [|[|[|[|[|[|[|k]]]]]]]; try lia; by vm_compute.
Qed.

(** ** The sender's slots are a compact prefix *)

Definition slots (ps : list PendingCell) : list (option PendingCell) :=
  map Some ps ++ replicate (SPI_TX_WINDOW - length ps) None.

Definition sender_view (s : ReliableSender) (ps : list PendingCell) : Prop :=
  pending s = slots ps ∧ (length ps ≤ SPI_TX_WINDOW)%nat.

Lemma sender_view_new session : sender_view (ReliableSender_new session) [].
Proof. split; simpl; [done|lia]. Qed.

(** At most four pending cells: every fact about the four slots is a finite check. *)
Ltac four ps :=
  destruct ps as [|? [|? [|? [|? [|? ?]]]]];
  try (exfalso; unfold SPI_TX_WINDOW in *; simpl in *; lia).

Lemma position_free ps : (length ps ≤ SPI_TX_WINDOW)%nat →
  position is_none (slots ps) =
    if decide (length ps < SPI_TX_WINDOW)%nat then Some (length ps) else None.
Proof. intros H. by four ps. Qed.

Lemma slots_insert ps p : (length ps < SPI_TX_WINDOW)%nat →
  <[length ps := Some p]> (slots ps) = slots (ps ++ [p]).
Proof. intros H. by four ps. Qed.

Lemma slots_shift ps n : (0 < n ≤ length ps)%nat → (length ps ≤ SPI_TX_WINDOW)%nat →
  shift_pending n (slots ps) = slots (drop n ps).
Proof.
  intros Hn H. four ps; destruct n as [|[|[|[|[|n]]]]]; simpl in Hn; try lia; reflexivity.
Qed.

Lemma pending_len_view s ps : sender_view s ps → pending_len s = length ps.
Proof. intros [Hp H]. unfold pending_len. rewrite Hp. by four ps. Qed.

Definition pending_seq (p : PendingCell) : Z := tx_sequence (header (pending_cell p)).

Lemma acknowledge_view s ps ack : sender_view s ps →
  let i := position (λ p, bool_decide (pending_seq p = ack)) ps in
  sender_acknowledge s ack =
    match i with
    | None => (0%nat, s)
    | Some i => (S i, s <| pending := slots (drop (S i) ps) |>)
    end.
Proof.
  intros [Hp H] i. unfold sender_acknowledge. rewrite Hp. unfold slots at 1.
  rewrite position_app_None.
  2: { intros x Hx. by apply elem_of_replicate in Hx as [-> _]. }
  rewrite position_map.
  match goal with |- context [position ?f ps] => change (position f ps) with i end.
  destruct i as [j|] eqn:Hi; [|done].
  apply position_lt in Hi.
  unfold upd. rewrite Hp, slots_shift by lia. done.
Qed.

Lemma queue_view s ps payload count now cell s' : sender_view s ps →
  sender_queue s payload count now = Ok (cell, s') →
  (length payload ≤ SPI_CELL_PAYLOAD_LEN)%nat ∧ (length ps < SPI_TX_WINDOW)%nat ∧
  cell = {| header :=
              mkSpiCellHeader SPI_CELL_MAGIC SPI_PROTOCOL_VERSION 0 (sender_session_id s)
                (sender_next_sequence s) (sender_cumulative_ack s)
                (Z.of_nat (length payload)) count 4;
            cell_payload := payload ++ zeros (SPI_CELL_PAYLOAD_LEN - length payload) |} ∧
  s' = mkReliableSender (sender_session_id s) (next_sequence (sender_next_sequence s))
         (sender_cumulative_ack s) (slots (ps ++ [mkPendingCell cell now 1])).
Proof.
  intros [Hp H] Hq. unfold sender_queue in Hq. case_decide as Hl; [done|].
  rewrite Hp, position_free in Hq by done. case_decide as Hw; [|done].
  injection Hq as <- <-. unfold upd.
  cbn [header cell_payload SpiCell_empty SpiCellHeader_new tx_sequence cumulative_ack payload_len
    magic version cell_flags session_id record_count receive_window
    sender_session_id sender_next_sequence sender_cumulative_ack pending].
  rewrite Hp. split; [lia|]. split; [done|].
  unfold as_u16. rewrite Z.mod_small by (unfold SPI_CELL_PAYLOAD_LEN in Hl; lia).
  rewrite blit_zeros by lia. split; [done|]. by rewrite slots_insert.
Qed.

(** [queue] fails exactly when the payload is too long or four cells are pending. *)
Lemma queue_total s ps payload count now : sender_view s ps →
  (length payload ≤ SPI_CELL_PAYLOAD_LEN)%nat → (length ps < SPI_TX_WINDOW)%nat →
  ∃ cell s', sender_queue s payload count now = Ok (cell, s').
Proof.
  intros [Hp H] Hl Hw. unfold sender_queue. rewrite decide_False by lia.
  rewrite Hp, position_free, decide_True by done. eauto.
Qed.

Lemma poll_view s ps now timeout max : sender_view s ps →
  poll_retransmit s now timeout max =
    match ps with
    | [] => (RetransmitIdle, s)
    | p :: ps' =>
        if decide (saturating_sub now (last_sent_ms p) < timeout) then (RetransmitIdle, s)
        else if decide (max ≤ attempts p) then (LinkResetRequired, s)
        else (RetransmitSend (pending_cell p),
              s <| pending := slots (mkPendingCell (pending_cell p) now
                                       (u8_saturating_add (attempts p) 1) :: ps') |>)
    end.
Proof.
  intros [Hp H]. unfold poll_retransmit. rewrite Hp.
  four ps; [done|..]; cbn; case_decide; try done; case_decide; try done;
    unfold upd; cbn; by rewrite Hp.
Qed.

Lemma set_ack_view s ps a : sender_view s ps →
  sender_view (set_cumulative_ack s a) (map (set_cell_ack a) ps).
Proof.
  intros [Hp H]. split; [|by rewrite length_map].
  unfold set_cumulative_ack, upd. cbn. rewrite Hp. by four ps.
Qed.

(** ** The delivery queue *)

Lemma iter_tail {A} n (l : list A) : Nat.iter n (@tail A) l = drop n l.
Proof.
  revert l. induction n as [|n IH]; intros l; [done|].
  rewrite Nat.iter_succ, IH. destruct l; simpl; [by rewrite drop_nil|].
  revert l a. clear IH. induction n as [|n IH]; intros l a; [by rewrite drop_0|].
  simpl. destruct l; [by rewrite drop_nil|]. apply IH.
Qed.

Lemma deque_pop_back_snoc {A} (l : list A) x : deque_pop_back (l ++ [x]) = Some (x, l).
Proof. unfold deque_pop_back. by rewrite rev_app_distr; simpl; rewrite rev_involutive. Qed.

Lemma retry_loop_spec {T} fuel (l r : list T) :
  (length l ≤ fuel)%nat → (length l ≤ SPI_TX_WINDOW)%nat → (length r ≤ SPI_TX_WINDOW)%nat →
  retry_loop fuel (mkDeliveryQueue l r) =
    mkDeliveryQueue (take (length (l ++ r) - SPI_TX_WINDOW) (l ++ r))
                    (drop (length (l ++ r) - SPI_TX_WINDOW) (l ++ r)).
Proof.
  revert l r. induction fuel as [|fuel IH]; intros l r Hf Hl Hr.
  - destruct l; [|simpl in Hf; lia]. simpl.
    replace (length r - SPI_TX_WINDOW)%nat with 0%nat by lia. done.
  - destruct l as [|x l _] using rev_ind.
    { simpl. replace (length r - SPI_TX_WINDOW)%nat with 0%nat by lia. done. }
    rewrite length_app in Hf, Hl. simpl in Hf, Hl. cbn [retry_loop inflight retry].
    rewrite deque_pop_back_snoc. unfold deque_push_front, deque_push_back.
    destruct (decide (length r < SPI_TX_WINDOW)%nat) as [Hlt|Hge].
    + rewrite IH by (simpl; lia). rewrite <- app_assoc. done.
    + rewrite decide_True by lia.
      replace (length ((l ++ [x]) ++ r) - SPI_TX_WINDOW)%nat with (length (l ++ [x]))
        by (rewrite !length_app in *; simpl in *; lia).
      by rewrite take_app_length, drop_app_length.
Qed.

(** A session reset replays every unacknowledged value, oldest first.  The
    acknowledged prefix is forgotten; what was in flight goes in front of what was
    already waiting for replay, in queueing order; and when the two do not fit the
    four-slot queue the oldest excess stays in flight instead of being dropped. *)
Theorem delivery_replay_order {T} (q : ReliableDeliveryQueue T) n :
  (length (inflight q) ≤ SPI_TX_WINDOW)%nat → (length (retry q) ≤ SPI_TX_WINDOW)%nat →
  let q' := retry_after_session_reset (delivery_acknowledge q n) in
  let owed := drop n (inflight q) ++ retry q in
  let excess := (length owed - SPI_TX_WINDOW)%nat in
  inflight q' = take excess owed ∧ retry q' = drop excess owed ∧
  inflight q' ++ retry q' = owed ∧
  ∀ v rest, retry q' = v :: rest → next_retry q' = (Some v, mkDeliveryQueue (inflight q') rest).
Proof.
  intros Hl Hr q' owed excess.
  assert (q' = mkDeliveryQueue (take excess owed) (drop excess owed)) as Hq.
  { unfold q', retry_after_session_reset, delivery_acknowledge. rewrite iter_tail. cbn [inflight].
    apply retry_loop_spec; rewrite ?length_drop; lia. }
  rewrite Hq. cbn [inflight retry]. split; [done|]. split; [done|].
  split; [apply take_drop|]. intros v rest Hv. unfold next_retry. by rewrite Hv.
Qed.

Lemma delivery_replay_order_witness :
  inflight (retry_after_session_reset
    (delivery_acknowledge (mkDeliveryQueue [1; 2; 3] [4; 5]) 1)) ++
  retry (retry_after_session_reset
    (delivery_acknowledge (mkDeliveryQueue [1; 2; 3] [4; 5]) 1)) = [2; 3; 4; 5].
Proof.
  apply (delivery_replay_order (mkDeliveryQueue [1; 2; 3] [4; 5]) 1);
    apply (bool_decide_unpack _); vm_compute; exact I.
Defined.
