(* ===== verification/Link.v ===== *)
(** * The inter-chip link as a transition system

    One direction of the SPI link: the [ReliableSender] of one board, the
    [ReliableReceiver] of the other, the 128-byte transactions in between and the
    cumulative acknowledgements that travel back in the headers of the opposite
    direction.  Both ways are FIFO and lossy; a transaction may also be damaged into
    anything [SpiCell::decode] refuses.  Within one session the receiver accepts
    exactly the queued payloads, in order and once, across the 65535-to-1 wrap. *)

From stdpp Require Import relations.
From S2P Require Import Prelude Cell Reliable.

(** A queued message: the record payload of a cell and its record count. *)
Definition message : Type := list Z * Z.

Record Link := mkLink {
  l_sender : ReliableSender;
  l_receiver : ReliableReceiver;
  l_data : list (list Z);        (* transactions under way, oldest first *)
  l_acks : list Z;               (* acknowledgements under way, oldest first *)
  l_sent : list message;         (* every message [queue] accepted *)
  l_delivered : list message     (* every message of an [Accepted] cell *)
}.

Definition link_init (session : Z) : Link :=
  mkLink (ReliableSender_new session) ReliableReceiver_new [] [] [] [].

(** What the owner of the receiver takes out of one transaction. *)
Definition link_receive (r : ReliableReceiver) (bytes : list Z)
  : list message * ReliableReceiver :=
  match SpiCell_decode bytes with
  | Err _ => ([], r)
  | Ok cell =>
      match receive r cell with
      | (DispAccepted _ _, r) =>
          ([(SpiCell_payload cell, record_count (header cell))], r)
      | (_, r) => ([], r)
      end
  end.

(** [timeout] and [max] are the retransmission parameters of the sending board. *)
Inductive link_step (timeout max : Z) : Link → Link → Prop :=
| step_queue S R data acks sent del payload count now cell S' bytes :
    bytes_ok payload → u8_ok count →
    sender_queue S payload count now = Ok (cell, S') →
    SpiCell_encode cell = Ok bytes →
    link_step timeout max (mkLink S R data acks sent del)
              (mkLink S' R (data ++ [bytes]) acks (sent ++ [(payload, count)]) del)
| step_retransmit S R data acks sent del now cell S' bytes :
    poll_retransmit S now timeout max = (RetransmitSend cell, S') →
    SpiCell_encode cell = Ok bytes →
    link_step timeout max (mkLink S R data acks sent del)
              (mkLink S' R (data ++ [bytes]) acks sent del)
| step_piggyback S R data acks sent del ack :
    u16_ok ack →
    link_step timeout max (mkLink S R data acks sent del)
              (mkLink (set_cumulative_ack S ack) R data acks sent del)
| step_lose S R d1 bytes d2 acks sent del :
    link_step timeout max (mkLink S R (d1 ++ bytes :: d2) acks sent del)
              (mkLink S R (d1 ++ d2) acks sent del)
| step_corrupt S R d1 bytes bytes' d2 acks sent del :
    is_ok (SpiCell_decode bytes') = false →
    link_step timeout max (mkLink S R (d1 ++ bytes :: d2) acks sent del)
              (mkLink S R (d1 ++ bytes' :: d2) acks sent del)
| step_deliver S R bytes data acks sent del new R' :
    link_receive R bytes = (new, R') →
    link_step timeout max (mkLink S R (bytes :: data) acks sent del)
              (mkLink S R' data acks sent (del ++ new))
| step_emit_ack S R data acks sent del :
    link_step timeout max (mkLink S R data acks sent del)
              (mkLink S R data (acks ++ [receiver_cumulative_ack R]) sent del)
| step_lose_ack S R data a1 a a2 sent del :
    link_step timeout max (mkLink S R data (a1 ++ a :: a2) sent del)
              (mkLink S R data (a1 ++ a2) sent del)
| step_ack S R data a acks sent del n S' :
    sender_acknowledge S a = (n, S') →
    link_step timeout max (mkLink S R data (a :: acks) sent del)
              (mkLink S' R data acks sent del).

(** ** The invariant

    [base] messages are acknowledged and [r] are delivered; [ks] and [cs] give the
    index of every transaction and the count of every acknowledgement under way. *)

Section Session.
Context (session : Z) (Hsession : u32_ok session).

Definition carries (sent : list message) (k : nat) (c : SpiCell) : Prop :=
  cell_wire c ∧ session_id (header c) = session ∧ tx_sequence (header c) = seq_of k ∧
  sent !! k = Some (SpiCell_payload c, record_count (header c)).

Definition in_flight (sent : list message) (bytes : list Z) (k : nat) : Prop :=
  ∀ c, SpiCell_decode bytes = Ok c → carries sent k c.

Record link_inv (L : Link) (base r : nat) (ps : list PendingCell) (ks cs : list nat) : Prop := {
  inv_view : sender_view (l_sender L) ps;
  inv_session : sender_session_id (l_sender L) = session;
  inv_ack16 : u16_ok (sender_cumulative_ack (l_sender L));
  inv_next : sender_next_sequence (l_sender L) = seq_of (length (l_sent L));
  inv_window : length (l_sent L) = (base + length ps)%nat;
  inv_pending : ∀ i p, ps !! i = Some p → carries (l_sent L) (base + i) (pending_cell p);
  inv_order : (base ≤ r ≤ length (l_sent L))%nat;
  inv_receiver : receiver_session_id (l_receiver L) = Some session ∨
                 receiver_session_id (l_receiver L) = None ∧ r = 0%nat;
  inv_rack : receiver_cumulative_ack (l_receiver L) = ack_of r;
  inv_delivered : l_delivered L = take r (l_sent L);
  inv_data : Forall2 (in_flight (l_sent L)) (l_data L) ks;
  inv_fresh : Forall (λ k, k < length (l_sent L) ∧ r ≤ k + 4)%nat ks;
  inv_fifo : ∀ i j ki kj, (i < j)%nat → ks !! i = Some ki → ks !! j = Some kj →
               (ki < kj + 4)%nat;
  inv_acks : l_acks L = map ack_of cs;
  inv_acks_range : Forall (λ c, base ≤ c ≤ r)%nat cs;
  inv_acks_fifo : ∀ i j ci cj, (i < j)%nat → cs !! i = Some ci → cs !! j = Some cj →
               (ci ≤ cj)%nat
}.

Lemma link_inv_init : link_inv (link_init session) 0 0 [] [] [].
Proof.
  split; simpl; auto; try done; try lia.
  - apply sender_view_new.
Qed.

Lemma carries_app sent k c m : carries sent k c → carries (sent ++ [m]) k c.
Proof. intros (? & ? & ? & ?). 
  split; [done|split; [done|split; [done|]]]. by apply lookup_app_l_Some. Qed.

(** A cell that [queue] built carries the message it was given. *)
Lemma queued_cell_carries S ps sent payload count now cell S' :
  sender_view S ps → sender_session_id S = session → u16_ok (sender_cumulative_ack S) →
  sender_next_sequence S = seq_of (length sent) →
  bytes_ok payload → u8_ok count →
  sender_queue S payload count now = Ok (cell, S') →
  carries (sent ++ [(payload, count)]) (length sent) cell.
Proof.
  intros Hv Hs Ha Hn Hp Hc Hq. pose proof (seq_of_bound (length sent)) as Hb.
  apply queue_cell_wire in Hq as (Hw & Hpay & Hsid & Hseq & Hcount & _); try done;
    rewrite ?Hn, ?Hs; try done.
  unfold carries. rewrite Hsid, Hseq, Hpay, Hcount, Hs, Hn. repeat (split; [done|]).
  by rewrite list_lookup_middle.
Qed.

Lemma in_flight_app sent b k m : in_flight sent b k → in_flight (sent ++ [m]) b k.
Proof. intros H c Hc. apply carries_app. by apply H. Qed.

Lemma carries_set_ack sent k c a : u16_ok a → carries sent k c →
  carries sent k (c <| header := header c <| cumulative_ack := a |> |>).
Proof.
  intros Ha ((Hok & Hs & Hcan & Hm & Hv) & H1 & H2 & H3).
  split; [|done]. split; [|done]. destruct Hok as [[] Hp Hl]. split; [by split|done..].
Qed.

Lemma carries_decode sent k c b : carries sent k c → SpiCell_encode c = Ok b →
  in_flight sent b k.
Proof.
  intros Hc Hb d Hd. destruct Hc as (Hw & Hc).
  destruct (cell_wire_roundtrip c Hw) as (b' & Hb' & _ & _ & Hd').
  rewrite Hb in Hb'. injection Hb' as <-. rewrite Hd in Hd'. by injection Hd' as ->.
Qed.

Lemma lookup_snoc_inv {A} (l : list A) x i y :
  (l ++ [x]) !! i = Some y → l !! i = Some y ∨ i = length l ∧ y = x.
Proof.
  intros H. apply lookup_app_Some in H as [H|[Hle H]]; [by left|right].
  destruct (i - length l)%nat as [|n] eqn:E; [|by destruct n].
  injection H as <-. split; [lia|done].
Qed.

(** Appending one transaction that carries message [k], when no message already
    under way is four or more ahead of it. *)
Lemma fifo_snoc ks k :
  (∀ i j ki kj, (i < j)%nat → ks !! i = Some ki → ks !! j = Some kj → (ki < kj + 4)%nat) →
  Forall (λ k', k' < k + 4)%nat ks →
  ∀ i j ki kj, (i < j)%nat → (ks ++ [k]) !! i = Some ki → (ks ++ [k]) !! j = Some kj →
    (ki < kj + 4)%nat.
Proof.
  intros Hf Hk i j ki kj Hij Hi Hj.
  apply lookup_snoc_inv in Hi as [Hi|[-> ->]]; apply lookup_snoc_inv in Hj as [Hj|[-> ->]].
  - eauto.
  - eapply (Forall_lookup_1 _ _ _ _ Hk Hi).
  - apply lookup_lt_Some in Hj. lia.
  - lia.
Qed.

Lemma queue_preserves S R data acks sent del base r ps ks cs payload count now cell S' bytes :
  link_inv (mkLink S R data acks sent del) base r ps ks cs →
  bytes_ok payload → u8_ok count →
  sender_queue S payload count now = Ok (cell, S') → SpiCell_encode cell = Ok bytes →
  link_inv (mkLink S' R (data ++ [bytes]) acks (sent ++ [(payload, count)]) del)
    base r (ps ++ [mkPendingCell cell now 1]) (ks ++ [length sent]) cs.
Proof.
  intros [] Hp Hc Hq Hb. cbn in *.
  pose proof (queued_cell_carries S ps sent payload count now cell S' inv_view0 inv_session0
    inv_ack17 inv_next0 Hp Hc Hq) as Hcar.
  apply (queue_view _ ps) in Hq as (Hl & Hw & Hcell & ->); [|done].
  split; cbn; auto; rewrite ?length_app; cbn [length]; try lia.
  - split; [done|]. rewrite length_app. cbn [length]. lia.
  - rewrite inv_next0, next_sequence_seq. f_equal. lia.
  - intros i p Hi. apply lookup_snoc_inv in Hi as [Hi|[-> ->]].
    + by apply carries_app, inv_pending0.
    + by rewrite <- inv_window0.
  - rewrite take_app_le by lia. done.
  - apply Forall2_app.
    + eapply Forall2_impl; [|exact inv_data0]. intros; by apply in_flight_app.
    + constructor; [|constructor]. by eapply carries_decode.
  - apply Forall_app. split; [|constructor; [lia|constructor]].
    eapply List.Forall_impl; [|exact inv_fresh0]. simpl. lia.
  - apply fifo_snoc; [done|]. eapply List.Forall_impl; [|exact inv_fresh0]. simpl. lia.
Qed.

Lemma retransmit_preserves S R data acks sent del base r ps ks cs now timeout max cell S' bytes :
  link_inv (mkLink S R data acks sent del) base r ps ks cs →
  poll_retransmit S now timeout max = (RetransmitSend cell, S') →
  SpiCell_encode cell = Ok bytes →
  ∃ p ps', ps = p :: ps' ∧ cell = pending_cell p ∧
    link_inv (mkLink S' R (data ++ [bytes]) acks sent del) base r
      (mkPendingCell cell now (u8_saturating_add (attempts p) 1) :: ps') (ks ++ [base]) cs.
Proof.
  intros [] Hp Hb. cbn in *. rewrite (poll_view _ ps) in Hp by done.
  destruct ps as [|p ps]; [done|]. case_decide; [done|]. case_decide; [done|].
  injection Hp as <- <-. cbn [length] in *.
  exists p, ps. split; [done|]. split; [done|].
  split; cbn; auto; try lia.
  - split; [done|]. destruct inv_view0. done.
  - intros [|i] q Hi; [|by apply (inv_pending0 (1 + i)%nat)].
    injection Hi as <-. apply (inv_pending0 0%nat p). done.
  - apply Forall2_app; [done|]. constructor; [|constructor].
    eapply carries_decode; [|done]. rewrite <- (Nat.add_0_r base). by apply (inv_pending0 0%nat).
  - apply Forall_app. split; [done|]. constructor; [|constructor].
    destruct inv_view0 as [_ Hw]. unfold SPI_TX_WINDOW in Hw. cbn in Hw. lia.
  - apply fifo_snoc; [done|]. eapply List.Forall_impl; [|exact inv_fresh0].
    destruct inv_view0 as [_ Hw]. unfold SPI_TX_WINDOW in Hw. cbn in Hw. simpl. lia.
Qed.

Lemma piggyback_preserves S R data acks sent del base r ps ks cs ack :
  link_inv (mkLink S R data acks sent del) base r ps ks cs → u16_ok ack →
  link_inv (mkLink (set_cumulative_ack S ack) R data acks sent del) base r
    (map (set_cell_ack ack) ps) ks cs.
Proof.
  intros [] Ha. cbn in *. split; cbn; auto; rewrite ?length_map; auto.
  - by apply set_ack_view.
  - intros i p Hi. apply list_lookup_fmap_Some in Hi as (q & -> & Hq).
    apply carries_set_ack; [done|]. by apply inv_pending0.
Qed.

(** Dropping an element keeps every pairwise condition. *)
Lemma pairwise_drop {A} (P : A → A → Prop) (l1 l2 : list A) x :
  (∀ i j a b, (i < j)%nat → (l1 ++ x :: l2) !! i = Some a → (l1 ++ x :: l2) !! j = Some b → P a b) →
  ∀ i j a b, (i < j)%nat → (l1 ++ l2) !! i = Some a → (l1 ++ l2) !! j = Some b → P a b.
Proof.
  intros H i j a b Hij Hi Hj.
  set (f := λ i, if decide (i < length l1)%nat then i else S i).
  assert (∀ i, (l1 ++ x :: l2) !! f i = (l1 ++ l2) !! i) as Hf.
  { intros n. unfold f. case_decide.
    - by rewrite !lookup_app_l.
    - rewrite !lookup_app_r by lia.
      by replace (S n - length l1)%nat with (S (n - length l1)) by lia. }
  apply (H (f i) (f j)); [unfold f; repeat case_decide; lia|by rewrite Hf..].
Qed.

Lemma lose_preserves S R d1 b d2 acks sent del base r ps ks cs :
  link_inv (mkLink S R (d1 ++ b :: d2) acks sent del) base r ps ks cs →
  ∃ ks', link_inv (mkLink S R (d1 ++ d2) acks sent del) base r ps ks' cs.
Proof.
  intros []. cbn in *.
  apply Forall2_app_inv_l in inv_data0 as (k1 & ks' & H1 & H2 & ->).
  apply Forall2_cons_inv_l in H2 as (k & k2 & Hk & H2 & ->).
  exists (k1 ++ k2). split; cbn; auto.
  - by apply Forall2_app.
  - apply Forall_app in inv_fresh0 as [? Hf]. inversion_clear Hf. by apply Forall_app.
  - by eapply (pairwise_drop (λ a b, a < b + 4)%nat).
Qed.

Lemma corrupt_preserves S R d1 b b' d2 acks sent del base r ps ks cs :
  link_inv (mkLink S R (d1 ++ b :: d2) acks sent del) base r ps ks cs →
  is_ok (SpiCell_decode b') = false →
  link_inv (mkLink S R (d1 ++ b' :: d2) acks sent del) base r ps ks cs.
Proof.
  intros [] Hb. cbn in *. split; cbn; auto.
  apply Forall2_app_inv_l in inv_data0 as (k1 & ks' & H1 & H2 & ->).
  apply Forall2_cons_inv_l in H2 as (k & k2 & Hk & H2 & ->).
  apply Forall2_app; [done|]. constructor; [|done].
  intros c Hc. by rewrite Hc in Hb.
Qed.

Lemma lose_ack_preserves S R data a1 a a2 sent del base r ps ks cs :
  link_inv (mkLink S R data (a1 ++ a :: a2) sent del) base r ps ks cs →
  ∃ cs', link_inv (mkLink S R data (a1 ++ a2) sent del) base r ps ks cs'.
Proof.
  intros []. cbn in *. symmetry in inv_acks0.
  apply map_eq_app in inv_acks0 as (c1 & cs' & -> & <- & H2).
  destruct cs' as [|c c2]; [done|]. injection H2 as <- <-.
  exists (c1 ++ c2). split; cbn; auto.
  - by rewrite map_app.
  - apply Forall_app in inv_acks_range0 as [? Hf]. inversion_clear Hf. by apply Forall_app.
  - by eapply (pairwise_drop (λ a b, a ≤ b)%nat).
Qed.

Lemma emit_ack_preserves S R data acks sent del base r ps ks cs :
  link_inv (mkLink S R data acks sent del) base r ps ks cs →
  link_inv (mkLink S R data (acks ++ [receiver_cumulative_ack R]) sent del)
    base r ps ks (cs ++ [r]).
Proof.
  intros []. cbn in *. split; cbn; auto.
  - rewrite map_app, inv_acks0, inv_rack0. done.
  - apply Forall_app. split; [done|]. constructor; [lia|constructor].
  - intros i j ci cj Hij Hi Hj.
    apply lookup_snoc_inv in Hi as [Hi|[-> ->]]; apply lookup_snoc_inv in Hj as [Hj|[-> ->]].
    + eauto.
    + eapply (Forall_lookup_1 _ _ _ _ inv_acks_range0) in Hi. simpl in Hi. lia.
    + apply lookup_lt_Some in Hj. lia.
    + lia.
Qed.

(** The receiver accepts the next message and nothing else. *)
Lemma receive_classifies R r sent k c :
  receiver_session_id R = Some session ∨ receiver_session_id R = None ∧ r = 0%nat →
  receiver_cumulative_ack R = ack_of r → carries sent k c →
  (r ≤ k + 4)%nat → (k ≤ r + 3)%nat →
  ∃ changed,
  receive R c =
    if decide (k = r) then
      (DispAccepted changed (ack_of (S r)), mkReliableReceiver (Some session) (ack_of (S r)))
    else if decide (k < r)%nat then
      (DispDuplicate (ack_of r), mkReliableReceiver (Some session) (ack_of r))
    else
      (DispGap (seq_of r) (ack_of r), mkReliableReceiver (Some session) (ack_of r)).
Proof.
  intros Hs Ha (_ & Hsid & Hseq & _) H1 H2. unfold receive. rewrite Hsid, Hseq.
  set (changed := bool_decide _). exists changed.
  set (R' := if changed then _ else R).
  assert (R' = mkReliableReceiver (Some session) (ack_of r)) as ->.
  { unfold R', changed. destruct R as [s a]. cbn in *. destruct Hs as [->|[-> ->]].
    - rewrite bool_decide_false by (intros Hn; by apply Hn). by rewrite Ha.
    - by rewrite bool_decide_true. }
  cbn [receiver_cumulative_ack receiver_session_id].
  pose proof (seq_of_bound k) as Hb. rewrite decide_False by lia.
  rewrite next_sequence_ack.
  destruct (decide (k = r)) as [->|Hne]; [by rewrite decide_True|].
  rewrite decide_False by (intros Heq; apply Hne; eapply seq_of_inj; [| |done]; lia).
  destruct (decide (k < r)%nat); [|by rewrite is_recent_ahead by lia].
  unfold is_recent_sequence. rewrite is_recent_loop_true; [done|lia|unfold SPI_TX_WINDOW; lia].
Qed.

Lemma deliver_preserves S R bytes data acks sent del base r ps ks cs new R' :
  link_inv (mkLink S R (bytes :: data) acks sent del) base r ps ks cs →
  link_receive R bytes = (new, R') →
  ∃ k ks' r', ks = k :: ks' ∧ (r ≤ r')%nat ∧
    (is_ok (SpiCell_decode bytes) = true → k ≤ r → k < r')%nat ∧
    link_inv (mkLink S R' data acks sent (del ++ new)) base r' ps ks' cs.
Proof.
  intros Hinv Hr. destruct Hinv. cbn in *.
  apply Forall2_cons_inv_l in inv_data0 as (k & ks' & Hk & Hks & ->).
  inversion_clear inv_fresh0 as [|? ? [Hkn Hrk] Hfresh].
  assert (∀ i j ki kj, (i < j)%nat → ks' !! i = Some ki → ks' !! j = Some kj →
    (ki < kj + 4)%nat) as Hfifo
    by (intros i j ki kj Hij Hi Hj; apply (inv_fifo0 (1 + i)%nat (1 + j)%nat); [lia|done..]).
  (* a transaction that changes nothing but the receiver's session *)
  assert (∀ R'', (receiver_session_id R'' = Some session ∨
      receiver_session_id R'' = None ∧ r = 0%nat) →
    receiver_cumulative_ack R'' = ack_of r →
    link_inv (mkLink S R'' data acks sent (del ++ [])) base r ps ks' cs) as Hsame.
  { intros R'' H1 H2. split; cbn; auto. by rewrite app_nil_r. }
  unfold link_receive in Hr. destruct (SpiCell_decode bytes) as [c|e] eqn:Hd.
  2: { injection Hr as <- <-. exists k, ks', r. split; [done|]. split; [lia|]. split; [done|].
       by apply Hsame. }
  specialize (Hk c Hd).
  assert (k ≤ r + 3)%nat as Hk3
    by (destruct inv_view0 as [_ Hw]; unfold SPI_TX_WINDOW in Hw; lia).
  destruct (receive_classifies R r sent k c inv_receiver0 inv_rack0 Hk Hrk Hk3) as [ch Hrec].
  destruct (decide (k = r)) as [->|Hne].
  - rewrite Hrec in Hr. injection Hr as <- <-. destruct Hk as (_ & _ & _ & Hlk).
    exists r, ks', (1 + r)%nat. split; [done|]. split; [lia|]. split; [lia|].
    split; cbn; auto; try lia.
    + rewrite inv_delivered0. symmetry. by apply take_S_r.
    + apply Forall_lookup_2. intros i ki Hi.
      pose proof (Forall_lookup_1 _ _ _ _ Hfresh Hi) as [Hlt _]. split; [done|].
      pose proof (inv_fifo0 0%nat (1 + i)%nat r ki ltac:(lia) eq_refl Hi). lia.
    + eapply List.Forall_impl; [|exact inv_acks_range0]. simpl. lia.
  - exists k, ks', r. split; [done|]. split; [lia|]. split; [lia|].
    rewrite Hrec in Hr. case_decide; injection Hr as <- <-; apply Hsame; auto.
Qed.

Lemma ack_preserves S R data a acks sent del base r ps ks cs n S' :
  link_inv (mkLink S R data (a :: acks) sent del) base r ps ks cs →
  sender_acknowledge S a = (n, S') →
  ∃ c cs', cs = c :: cs' ∧
    link_inv (mkLink S' R data acks sent del) c r (drop (c - base) ps) ks cs'.
Proof.
  intros Hinv Hack. destruct Hinv. cbn in *.
  destruct cs as [|c cs]; [done|]. injection inv_acks0 as -> ->.
  inversion_clear inv_acks_range0 as [|? ? Hc Hcs].
  assert (∀ i j ci cj, (i < j)%nat → cs !! i = Some ci → cs !! j = Some cj →
    (ci ≤ cj)%nat) as Hfifo
    by (intros i j ci cj Hij Hi Hj; apply (inv_acks_fifo0 (1 + i)%nat (1 + j)%nat); [lia|done..]).
  assert (Forall (λ c', c ≤ c' ≤ r)%nat cs) as Hcs'.
  { apply Forall_lookup_2. intros i ci Hi.
    pose proof (Forall_lookup_1 _ _ _ _ Hcs Hi) as Hci. simpl in Hci.
    pose proof (inv_acks_fifo0 0%nat (1 + i)%nat c ci ltac:(lia) eq_refl Hi). lia. }
  pose proof inv_view0 as Hview. destruct Hview as [_ Hw]. unfold SPI_TX_WINDOW in Hw.
  assert (∀ i p, ps !! i = Some p → pending_seq p = seq_of (base + i)) as Hseq
    by (intros i p Hi; by apply inv_pending0).
  rewrite (acknowledge_view _ ps) in Hack by done.
  exists c, cs. split; [done|].
  assert (n = (c - base)%nat ∧ S' = S <| pending := slots (drop (c - base) ps) |>) as [-> ->].
  { destruct (position _ ps) as [i|] eqn:Hpos.
    - injection Hack as <- <-.
      apply position_Some in Hpos as (p & Hp & Heq).
      apply bool_decide_eq_true in Heq. rewrite (Hseq i p Hp) in Heq.
      assert (i < length ps)%nat by by eapply lookup_lt_Some.
      destruct c as [|c]; [pose proof (seq_of_bound (base + i)); simpl in Heq; lia|].
      cbn in Heq. apply seq_of_inj in Heq; [|lia..].
      replace (Datatypes.S c - base)%nat with (Datatypes.S i) by lia. done.
    - injection Hack as <- <-.
      destruct (decide (c = base)) as [->|Hne].
      + rewrite Nat.sub_diag, drop_0. split; [done|]. destruct S, inv_view0 as [Hp _].
        unfold upd. cbn in *. by rewrite Hp.
      + exfalso. destruct (lookup_lt_is_Some_2 ps (c - base - 1)) as [p Hp]; [lia|].
        pose proof (position_None _ _ _ _ Hpos Hp) as Hf. apply bool_decide_eq_false in Hf.
        apply Hf. rewrite (Hseq _ p Hp). destruct c as [|c]; [lia|].
        cbn [ack_of]. f_equal. lia. }
  split; cbn; auto; try lia.
  - split; [done|]. rewrite length_drop. unfold SPI_TX_WINDOW. lia.
  - rewrite length_drop. lia.
  - intros i p Hi. rewrite lookup_drop in Hi. apply inv_pending0 in Hi.
    by replace (c + i)%nat with (base + (c - base + i))%nat by lia.
Qed.

(** ** Every step preserves the invariant *)

Definition link_ok (L : Link) : Prop := ∃ base r ps ks cs, link_inv L base r ps ks cs.

Lemma step_preserves timeout max L L' : link_step timeout max L L' → link_ok L → link_ok L'.
Proof.
  intros Hstep (base & r & ps & ks & cs & H). destruct Hstep.
  - do 5 eexists. by eapply queue_preserves.
  - eapply retransmit_preserves in H as (p & ps' & _ & _ & H); [|done..]. by do 5 eexists.
  - do 5 eexists. by apply piggyback_preserves.
  - eapply lose_preserves in H as [ks' H]. by do 5 eexists.
  - do 5 eexists. by eapply corrupt_preserves.
  - eapply deliver_preserves in H as (k & ks' & r' & _ & _ & _ & H); [|done]. by do 5 eexists.
  - do 5 eexists. by apply emit_ack_preserves.
  - eapply lose_ack_preserves in H as [cs' H]. by do 5 eexists.
  - eapply ack_preserves in H as (c & cs' & _ & H); [|done]. by do 5 eexists.
Qed.

Lemma reachable_ok timeout max L : rtc (link_step timeout max) (link_init session) L → link_ok L.
Proof.
  intros H. assert (link_ok (link_init session)) as H0
    by (do 5 eexists; apply link_inv_init).
  induction H as [|L L' L'' Hs _ IH]; eauto using step_preserves.
Qed.

(** ** Recovery *)

Lemma lose_everything timeout max S R data acks sent del base r ps ks cs :
  link_inv (mkLink S R data acks sent del) base r ps ks cs →
  rtc (link_step timeout max) (mkLink S R data acks sent del) (mkLink S R [] [] sent del) ∧
  link_inv (mkLink S R [] [] sent del) base r ps [] [].
Proof.
  intros H. split.
  - trans (mkLink S R [] acks sent del).
    + clear H. induction data as [|b data IH]; [done|].
      eapply rtc_l; [|exact IH]. apply (step_lose _ _ S R []).
    + clear H. induction acks as [|a acks IH]; [done|].
      eapply rtc_l; [|exact IH]. apply (step_lose_ack _ _ S R [] []).
  - destruct H. cbn in *. split; cbn; auto; done.
Qed.

(** One retransmission, delivered and acknowledged, retires the oldest message. *)
Lemma recover_one timeout max S R data acks sent del base r p ps ks cs :
  link_inv (mkLink S R data acks sent del) base r (p :: ps) ks cs →
  attempts p < max →
  ∃ S' R' r',
    rtc (link_step timeout max) (mkLink S R data acks sent del)
      (mkLink S' R' [] [] sent (take r' sent)) ∧
    (base < r')%nat ∧
    link_inv (mkLink S' R' [] [] sent (take r' sent)) r' r'
      (drop (r' - base) (p :: ps)) [] [].
Proof.
  intros H Hp. apply (lose_everything timeout max) in H as [Hrtc H].
  set (now := last_sent_ms p + Z.max 0 timeout).
  assert (∃ S1, poll_retransmit S now timeout max = (RetransmitSend (pending_cell p), S1))
    as [S1 Hpoll].
  { rewrite (poll_view _ (p :: ps)) by apply H.
    rewrite decide_False by (unfold saturating_sub, now; lia).
    rewrite decide_False by lia. eauto. }
  assert (carries sent base (pending_cell p)) as Hcar.
  { rewrite <- (Nat.add_0_r base). by eapply (inv_pending _ _ _ _ _ _ H 0%nat). }
  destruct (cell_wire_roundtrip _ (proj1 Hcar)) as (b & Henc & _ & _ & Hdec).
  eapply retransmit_preserves in H as H1; [|done..].
  destruct H1 as (p0 & ps0 & [= <- <-] & _ & H1).
  destruct (link_receive R b) as [new R1] eqn:Hrecv.
  eapply deliver_preserves in H1 as (k & ks' & r' & [= <- <-] & Hle & Hk & H2); [|done].
  assert (base < r')%nat as Hr' by (apply Hk; [by rewrite Hdec|apply H]).
  eapply emit_ack_preserves in H2 as H3. cbn [app] in H3.
  destruct (sender_acknowledge S1 (receiver_cumulative_ack R1)) as [n S2] eqn:Hack.
  eapply ack_preserves in H3 as H4; [|done]. destruct H4 as (c & cs' & [= <- <-] & H4).
  pose proof (inv_delivered _ _ _ _ _ _ H4) as Hdel. cbn in Hdel.
  exists S2, R1, r'. rewrite <- Hdel. split; [|split; [done|]].
  - etrans; [exact Hrtc|].
    eapply rtc_l; [by eapply (step_retransmit timeout max S R [])|].
    eapply rtc_l; [by eapply (step_deliver timeout max S1 R b [])|].
    eapply rtc_l; [by eapply (step_emit_ack timeout max S1 R1 [] [])|].
    eapply rtc_l; [by eapply (step_ack timeout max S1 R1 [] _ [])|]. done.
  - destruct (r' - base)%nat as [|n'] eqn:En; [lia|]. exact H4.
Qed.

Lemma recover_all timeout max L base r ps ks cs :
  link_inv L base r ps ks cs → Forall (λ p, attempts p < max) ps →
  ∃ S' R', rtc (link_step timeout max) L
             (mkLink S' R' [] [] (l_sent L) (l_sent L)) ∧ sender_view S' [].
Proof.
  remember (length ps) as n eqn:Hn. revert L base r ps ks cs Hn.
  induction n as [n IH] using lt_wf_ind. intros [S R data acks sent del] base r ps ks cs Hn H Hps.
  destruct ps as [|p ps].
  - apply (lose_everything timeout max) in H as [Hrtc H]. exists S, R.
    pose proof (inv_delivered _ _ _ _ _ _ H) as Hdel.
    pose proof (inv_order _ _ _ _ _ _ H) as Hr. pose proof (inv_window _ _ _ _ _ _ H) as Hw.
    cbn in *. rewrite take_ge in Hdel by lia. subst del. split; [done|]. apply H.
  - inversion_clear Hps as [|? ? Hp Hps'].
    destruct (recover_one timeout max _ _ _ _ _ _ _ _ _ _ _ _ H Hp) as (S' & R' & r' & Hr & Hlt & H').
    destruct (IH (length (drop (r' - base) (p :: ps)))) with
      (L := mkLink S' R' [] [] sent (take r' sent)) (base := r') (r := r')
      (ps := drop (r' - base) (p :: ps)) (ks := @nil nat) (cs := @nil nat)
      as (S2 & R2 & Hr2 & Hv); try done.
    + rewrite Hn, length_drop. cbn. lia.
    + apply Forall_drop. by constructor.
    + exists S2, R2. split; [|done]. by etrans.
Qed.
End Session.

(** ** Properties *)

(** The messages of the cells the sender still holds, oldest first. *)
Definition held_messages (S : ReliableSender) : list message :=
  map (λ p, (SpiCell_payload (pending_cell p), record_count (header (pending_cell p))))
    (omap id (pending S)).

Lemma omap_slots ps : (length ps ≤ SPI_TX_WINDOW)%nat → omap id (slots ps) = ps.
Proof. intros H. by four ps. Qed.

(** A run: a message is queued, its transaction is lost, it is sent again and
    accepted. *)
Lemma lossy_run timeout max session m t0 t1 c1 S1 b1 c2 S2 b2 new R :
  bytes_ok m.1 → u8_ok m.2 →
  sender_queue (ReliableSender_new session) m.1 m.2 t0 = Ok (c1, S1) →
  SpiCell_encode c1 = Ok b1 →
  poll_retransmit S1 t1 timeout max = (RetransmitSend c2, S2) →
  SpiCell_encode c2 = Ok b2 →
  link_receive ReliableReceiver_new b2 = (new, R) →
  rtc (link_step timeout max) (link_init session) (mkLink S2 R [] [] [m] new).
Proof.
  intros Hp Hc Hq Hb1 Hr Hb2 Hrecv. destruct m as [payload count].
  eapply rtc_l; [by eapply step_queue|].
  eapply rtc_l; [apply (step_lose _ _ _ _ [])|].
  eapply rtc_l; [by eapply step_retransmit|].
  eapply rtc_l; [by eapply step_deliver|]. apply rtc_refl.
Qed.

Lemma sample_run : ∃ L, rtc (link_step 20 3) (link_init 7) L ∧
  l_sent L = [([1; 2], 1)] ∧ l_delivered L = [([1; 2], 1)] ∧
  Forall (λ p, attempts p < 3) (omap id (pending (l_sender L))).
Proof.
  destruct (sender_queue (ReliableSender_new 7) [1; 2] 1 0) as [[c1 S1]|] eqn:E1;
    vm_compute in E1; [|discriminate E1].
  destruct (SpiCell_encode c1) as [b1|] eqn:E2; [|injection E1 as <- <-; discriminate E2].
  destruct (poll_retransmit S1 50 20 3) as [a S2] eqn:E3.
  destruct a as [|c2|]; [injection E1 as <- <-; discriminate E3| |
    injection E1 as <- <-; discriminate E3].
  destruct (SpiCell_encode c2) as [b2|] eqn:E4.
  2: { injection E1 as <- <-. vm_compute in E3. injection E3 as <- <-. discriminate E4. }
  destruct (link_receive ReliableReceiver_new b2) as [new R] eqn:E5.
  eexists. split; [eapply (lossy_run 20 3 7 ([1; 2], 1) 0 50); try eassumption|].
  - apply (bool_decide_unpack _); vm_compute; exact I.
  - apply (bool_decide_unpack _); vm_compute; exact I.
  - injection E1 as <- <-. vm_compute in E3. injection E3 as <- <-.
    vm_compute in E4. injection E4 as <-. vm_compute in E5. injection E5 as <- <-.
    split; [reflexivity|]. split; [reflexivity|].
    apply (bool_decide_unpack _); vm_compute; exact I.
Qed.

(** C1: exactly-once, in-order delivery.  In every reachable state of the lossy link
    the receiver has accepted a prefix of the queued messages, each once and in
    order, and every message it has not accepted is still held by the sender for
    retransmission: nothing is lost, duplicated or reordered. *)
Theorem link_exactly_once session timeout max L :
  u32_ok session → rtc (link_step timeout max) (link_init session) L →
  ∃ base r,
    (base ≤ r)%nat ∧
    l_delivered L = take r (l_sent L) ∧
    held_messages (l_sender L) = drop base (l_sent L).
Proof.
  intros Hs H. apply (reachable_ok session Hs) in H as (base & r & ps & ks & cs & []).
  exists base, r. split; [lia|]. split; [done|].
  unfold held_messages. destruct inv_view0 as [-> Hw]. rewrite omap_slots by done.
  apply list_eq. intros i. rewrite lookup_drop, list_lookup_fmap.
  destruct (ps !! i) as [p|] eqn:Hi; simpl.
  - symmetry. by apply inv_pending0.
  - symmetry. apply lookup_ge_None. apply lookup_ge_None in Hi. lia.
Qed.

Lemma link_exactly_once_witness :
  ∃ L, l_sent L = [([1; 2], 1)] ∧
    ∃ base r, (base ≤ r)%nat ∧ l_delivered L = take r (l_sent L) ∧
      held_messages (l_sender L) = drop base (l_sent L).
Proof.
  destruct sample_run as (L & Hrun & Hs & _). exists L. split; [exact Hs|].
  apply (link_exactly_once 7 20 3 L ltac:(words) Hrun).
Defined.

(** C8: the link never wedges: whatever has been lost, duplicated by retransmission
    or damaged, as long as no held cell has used up its attempts, some run of
    retransmissions and acknowledgements delivers every queued message and
    empties the window. *)
Theorem link_recovers session timeout max L :
  u32_ok session → rtc (link_step timeout max) (link_init session) L →
  Forall (λ p, attempts p < max) (omap id (pending (l_sender L))) →
  ∃ L', rtc (link_step timeout max) L L' ∧
    l_sent L' = l_sent L ∧ l_delivered L' = l_sent L ∧ pending_len (l_sender L') = 0%nat.
Proof.
  intros Hs H Hatt. apply (reachable_ok session Hs) in H as (base & r & ps & ks & cs & H).
  destruct (inv_view _ _ _ _ _ _ _ H) as [Hp Hw]. rewrite Hp, omap_slots in Hatt by done.
  destruct (recover_all session timeout max _ _ _ _ _ _ H Hatt) as (S' & R' & Hrtc & Hv).
  eexists. split; [exact Hrtc|]. split; [done|]. split; [done|]. cbn.
  by rewrite (pending_len_view _ _ Hv).
Qed.

Lemma link_recovers_witness :
  ∃ L L', l_sent L = [([1; 2], 1)] ∧ rtc (link_step 20 3) L L' ∧
    l_delivered L' = [([1; 2], 1)] ∧ pending_len (l_sender L') = 0%nat.
Proof.
  destruct sample_run as (L & Hrun & Hs & _ & Hatt).
  destruct (link_recovers 7 20 3 L ltac:(words) Hrun Hatt) as (L' & H1 & _ & H3 & H4).
  exists L, L'. rewrite Hs in H3. split; [exact Hs|]. split; [exact H1|].
  split; [exact H3|exact H4].
Defined.
