(* ===== verification/Input.v ===== *)
(** * Physical input state ([src/src/ids.rs], [src/src/input/])

    The keyboard, mouse and consumer state of one interface or of all of them
    together, the suppression that hides keys held during a host switch, and the
    input frames.  Identifiers and one-field wrappers ([DeviceId], [KeyUsage],
    [MouseButtons], the bitflags) are their [Z].  An operation that mutates its
    receiver and returns a [Result] gives both, since the receiver keeps what the
    loop did before the error. *)

From S2P Require Import Prelude.

(** ** Identifiers *)

Definition HOST_SLOT_MIN : Z := 1.
Definition HOST_SLOT_MAX : Z := 4.
Definition HOST_SLOT_COUNT : nat := Z.to_nat (HOST_SLOT_MAX - HOST_SLOT_MIN + 1).

(** [HostSlot::try_from(u8)]; the error carries the value. *)
Definition HostSlot_try_from (value : Z) : Result Z Z :=
  if decide (HOST_SLOT_MIN ≤ value ≤ HOST_SLOT_MAX) then Ok value else Err value.

Definition HostId_validated (host : Z) : Result Z Z := HostSlot_try_from host.

(** ** Data *)

Inductive InputError := KeyCapacity | DeviceCapacity | VendorPayloadCapacity.
#[export] Instance InputError_eq_dec : EqDecision InputError.
Proof. solve_decision. Defined.

Definition PHYSICAL_KEYBOARD_KEY_CAPACITY : nat := 32.

Inductive Modifier :=
| LeftCtrl | LeftShift | LeftAlt | LeftGui | RightCtrl | RightShift | RightAlt | RightGui.

Definition Modifier_flag (m : Modifier) : Z :=
  match m with
  | LeftCtrl => 1 | LeftShift => 2 | LeftAlt => 4 | LeftGui => 8
  | RightCtrl => 16 | RightShift => 32 | RightAlt => 64 | RightGui => 128
  end.

(** [ModifierState::set]. *)
Definition set_modifier_state (state : Z) (m : Modifier) (pressed : bool) : Z :=
  if pressed then Z.lor state (Modifier_flag m)
  else Z.land state (u8_not (Modifier_flag m)).

Record KeyboardFrame := mkKeyboardFrame {
  frame_modifiers : Z;
  frame_keys : list Z
}.

Definition KeyboardFrame_new (modifiers : Z) : KeyboardFrame := mkKeyboardFrame modifiers [].

Record PhysicalKeyboardState := mkPhysicalKeyboard {
  kb_modifiers : Z;
  kb_keys : list Z
}.
#[export] Instance eta_PhysicalKeyboardState : Eta PhysicalKeyboardState :=
  λ r, mkPhysicalKeyboard (kb_modifiers r) (kb_keys r).
#[export] Instance PhysicalKeyboardState_eq_dec : EqDecision PhysicalKeyboardState.
Proof. solve_decision. Defined.

Record KeyboardSuppression := mkSuppression {
  supp_modifiers : Z;
  supp_keys : list Z
}.
#[export] Instance eta_KeyboardSuppression : Eta KeyboardSuppression :=
  λ r, mkSuppression (supp_modifiers r) (supp_keys r).

Record VisibleKeyboardState := mkVisibleKeyboard {
  visible_modifiers : Z;
  visible_keys : list Z;
  visible_truncated : bool
}.

Definition contains (keys : list Z) (key : Z) : bool := bool_decide (key ∈ keys).

(** [remove_key]: drop the first occurrence. *)
Definition remove_key (keys : list Z) (key : Z) : list Z :=
  match position (λ candidate, bool_decide (candidate = key)) keys with
  | Some index => delete index keys
  | None => keys
  end.

(** ** [KeyboardFrame] *)

Definition push_key (self : KeyboardFrame) (key : Z) : KeyboardFrame * Result InputError unit :=
  if contains (frame_keys self) key then (self, Ok tt)
  else match vec_push PHYSICAL_KEYBOARD_KEY_CAPACITY key (frame_keys self) with
       | Some keys => (mkKeyboardFrame (frame_modifiers self) keys, Ok tt)
       | None => (self, Err KeyCapacity)
       end.

(** ** [PhysicalKeyboardState] *)

Definition PhysicalKeyboardState_new : PhysicalKeyboardState := mkPhysicalKeyboard 0 [].
Definition KeyboardSuppression_new : KeyboardSuppression := mkSuppression 0 [].

Definition press_key (self : PhysicalKeyboardState) (key : Z)
  : PhysicalKeyboardState * Result InputError unit :=
  if contains (kb_keys self) key then (self, Ok tt)
  else match vec_push PHYSICAL_KEYBOARD_KEY_CAPACITY key (kb_keys self) with
       | Some keys => (self <| kb_keys := keys |>, Ok tt)
       | None => (self, Err KeyCapacity)
       end.

(** [for key in keys { self.press_key(key)? }]. *)
Fixpoint press_keys (self : PhysicalKeyboardState) (keys : list Z)
  : PhysicalKeyboardState * Result InputError unit :=
  match keys with
  | [] => (self, Ok tt)
  | key :: keys =>
      match press_key self key with
      | (self, Ok _) => press_keys self keys
      | (self, Err e) => (self, Err e)
      end
  end.

(** [KeyboardSuppression::release_key] (private). *)
Definition suppression_release_key (self : KeyboardSuppression) (key : Z) : KeyboardSuppression :=
  self <| supp_keys ::= λ keys, remove_key keys key |>.

Definition release_key (self : PhysicalKeyboardState) (key : Z)
  (suppression : KeyboardSuppression) : PhysicalKeyboardState * KeyboardSuppression :=
  (self <| kb_keys ::= λ keys, remove_key keys key |>,
   suppression_release_key suppression key).

Definition set_modifier (self : PhysicalKeyboardState) (m : Modifier) (pressed : bool)
  : PhysicalKeyboardState :=
  self <| kb_modifiers ::= λ s, set_modifier_state s m pressed |>.

(** [KeyboardSuppression::retain_pressed_by]: the [while] loop over [index]; the
    fuel is the number of elements not yet looked at. *)
Fixpoint retain_loop (fuel index : nat) (state_keys keys : list Z) : list Z :=
  match fuel with
  | O => keys
  | S fuel =>
      match keys !! index with
      | None => keys
      | Some key =>
          if contains state_keys key then retain_loop fuel (S index) state_keys keys
          else retain_loop fuel index state_keys (delete index keys)
      end
  end.

Definition retain_pressed_by (self : KeyboardSuppression) (state : PhysicalKeyboardState)
  : KeyboardSuppression :=
  {| supp_modifiers := Z.land (supp_modifiers self) (kb_modifiers state);
     supp_keys := retain_loop (length (supp_keys self)) 0 (kb_keys state) (supp_keys self) |}.

(** The first loop of [apply_snapshot]: keys that are no longer down leave the state
    and the suppression. *)
Fixpoint release_loop (fuel index : nat) (keys_down keys : list Z)
  (suppression : KeyboardSuppression) : list Z * KeyboardSuppression :=
  match fuel with
  | O => (keys, suppression)
  | S fuel =>
      match keys !! index with
      | None => (keys, suppression)
      | Some key =>
          if contains keys_down key then release_loop fuel (S index) keys_down keys suppression
          else release_loop fuel index keys_down (delete index keys)
                 (suppression_release_key suppression key)
      end
  end.

Definition apply_snapshot (self : PhysicalKeyboardState) (modifiers : Z) (keys_down : list Z)
  (suppression : KeyboardSuppression)
  : PhysicalKeyboardState * KeyboardSuppression * Result InputError unit :=
  let self := self <| kb_modifiers := modifiers |> in
  let '(keys, suppression) :=
    release_loop (length (kb_keys self)) 0 keys_down (kb_keys self) suppression in
  match press_keys (self <| kb_keys := keys |>) keys_down with
  | (self, Ok _) => (self, retain_pressed_by suppression self, Ok tt)
  | (self, Err e) => (self, suppression, Err e)
  end.

Definition keyboard_apply_frame (self : PhysicalKeyboardState) (frame : KeyboardFrame)
  (suppression : KeyboardSuppression) :=
  apply_snapshot self (frame_modifiers frame) (frame_keys frame) suppression.

Definition apply_state (self state : PhysicalKeyboardState)
  (suppression : KeyboardSuppression) :=
  apply_snapshot self (kb_modifiers state) (kb_keys state) suppression.

(** [for key in keys { vec.push(key)? }]. *)
Fixpoint push_all (cap : nat) (vec keys : list Z) : list Z * Result InputError unit :=
  match keys with
  | [] => (vec, Ok tt)
  | key :: keys =>
      match vec_push cap key vec with
      | Some vec => push_all cap vec keys
      | None => (vec, Err KeyCapacity)
      end
  end.

Definition replace_with_frame (self : PhysicalKeyboardState) (frame : KeyboardFrame)
  : PhysicalKeyboardState * Result InputError unit :=
  let '(keys, r) := push_all PHYSICAL_KEYBOARD_KEY_CAPACITY [] (frame_keys frame) in
  (mkPhysicalKeyboard (frame_modifiers frame) keys, r).

(** The loop of [visible_against]. *)
Fixpoint visible_loop (suppression : KeyboardSuppression) (keys : list Z)
  (visible : VisibleKeyboardState) : VisibleKeyboardState :=
  match keys with
  | [] => visible
  | key :: keys =>
      if contains (supp_keys suppression) key then visible_loop suppression keys visible
      else visible_loop suppression keys
        match vec_push PHYSICAL_KEYBOARD_KEY_CAPACITY key (visible_keys visible) with
        | Some ks => mkVisibleKeyboard (visible_modifiers visible) ks (visible_truncated visible)
        | None => mkVisibleKeyboard (visible_modifiers visible) (visible_keys visible) true
        end
  end.

Definition visible_against (self : PhysicalKeyboardState) (suppression : KeyboardSuppression)
  : VisibleKeyboardState :=
  visible_loop suppression (kb_keys self)
    (mkVisibleKeyboard (Z.land (kb_modifiers self) (u8_not (supp_modifiers suppression)))
       [] false).

(** [for key in keys { frame.push_key(key)? }], the body of [to_frame]. *)
Fixpoint push_keys (frame : KeyboardFrame) (keys : list Z)
  : KeyboardFrame * Result InputError unit :=
  match keys with
  | [] => (frame, Ok tt)
  | key :: keys =>
      match push_key frame key with
      | (frame, Ok _) => push_keys frame keys
      | (frame, Err e) => (frame, Err e)
      end
  end.

Definition to_frame (self : PhysicalKeyboardState) : Result InputError KeyboardFrame :=
  match push_keys (KeyboardFrame_new (kb_modifiers self)) (kb_keys self) with
  | (frame, Ok _) => Ok frame
  | (_, Err e) => Err e
  end.

(** ** [KeyboardSuppression] *)

Definition capture_from (self : KeyboardSuppression) (state : PhysicalKeyboardState)
  : KeyboardSuppression * Result InputError unit :=
  let '(keys, r) := push_all PHYSICAL_KEYBOARD_KEY_CAPACITY [] (kb_keys state) in
  (mkSuppression (kb_modifiers state) keys, r).

(** The loop of [suppress_visible_after]: [visible] and [added] are its counters. *)
Fixpoint suppress_loop (self : KeyboardSuppression) (keys : list Z) (limit visible added : nat)
  : KeyboardSuppression * Result InputError nat :=
  match keys with
  | [] => (self, Ok added)
  | key :: keys =>
      if contains (supp_keys self) key then suppress_loop self keys limit visible added
      else if decide (visible < limit)%nat then suppress_loop self keys limit (S visible) added
      else match vec_push PHYSICAL_KEYBOARD_KEY_CAPACITY key (supp_keys self) with
           | Some ks => suppress_loop (self <| supp_keys := ks |>) keys limit visible (S added)
           | None => (self, Err KeyCapacity)
           end
  end.

Definition suppress_visible_after (self : KeyboardSuppression) (state : PhysicalKeyboardState)
  (limit : nat) : KeyboardSuppression * Result InputError nat :=
  suppress_loop self (kb_keys state) limit 0 0.

Definition visible_is_empty (v : VisibleKeyboardState) : bool :=
  bool_decide (visible_modifiers v = 0) && bool_decide (visible_keys v = []).

(** ** Mouse and consumer *)

Inductive MouseButton := MouseLeft | MouseRight | MouseMiddle | MouseBack | MouseForward.

Definition MouseButton_mask (b : MouseButton) : Z :=
  match b with
  | MouseLeft => 1 | MouseRight => 2 | MouseMiddle => 4 | MouseBack => 8 | MouseForward => 16
  end.

Definition MouseButtons_from_bits_truncate (bits : Z) : Z := Z.land bits 31.
Definition MouseButtons_contains (self : Z) (b : MouseButton) : bool :=
  bool_decide (Z.land self (MouseButton_mask b) ≠ 0).
Definition MouseButtons_without (self suppressed : Z) : Z := Z.land self (u8_not suppressed).
Definition MouseButtons_intersection (self other : Z) : Z := Z.land self other.
Definition MouseButtons_set (self : Z) (b : MouseButton) (pressed : bool) : Z :=
  if pressed then Z.lor self (MouseButton_mask b)
  else Z.land self (u8_not (MouseButton_mask b)).

Record MouseMovement := mkMouseMovement {
  move_x : Z; move_y : Z; move_wheel : Z; move_pan : Z
}.
#[export] Instance MouseMovement_eq_dec : EqDecision MouseMovement.
Proof. solve_decision. Defined.

Definition MouseMovement_neutral : MouseMovement := mkMouseMovement 0 0 0 0.

Record MouseFrame := mkMouseFrame { mouse_buttons : Z; mouse_movement : MouseMovement }.

Record MouseInputReport := mkMouseInputReport {
  mir_buttons : Z; mir_x : Z; mir_y : Z; mir_wheel : Z; mir_pan : Z
}.

Definition MouseInputReport_neutral : MouseInputReport := mkMouseInputReport 0 0 0 0 0.

(** [PhysicalMouseState] and [ConsumerState] are one field each. *)
Record PhysicalMouseState := mkPhysicalMouse { pm_buttons : Z }.
Definition PhysicalMouseState_new : PhysicalMouseState := mkPhysicalMouse 0.
Definition mouse_apply_frame (self : PhysicalMouseState) (frame : MouseFrame)
  : PhysicalMouseState := mkPhysicalMouse (mouse_buttons frame).

Record ConsumerFrame := mkConsumerFrame { cf_active : option Z }.
Record ConsumerState := mkConsumerState { cs_active : option Z }.
#[export] Instance ConsumerState_eq_dec : EqDecision ConsumerState.
Proof. solve_decision. Defined.
Definition ConsumerState_new : ConsumerState := mkConsumerState None.
Definition consumer_apply_frame (self : ConsumerState) (frame : ConsumerFrame)
  : ConsumerState := mkConsumerState (cf_active frame).

(** ** [input/mod.rs] *)

Record PhysicalInputState := mkPhysicalInput {
  pi_keyboard : PhysicalKeyboardState;
  pi_mouse : PhysicalMouseState;
  pi_consumer : ConsumerState
}.
#[export] Instance eta_PhysicalInputState : Eta PhysicalInputState :=
  λ r, mkPhysicalInput (pi_keyboard r) (pi_mouse r) (pi_consumer r).

Definition PhysicalInputState_new : PhysicalInputState :=
  mkPhysicalInput PhysicalKeyboardState_new PhysicalMouseState_new ConsumerState_new.

Record StandardInputFrame := mkStandardInputFrame {
  sif_device_id : Z;
  sif_interface_id : Z;
  sif_keyboard : option KeyboardFrame;
  sif_mouse : option MouseFrame;
  sif_consumer : option ConsumerFrame
}.

(** *** [vendor.rs] *)

Definition MAX_VENDOR_REPORT_SIZE : nat := 64.

Inductive HidDirection := HidInput | HidOutput | HidFeature.

Record VendorHidFrame := mkVendorHidFrame {
  vendor_device_id : Z;
  vendor_interface_id : Z;
  vendor_usage_page : Z;
  vendor_report_id : option Z;
  vendor_direction : HidDirection;
  vendor_payload : list Z
}.

Definition VendorHidFrame_new (device interface usage_page : Z) (report_id : option Z)
  (direction : HidDirection) (payload : list Z) : Result InputError VendorHidFrame :=
  if decide (length payload ≤ MAX_VENDOR_REPORT_SIZE)%nat
  then Ok (mkVendorHidFrame device interface usage_page report_id direction payload)
  else Err VendorPayloadCapacity.

Inductive InputFrame :=
| FrameStandard (frame : StandardInputFrame)
| FrameVendor (frame : VendorHidFrame).

(** ** What the keyboard operations compute

    The index loops are filters of the key lists; on well-formed states no push
    fails. *)

Record keyboard_ok (s : PhysicalKeyboardState) : Prop := {
  kb_modifiers_ok : u8_ok (kb_modifiers s);
  kb_keys_ok : bytes_ok (kb_keys s);
  kb_nodup : NoDup (kb_keys s);
  kb_len : (length (kb_keys s) ≤ PHYSICAL_KEYBOARD_KEY_CAPACITY)%nat
}.

Record frame_ok (f : KeyboardFrame) : Prop := {
  fr_modifiers_ok : u8_ok (frame_modifiers f);
  fr_keys_ok : bytes_ok (frame_keys f);
  fr_nodup : NoDup (frame_keys f);
  fr_len : (length (frame_keys f) ≤ PHYSICAL_KEYBOARD_KEY_CAPACITY)%nat
}.

Record suppression_ok (s : KeyboardSuppression) : Prop := {
  su_modifiers_ok : u8_ok (supp_modifiers s);
  su_nodup : NoDup (supp_keys s)
}.

#[export] Hint Resolve kb_modifiers_ok kb_keys_ok kb_nodup kb_len fr_modifiers_ok fr_keys_ok
  fr_nodup fr_len su_modifiers_ok su_nodup : hid.

Lemma contains_true l k : contains l k = true ↔ k ∈ l.
Proof. apply bool_decide_eq_true. Qed.

Lemma contains_false l k : contains l k = false ↔ k ∉ l.
Proof. apply bool_decide_eq_false. Qed.

(** Case analysis on [contains], with the membership it decides. *)
Ltac case_contains :=
  match goal with
  | |- context [contains ?l ?k] =>
      let E := fresh "E" in
      destruct (contains l k) eqn:E; [apply contains_true in E|apply contains_false in E]
  end.

Lemma filter_all {A} (P : A → Prop) `{∀ x, Decision (P x)} (l : list A) :
  Forall P l → filter P l = l.
Proof. induction 1 as [|x l Hx _ IH]; [done|]. by rewrite filter_cons_True, IH. Qed.

Lemma filter_none {A} (P : A → Prop) `{∀ x, Decision (P x)} (l : list A) :
  Forall (λ x, ¬ P x) l → filter P l = [].
Proof. induction 1 as [|x l Hx _ IH]; [done|]. by rewrite filter_cons_False, IH. Qed.

Lemma filter_ext_in {A} (P Q : A → Prop) `{∀ x, Decision (P x)} `{∀ x, Decision (Q x)}
  (l : list A) : (∀ x, x ∈ l → P x ↔ Q x) → filter P l = filter Q l.
Proof.
  induction l as [|x l IH]; intros H1; [done|].
  rewrite !filter_cons. rewrite IH by (intros y Hy; apply H1; by right).
  specialize (H1 x ltac:(left)). destruct (decide (P x)), (decide (Q x)); tauto.
Qed.

Lemma filter_filter' {A} (P Q : A → Prop) `{∀ x, Decision (P x)} `{∀ x, Decision (Q x)}
  (l : list A) : filter P (filter Q l) = filter (λ x, P x ∧ Q x) l.
Proof.
  induction l as [|x l IH]; [done|]. rewrite !filter_cons.
  destruct (decide (Q x)), (decide (P x ∧ Q x)); rewrite ?filter_cons;
    try destruct (decide (P x)); rewrite ?IH; tauto.
Qed.

Lemma remove_key_filter keys key : NoDup keys →
  remove_key keys key = filter (λ k, k ≠ key) keys.
Proof.
  unfold remove_key. induction 1 as [|k keys Hk Hnd IH]; [done|]. simpl.
  case_bool_decide as He.
  - subst k. rewrite filter_cons_False by tauto. simpl. symmetry. apply filter_all.
    apply List.Forall_forall. intros x Hx ->. apply Hk. by apply list_elem_of_In.
  - rewrite filter_cons_True by done. rewrite <- IH.
    by destruct (position _ keys).
Qed.

Lemma delete_middle {A} (pre : list A) x l : delete (length pre) (pre ++ x :: l) = pre ++ l.
Proof. induction pre as [|y pre IH]; [done|]. simpl. by rewrite IH. Qed.

Lemma lookup_middle {A} (pre : list A) x l : (pre ++ x :: l) !! length pre = Some x.
Proof. by rewrite list_lookup_middle. Qed.

Lemma retain_loop_filter sk keys pre fuel : (length keys ≤ fuel)%nat →
  retain_loop fuel (length pre) sk (pre ++ keys) = pre ++ filter (.∈ sk) keys.
Proof.
  revert keys pre. induction fuel as [|fuel IH]; intros keys pre Hf.
  { by destruct keys; [|simpl in Hf; lia]. }
  cbn [retain_loop]. destruct keys as [|k keys].
  - rewrite app_nil_r, lookup_ge_None_2 by lia. by rewrite filter_nil, app_nil_r.
  - rewrite lookup_middle. simpl in Hf. case_contains.
    + rewrite filter_cons_True by done. rewrite (cons_middle k pre keys), app_assoc.
      replace (S (length pre)) with (length (pre ++ [k])) by (rewrite length_app; simpl; lia).
      rewrite IH by lia. by rewrite <- app_assoc.
    + rewrite filter_cons_False by done. rewrite delete_middle. apply IH. lia.
Qed.

Lemma release_loop_filter kd keys pre supp fuel : (length keys ≤ fuel)%nat →
  release_loop fuel (length pre) kd (pre ++ keys) supp =
    (pre ++ filter (.∈ kd) keys,
     fold_left suppression_release_key (filter (.∉ kd) keys) supp).
Proof.
  revert keys pre supp. induction fuel as [|fuel IH]; intros keys pre supp Hf.
  { by destruct keys; [|simpl in Hf; lia]. }
  cbn [release_loop]. destruct keys as [|k keys].
  - rewrite app_nil_r, lookup_ge_None_2 by lia. by rewrite !filter_nil, app_nil_r.
  - rewrite lookup_middle. simpl in Hf. case_contains.
    + rewrite filter_cons_True by done. rewrite (filter_cons_False (.∉ kd)) by tauto.
      rewrite (cons_middle k pre keys), app_assoc.
      replace (S (length pre)) with (length (pre ++ [k])) by (rewrite length_app; simpl; lia).
      rewrite IH by lia. by rewrite <- app_assoc.
    + rewrite filter_cons_False by done. rewrite (filter_cons_True (.∉ kd)) by done.
      rewrite delete_middle. by rewrite IH by lia.
Qed.

Lemma release_fold_keys ks supp : NoDup (supp_keys supp) →
  fold_left suppression_release_key ks supp =
    mkSuppression (supp_modifiers supp) (filter (.∉ ks) (supp_keys supp)).
Proof.
  revert supp. induction ks as [|k ks IH]; intros supp Hnd; simpl.
  - destruct supp as [m keys]. simpl. f_equal. symmetry. apply filter_all.
    apply List.Forall_forall. intros x _. apply not_elem_of_nil.
  - rewrite IH; unfold suppression_release_key, upd; simpl;
      rewrite remove_key_filter by done; [|by apply list.NoDup_filter].
    f_equal. rewrite filter_filter'. apply filter_ext_in. intros x _.
    rewrite not_elem_of_cons. tauto.
Qed.

Lemma press_keys_spec s ks : NoDup ks →
  (length (kb_keys s ++ filter (.∉ kb_keys s) ks) ≤ PHYSICAL_KEYBOARD_KEY_CAPACITY)%nat →
  press_keys s ks =
    (s <| kb_keys := kb_keys s ++ filter (.∉ kb_keys s) ks |>, Ok tt).
Proof.
  intros Hnd. revert s. induction Hnd as [|k ks Hk Hnd IH]; intros [m keys] Hl;
    cbn [press_keys kb_keys kb_modifiers] in *.
  { unfold upd. cbn. by rewrite app_nil_r. }
  unfold press_key. cbn [kb_keys]. case_contains.
  - rewrite filter_cons_False in Hl |- * by tauto. by apply IH.
  - rewrite filter_cons_True in Hl |- * by done. rewrite length_app in Hl. simpl in Hl.
    unfold vec_push. rewrite decide_True by lia. unfold upd. cbn [kb_keys kb_modifiers].
    assert (filter (.∉ keys ++ [k]) ks = filter (.∉ keys) ks) as Hext.
    { apply filter_ext_in. intros x Hx. rewrite not_elem_of_app, not_elem_of_cons.
      split; [tauto|]. intros ?. repeat split; [done| |apply not_elem_of_nil].
      intros ->. by apply Hk. }
    rewrite IH; cbn; rewrite Hext; [|rewrite !length_app; simpl; lia].
    unfold upd. cbn. by rewrite <- app_assoc.
Qed.

Lemma push_all_spec cap vec ks : (length (vec ++ ks) ≤ cap)%nat →
  push_all cap vec ks = (vec ++ ks, Ok tt).
Proof.
  revert vec. induction ks as [|k ks IH]; intros vec Hl; simpl.
  { by rewrite app_nil_r. }
  rewrite length_app in Hl. simpl in Hl. unfold vec_push. rewrite decide_True by lia.
  rewrite IH by (rewrite !length_app; simpl; lia). by rewrite <- app_assoc.
Qed.

(** The state after a snapshot: held keys keep their place, new keys follow in the
    order of the frame, and of the suppression only what is still held remains. *)
Definition snapshot_keys (keys keys_down : list Z) : list Z :=
  filter (.∈ keys_down) keys ++ filter (.∉ keys) keys_down.

Lemma snapshot_keys_in keys kd k : k ∈ snapshot_keys keys kd ↔ k ∈ kd.
Proof.
  unfold snapshot_keys. rewrite elem_of_app, !list_elem_of_filter.
  destruct (decide (k ∈ keys)); tauto.
Qed.

Lemma snapshot_keys_nodup keys kd : NoDup keys → NoDup kd → NoDup (snapshot_keys keys kd).
Proof.
  intros H1 H2. apply list.NoDup_app. split; [by apply list.NoDup_filter|]. split; [|by apply list.NoDup_filter].
  intros x. rewrite !list_elem_of_filter. tauto.
Qed.

Lemma snapshot_keys_len keys kd : NoDup keys → NoDup kd →
  length (snapshot_keys keys kd) = length kd.
Proof.
  intros H1 H2. apply Permutation_length, NoDup_Permutation; [by apply snapshot_keys_nodup|done|].
  apply snapshot_keys_in.
Qed.

Lemma apply_snapshot_spec s supp m kd :
  keyboard_ok s → suppression_ok supp → NoDup kd →
  (length kd ≤ PHYSICAL_KEYBOARD_KEY_CAPACITY)%nat →
  apply_snapshot s m kd supp =
    (mkPhysicalKeyboard m (snapshot_keys (kb_keys s) kd),
     mkSuppression (Z.land (supp_modifiers supp) m) (filter (.∈ kd) (supp_keys supp)), Ok tt).
Proof.
  intros [_ _ Hnd _] [_ Hsnd] Hkd Hl. unfold apply_snapshot, upd. cbn [kb_keys kb_modifiers].
  pose proof (release_loop_filter kd (kb_keys s) [] supp (length (kb_keys s)) ltac:(lia)) as Hr.
  cbn [length app] in Hr. rewrite Hr.
  set (keys1 := filter (.∈ kd) (kb_keys s)).
  assert (filter (.∉ keys1) kd = filter (.∉ kb_keys s) kd) as Hext.
  { apply filter_ext_in. intros x Hx. unfold keys1. rewrite list_elem_of_filter. tauto. }
  pose proof (snapshot_keys_len _ _ Hnd Hkd) as Hlen. unfold snapshot_keys in Hlen.
  rewrite press_keys_spec; [|done|cbn [kb_keys]; rewrite Hext; unfold keys1; lia].
  unfold upd. cbn [kb_keys kb_modifiers]. rewrite Hext.
  fold (snapshot_keys (kb_keys s) kd). f_equal. f_equal.
  rewrite release_fold_keys by done. unfold retain_pressed_by. cbn [supp_keys supp_modifiers kb_keys kb_modifiers].
  f_equal. rewrite <- (app_nil_l (filter _ (supp_keys supp))) at 2.
  change 0%nat with (length (@nil Z)). rewrite retain_loop_filter by lia. simpl.
  rewrite filter_filter'. apply filter_ext_in. intros x _.
  unfold keys1. fold (snapshot_keys (kb_keys s) kd).
  rewrite snapshot_keys_in, list_elem_of_filter. tauto.
Qed.

Lemma capture_from_spec s : keyboard_ok s → ∀ supp,
  capture_from supp s = (mkSuppression (kb_modifiers s) (kb_keys s), Ok tt).
Proof. intros [_ _ _ Hl] supp. unfold capture_from. by rewrite push_all_spec. Qed.

Lemma replace_with_frame_spec s f : frame_ok f →
  replace_with_frame s f = (mkPhysicalKeyboard (frame_modifiers f) (frame_keys f), Ok tt).
Proof. intros [_ _ _ Hl]. unfold replace_with_frame. by rewrite push_all_spec. Qed.

Lemma visible_loop_spec supp keys v :
  (length (visible_keys v) + length keys ≤ PHYSICAL_KEYBOARD_KEY_CAPACITY)%nat →
  visible_loop supp keys v =
    mkVisibleKeyboard (visible_modifiers v)
      (visible_keys v ++ filter (.∉ supp_keys supp) keys) (visible_truncated v).
Proof.
  revert v. induction keys as [|k keys IH]; intros [m ks t] Hl; cbn [visible_loop visible_keys
    visible_modifiers visible_truncated] in *; [by rewrite app_nil_r|]. simpl in Hl.
  case_contains.
  - rewrite filter_cons_False by tauto. rewrite IH by (simpl; lia). done.
  - rewrite filter_cons_True by done. unfold vec_push. rewrite decide_True by lia.
    rewrite IH by (cbn [visible_keys]; rewrite length_app; simpl; lia).
    cbn [visible_keys visible_modifiers visible_truncated]. by rewrite <- app_assoc.
Qed.

Lemma visible_against_spec s supp : (length (kb_keys s) ≤ PHYSICAL_KEYBOARD_KEY_CAPACITY)%nat →
  visible_against s supp =
    mkVisibleKeyboard (Z.land (kb_modifiers s) (u8_not (supp_modifiers supp)))
      (filter (.∉ supp_keys supp) (kb_keys s)) false.
Proof. intros Hl. unfold visible_against. by rewrite visible_loop_spec by (simpl; lia). Qed.

Lemma trunc_idem b : MouseButtons_from_bits_truncate (MouseButtons_from_bits_truncate b) =
  MouseButtons_from_bits_truncate b.
Proof. unfold MouseButtons_from_bits_truncate. by rewrite <- Z.land_assoc. Qed.

Lemma u8_not_testbit x i : 0 ≤ i < 8 → Z.testbit (u8_not x) i = negb (Z.testbit x i).
Proof.
  intros Hi. unfold u8_not. rewrite Z.lxor_spec. change 255 with (Z.ones 8).
  rewrite Z.ones_spec_low by lia. by destruct (Z.testbit x i).
Qed.

(** ** Runs of frames *)

Definition apply_frames (s : PhysicalKeyboardState) (supp : KeyboardSuppression)
  (frames : list KeyboardFrame) : PhysicalKeyboardState * KeyboardSuppression :=
  fold_left (λ st f, (keyboard_apply_frame st.1 f st.2).1) frames (s, supp).

Lemma apply_frame_ok s supp f : keyboard_ok s → suppression_ok supp → frame_ok f →
  ∃ s' supp', keyboard_apply_frame s f supp = (s', supp', Ok tt) ∧
    keyboard_ok s' ∧ suppression_ok supp' ∧
    kb_modifiers s' = frame_modifiers f ∧ (∀ k, k ∈ kb_keys s' ↔ k ∈ frame_keys f) ∧
    supp_modifiers supp' = Z.land (supp_modifiers supp) (frame_modifiers f) ∧
    supp_keys supp' = filter (.∈ frame_keys f) (supp_keys supp).
Proof.
  intros Hs Hsu [Hm Hk Hnd Hl]. unfold keyboard_apply_frame.
  rewrite apply_snapshot_spec by done. do 2 eexists. split; [done|]. cbn [kb_keys kb_modifiers
    supp_keys supp_modifiers].
  split; [|split; [|split; [done|split; [apply snapshot_keys_in|split; done]]]].
  - split; cbn [kb_keys kb_modifiers]; [done| | |].
    + apply List.Forall_forall. intros k Hin. apply list_elem_of_In, snapshot_keys_in in Hin.
      unfold bytes_ok in Hk. rewrite List.Forall_forall in Hk. by apply Hk, list_elem_of_In.
    + apply snapshot_keys_nodup; [apply Hs|done].
    + rewrite snapshot_keys_len; [done|apply Hs|done].
  - split; cbn [supp_keys supp_modifiers].
    + apply land_u8; [apply Hsu|done].
    + apply list.NoDup_filter, Hsu.
Qed.

Lemma apply_frames_ok s supp fs : keyboard_ok s → suppression_ok supp → Forall frame_ok fs →
  ∃ s' supp', apply_frames s supp fs = (s', supp') ∧ keyboard_ok s' ∧ suppression_ok supp' ∧
    (∀ k, k ∈ supp_keys supp' ↔ k ∈ supp_keys supp ∧ Forall (λ f, k ∈ frame_keys f) fs) ∧
    (∀ i, Z.testbit (supp_modifiers supp') i =
      Z.testbit (supp_modifiers supp) i && forallb (λ f, Z.testbit (frame_modifiers f) i) fs).
Proof.
  intros Hs Hsu Hfs. revert s supp Hs Hsu. induction Hfs as [|f fs Hf _ IH]; intros s supp Hs Hsu.
  - exists s, supp. repeat split; try done; try apply Hs; try apply Hsu; try tauto.
    intros i. simpl. by rewrite andb_true_r.
  - destruct (apply_frame_ok s supp f Hs Hsu Hf) as (s1 & su1 & E & Hs1 & Hsu1 & _ & _ & Hm & Hk).
    destruct (IH s1 su1 Hs1 Hsu1) as (s' & su' & E' & Hs' & Hsu' & Hk' & Hm').
    exists s', su'. unfold apply_frames in *. rewrite fold_left_cons_eq. cbn [fst snd].
    rewrite E. split; [done|]. split; [done|]. split; [done|]. split.
    + intros k. rewrite Hk', Hk, list_elem_of_filter, List.Forall_cons_iff. tauto.
    + intros i. rewrite Hm', Hm, Z.land_spec. simpl. by rewrite andb_assoc.
Qed.

Lemma apply_frames_snoc s supp fs f :
  apply_frames s supp (fs ++ [f]) =
    let st := apply_frames s supp fs in (keyboard_apply_frame st.1 f st.2).1.
Proof. unfold apply_frames. by rewrite fold_left_app. Qed.

(** ** Properties *)

(** C10: keys held across a switch never reach the next host.  After the pressed keys
    and modifiers are captured as the suppression, and however many frames follow, a
    key is visible exactly when the last frame holds it and it was not captured or has
    been released since; the same for each modifier bit; and nothing is truncated. *)
Theorem suppressed_until_released s frames last :
  keyboard_ok s → Forall frame_ok (frames ++ [last]) →
  let '(s', supp') :=
    apply_frames s (capture_from KeyboardSuppression_new s).1 (frames ++ [last]) in
  let v := visible_against s' supp' in
  (∀ k, k ∈ visible_keys v ↔
     k ∈ frame_keys last ∧ ¬ (k ∈ kb_keys s ∧ Forall (λ f, k ∈ frame_keys f) frames)) ∧
  (∀ i, 0 ≤ i < 8 → Z.testbit (visible_modifiers v) i =
     Z.testbit (frame_modifiers last) i &&
     negb (Z.testbit (kb_modifiers s) i &&
           forallb (λ f, Z.testbit (frame_modifiers f) i) frames)) ∧
  visible_truncated v = false.
Proof.
  intros Hs Hfs. apply Forall_app in Hfs as [Hfs Hlast%List.Forall_cons_iff].
  rewrite capture_from_spec by done. cbn [fst].
  assert (suppression_ok (mkSuppression (kb_modifiers s) (kb_keys s))) as Hsu
    by (split; apply Hs).
  destruct (apply_frames_ok s _ frames Hs Hsu Hfs) as (s1 & su1 & E & Hs1 & Hsu1 & Hk & Hm).
  rewrite apply_frames_snoc, E. cbn [fst snd].
  destruct (apply_frame_ok s1 su1 last Hs1 Hsu1 (proj1 Hlast))
    as (s2 & su2 & E2 & Hs2 & _ & Hm2 & Hk2 & Hsm2 & Hsk2).
  rewrite E2. cbn [fst]. rewrite visible_against_spec by apply Hs2.
  cbn [visible_keys visible_modifiers visible_truncated supp_keys supp_modifiers] in *.
  split; [|split; [|done]].
  - intros k. rewrite list_elem_of_filter, Hk2, Hsk2, list_elem_of_filter, Hk. tauto.
  - intros i Hi. rewrite Z.land_spec, u8_not_testbit, Hm2, Hsm2, Z.land_spec, Hm by done.
    by destruct (Z.testbit (frame_modifiers last) i), (Z.testbit (kb_modifiers s) i && _).
Qed.

Lemma suppressed_until_released_witness :
  let s := mkPhysicalKeyboard 2 [4; 5] in
  let frames := [mkKeyboardFrame 2 [4; 6]; mkKeyboardFrame 0 [6]] in
  let '(s', supp') := apply_frames s (capture_from KeyboardSuppression_new s).1
                        (frames ++ [mkKeyboardFrame 2 [4; 6]]) in
  4 ∈ visible_keys (visible_against s' supp').
Proof.
  intros s frames.
  pose proof (suppressed_until_released s frames (mkKeyboardFrame 2 [4; 6])
    ltac:(split; apply (bool_decide_unpack _); vm_compute; exact I)
    ltac:(repeat constructor; apply (bool_decide_unpack _); vm_compute; exact I)) as H.
  destruct (apply_frames _ _ _) as [s' supp']. apply H. split; [left|].
  intros [_ Hf]. apply List.Forall_cons_iff in Hf as [_ Hf].
  apply List.Forall_cons_iff in Hf as [Hf _]. cbn in Hf.
  apply elem_of_cons in Hf as [Hf|Hf]; [discriminate Hf|by apply elem_of_nil in Hf].
Defined.
