(* ===== verification/Reports.v ===== *)
(** * HID input reports ([src/src/reports/])

    The keyboard, mouse and consumer reports as byte arrays, the notifications they
    become on BLE, and the report map that tells the host how to read them. *)

From S2P Require Import Prelude Input.

(** ** [ble_keyboard.rs] *)

Definition KEYBOARD_REPORT_ID : Z := 1.
Definition KEYBOARD_REPORT_LEN : nat := 8.
Definition KEYBOARD_LED_OUTPUT_REPORT_LEN : nat := 1.
Definition KEYBOARD_6KRO_KEY_CAPACITY : nat := 6.

Record Keyboard6KroReport := mkKeyboardReport { keyboard_bytes : list Z }.
#[export] Instance Keyboard6KroReport_eq_dec : EqDecision Keyboard6KroReport.
Proof. solve_decision. Defined.

Record KeyboardReportBuild := mkKeyboardReportBuild {
  kb_report : Keyboard6KroReport;
  kb_truncated : bool
}.

Definition Keyboard6KroReport_release : Keyboard6KroReport :=
  mkKeyboardReport (zeros KEYBOARD_REPORT_LEN).

(** The loop of [from_visible_state] over [keys().enumerate()]. *)
Fixpoint visible_report_loop (keys : list Z) (index : nat) (bytes : list Z) (truncated : bool)
  : list Z * bool :=
  match keys with
  | [] => (bytes, truncated)
  | key :: keys =>
      if decide (index < KEYBOARD_6KRO_KEY_CAPACITY)%nat
      then visible_report_loop keys (S index) (<[(2 + index)%nat := key]> bytes) truncated
      else visible_report_loop keys (S index) bytes true
  end.

Definition from_visible_state (state : VisibleKeyboardState) : KeyboardReportBuild :=
  let bytes := <[0%nat := visible_modifiers state]> (zeros KEYBOARD_REPORT_LEN) in
  let '(bytes, truncated) :=
    visible_report_loop (visible_keys state) 0 bytes (visible_truncated state) in
  mkKeyboardReportBuild (mkKeyboardReport bytes) truncated.

(** The loop of [from_physical_state]; [visible] counts the keys not suppressed. *)
Fixpoint physical_report_loop (suppression : KeyboardSuppression) (keys : list Z)
  (visible : nat) (bytes : list Z) : list Z * nat :=
  match keys with
  | [] => (bytes, visible)
  | key :: keys =>
      if contains (supp_keys suppression) key
      then physical_report_loop suppression keys visible bytes
      else physical_report_loop suppression keys (S visible)
             (if decide (visible < KEYBOARD_6KRO_KEY_CAPACITY)%nat
              then <[(2 + visible)%nat := key]> bytes else bytes)
  end.

Definition from_physical_state (state : PhysicalKeyboardState)
  (suppression : KeyboardSuppression) : KeyboardReportBuild :=
  let bytes := <[0%nat := Z.land (kb_modifiers state) (u8_not (supp_modifiers suppression))]>
                 (zeros KEYBOARD_REPORT_LEN) in
  let '(bytes, visible) := physical_report_loop suppression (kb_keys state) 0 bytes in
  mkKeyboardReportBuild (mkKeyboardReport bytes)
    (bool_decide (visible > KEYBOARD_6KRO_KEY_CAPACITY)%nat).

(** [KeyboardLedState]: the three low bits. *)
Definition LED_MASK : Z := Z.lor 1 (Z.lor 2 4).

Inductive BleKeyboardOutputError := LedInvalidLength.

(** [BleKeyboardLedOutputReport::from_bytes]; the report is its LED bits. *)
Definition led_from_bytes (bytes : list Z) : Result BleKeyboardOutputError Z :=
  match bytes with
  | [bits] => Ok (Z.land (Z.land bits LED_MASK) LED_MASK)
  | _ => Err LedInvalidLength
  end.

(** ** [ble_mouse.rs] *)

Definition MOUSE_REPORT_ID : Z := 2.
Definition MOUSE_REPORT_LEN : nat := 7.

Record MouseReport := mkMouseReport { mouse_bytes : list Z }.
#[export] Instance MouseReport_eq_dec : EqDecision MouseReport.
Proof. solve_decision. Defined.

Definition MouseReport_from_frame (buttons : Z) (m : MouseMovement) : MouseReport :=
  mkMouseReport
    ([buttons] ++ u16_to_le_bytes (move_x m) ++ u16_to_le_bytes (move_y m) ++
     [as_u8 (move_wheel m); as_u8 (move_pan m)]).

Definition MouseReport_from_mouse (r : MouseInputReport) : MouseReport :=
  mkMouseReport
    ([mir_buttons r] ++ u16_to_le_bytes (mir_x r) ++ u16_to_le_bytes (mir_y r) ++
     [as_u8 (mir_wheel r); as_u8 (mir_pan r)]).

Definition MouseReport_release_buttons : MouseReport := mkMouseReport (zeros MOUSE_REPORT_LEN).

Definition mouse_report_buttons (self : MouseReport) : Z := byte_at (mouse_bytes self) 0.

Definition mouse_report_movement (self : MouseReport) : MouseMovement :=
  let b := byte_at (mouse_bytes self) in
  mkMouseMovement (i16_from_le_bytes (b 1%nat) (b 2%nat))
    (i16_from_le_bytes (b 3%nat) (b 4%nat)) (as_i8 (b 5%nat)) (as_i8 (b 6%nat)).

Definition clamp_i16_to_i8 (value : Z) : Z :=
  if decide (Z.gt value I8_MAX) then I8_MAX
  else if decide (value < I8_MIN) then I8_MIN
  else as_i8 value.

Definition boot_bytes (self : MouseReport) : list Z :=
  let movement := mouse_report_movement self in
  [mouse_report_buttons self; as_u8 (clamp_i16_to_i8 (move_x movement));
   as_u8 (clamp_i16_to_i8 (move_y movement))].

(** ** [ble_consumer.rs] *)

Definition CONSUMER_REPORT_ID : Z := 3.
Definition CONSUMER_REPORT_LEN : nat := 2.

Record ConsumerReport := mkConsumerReport { consumer_bytes : list Z }.
#[export] Instance ConsumerReport_eq_dec : EqDecision ConsumerReport.
Proof. solve_decision. Defined.

Definition ConsumerReport_from_usage_id (usage : Z) : ConsumerReport :=
  mkConsumerReport (u16_to_le_bytes usage).
Definition ConsumerReport_release : ConsumerReport :=
  mkConsumerReport (zeros CONSUMER_REPORT_LEN).

(** ** [mod.rs] *)

(** [BleHidReport] has the same three cases and converts to and from this one. *)
Inductive StandardHidReport :=
| ReportOfKeyboard (r : Keyboard6KroReport)
| ReportOfMouse (r : MouseReport)
| ReportOfConsumer (r : ConsumerReport).
#[export] Instance StandardHidReport_eq_dec : EqDecision StandardHidReport.
Proof. solve_decision. Defined.

Inductive ReportKind := KindKeyboard | KindMouse | KindConsumer | KindKeyboardOutput.
#[export] Instance ReportKind_eq_dec : EqDecision ReportKind.
Proof. solve_decision. Defined.

Definition report_kind (r : StandardHidReport) : ReportKind :=
  match r with
  | ReportOfKeyboard _ => KindKeyboard
  | ReportOfMouse _ => KindMouse
  | ReportOfConsumer _ => KindConsumer
  end.

(** [as_bytes] of whichever report it is. *)
Definition report_bytes (r : StandardHidReport) : list Z :=
  match r with
  | ReportOfKeyboard r => keyboard_bytes r
  | ReportOfMouse r => mouse_bytes r
  | ReportOfConsumer r => consumer_bytes r
  end.

Definition has_activity (r : StandardHidReport) : bool :=
  existsb (λ b, bool_decide (b ≠ 0)) (report_bytes r).

(** ** [ble_hid.rs] *)

Definition INPUT_REPORT_TYPE : Z := 1.
Definition OUTPUT_REPORT_TYPE : Z := 2.
Definition BLE_HID_NOTIFY_MAX_LEN : nat := KEYBOARD_REPORT_LEN.

Record BleHidInputReport := mkBleHidInputReport { bir_len : nat; bir_bytes : list Z }.

Definition BleHidInputReport_from_report (r : StandardHidReport) : BleHidInputReport :=
  let bytes := zeros BLE_HID_NOTIFY_MAX_LEN in
  match r with
  | ReportOfKeyboard r =>
      mkBleHidInputReport KEYBOARD_REPORT_LEN (blit 0 (keyboard_bytes r) bytes)
  | ReportOfMouse r =>
      mkBleHidInputReport MOUSE_REPORT_LEN (blit 0 (mouse_bytes r) bytes)
  | ReportOfConsumer r =>
      mkBleHidInputReport CONSUMER_REPORT_LEN (blit 0 (consumer_bytes r) bytes)
  end.

Definition bir_as_slice (r : BleHidInputReport) : list Z := take (bir_len r) (bir_bytes r).

Inductive BleHidCharacteristic :=
| KeyboardInputReport | MouseInputReportCharacteristic | ConsumerInputReport.

Record BleHidNotification := mkBleHidNotification {
  ntf_characteristic : BleHidCharacteristic;
  ntf_len : nat;
  ntf_bytes : list Z
}.

Definition ntf_as_slice (n : BleHidNotification) : list Z := take (ntf_len n) (ntf_bytes n).

Inductive BleHidNotificationError := NotificationCapacity.

Definition input_report_characteristic (k : ReportKind) : BleHidCharacteristic :=
  match k with
  | KindKeyboard | KindKeyboardOutput => KeyboardInputReport
  | KindMouse => MouseInputReportCharacteristic
  | KindConsumer => ConsumerInputReport
  end.

Definition report_id (k : ReportKind) : Z :=
  match k with
  | KindKeyboard | KindKeyboardOutput => KEYBOARD_REPORT_ID
  | KindMouse => MOUSE_REPORT_ID
  | KindConsumer => CONSUMER_REPORT_ID
  end.

Definition report_type (k : ReportKind) : Z :=
  match k with
  | KindKeyboard | KindMouse | KindConsumer => INPUT_REPORT_TYPE
  | KindKeyboardOutput => OUTPUT_REPORT_TYPE
  end.

Definition padded_notification_bytes (bytes : list Z) : list Z :=
  blit 0 bytes (zeros BLE_HID_NOTIFY_MAX_LEN).

(** [notifications_for_input_report::<N>] clears the vector it is given. *)
Definition notifications_for_input_report (n : nat) (r : StandardHidReport)
  : Result BleHidNotificationError (list BleHidNotification) :=
  let input := BleHidInputReport_from_report r in
  match vec_push n
          (mkBleHidNotification (input_report_characteristic (report_kind r))
             (length (bir_as_slice input)) (padded_notification_bytes (bir_as_slice input))) []
  with
  | Some out => Ok out
  | None => Err NotificationCapacity
  end.

Definition V1_KEYBOARD_REPORT_MAP : list Z :=
  [0x05; 0x01; 0x09; 0x06; 0xa1; 0x01; 0x85; KEYBOARD_REPORT_ID; 0x05; 0x07; 0x19;
   0xe0; 0x29; 0xe7; 0x15; 0x00; 0x25; 0x01; 0x75; 0x01; 0x95; 0x08; 0x81; 0x02; 0x95;
   0x01; 0x75; 0x08; 0x81; 0x01; 0x95; 0x05; 0x75; 0x01; 0x05; 0x08; 0x19; 0x01; 0x29;
   0x05; 0x91; 0x02; 0x95; 0x01; 0x75; 0x03; 0x91; 0x01; 0x95;
   Z.of_nat KEYBOARD_6KRO_KEY_CAPACITY; 0x75; 0x08; 0x15; 0x00; 0x26; 0xff; 0x00; 0x05;
   0x07; 0x19; 0x00; 0x2a; 0xff; 0x00; 0x81; 0x00; 0xc0].

Definition V1_MOUSE_REPORT_MAP : list Z :=
  [0x05; 0x01; 0x09; 0x02; 0xa1; 0x01; 0x85; MOUSE_REPORT_ID; 0x09; 0x01; 0xa1; 0x00;
   0x05; 0x09; 0x19; 0x01; 0x29; 0x05; 0x15; 0x00; 0x25; 0x01; 0x75; 0x01; 0x95; 0x05;
   0x81; 0x02; 0x75; 0x03; 0x95; 0x01; 0x81; 0x01; 0x05; 0x01; 0x09; 0x30; 0x09; 0x31;
   0x16; 0x00; 0x80; 0x26; 0xff; 0x7f; 0x75; 0x10; 0x95; 0x02; 0x81; 0x06; 0x09; 0x38;
   0x15; 0x81; 0x25; 0x7f; 0x75; 0x08; 0x95; 0x01; 0x81; 0x06; 0x05; 0x0c; 0x0a; 0x38;
   0x02; 0x95; 0x01; 0x81; 0x06; 0xc0; 0xc0].

Definition V1_CONSUMER_REPORT_MAP : list Z :=
  [0x05; 0x0c; 0x09; 0x01; 0xa1; 0x01; 0x85; CONSUMER_REPORT_ID; 0x15; 0x00; 0x26;
   0xff; 0x03; 0x19; 0x00; 0x2a; 0xff; 0x03; 0x75; 0x10; 0x95; 0x01; 0x81; 0x00; 0xc0].

(** The copy loops of [combined_report_map]. *)
Definition V1_COMBINED_REPORT_MAP : list Z :=
  fold_left (λ output map, output ++ map)
    [V1_KEYBOARD_REPORT_MAP; V1_MOUSE_REPORT_MAP; V1_CONSUMER_REPORT_MAP] [].

(** ** Keyboard reports *)

(** What a 6KRO report of the visible keys [ks] is. *)
Definition six_key_report (modifiers : Z) (ks : list Z) : Keyboard6KroReport :=
  mkKeyboardReport ([modifiers; 0] ++ take 6 ks ++ zeros (6 - length ks)).

Lemma insert_zeros_app i x (pre : list Z) n : length pre = i → (0 < n)%nat →
  <[i := x]> (pre ++ zeros n) = (pre ++ [x]) ++ zeros (n - 1).
Proof.
  intros <- Hn. destruct n as [|n]; [lia|]. rewrite insert_app_r_alt by lia.
  rewrite Nat.sub_diag. simpl. by rewrite Nat.sub_0_r, <- app_assoc.
Qed.

Lemma visible_loop_full ks index bytes t : (KEYBOARD_6KRO_KEY_CAPACITY ≤ index)%nat →
  visible_report_loop ks index bytes t = (bytes, t || bool_decide (ks ≠ [])).
Proof.
  revert index t. induction ks as [|k ks IH]; intros index t Hi; simpl.
  { by rewrite orb_false_r. }
  rewrite decide_False by lia. rewrite IH by lia. by rewrite orb_true_r.
Qed.

Lemma visible_report_loop_spec ks pre t : (2 ≤ length pre ≤ 8)%nat →
  visible_report_loop ks (length pre - 2) (pre ++ zeros (8 - length pre)) t =
    (pre ++ take (8 - length pre) ks ++ zeros (8 - length pre - length ks),
     t || bool_decide (8 - length pre < length ks)%nat).
Proof.
  revert pre. induction ks as [|k ks IH]; intros pre Hp; simpl.
  { rewrite take_nil, Nat.sub_0_r. by rewrite orb_false_r. }
  unfold KEYBOARD_6KRO_KEY_CAPACITY. case_decide as Hc.
  - change (S (S (length pre - 2))) with (2 + (length pre - 2))%nat.
    replace (2 + (length pre - 2))%nat with (length pre) by lia.
    rewrite insert_zeros_app by lia.
    replace (8 - length pre - 1)%nat with (8 - length (pre ++ [k]))%nat
      by (rewrite length_app; simpl; lia).
    replace (S (length pre - 2)) with (length (pre ++ [k]) - 2)%nat
      by (rewrite length_app; simpl; lia).
    rewrite IH by (rewrite length_app; simpl; lia).
    rewrite length_app. simpl length. rewrite <- app_assoc.
    replace (8 - length pre)%nat with (S (8 - (length pre + 1))) by lia.
    cbn [take app]. f_equal. f_equal. apply bool_decide_ext. lia.
  - rewrite visible_loop_full by (unfold KEYBOARD_6KRO_KEY_CAPACITY; lia).
    rewrite (bool_decide_true (_ < S (length ks))%nat) by lia.
    replace (8 - length pre)%nat with 0%nat by lia. by rewrite orb_true_r.
Qed.

Lemma from_visible_state_spec v :
  from_visible_state v =
    mkKeyboardReportBuild (six_key_report (visible_modifiers v) (visible_keys v))
      (visible_truncated v || bool_decide (6 < length (visible_keys v))%nat).
Proof.
  unfold from_visible_state, six_key_report.
  pose proof (visible_report_loop_spec (visible_keys v) [visible_modifiers v; 0]
    (visible_truncated v) ltac:(simpl; lia)) as H.
  simpl length in H. cbn [Nat.sub app] in H. simpl zeros in H.
  change (<[0%nat := visible_modifiers v]> (zeros KEYBOARD_REPORT_LEN))
    with (visible_modifiers v :: 0 :: zeros 6). change (8 - 2)%nat with 6%nat in H.
  rewrite H. done.
Qed.

Lemma physical_loop_spec supp ks visible bytes t :
  physical_report_loop supp ks visible bytes =
    ((visible_report_loop (filter (.∉ supp_keys supp) ks) visible bytes t).1,
     (visible + length (filter (.∉ supp_keys supp) ks))%nat).
Proof.
  revert visible bytes t. induction ks as [|k ks IH]; intros visible bytes t.
  { cbn. by rewrite Nat.add_0_r. }
  cbn [physical_report_loop]. case_contains.
  - rewrite filter_cons_False by tauto. by rewrite (IH _ _ t).
  - rewrite filter_cons_True by done. cbn [visible_report_loop length].
    case_decide; rewrite (IH _ _ (if decide (visible < KEYBOARD_6KRO_KEY_CAPACITY)%nat then t else true));
      repeat case_decide; try done; f_equal; lia.
Qed.

Lemma from_physical_state_spec s supp :
  (length (kb_keys s) ≤ PHYSICAL_KEYBOARD_KEY_CAPACITY)%nat →
  from_physical_state s supp = from_visible_state (visible_against s supp).
Proof.
  intros Hl. rewrite visible_against_spec by done. unfold from_physical_state.
  rewrite (physical_loop_spec _ _ _ _ false). cbn [visible_modifiers].
  unfold from_visible_state. cbn [visible_modifiers visible_keys visible_truncated].
  set (ks := filter _ _).
  pose proof (visible_report_loop_spec ks
    [Z.land (kb_modifiers s) (u8_not (supp_modifiers supp)); 0] false ltac:(simpl; lia)) as H.
  simpl length in H. cbn [Nat.sub app] in H.
  change (<[0%nat := Z.land (kb_modifiers s) (u8_not (supp_modifiers supp))]>
    (zeros KEYBOARD_REPORT_LEN))
    with (Z.land (kb_modifiers s) (u8_not (supp_modifiers supp)) :: 0 :: zeros 6).
  change (8 - 2)%nat with 6%nat in H. rewrite H. done.
Qed.

(** *** The stable 6KRO window *)

Lemma suppress_loop_spec supp ks limit visible added :
  NoDup ks →
  (length (supp_keys supp) + length (filter (.∉ supp_keys supp) ks) - (limit - visible)
     ≤ PHYSICAL_KEYBOARD_KEY_CAPACITY)%nat →
  (length (supp_keys supp) ≤ PHYSICAL_KEYBOARD_KEY_CAPACITY)%nat → (visible ≤ limit)%nat →
  let excess := drop (limit - visible) (filter (.∉ supp_keys supp) ks) in
  suppress_loop supp ks limit visible added =
    (supp <| supp_keys := supp_keys supp ++ excess |>, Ok (added + length excess)%nat).
Proof.
  intros Hnd. revert supp visible added.
  induction Hnd as [|k ks Hk Hnd IH]; intros supp visible added Hl Hs Hv excess; subst excess.
  { cbn [suppress_loop]. rewrite filter_nil, drop_nil. destruct supp. unfold upd. cbn.
    by rewrite app_nil_r, Nat.add_0_r. }
  cbn [suppress_loop]. case_contains.
  { rewrite filter_cons_False in Hl |- * by tauto. by apply IH. }
  rewrite filter_cons_True in Hl |- * by done. cbn [length] in Hl.
  case_decide as Hc.
  - rewrite IH by lia. replace (limit - visible)%nat with (S (limit - S visible)) by lia. done.
  - assert (visible = limit) as -> by lia. rewrite Nat.sub_diag in *.
    unfold vec_push. rewrite decide_True by lia. destruct supp as [m sk].
    unfold upd in *. cbn [supp_keys supp_modifiers] in *.
    assert (filter (.∉ sk ++ [k]) ks = filter (.∉ sk) ks) as Hext.
    { apply filter_ext_in. intros x Hx. rewrite not_elem_of_app, not_elem_of_cons.
      split; [tauto|]. intros ?. repeat split; [done| |apply not_elem_of_nil].
      intros ->. by apply Hk. }
    rewrite IH; cbn [supp_keys supp_modifiers]; rewrite ?Hext, ?length_app, ?Nat.sub_diag;
      cbn [length]; try lia.
    rewrite !drop_0. f_equal; [|f_equal; cbn [length]; lia]. f_equal. by rewrite <- app_assoc.
Qed.

(** ** Mouse reports and notifications *)

(** A report as the code builds it: the right number of bytes. *)
Definition report_len (k : ReportKind) : nat :=
  match k with
  | KindKeyboard => KEYBOARD_REPORT_LEN
  | KindMouse => MOUSE_REPORT_LEN
  | KindConsumer => CONSUMER_REPORT_LEN
  | KindKeyboardOutput => KEYBOARD_LED_OUTPUT_REPORT_LEN
  end.

Record report_ok (r : StandardHidReport) : Prop := {
  report_len_ok : length (report_bytes r) = report_len (report_kind r);
  report_bytes_ok : bytes_ok (report_bytes r)
}.

Record movement_ok (m : MouseMovement) : Prop := {
  move_x_ok : i16_ok (move_x m);
  move_y_ok : i16_ok (move_y m);
  move_wheel_ok : i8_ok (move_wheel m);
  move_pan_ok : i8_ok (move_pan m)
}.

Lemma as_i8_u8 x : i8_ok x → as_i8 (as_u8 x) = x.
Proof. unfold i8_ok, as_i8, as_u8. change (2 ^ 8) with 256. intros H. divmod. Qed.

Lemma i16_from_to_le x : i16_ok x →
  i16_from_le_bytes (x mod 256) (x / 256 mod 256) = x.
Proof. unfold i16_ok, i16_from_le_bytes, as_i16, u16_from_le_bytes. intros H. divmod. Qed.

Lemma from_frame_roundtrip b m : movement_ok m →
  mouse_report_buttons (MouseReport_from_frame b m) = b ∧
  mouse_report_movement (MouseReport_from_frame b m) = m.
Proof.
  destruct m as [x y w p]. intros [Hx Hy Hw Hp]. cbn in Hx, Hy, Hw, Hp. split; [done|].
  unfold mouse_report_movement, MouseReport_from_frame, byte_at.
  cbn [mouse_bytes nth app u16_to_le_bytes move_x move_y move_wheel move_pan].
  by rewrite !i16_from_to_le, !as_i8_u8.
Qed.

Lemma from_frame_ok b m : u8_ok b → report_ok (ReportOfMouse (MouseReport_from_frame b m)).
Proof.
  intros Hb. split; [done|].
  cbn [report_bytes MouseReport_from_frame mouse_bytes u16_to_le_bytes app].
  repeat (apply List.Forall_cons_iff; split); try apply u8_ok_mod; done.
Qed.

Lemma mouse_movement_ok r : report_ok (ReportOfMouse r) → movement_ok (mouse_report_movement r).
Proof.
  intros [_ Hb]. cbn in Hb. unfold mouse_report_movement.
  split; cbn [move_x move_y move_wheel move_pan]; unfold i16_from_le_bytes, as_i16, as_i8,
    i16_ok, i8_ok; divmod.
Qed.

(** ** The report map, as a HID host reads it

    A short item is a prefix byte (two size bits, then type and tag) and its data.  The
    reader keeps the global items, and lists the Input and Output fields. *)

Record MapField := mkMapField {
  mf_report : Z; mf_input : bool; mf_bits : Z; mf_min : Z; mf_max : Z; mf_data : bool
}.

Record MapState := mkMapState {
  ms_report : Z; ms_size : Z; ms_count : Z; ms_min : Z; ms_max : Z; ms_depth : nat;
  ms_fields : list MapField
}.
#[export] Instance eta_MapState : Eta MapState :=
  λ r, mkMapState (ms_report r) (ms_size r) (ms_count r) (ms_min r) (ms_max r) (ms_depth r)
    (ms_fields r).

(** Item data, unsigned and as a signed number of its width. *)
Definition item_value (data : list Z) : Z := foldr (λ b v, b + 256 * v) 0 data.
Definition item_signed (data : list Z) : Z :=
  let w := 256 ^ Z.of_nat (length data) in
  let v := item_value data in if decide (w ≤ 2 * v) then v - w else v.

Definition map_item (s : MapState) (prefix : Z) (data : list Z) : option MapState :=
  let field input :=
    s <| ms_fields ::= λ fs, fs ++ [mkMapField (ms_report s) input (ms_size s * ms_count s)
           (ms_min s) (ms_max s) (negb (Z.testbit (item_value data) 0))] |> in
  let tag := Z.land prefix 0xfc in
  if decide (tag = 0x80) then Some (field true)
  else if decide (tag = 0x90) then Some (field false)
  else if decide (tag = 0xa0) then Some (s <| ms_depth ::= S |>)
  else if decide (tag = 0xc0) then
    match ms_depth s with O => None | S d => Some (s <| ms_depth := d |>) end
  else if decide (tag = 0x74) then Some (s <| ms_size := item_value data |>)
  else if decide (tag = 0x94) then Some (s <| ms_count := item_value data |>)
  else if decide (tag = 0x84) then Some (s <| ms_report := item_value data |>)
  else if decide (tag = 0x14) then Some (s <| ms_min := item_signed data |>)
  else if decide (tag = 0x24) then Some (s <| ms_max := item_signed data |>)
  else if decide (tag = 0x04 ∨ tag = 0x08 ∨ tag = 0x18 ∨ tag = 0x28) then Some s
  else None.

(** One item takes at least a byte, so the length of the map is enough fuel. *)
Fixpoint read_map (fuel : nat) (bytes : list Z) (s : MapState) : option MapState :=
  match bytes with
  | [] => Some s
  | prefix :: rest =>
      match fuel with
      | O => None
      | S fuel =>
          let n := match Z.land prefix 3 with 3 => 4%nat | k => Z.to_nat k end in
          if decide (length rest < n)%nat then None
          else let+ s := map_item s prefix (take n rest) in read_map fuel (drop n rest) s
      end
  end.

Definition read_report_map (bytes : list Z) : option MapState :=
  read_map (length bytes) bytes (mkMapState 0 0 0 0 0 0 []).

(** Bits of report [id] in the given direction. *)
Definition map_bits (fields : list MapField) (id : Z) (input : bool) : Z :=
  foldr Z.add 0 (map mf_bits
    (filter (λ f, mf_report f = id ∧ mf_input f = input) fields)).

(** ** Properties *)

(** The report built straight from the physical state is the one built from the
    visible state: both carry the unsuppressed modifiers, a zero byte and the first six
    unsuppressed keys in pressing order padded with zeros, and both say [truncated]
    exactly when a seventh key is down. *)
Theorem keyboard_report_equivalence s supp :
  keyboard_ok s →
  let keys := filter (.∉ supp_keys supp) (kb_keys s) in
  from_physical_state s supp = from_visible_state (visible_against s supp) ∧
  from_physical_state s supp =
    mkKeyboardReportBuild
      (six_key_report (Z.land (kb_modifiers s) (u8_not (supp_modifiers supp))) keys)
      (bool_decide (6 < length keys)%nat).
Proof.
  intros Hs keys. pose proof (kb_len s Hs) as Hl.
  rewrite from_physical_state_spec by done. split; [done|].
  by rewrite from_visible_state_spec, visible_against_spec.
Qed.

Lemma keyboard_report_equivalence_witness :
  let s := mkPhysicalKeyboard 3 [4; 5; 6; 7; 8; 9; 10; 11] in
  let supp := mkSuppression 1 [5] in
  from_physical_state s supp = from_visible_state (visible_against s supp) ∧
  from_physical_state s supp =
    mkKeyboardReportBuild (mkKeyboardReport [2; 0; 4; 6; 7; 8; 9; 10]) true.
Proof.
  refine (keyboard_report_equivalence _ (mkSuppression 1 [5]) _).
  split; apply (bool_decide_unpack _); vm_compute; exact I.
Defined.

(** The six-key window is stable.  After [suppress_visible_after] with limit six,
    what is visible is the first six keys that were, so the report is not truncated
    and says what it said; the later keys are suppressed, hence stay hidden until
    released even when a slot becomes free. *)
Theorem stable_six_key_window s supp :
  keyboard_ok s → suppression_ok supp → (∀ k, k ∈ supp_keys supp → k ∈ kb_keys s) →
  let keys := filter (.∉ supp_keys supp) (kb_keys s) in
  ∃ supp', suppress_visible_after supp s KEYBOARD_6KRO_KEY_CAPACITY =
      (supp', Ok (length keys - 6)%nat) ∧
    supp_keys supp' = supp_keys supp ++ drop 6 keys ∧
    filter (.∉ supp_keys supp') (kb_keys s) = take 6 keys ∧
    kb_report (from_physical_state s supp') = kb_report (from_physical_state s supp) ∧
    kb_truncated (from_physical_state s supp') = false ∧ supp_modifiers supp' = supp_modifiers supp.
Proof.
  intros Hs Hsu Hsub keys. pose proof (kb_nodup s Hs) as Hnd. pose proof (kb_len s Hs) as Hl.
  assert (length (supp_keys supp) + length keys ≤ length (kb_keys s))%nat as Htot.
  { rewrite <- length_app. unfold keys.
    apply Nat.eq_le_incl, Permutation_length, NoDup_Permutation; [|done|].
    - apply list.NoDup_app. split; [apply Hsu|]. split; [|by apply list.NoDup_filter].
      intros x Hx. rewrite list_elem_of_filter. tauto.
    - intros x. rewrite elem_of_app, list_elem_of_filter. specialize (Hsub x).
      destruct (decide (x ∈ supp_keys supp)); tauto. }
  unfold suppress_visible_after.
  rewrite suppress_loop_spec by (try done; fold keys; unfold PHYSICAL_KEYBOARD_KEY_CAPACITY in *; lia).
  rewrite Nat.sub_0_r. fold keys. unfold KEYBOARD_6KRO_KEY_CAPACITY.
  eexists. split; [by rewrite length_drop|]. unfold upd. cbn [supp_keys supp_modifiers].
  split; [done|].
  assert (filter (.∉ supp_keys supp ++ drop 6 keys) (kb_keys s) = take 6 keys) as Hf.
  { transitivity (filter (.∉ drop 6 keys) keys).
    { change (filter (.∉ drop 6 keys) keys) with
        (filter (.∉ drop 6 keys) (filter (.∉ supp_keys supp) (kb_keys s))).
      rewrite filter_filter'. apply filter_ext_in. intros x _.
      rewrite not_elem_of_app. tauto. }
    assert (NoDup keys) as Hk by by apply list.NoDup_filter.
    rewrite <- (take_drop 6 keys) in Hk at 1. apply list.NoDup_app in Hk as (_ & Hd & _).
    transitivity (filter (.∉ drop 6 keys) (take 6 keys ++ drop 6 keys));
      [by rewrite take_drop|].
    rewrite list.filter_app, filter_all, filter_none, app_nil_r;
      [done| |].
    - apply List.Forall_forall. intros x Hx%list_elem_of_In. tauto.
    - apply List.Forall_forall. intros x Hx%list_elem_of_In. by apply Hd. }
  split; [exact Hf|]. rewrite !from_physical_state_spec, !visible_against_spec by done.
  cbn [supp_keys supp_modifiers]. rewrite Hf, !from_visible_state_spec.
  cbn [kb_report kb_truncated visible_keys visible_modifiers visible_truncated]. split.
  - fold keys. unfold six_key_report. rewrite take_take, length_take, Nat.min_id.
    do 4 f_equal. lia.
  - split; [|done]. rewrite length_take. apply bool_decide_false. lia.
Qed.

Lemma stable_six_key_window_witness :
  ∃ supp', suppress_visible_after (mkSuppression 0 [4])
      (mkPhysicalKeyboard 0 [4; 5; 6; 7; 8; 9; 10; 11]) KEYBOARD_6KRO_KEY_CAPACITY =
      (supp', Ok 1%nat) ∧ supp_keys supp' = [4; 11].
Proof.
  destruct (stable_six_key_window (mkPhysicalKeyboard 0 [4; 5; 6; 7; 8; 9; 10; 11])
    (mkSuppression 0 [4])) as (supp' & H1 & H2 & _).
  - split; apply (bool_decide_unpack _); vm_compute; exact I.
  - split; apply (bool_decide_unpack _); vm_compute; exact I.
  - cbn. intros k Hk. apply elem_of_cons in Hk as [->|Hk]; [left|by apply elem_of_nil in Hk].
  - exists supp'. split; [exact H1|exact H2].
Defined.

(** A BLE notification carries the report it was made from, on its kind's
    characteristic and at exactly the length the published report map gives that report
    identifier; the map itself is well formed, with every collection closed. *)
Theorem ble_notification_matches_report_map r n :
  report_ok r →
  ∃ final, read_report_map V1_COMBINED_REPORT_MAP = Some final ∧ ms_depth final = 0%nat ∧
  match notifications_for_input_report n r with
  | Ok out => (1 ≤ n)%nat ∧ ∃ ntf, out = [ntf] ∧
      ntf_characteristic ntf = input_report_characteristic (report_kind r) ∧
      ntf_as_slice ntf = report_bytes r ∧
      8 * Z.of_nat (length (ntf_as_slice ntf)) =
        map_bits (ms_fields final) (report_id (report_kind r)) true
  | Err NotificationCapacity => n = 0%nat
  end.
Proof.
  intros [Hl _]. eexists. split; [vm_compute; reflexivity|]. split; [reflexivity|].
  assert (bir_as_slice (BleHidInputReport_from_report r) = report_bytes r) as Hslice
    by (destruct r; by apply take_blit).
  unfold notifications_for_input_report, vec_push. rewrite Hslice. simpl length at 1.
  case_decide as Hn; [|lia].
  assert (ntf_as_slice (mkBleHidNotification (input_report_characteristic (report_kind r))
     (length (report_bytes r)) (padded_notification_bytes (report_bytes r))) = report_bytes r)
    as Hntf by (by apply take_blit).
  split; [lia|]. eexists. split; [done|]. split; [done|]. split; [exact Hntf|].
  rewrite Hntf, Hl. by destruct r.
Qed.

Lemma ble_notification_matches_report_map_witness :
  ∃ final, read_report_map V1_COMBINED_REPORT_MAP = Some final ∧ ms_depth final = 0%nat.
Proof.
  destruct (ble_notification_matches_report_map
    (ReportOfConsumer (ConsumerReport_from_usage_id 233)) 1) as (final & H1 & H2 & _).
  - split; [reflexivity|apply (bool_decide_unpack _); vm_compute; exact I].
  - exists final. split; assumption.
Defined.
