(* ===== verification/Aggregator.v ===== *)
(** * The input aggregator ([src/src/input/aggregator.rs])

    One keyboard, mouse and consumer state out of those of every connected interface.
    The program keeps the aggregate next to the per-interface states and repairs only
    the part a frame touched; [rebuild_aggregate] is its own definition of what the
    aggregate should be, used when an interface disappears. *)

From S2P Require Import Prelude Input.

Record DeviceInputState := mkDeviceInput {
  di_device_id : Z;
  di_interface_id : Z;
  di_keyboard : PhysicalKeyboardState;
  di_mouse_buttons : Z;
  di_consumer : ConsumerState;
  di_consumer_generation : Z
}.
#[export] Instance eta_DeviceInputState : Eta DeviceInputState :=
  λ r, mkDeviceInput (di_device_id r) (di_interface_id r) (di_keyboard r)
         (di_mouse_buttons r) (di_consumer r) (di_consumer_generation r).

Definition DeviceInputState_new (device interface : Z) : DeviceInputState :=
  mkDeviceInput device interface PhysicalKeyboardState_new 0 ConsumerState_new 0.

(** [InputAggregator<DEVICES>]: the array has [DEVICES] slots. *)
Record InputAggregator := mkAggregator {
  devices : list (option DeviceInputState);
  aggregate : PhysicalInputState;
  active_devices : nat;
  next_consumer_generation : Z
}.

Record PreparedInputFrame := mkPrepared {
  prep_index : option nat;
  prep_entry : option DeviceInputState;
  prep_aggregate : option PhysicalInputState;
  prep_active_devices : nat;
  prep_next_consumer_generation : Z
}.

Definition prepared_aggregate (self : PreparedInputFrame) (current : InputAggregator)
  : PhysicalInputState :=
  default (aggregate current) (prep_aggregate self).

Definition InputAggregator_new (n : nat) : InputAggregator :=
  mkAggregator (replicate n None) PhysicalInputState_new 0 1.

Definition interface_index (ds : list (option DeviceInputState)) (interface : Z)
  : option nat :=
  position (λ e, match e with
                 | Some e => bool_decide (di_interface_id e = interface)
                 | None => false
                 end) ds.

(** [left.wrapping_sub(right) < (1u64 << 63)]. *)
Definition generation_is_newer_or_equal (left right : Z) : bool :=
  bool_decide ((left - right) mod 2 ^ 64 < 2 ^ 63).

(** The test on the consumer generation, shared by the two loops. *)
Definition takes_consumer (entry : DeviceInputState) (newest : option Z) : bool :=
  is_some (cs_active (di_consumer entry)) &&
  match newest with
  | None => true
  | Some generation => generation_is_newer_or_equal (di_consumer_generation entry) generation
  end.

(** One turn of the loop of [rebuild_aggregate]. *)
Definition rebuild_step (st : PhysicalInputState * option Z) (entry : DeviceInputState)
  : Result InputError (PhysicalInputState * option Z) :=
  let '(agg, newest) := st in
  let kb := pi_keyboard agg
    <| kb_modifiers ::= λ m, Z.lor m (kb_modifiers (di_keyboard entry)) |> in
  match press_keys kb (kb_keys (di_keyboard entry)) with
  | (_, Err e) => Err e
  | (kb, Ok _) =>
      let agg := agg <| pi_keyboard := kb |>
        <| pi_mouse := mkPhysicalMouse (MouseButtons_from_bits_truncate
             (Z.lor (pm_buttons (pi_mouse agg)) (di_mouse_buttons entry))) |> in
      if takes_consumer entry newest
      then Ok (agg <| pi_consumer := di_consumer entry |>, Some (di_consumer_generation entry))
      else Ok (agg, newest)
  end.

Fixpoint rebuild_loop (entries : list DeviceInputState) (st : PhysicalInputState * option Z)
  : Result InputError (PhysicalInputState * option Z) :=
  match entries with
  | [] => Ok st
  | e :: entries => let? st := rebuild_step st e in rebuild_loop entries st
  end.

Definition rebuild_aggregate (ds : list (option DeviceInputState))
  : Result InputError PhysicalInputState :=
  let? st := rebuild_loop (omap id ds) (PhysicalInputState_new, None) in Ok (fst st).

(** The entries a [rebuild_*_replacing] loop visits: [devices.iter().enumerate()] with
    the replacement at its index and the empty slots skipped. *)
Fixpoint replacing_entries (ds : list (option DeviceInputState)) (index replacement : nat)
  (entry : DeviceInputState) : list DeviceInputState :=
  match ds with
  | [] => []
  | stored :: ds =>
      let rest := replacing_entries ds (S index) replacement entry in
      if decide (index = replacement) then entry :: rest
      else match stored with Some e => e :: rest | None => rest end
  end.

Fixpoint rebuild_keyboard_loop (entries : list DeviceInputState) (kb : PhysicalKeyboardState)
  : Result InputError PhysicalKeyboardState :=
  match entries with
  | [] => Ok kb
  | e :: entries =>
      match press_keys (kb <| kb_modifiers ::= λ m, Z.lor m (kb_modifiers (di_keyboard e)) |>)
              (kb_keys (di_keyboard e)) with
      | (kb, Ok _) => rebuild_keyboard_loop entries kb
      | (_, Err err) => Err err
      end
  end.

Definition rebuild_keyboard_replacing (ds : list (option DeviceInputState)) (index : nat)
  (entry : DeviceInputState) (agg : PhysicalInputState) : Result InputError PhysicalInputState :=
  let? kb := rebuild_keyboard_loop (replacing_entries ds 0 index entry)
               PhysicalKeyboardState_new in
  Ok (agg <| pi_keyboard := kb |>).

Definition rebuild_mouse_buttons_replacing (ds : list (option DeviceInputState)) (index : nat)
  (entry : DeviceInputState) (agg : PhysicalInputState) : PhysicalInputState :=
  agg <| pi_mouse := mkPhysicalMouse
    (fold_left (λ b e, MouseButtons_from_bits_truncate (Z.lor b (di_mouse_buttons e)))
       (replacing_entries ds 0 index entry) 0) |>.

Definition rebuild_consumer_replacing (ds : list (option DeviceInputState)) (index : nat)
  (entry : DeviceInputState) (agg : PhysicalInputState) : PhysicalInputState :=
  agg <| pi_consumer :=
    (fold_left (λ st e, if takes_consumer e (snd st)
                        then (di_consumer e, Some (di_consumer_generation e)) else st)
       (replacing_entries ds 0 index entry) (ConsumerState_new, None)).1 |>.

(** [frame.mouse.is_some_and(|mouse| mouse.buttons != existing_buttons)]. *)
Definition frame_changes_buttons (frame : StandardInputFrame) (existing : Z) : bool :=
  match sif_mouse frame with
  | Some m => bool_decide (mouse_buttons m ≠ existing)
  | None => false
  end.

(** The interface's next state: its keyboard, buttons and consumer replaced where the
    frame has them. *)
Definition frame_next_entry (self : InputAggregator) (entry : DeviceInputState)
  (frame : StandardInputFrame) : Result InputError DeviceInputState :=
  let? entry :=
    match sif_keyboard frame with
    | None => Ok entry
    | Some kf =>
        match replace_with_frame (di_keyboard entry) kf with
        | (kb, Ok _) => Ok (entry <| di_keyboard := kb |>)
        | (_, Err e) => Err e
        end
    end in
  let entry := match sif_mouse frame with
               | Some m => entry <| di_mouse_buttons := mouse_buttons m |>
               | None => entry
               end in
  Ok match sif_consumer frame with
     | Some c => entry <| di_consumer := mkConsumerState (cf_active c) |>
                       <| di_consumer_generation := next_consumer_generation self |>
     | None => entry
     end.

(** The three repairs of the aggregate, each only when the frame touches its part; [only]
    is [is_only_active_interface]. *)
Definition keyboard_part (self : InputAggregator) (frame : StandardInputFrame) (index : nat)
  (only : bool) (next_entry : DeviceInputState) (agg : PhysicalInputState)
  : Result InputError PhysicalInputState :=
  if is_some (sif_keyboard frame)
  then if only then Ok (agg <| pi_keyboard := di_keyboard next_entry |>)
       else rebuild_keyboard_replacing (devices self) index next_entry agg
  else Ok agg.

Definition buttons_part (self : InputAggregator) (buttons_changed : bool) (index : nat)
  (only : bool) (next_entry : DeviceInputState) (agg : PhysicalInputState)
  : PhysicalInputState :=
  if buttons_changed
  then if only then agg <| pi_mouse := mkPhysicalMouse (di_mouse_buttons next_entry) |>
       else rebuild_mouse_buttons_replacing (devices self) index next_entry agg
  else agg.

Definition consumer_part (self : InputAggregator) (frame : StandardInputFrame) (index : nat)
  (only : bool) (next_entry : DeviceInputState) (agg : PhysicalInputState)
  : PhysicalInputState :=
  if is_some (sif_consumer frame)
  then if only then agg <| pi_consumer := di_consumer next_entry |>
       else rebuild_consumer_replacing (devices self) index next_entry agg
  else agg.

Definition prepare_frame (self : InputAggregator) (frame : StandardInputFrame)
  : Result InputError PreparedInputFrame :=
  let existing_index := interface_index (devices self) (sif_interface_id frame) in
  let existing_buttons :=
    match existing_index with
    | Some i => match mjoin (devices self !! i) with
                | Some e => di_mouse_buttons e
                | None => 0
                end
    | None => 0
    end in
  let buttons_changed := frame_changes_buttons frame existing_buttons in
  if is_none (sif_keyboard frame) && is_none (sif_consumer frame) && negb buttons_changed
  then Ok (mkPrepared None None None (active_devices self) (next_consumer_generation self))
  else
  let? index :=
    match existing_index with
    | Some i => Ok i
    | None => match position is_none (devices self) with
              | Some i => Ok i
              | None => Err DeviceCapacity
              end
    end in
  let entry := default (DeviceInputState_new (sif_device_id frame) (sif_interface_id frame))
                 (mjoin (devices self !! index)) in
  let? next_entry := frame_next_entry self entry frame in
  let only := bool_decide (active_devices self = 0%nat ∨
                (active_devices self = 1%nat ∧ is_some existing_index = true)) in
  let? agg := keyboard_part self frame index only next_entry (aggregate self) in
  let agg := buttons_part self buttons_changed index only next_entry agg in
  let agg := consumer_part self frame index only next_entry agg in
  Ok (mkPrepared (Some index) (Some next_entry) (Some agg)
        (active_devices self + if is_none existing_index then 1 else 0)%nat
        (if is_some (sif_consumer frame) then (next_consumer_generation self + 1) mod 2 ^ 64
         else next_consumer_generation self)).

Definition commit_frame (self : InputAggregator) (prepared : PreparedInputFrame)
  : InputAggregator :=
  {| devices := match prep_index prepared with
                | Some i => <[i := prep_entry prepared]> (devices self)
                | None => devices self
                end;
     aggregate := default (aggregate self) (prep_aggregate prepared);
     active_devices := prep_active_devices prepared;
     next_consumer_generation := prep_next_consumer_generation prepared |}.

(** [apply_frame]: on an error the receiver is unchanged. *)
Definition apply_frame (self : InputAggregator) (frame : StandardInputFrame)
  : Result InputError InputAggregator :=
  let? prepared := prepare_frame self frame in Ok (commit_frame self prepared).

(** What both removals do once the slots are cleared. *)
Definition install_devices (self : InputAggregator) (ds : list (option DeviceInputState))
  : bool * InputAggregator :=
  match rebuild_aggregate ds with
  | Err _ => (false, self)
  | Ok agg => (true, mkAggregator ds agg (length (omap id ds)) (next_consumer_generation self))
  end.

Definition has_device (device : Z) (slot : option DeviceInputState) : bool :=
  match slot with Some e => bool_decide (di_device_id e = device) | None => false end.

Definition remove_device (self : InputAggregator) (device : Z) : bool * InputAggregator :=
  if negb (existsb (has_device device) (devices self)) then (false, self)
  else install_devices self
         (map (λ slot, if has_device device slot then None else slot) (devices self)).

Definition remove_interface (self : InputAggregator) (interface : Z) : bool * InputAggregator :=
  match interface_index (devices self) interface with
  | None => (false, self)
  | Some index => install_devices self (<[index := None]> (devices self))
  end.

(** ** The aggregate, part by part *)

Definition mouse_of (es : list DeviceInputState) : Z :=
  fold_left (λ b e, MouseButtons_from_bits_truncate (Z.lor b (di_mouse_buttons e))) es 0.

Definition consumer_step (st : ConsumerState * option Z) (e : DeviceInputState) :=
  if takes_consumer e (snd st)
  then (di_consumer e, Some (di_consumer_generation e)) else st.

Lemma consumer_step_ext st e e' : di_consumer e = di_consumer e' →
  di_consumer_generation e = di_consumer_generation e' →
  consumer_step st e = consumer_step st e'.
Proof. intros H1 H2. unfold consumer_step, takes_consumer. by rewrite H1, H2. Qed.

Lemma consumer_step_none st e : cs_active (di_consumer e) = None → consumer_step st e = st.
Proof. intros H. unfold consumer_step, takes_consumer. by rewrite H. Qed.

Definition consumer_of (es : list DeviceInputState) : ConsumerState :=
  (fold_left consumer_step es (ConsumerState_new, None)).1.

Lemma rebuild_loop_parts es agg newest :
  rebuild_loop es (agg, newest) =
    let? kb := rebuild_keyboard_loop es (pi_keyboard agg) in
    let c := fold_left consumer_step es (pi_consumer agg, newest) in
    Ok (mkPhysicalInput kb
          (mkPhysicalMouse (fold_left (λ b e,
             MouseButtons_from_bits_truncate (Z.lor b (di_mouse_buttons e))) es
             (pm_buttons (pi_mouse agg)))) c.1, c.2).
Proof.
  revert agg newest. induction es as [|e es IH]; intros [kb [m] c] newest; [done|].
  cbn [rebuild_loop rebuild_keyboard_loop fold_left pi_keyboard pi_mouse pi_consumer pm_buttons].
  unfold rebuild_step. cbn [pi_keyboard].
  destruct (press_keys _ _) as [kb' [[]|err]]; [|done].
  change (consumer_step (c, newest) e) with
    (if takes_consumer e newest then (di_consumer e, Some (di_consumer_generation e))
     else (c, newest)).
  destruct (takes_consumer e newest); cbn [result_bind]; rewrite IH; done.
Qed.

Lemma rebuild_aggregate_parts ds :
  rebuild_aggregate ds =
    let? kb := rebuild_keyboard_loop (omap id ds) PhysicalKeyboardState_new in
    Ok (mkPhysicalInput kb (mkPhysicalMouse (mouse_of (omap id ds))) (consumer_of (omap id ds))).
Proof.
  unfold rebuild_aggregate. rewrite rebuild_loop_parts. by destruct (rebuild_keyboard_loop _ _).
Qed.

Lemma replacing_entries_insert ds i k e : (k < length ds)%nat →
  replacing_entries ds i (i + k) e = omap id (<[k := Some e]> ds).
Proof.
  revert i k. induction ds as [|d ds IH]; intros i k Hk; simpl in Hk; [lia|].
  assert (∀ j ds, (∀ n, j + n ≠ i + k)%nat → replacing_entries ds j (i + k) e = omap id ds) as Hno.
  { clear. intros j ds. revert j. induction ds as [|d ds IH]; intros j Hj; [done|]. simpl.
    rewrite decide_False by (specialize (Hj 0%nat); lia).
    rewrite IH by (intros n; specialize (Hj (S n)); lia). by destruct d. }
  destruct k as [|k]; cbn [replacing_entries].
  - rewrite decide_True by lia. simpl. f_equal. rewrite Hno; [done|lia].
  - rewrite decide_False by lia. replace (i + S k)%nat with (S i + k)%nat by lia.
    rewrite IH by lia. by destruct d.
Qed.

Lemma replacing_entries_0 ds k e : (k < length ds)%nat →
  replacing_entries ds 0 k e = omap id (<[k := Some e]> ds).
Proof. apply (replacing_entries_insert ds 0 k e). Qed.

(** *** Entries that add nothing *)

Lemma kb_loop_app es es' kb :
  rebuild_keyboard_loop (es ++ es') kb =
    let? kb := rebuild_keyboard_loop es kb in rebuild_keyboard_loop es' kb.
Proof.
  revert kb. induction es as [|e es IH]; intros kb; [done|]. cbn [app rebuild_keyboard_loop].
  destruct (press_keys _ _) as [kb' [[]|err]]; [apply IH|done].
Qed.

Lemma kb_loop_cons_same e e' es kb : di_keyboard e = di_keyboard e' →
  rebuild_keyboard_loop (e :: es) kb = rebuild_keyboard_loop (e' :: es) kb.
Proof. intros H. cbn [rebuild_keyboard_loop]. by rewrite H. Qed.

Lemma kb_loop_cons_empty e es kb : di_keyboard e = PhysicalKeyboardState_new →
  rebuild_keyboard_loop (e :: es) kb = rebuild_keyboard_loop es kb.
Proof.
  intros H. cbn [rebuild_keyboard_loop]. rewrite H. cbn. f_equal. destruct kb.
  unfold upd. cbn. by rewrite Z.lor_0_r.
Qed.

Lemma mouse_fold_trunc es b : MouseButtons_from_bits_truncate b = b →
  let r := fold_left (λ b e, MouseButtons_from_bits_truncate (Z.lor b (di_mouse_buttons e))) es b in
  MouseButtons_from_bits_truncate r = r.
Proof.
  revert b. induction es as [|e es IH]; intros b Hb; [done|]. simpl. apply IH, trunc_idem.
Qed.

Lemma mouse_of_replace l1 l2 e e' : di_mouse_buttons e = di_mouse_buttons e' →
  mouse_of (l1 ++ e :: l2) = mouse_of (l1 ++ e' :: l2).
Proof. intros H. unfold mouse_of. rewrite !fold_left_app. simpl. by rewrite H. Qed.

Lemma mouse_of_add l1 l2 e : di_mouse_buttons e = 0 →
  mouse_of (l1 ++ e :: l2) = mouse_of (l1 ++ l2).
Proof.
  intros H. unfold mouse_of. rewrite !fold_left_app. simpl. rewrite H, Z.lor_0_r.
  by rewrite mouse_fold_trunc.
Qed.

Lemma consumer_of_replace l1 l2 e e' : di_consumer e = di_consumer e' →
  di_consumer_generation e = di_consumer_generation e' →
  consumer_of (l1 ++ e :: l2) = consumer_of (l1 ++ e' :: l2).
Proof.
  intros H1 H2. unfold consumer_of. rewrite !fold_left_app. simpl.
  by rewrite (consumer_step_ext _ e e').
Qed.

Lemma consumer_of_add l1 l2 e : cs_active (di_consumer e) = None →
  consumer_of (l1 ++ e :: l2) = consumer_of (l1 ++ l2).
Proof.
  intros H. unfold consumer_of. rewrite !fold_left_app. simpl.
  by rewrite consumer_step_none.
Qed.

(** *** One entry alone *)

Lemma kb_loop_single e : keyboard_ok (di_keyboard e) →
  rebuild_keyboard_loop [e] PhysicalKeyboardState_new = Ok (di_keyboard e).
Proof.
  intros [_ _ Hnd Hl]. cbn [rebuild_keyboard_loop].
  assert (filter (.∉ @nil Z) (kb_keys (di_keyboard e)) = kb_keys (di_keyboard e)) as Hf
    by (apply filter_all, List.Forall_forall; intros; apply not_elem_of_nil).
  rewrite press_keys_spec; unfold upd; cbn [kb_keys kb_modifiers PhysicalKeyboardState_new];
    rewrite ?Hf; [by destruct (di_keyboard e)|done|done].
Qed.

Lemma mouse_of_single e : MouseButtons_from_bits_truncate (di_mouse_buttons e) = di_mouse_buttons e →
  mouse_of [e] = di_mouse_buttons e.
Proof. intros H. unfold mouse_of. simpl. by rewrite Z.lor_0_l. Qed.

Lemma consumer_of_single e : consumer_of [e] = di_consumer e.
Proof.
  unfold consumer_of. simpl. unfold consumer_step, takes_consumer. cbn [snd].
  destruct (di_consumer e) as [[a|]]; done.
Qed.

(** ** The invariant *)

Record input_ok (f : StandardInputFrame) : Prop := {
  if_keyboard_ok : ∀ k, sif_keyboard f = Some k → frame_ok k;
  if_mouse_ok : ∀ m, sif_mouse f = Some m →
    MouseButtons_from_bits_truncate (mouse_buttons m) = mouse_buttons m
}.

Record entry_ok (e : DeviceInputState) : Prop := {
  en_keyboard_ok : keyboard_ok (di_keyboard e);
  en_buttons_ok : MouseButtons_from_bits_truncate (di_mouse_buttons e) = di_mouse_buttons e
}.

Record agg_inv (a : InputAggregator) : Prop := {
  ai_aggregate : rebuild_aggregate (devices a) = Ok (aggregate a);
  ai_active : active_devices a = length (omap id (devices a));
  ai_entries : Forall entry_ok (omap id (devices a));
  ai_distinct : NoDup (map di_interface_id (omap id (devices a)))
}.

Lemma omap_id_app (l1 l2 : list (option DeviceInputState)) x :
  omap id (l1 ++ Some x :: l2) = omap id l1 ++ x :: omap id l2.
Proof. by rewrite omap_app. Qed.

Lemma omap_id_app_None (l1 l2 : list (option DeviceInputState)) :
  omap id (l1 ++ None :: l2) = omap id l1 ++ omap id l2.
Proof. by rewrite omap_app. Qed.

Lemma omap_id_replicate n : omap id (replicate n (@None DeviceInputState)) = [].
Proof. induction n; [done|]. simpl. done. Qed.

Lemma interface_index_Some ds i n : interface_index ds i = Some n →
  ∃ e, ds !! n = Some (Some e) ∧ di_interface_id e = i.
Proof.
  intros H. apply position_Some in H as ([e|] & He & Hb); [|done].
  apply bool_decide_eq_true in Hb. eauto.
Qed.

Lemma interface_index_None ds i : interface_index ds i = None →
  i ∉ map di_interface_id (omap id ds).
Proof.
  intros H Hin. apply list_elem_of_fmap in Hin as (e & -> & He).
  apply list_elem_of_omap in He as ([e'|] & He & [= ->]).
  apply list_elem_of_lookup_1 in He as [n Hn].
  pose proof (position_None _ _ _ _ H Hn) as Hf. simpl in Hf.
  by apply bool_decide_eq_false in Hf.
Qed.

(** The slot a frame goes to, and what was there. *)
Lemma frame_slot a interface index :
  (let? i := match interface_index (devices a) interface with
             | Some i => Ok i
             | None => match position is_none (devices a) with
                       | Some i => Ok i
                       | None => Err DeviceCapacity
                       end
             end in Ok i) = Ok index →
  ∃ l1 l2 slot, devices a = l1 ++ slot :: l2 ∧
    devices a !! index = Some slot ∧
    (∀ y, <[index := y]> (devices a) = l1 ++ y :: l2) ∧
    match slot with
    | Some e => interface_index (devices a) interface = Some index ∧ di_interface_id e = interface
    | None => interface_index (devices a) interface = None
    end.
Proof.
  intros H. assert (∃ slot, devices a !! index = Some slot ∧
    match slot with
    | Some e => interface_index (devices a) interface = Some index ∧ di_interface_id e = interface
    | None => interface_index (devices a) interface = None
    end) as (slot & Hs & Hm).
  { destruct (interface_index (devices a) interface) as [i|] eqn:Hi.
    - injection H as <-. apply interface_index_Some in Hi as (e & He & Hie). by exists (Some e).
    - destruct (position is_none (devices a)) as [i|] eqn:Hp; [|done]. injection H as <-.
      apply position_Some in Hp as ([e|] & He & Hb); [done|]. by exists None. }
  exists (take index (devices a)), (drop (S index) (devices a)), slot.
  split; [by rewrite take_drop_middle|]. split; [done|]. split; [|done].
  intros y. apply insert_take_drop. by eapply lookup_lt_Some.
Qed.

Lemma entry_new_ok d i : entry_ok (DeviceInputState_new d i).
Proof. split; [|done]. split; cbn; [words|constructor|constructor|lia]. Qed.

Lemma next_entry_spec a entry f next :
  input_ok f → entry_ok entry → frame_next_entry a entry f = Ok next →
  entry_ok next ∧ di_interface_id next = di_interface_id entry ∧
  (sif_keyboard f = None → di_keyboard next = di_keyboard entry) ∧
  (frame_changes_buttons f (di_mouse_buttons entry) = false →
     di_mouse_buttons next = di_mouse_buttons entry) ∧
  (sif_consumer f = None → di_consumer next = di_consumer entry ∧
     di_consumer_generation next = di_consumer_generation entry).
Proof.
  intros [Hfk Hfm] [Hk Hb] H. unfold frame_next_entry in H. inv_ok H. rename a0 into e1.
  assert (keyboard_ok (di_keyboard e1) ∧ di_interface_id e1 = di_interface_id entry ∧
    (sif_keyboard f = None → di_keyboard e1 = di_keyboard entry) ∧
    di_mouse_buttons e1 = di_mouse_buttons entry ∧ di_consumer e1 = di_consumer entry ∧
    di_consumer_generation e1 = di_consumer_generation entry) as (H1 & H2 & H3 & H4 & H5 & H6).
  { destruct (sif_keyboard f) as [kf|]; [|by injection Ha as <-].
    specialize (Hfk kf eq_refl). rewrite replace_with_frame_spec in Ha by done.
    injection Ha as <-. unfold upd. cbn. destruct Hfk. split; [by split|].
    split; [done|]. split; [by intros [=]|done]. }
  unfold frame_changes_buttons. rewrite <- H. clear H.
  destruct (sif_mouse f) as [m|], (sif_consumer f) as [c|]; unfold upd; cbn;
    (split; [split; cbn; [done|first [by apply Hfm|by rewrite H4]]|]);
    (split; [done|]); (split; [done|]); (split; [|done]);
    first [by rewrite H4|by intros ?%bool_decide_eq_false%dec_stable].
Qed.

(** The entries before the frame and after it. *)
Definition old_entries (l1 l2 : list (option DeviceInputState)) (slot : option DeviceInputState) :=
  omap id l1 ++ (match slot with Some e => [e] | None => [] end) ++ omap id l2.

Lemma omap_id_slot l1 l2 slot : omap id (l1 ++ slot :: l2) = old_entries l1 l2 slot.
Proof. unfold old_entries. rewrite omap_app. by destruct slot. Qed.

Section Replace.
Context (l1 l2 : list (option DeviceInputState)) (slot : option DeviceInputState).
Context (fresh next : DeviceInputState).
Context (Hfresh_kb : di_keyboard fresh = PhysicalKeyboardState_new).
Context (Hfresh_buttons : di_mouse_buttons fresh = 0).
Context (Hfresh_consumer : cs_active (di_consumer fresh) = None).

Let entry : DeviceInputState := default fresh slot.
Let new_entries : list DeviceInputState := omap id l1 ++ next :: omap id l2.

Lemma keyboard_untouched : di_keyboard next = di_keyboard entry →
  rebuild_keyboard_loop new_entries PhysicalKeyboardState_new =
  rebuild_keyboard_loop (old_entries l1 l2 slot) PhysicalKeyboardState_new.
Proof.
  intros H. unfold new_entries, old_entries. rewrite !kb_loop_app.
  destruct (rebuild_keyboard_loop (omap id l1) _) as [kb|]; [|done]. cbn [result_bind].
  unfold new_entries, entry in *. destruct slot as [e|]; cbn [app default] in *.
  - by apply kb_loop_cons_same.
  - apply kb_loop_cons_empty. by rewrite H.
Qed.

Lemma buttons_untouched : di_mouse_buttons next = di_mouse_buttons entry →
  mouse_of new_entries = mouse_of (old_entries l1 l2 slot).
Proof.
  intros H. unfold old_entries. unfold new_entries, entry in *. destruct slot as [e|]; cbn [app default] in *.
  - by apply mouse_of_replace.
  - apply mouse_of_add. by rewrite H.
Qed.

Lemma consumer_untouched : di_consumer next = di_consumer entry →
  di_consumer_generation next = di_consumer_generation entry →
  consumer_of new_entries = consumer_of (old_entries l1 l2 slot).
Proof.
  intros H1 H2. unfold old_entries. unfold new_entries, entry in *. destruct slot as [e|]; cbn [app default] in *.
  - by apply consumer_of_replace.
  - apply consumer_of_add. by rewrite H1.
Qed.

Lemma only_alone (existing : option nat) :
  (slot = None → existing = None) →
  (length (old_entries l1 l2 slot) = 0%nat ∨
   length (old_entries l1 l2 slot) = 1%nat ∧ is_some existing = true) →
  new_entries = [next].
Proof.
  intros Hex H. unfold old_entries in H. rewrite !length_app in H.
  assert (length (omap id l1) = 0%nat ∧ length (omap id l2) = 0%nat) as [H1 H2].
  { destruct slot as [e|]; simpl in H; [lia|].
    destruct H as [?|[_ H]]; [lia|]. by rewrite Hex in H. }
  apply nil_length_inv in H1, H2. unfold new_entries. by rewrite H1, H2.
Qed.

Context (a : InputAggregator) (f : StandardInputFrame) (index : nat) (only : bool).
Context (Hindex : (index < length (devices a))%nat).
Context (Hinsert : omap id (<[index := Some next]> (devices a)) = new_entries).
Context (Honly : only = true → new_entries = [next]).
Context (Hnext : entry_ok next).

Lemma keyboard_part_spec agg agg' :
  rebuild_keyboard_loop (old_entries l1 l2 slot) PhysicalKeyboardState_new =
    Ok (pi_keyboard agg) →
  (sif_keyboard f = None → di_keyboard next = di_keyboard entry) →
  keyboard_part a f index only next agg = Ok agg' →
  rebuild_keyboard_loop new_entries PhysicalKeyboardState_new = Ok (pi_keyboard agg') ∧
  pi_mouse agg' = pi_mouse agg ∧ pi_consumer agg' = pi_consumer agg.
Proof.
  intros Hold Huntouched H. unfold keyboard_part in H.
  destruct (sif_keyboard f) as [kf|]; cbn [is_some is_none negb] in H.
  - destruct only.
    + injection H as <-. rewrite Honly by done. split; [|done].
      apply kb_loop_single, Hnext.
    + unfold rebuild_keyboard_replacing in H. apply bind_ok in H as (kb & Hkb & H).
      injection H as <-. rewrite <- Hinsert, <- replacing_entries_0 by done.
      by rewrite Hkb.
  - injection H as <-. rewrite keyboard_untouched by auto. done.
Qed.

Lemma buttons_part_spec changed agg :
  mouse_of (old_entries l1 l2 slot) = pm_buttons (pi_mouse agg) →
  (changed = false → di_mouse_buttons next = di_mouse_buttons entry) →
  let agg' := buttons_part a changed index only next agg in
  mouse_of new_entries = pm_buttons (pi_mouse agg') ∧
  pi_keyboard agg' = pi_keyboard agg ∧ pi_consumer agg' = pi_consumer agg.
Proof.
  intros Hold Huntouched. unfold buttons_part. destruct changed.
  - destruct only.
    + rewrite Honly by done. split; [|done]. apply mouse_of_single, Hnext.
    + unfold rebuild_mouse_buttons_replacing. rewrite <- Hinsert.
      by rewrite <- replacing_entries_0 by done.
  - by rewrite buttons_untouched by auto.
Qed.

Lemma consumer_part_spec agg :
  consumer_of (old_entries l1 l2 slot) = pi_consumer agg →
  (sif_consumer f = None → di_consumer next = di_consumer entry ∧
     di_consumer_generation next = di_consumer_generation entry) →
  let agg' := consumer_part a f index only next agg in
  consumer_of new_entries = pi_consumer agg' ∧
  pi_keyboard agg' = pi_keyboard agg ∧ pi_mouse agg' = pi_mouse agg.
Proof.
  intros Hold Huntouched. unfold consumer_part.
  destruct (sif_consumer f) as [c|]; cbn [is_some is_none negb].
  - destruct only.
    + rewrite Honly by done. split; [|done]. apply consumer_of_single.
    + unfold rebuild_consumer_replacing. rewrite <- Hinsert.
      by rewrite <- replacing_entries_0 by done.
  - by rewrite consumer_untouched by (apply Huntouched; done).
Qed.
End Replace.

Lemma distinct_replace l1 l2 slot next :
  NoDup (map di_interface_id (old_entries l1 l2 slot)) →
  match slot with
  | Some e => di_interface_id next = di_interface_id e
  | None => di_interface_id next ∉ map di_interface_id (old_entries l1 l2 slot)
  end →
  NoDup (map di_interface_id (omap id l1 ++ next :: omap id l2)).
Proof.
  unfold old_entries. destruct slot as [e|]; rewrite !map_app; simpl.
  - by intros H ->.
  - intros Hnd Hnot. rewrite (Permutation_app_comm _ (_ :: _)). simpl.
    rewrite (Permutation_app_comm (map _ (omap id l2))). by constructor.
Qed.

(** What a successful [prepare_frame] that touches a slot decided. *)
Lemma prepare_frame_inv a f p : prepare_frame a f = Ok p →
  p = mkPrepared None None None (active_devices a) (next_consumer_generation a) ∨
  ∃ l1 l2 slot index next existing only agg,
    devices a = l1 ++ slot :: l2 ∧ (index < length (devices a))%nat ∧
    (∀ y, <[index := y]> (devices a) = l1 ++ y :: l2) ∧
    match slot with
    | Some e => existing = Some index ∧ di_interface_id e = sif_interface_id f
    | None => existing = None ∧ interface_index (devices a) (sif_interface_id f) = None
    end ∧
    let entry := default (DeviceInputState_new (sif_device_id f) (sif_interface_id f)) slot in
    frame_next_entry a entry f = Ok next ∧
    only = bool_decide (active_devices a = 0%nat ∨
             (active_devices a = 1%nat ∧ is_some existing = true)) ∧
    keyboard_part a f index only next (aggregate a) = Ok agg ∧
    p = mkPrepared (Some index) (Some next)
          (Some (consumer_part a f index only next
             (buttons_part a (frame_changes_buttons f (di_mouse_buttons entry)) index only next agg)))
          (active_devices a + match slot with Some _ => 0 | None => 1 end)%nat
          (if is_some (sif_consumer f) then (next_consumer_generation a + 1) mod 2 ^ 64
           else next_consumer_generation a).
Proof.
  intros Hp. unfold prepare_frame in Hp.
  set (existing := interface_index (devices a) (sif_interface_id f)) in *.
  set (ebuttons := match existing with Some _ => _ | None => 0 end) in *.
  destruct (is_none (sif_keyboard f) && _ && _); [left; by injection Hp as <-|right].
  apply bind_ok in Hp as (index & Hindex & Hp).
  apply bind_ok in Hp as (next & Hnext & Hp).
  apply bind_ok in Hp as (agg & Hagg & Hp). injection Hp as <-.
  destruct (frame_slot a (sif_interface_id f) index) as (l1 & l2 & slot & Hds & Hlk & Hins & Hslot).
  { fold existing. by rewrite Hindex. }
  fold existing in Hslot. rewrite Hlk in Hnext. cbn [mjoin option_join] in Hnext.
  exists l1, l2, slot, index, next, existing. do 2 eexists.
  split; [done|]. split; [by eapply lookup_lt_Some|]. split; [done|].
  split; [by destruct slot|]. cbn zeta. split; [exact Hnext|]. split; [reflexivity|].
  split; [exact Hagg|].
  assert (ebuttons = di_mouse_buttons
    (default (DeviceInputState_new (sif_device_id f) (sif_interface_id f)) slot)) as ->.
  { unfold ebuttons. destruct slot as [e|]; [destruct Hslot as [-> _]; by rewrite Hlk|].
    by rewrite Hslot. }
  f_equal. destruct slot as [e|]; [by destruct Hslot as [-> _]|by rewrite Hslot].
Qed.

Lemma apply_frame_preserves a f a' :
  input_ok f → agg_inv a → apply_frame a f = Ok a' → agg_inv a'.
Proof.
  intros Hf [Hagg Hact Hen Hdis] H. unfold apply_frame in H. apply bind_ok in H as (p & Hp & H).
  injection H as <-. apply prepare_frame_inv in Hp
    as [->|(l1 & l2 & slot & index & next & existing & only & agg & Hds & Hlt & Hins & Hslot &
            Hnext & Ho & Hk & ->)]; [by split|].
  set (fresh := DeviceInputState_new _ _) in *.
  rewrite rebuild_aggregate_parts, Hds, omap_id_slot in Hagg.
  rewrite Hds, omap_id_slot in Hact, Hen, Hdis.
  apply bind_ok in Hagg as (kb & Hkb & Hagg). injection Hagg as Hagg.
  assert (entry_ok (default fresh slot)) as Hentry.
  { destruct slot as [e|]; [|apply entry_new_ok]. unfold old_entries in Hen.
    apply Forall_app in Hen as [_ Hen]. by apply List.Forall_cons_iff in Hen as [? _]. }
  destruct (next_entry_spec a _ f next Hf Hentry Hnext) as (Hnok & Hnid & Hnk & Hnb & Hnc).
  assert (only = true → omap id l1 ++ next :: omap id l2 = [next]) as Honly.
  { intros ->. symmetry in Ho. apply bool_decide_eq_true in Ho. rewrite Hact in Ho.
    refine (only_alone l1 l2 slot fresh next existing _ Ho). intros ->. apply Hslot. }
  assert (omap id (<[index:=Some next]> (devices a)) = omap id l1 ++ next :: omap id l2) as Hnew
    by by rewrite Hins, omap_id_app.
  rewrite <- Hagg in Hk. set (base := mkPhysicalInput kb _ _) in Hk.
  destruct (keyboard_part_spec l1 l2 slot fresh next eq_refl a f index only Hlt Hnew Honly Hnok
    base agg Hkb Hnk Hk) as (K1 & K2 & K3).
  destruct (buttons_part_spec l1 l2 slot fresh next eq_refl a index only Hlt Hnew Honly Hnok
    (frame_changes_buttons f (di_mouse_buttons (default fresh slot))) agg
    ltac:(by rewrite K2) Hnb) as (M1 & M2 & M3).
  destruct (consumer_part_spec l1 l2 slot fresh next eq_refl a f index only Hlt Hnew Honly
    (buttons_part a (frame_changes_buttons f (di_mouse_buttons (default fresh slot)))
       index only next agg) ltac:(by rewrite M3, K3) Hnc) as (C1 & C2 & C3).
  set (final := consumer_part _ _ _ _ _ _) in *.
  split; cbn [commit_frame devices aggregate active_devices prep_index prep_entry prep_aggregate
    prep_active_devices prep_next_consumer_generation default]; rewrite ?Hnew.
  - rewrite rebuild_aggregate_parts, Hnew, K1. cbn [result_bind].
    rewrite M1, C1, <- C3, <- M2, <- C2. by destruct final as [? [] ?].
  - rewrite Hact. unfold old_entries. rewrite !length_app. simpl. destruct slot; simpl; lia.
  - unfold old_entries in Hen. rewrite !Forall_app in Hen. apply Forall_app. split; [apply Hen|].
    constructor; [done|apply Hen].
  - apply (distinct_replace _ _ slot); [done|]. destruct slot as [e|].
    + exact Hnid.
    + destruct Hslot as [_ Hno%interface_index_None]. rewrite Hds, omap_id_slot in Hno.
      rewrite Hnid. exact Hno.
Qed.

(** ** What the aggregate means *)

Lemma press_keys_inv ks s s' : press_keys s ks = (s', Ok tt) →
  NoDup (kb_keys s) → (length (kb_keys s) ≤ PHYSICAL_KEYBOARD_KEY_CAPACITY)%nat →
  (∀ k, k ∈ kb_keys s' ↔ k ∈ kb_keys s ∨ k ∈ ks) ∧ NoDup (kb_keys s') ∧
  (length (kb_keys s') ≤ PHYSICAL_KEYBOARD_KEY_CAPACITY)%nat ∧
  kb_modifiers s' = kb_modifiers s.
Proof.
  revert s. induction ks as [|k ks IH]; intros s H Hnd Hl; cbn [press_keys] in H.
  { injection H as <-. repeat split; try done; [by left|].
    by intros [?|?%elem_of_nil]. }
  destruct (press_key s k) as [s1 [[]|e]] eqn:Hp; [|done].
  assert ((∀ x, x ∈ kb_keys s1 ↔ x ∈ kb_keys s ∨ x = k) ∧ NoDup (kb_keys s1) ∧
    (length (kb_keys s1) ≤ PHYSICAL_KEYBOARD_KEY_CAPACITY)%nat ∧
    kb_modifiers s1 = kb_modifiers s) as (H1 & H2 & H3 & H4).
  { unfold press_key in Hp. destruct (contains _ _) eqn:E.
    - injection Hp as <-. apply contains_true in E. repeat split; try done; [by left|].
      by intros [?| ->].
    - apply contains_false in E. destruct (vec_push _ _ _) as [l|] eqn:Ev; [|done].
      apply vec_push_Some in Ev as [Hlt ->]. injection Hp as <-. unfold upd. cbn.
      split; [intros x; by rewrite elem_of_app, list_elem_of_singleton|].
      split; [|split; [rewrite length_app; simpl; lia|done]].
      apply list.NoDup_app. split; [done|]. split; [|apply NoDup_singleton].
      intros x Hx ->%list_elem_of_singleton. done. }
  destruct (IH s1 H H2 H3) as (I1 & I2 & I3 & I4). split; [|split; [done|split; [done|congruence]]].
  intros x. rewrite I1, H1, elem_of_cons. tauto.
Qed.

Lemma kb_loop_inv es kb kb' : rebuild_keyboard_loop es kb = Ok kb' →
  NoDup (kb_keys kb) → (length (kb_keys kb) ≤ PHYSICAL_KEYBOARD_KEY_CAPACITY)%nat →
  (∀ k, k ∈ kb_keys kb' ↔ k ∈ kb_keys kb ∨ ∃ e, e ∈ es ∧ k ∈ kb_keys (di_keyboard e)) ∧
  NoDup (kb_keys kb') ∧ (length (kb_keys kb') ≤ PHYSICAL_KEYBOARD_KEY_CAPACITY)%nat ∧
  (∀ i, Z.testbit (kb_modifiers kb') i = Z.testbit (kb_modifiers kb) i ||
     existsb (λ e, Z.testbit (kb_modifiers (di_keyboard e)) i) es).
Proof.
  revert kb. induction es as [|e es IH]; intros kb H Hnd Hl; cbn [rebuild_keyboard_loop] in H.
  { injection H as <-. split; [|split; [done|split; [done|intros i; by rewrite orb_false_r]]].
    intros k. split; [by left|]. intros [?|(e & He%elem_of_nil & _)]; done. }
  destruct (press_keys _ _) as [kb1 [[]|err]] eqn:Hp; [|done].
  apply press_keys_inv in Hp as (H1 & H2 & H3 & H4); [|done..]. unfold upd in *. cbn in H1, H4.
  destruct (IH kb1 H H2 H3) as (I1 & I2 & I3 & I4). split; [|split; [done|split; [done|]]].
  - intros k. rewrite I1, H1. split.
    + intros [[?|?]|(e' & He' & ?)]; [by left|right; exists e; split; [left|done]|].
      right. exists e'. split; [by right|done].
    + intros [?|(e' & [->|He']%elem_of_cons & ?)]; [by left; left|by left; right|].
      right. eauto.
  - intros i. rewrite I4, H4, Z.lor_spec. simpl. by rewrite orb_assoc.
Qed.

(** Presses whose keys stay inside a set of at most 32 always succeed. *)
Lemma press_keys_within u ks s : (length u ≤ PHYSICAL_KEYBOARD_KEY_CAPACITY)%nat →
  NoDup (kb_keys s) → (∀ k, k ∈ kb_keys s → k ∈ u) → (∀ k, k ∈ ks → k ∈ u) →
  ∃ s', press_keys s ks = (s', Ok tt) ∧ NoDup (kb_keys s') ∧ (∀ k, k ∈ kb_keys s' → k ∈ u).
Proof.
  intros Hu. revert s. induction ks as [|k ks IH]; intros s Hnd Hs Hks; cbn [press_keys].
  { eauto. }
  assert (k ∈ u) as Hk by (apply Hks; left).
  assert (∀ x, x ∈ ks → x ∈ u) as Hks' by (intros x Hx; apply Hks; by right).
  unfold press_key. case_contains; [by apply IH|].
  assert (NoDup (kb_keys s ++ [k])) as Hnd'.
  { apply list.NoDup_app. split; [done|]. split; [|apply NoDup_singleton].
    intros x Hx ->%list_elem_of_singleton. done. }
  assert (∀ x, x ∈ kb_keys s ++ [k] → x ∈ u) as Hs'.
  { intros x. rewrite elem_of_app, list_elem_of_singleton. intros [?| ->]; auto. }
  assert (length (kb_keys s ++ [k]) ≤ length u)%nat as Hlen
    by by apply submseteq_length, NoDup_submseteq.
  rewrite length_app in Hlen. simpl in Hlen.
  unfold vec_push. rewrite decide_True by lia. by apply IH.
Qed.

Lemma kb_loop_within u es kb : (length u ≤ PHYSICAL_KEYBOARD_KEY_CAPACITY)%nat →
  NoDup (kb_keys kb) → (∀ k, k ∈ kb_keys kb → k ∈ u) →
  (∀ e k, e ∈ es → k ∈ kb_keys (di_keyboard e) → k ∈ u) →
  ∃ kb', rebuild_keyboard_loop es kb = Ok kb'.
Proof.
  intros Hu. revert kb. induction es as [|e es IH]; intros kb Hnd Hs Hes;
    cbn [rebuild_keyboard_loop]; [eauto|].
  destruct (press_keys_within u (kb_keys (di_keyboard e))
    (kb <| kb_modifiers ::= λ m, Z.lor m (kb_modifiers (di_keyboard e)) |>))
    as (kb1 & -> & Hnd1 & Hs1); try done.
  { intros k Hk. eapply Hes; [left|done]. }
  apply IH; try done. intros e' k He'. apply Hes. by right.
Qed.

Lemma mouse_fold_testbit es b i : 0 ≤ i < 5 →
  Z.testbit (fold_left (λ b e, MouseButtons_from_bits_truncate (Z.lor b (di_mouse_buttons e)))
               es b) i =
    Z.testbit b i || existsb (λ e, Z.testbit (di_mouse_buttons e) i) es.
Proof.
  intros Hi. revert b. induction es as [|e es IH]; intros b; simpl; [by rewrite orb_false_r|].
  rewrite IH. unfold MouseButtons_from_bits_truncate at 1. rewrite Z.land_spec.
  change 31 with (Z.ones 5). rewrite Z.ones_spec_low by lia.
  rewrite Z.lor_spec, andb_true_r. by rewrite orb_assoc.
Qed.

Lemma mouse_of_testbit es i : 0 ≤ i < 5 →
  Z.testbit (mouse_of es) i = existsb (λ e, Z.testbit (di_mouse_buttons e) i) es.
Proof. intros Hi. unfold mouse_of. by rewrite mouse_fold_testbit, Z.testbit_0_l. Qed.

(** ** Removal *)

Lemma install_preserves a ds : agg_inv a →
  (∀ e, e ∈ omap id ds → e ∈ omap id (devices a)) →
  NoDup (map di_interface_id (omap id ds)) →
  ∃ a', install_devices a ds = (true, a') ∧ agg_inv a' ∧ devices a' = ds.
Proof.
  intros [Hagg Hact Hen Hdis] Hsub Hnd. rewrite rebuild_aggregate_parts in Hagg.
  apply bind_ok in Hagg as (kb & Hkb & _).
  apply kb_loop_inv in Hkb as (Hkeys & _ & Hlen & _); [|constructor|simpl; lia].
  destruct (kb_loop_within (kb_keys kb) (omap id ds) PhysicalKeyboardState_new) as [kb' Hkb'].
  - done.
  - constructor.
  - intros k Hk. by apply elem_of_nil in Hk.
  - intros e k He Hk. apply Hkeys. right. exists e. auto.
  - assert (rebuild_aggregate ds = Ok (mkPhysicalInput kb' (mkPhysicalMouse (mouse_of (omap id ds)))
      (consumer_of (omap id ds)))) as Hr by by rewrite rebuild_aggregate_parts, Hkb'.
    unfold install_devices. rewrite Hr. eexists. split; [done|]. split; [|done].
    split; cbn; try done. apply List.Forall_forall. intros e He%list_elem_of_In.
    rewrite List.Forall_forall in Hen. by apply Hen, list_elem_of_In, Hsub.
Qed.

(** Clearing the slots [p] picks keeps the others. *)
Lemma clear_slots p ds :
  (∀ slot : option DeviceInputState, p slot = true → is_some slot = true) →
  omap id (map (λ slot, if p slot then None else slot) ds) =
    filter (λ e, p (Some e) = false) (omap id ds).
Proof.
  intros Hp. induction ds as [|[e|] ds IH]; [done| |]; cbn [map].
  - simpl. destruct (p (Some e)) eqn:E; simpl.
    + rewrite filter_cons_False by (by rewrite E). exact IH.
    + rewrite filter_cons_True by done. f_equal. exact IH.
  - simpl. by destruct (p None).
Qed.

Lemma filter_distinct (P : DeviceInputState → Prop) `{∀ x, Decision (P x)} es :
  NoDup (map di_interface_id es) → NoDup (map di_interface_id (filter P es)).
Proof.
  induction es as [|e es IH]; intros Hnd; [done|]. cbn [map] in Hnd.
  apply list.NoDup_cons in Hnd as [He Hnd]. destruct (decide (P e)).
  - rewrite filter_cons_True by done. cbn [map]. constructor; [|by apply IH].
    intros Hin. apply He. apply list_elem_of_fmap in Hin as (e' & -> & Hin).
    apply list_elem_of_filter in Hin as [_ Hin]. apply list_elem_of_fmap. eauto.
  - rewrite filter_cons_False by done. by apply IH.
Qed.

Lemma remove_device_spec a d : agg_inv a →
  ∃ b a', remove_device a d = (b, a') ∧ agg_inv a' ∧
    b = existsb (has_device d) (devices a) ∧
    omap id (devices a') = filter (λ e, di_device_id e ≠ d) (omap id (devices a)).
Proof.
  intros Hinv. unfold remove_device.
  assert (filter (λ e, has_device d (Some e) = false) (omap id (devices a)) =
    filter (λ e, di_device_id e ≠ d) (omap id (devices a))) as Hf.
  { apply filter_ext_in. intros e _. simpl. by rewrite bool_decide_eq_false. }
  destruct (existsb _ _) eqn:Hex; cbn [negb].
  - pose proof (clear_slots (has_device d) (devices a)
      ltac:(intros [e|] He; [done|discriminate He])) as Hclear.
    destruct (install_preserves a (map (λ slot, if has_device d slot then None else slot)
      (devices a)) Hinv) as (a' & -> & Ha' & Hd).
    + rewrite Hclear. intros e [_ ?]%list_elem_of_filter. done.
    + rewrite Hclear. apply filter_distinct, Hinv.
    + exists true, a'. by rewrite Hd, Hclear, Hf.
  - exists false, a. repeat split; try apply Hinv. symmetry. apply filter_all.
    apply List.Forall_forall. intros e He%list_elem_of_In Heq.
    apply list_elem_of_omap in He as ([e'|] & He & [= ->]).
    assert (existsb (has_device d) (devices a) = true) as Ht; [|congruence].
    apply existsb_exists. exists (Some e). split; [by apply list_elem_of_In|].
    simpl. by apply bool_decide_true.
Qed.

Lemma remove_interface_spec a i : agg_inv a →
  ∃ b a', remove_interface a i = (b, a') ∧ agg_inv a' ∧
    b = is_some (interface_index (devices a) i) ∧
    omap id (devices a') = filter (λ e, di_interface_id e ≠ i) (omap id (devices a)).
Proof.
  intros Hinv. unfold remove_interface.
  destruct (interface_index (devices a) i) as [index|] eqn:Hi.
  - apply interface_index_Some in Hi as (e & He & Hid).
    assert (devices a = take index (devices a) ++ Some e :: drop (S index) (devices a)) as Hds
      by by rewrite take_drop_middle.
    assert (<[index:=None]> (devices a) = take index (devices a) ++ None :: drop (S index) (devices a))
      as Hins by (apply insert_take_drop; by eapply lookup_lt_Some).
    set (l1 := take index (devices a)) in *. set (l2 := drop (S index) (devices a)) in *.
    assert (omap id (<[index:=None]> (devices a)) =
      filter (λ e, di_interface_id e ≠ i) (omap id (devices a))) as Hclear.
    { rewrite Hins, Hds, omap_id_app_None, omap_id_app.
      pose proof (ai_distinct a Hinv) as Hnd. rewrite Hds, omap_id_app, map_app in Hnd.
      apply list.NoDup_app in Hnd as (_ & H1 & H2). cbn [map] in H1, H2.
      apply list.NoDup_cons in H2 as [H2 _].
      rewrite list.filter_app, filter_cons_False by (rewrite Hid; tauto).
      f_equal; symmetry; apply filter_all, List.Forall_forall; intros e' He'%list_elem_of_In Heq.
      - apply (H1 i); [apply list_elem_of_fmap; by exists e'|]. rewrite Hid. left.
      - apply H2. apply list_elem_of_fmap. exists e'. split; [congruence|done]. }
    destruct (install_preserves a (<[index:=None]> (devices a)) Hinv) as (a' & -> & Ha' & Hd).
    + rewrite Hclear. intros e' [_ ?]%list_elem_of_filter. done.
    + rewrite Hclear. apply filter_distinct, Hinv.
    + exists true, a'. by rewrite Hd, Hclear.
  - exists false, a. repeat split; try apply Hinv. symmetry. apply filter_all.
    apply List.Forall_forall. intros e He%list_elem_of_In Heq.
    apply interface_index_None in Hi. apply Hi, list_elem_of_fmap. eauto.
Qed.

(** ** Properties *)

Inductive aggregator_reach (n : nat) : InputAggregator → Prop :=
| reach_new : aggregator_reach n (InputAggregator_new n)
| reach_frame a f a' :
    aggregator_reach n a → input_ok f → apply_frame a f = Ok a' → aggregator_reach n a'
| reach_remove_device a d : aggregator_reach n a → aggregator_reach n (remove_device a d).2
| reach_remove_interface a i :
    aggregator_reach n a → aggregator_reach n (remove_interface a i).2.

Lemma reach_inv n a : aggregator_reach n a → agg_inv a.
Proof.
  induction 1 as [|a f a' _ IH Hf H|a d _ IH|a i _ IH].
  - split; cbn; rewrite ?omap_id_replicate; try done; [|constructor].
    by rewrite rebuild_aggregate_parts, omap_id_replicate.
  - by eapply apply_frame_preserves.
  - destruct (remove_device_spec a d IH) as (b & a' & -> & Ha' & _). done.
  - destruct (remove_interface_spec a i IH) as (b & a' & -> & Ha' & _). done.
Qed.

(** C11: the incremental aggregate is the rebuilt one.  In every reachable state the
    aggregate the code repaired piecewise equals [rebuild_aggregate] of the stored
    interfaces and the device count is right, so a key is down exactly when some
    interface holds it, at most 32 are, none twice, and a modifier or mouse button is set
    exactly when some interface sets it. *)
Theorem aggregate_is_rebuild n a :
  aggregator_reach n a →
  let es := omap id (devices a) in
  let agg := aggregate a in
  rebuild_aggregate (devices a) = Ok agg ∧ active_devices a = length es ∧
  NoDup (map di_interface_id es) ∧
  (∀ k, k ∈ kb_keys (pi_keyboard agg) ↔ ∃ e, e ∈ es ∧ k ∈ kb_keys (di_keyboard e)) ∧
  NoDup (kb_keys (pi_keyboard agg)) ∧ (length (kb_keys (pi_keyboard agg)) ≤ 32)%nat ∧
  (∀ i, Z.testbit (kb_modifiers (pi_keyboard agg)) i =
     existsb (λ e, Z.testbit (kb_modifiers (di_keyboard e)) i) es) ∧
  (∀ i, 0 ≤ i < 5 → Z.testbit (pm_buttons (pi_mouse agg)) i =
     existsb (λ e, Z.testbit (di_mouse_buttons e) i) es).
Proof.
  intros H%reach_inv es agg. destruct H as [Hagg Hact _ Hdis].
  split; [exact Hagg|]. split; [exact Hact|]. split; [exact Hdis|].
  rewrite rebuild_aggregate_parts in Hagg. apply bind_ok in Hagg as (kb & Hkb & Hagg).
  injection Hagg as Hagg. unfold agg. rewrite <- Hagg. cbn [pi_keyboard pi_mouse pm_buttons].
  apply kb_loop_inv in Hkb as (H1 & H2 & H3 & H4); [|constructor|simpl; lia].
  split; [|split; [done|split; [done|split; [|intros i Hi; by apply mouse_of_testbit]]]].
  - intros k. rewrite H1. split; [by intros [?%elem_of_nil|]|by right].
  - intros i. rewrite H4. cbn [kb_modifiers PhysicalKeyboardState_new]. by rewrite Z.testbit_0_l.
Qed.

(** Unplugging always works.  Removing a device or an interface reports whether it
    was there, never fails for lack of key capacity, drops exactly its entries and keeps
    every other one, and leaves a consistent aggregate. *)
Theorem removal_total n a d i :
  aggregator_reach n a →
  (∃ a', remove_device a d = (existsb (has_device d) (devices a), a') ∧
     omap id (devices a') = filter (λ e, di_device_id e ≠ d) (omap id (devices a)) ∧
     rebuild_aggregate (devices a') = Ok (aggregate a')) ∧
  (∃ a', remove_interface a i = (is_some (interface_index (devices a) i), a') ∧
     omap id (devices a') = filter (λ e, di_interface_id e ≠ i) (omap id (devices a)) ∧
     rebuild_aggregate (devices a') = Ok (aggregate a')).
Proof.
  intros H%reach_inv. split.
  - destruct (remove_device_spec a d H) as (b & a' & H1 & H2 & -> & H4). exists a'.
    split; [done|]. split; [done|]. apply H2.
  - destruct (remove_interface_spec a i H) as (b & a' & H1 & H2 & -> & H4). exists a'.
    split; [done|]. split; [done|]. apply H2.
Qed.

(** Two keyboards holding different keys. *)
Definition sample_frame (device interface : Z) (keys : list Z) : StandardInputFrame :=
  mkStandardInputFrame device interface (Some (mkKeyboardFrame 1 keys))
    (Some (mkMouseFrame 2 (mkMouseMovement 1 0 0 0))) (Some (mkConsumerFrame (Some 233))).

Lemma sample_aggregator_reach :
  ∃ a, aggregator_reach 2 a ∧ kb_keys (pi_keyboard (aggregate a)) = [4; 5] ∧
    existsb (has_device 1) (devices a) = true.
Proof.
  assert (∀ d i ks, bytes_ok ks → NoDup ks → (length ks ≤ 32)%nat → input_ok (sample_frame d i ks))
    as Hok.
  { intros d i ks H1 H2 H3. split; [intros k [= <-]; split; cbn; [words|done..]|by intros m [= <-]]. }
  eexists. split; [|split].
  - eapply reach_frame; [eapply reach_frame; [apply reach_new| |]| |].
    + apply (Hok 1 1 [4]); apply (bool_decide_unpack _); vm_compute; exact I.
    + vm_compute. reflexivity.
    + apply (Hok 2 2 [5]); apply (bool_decide_unpack _); vm_compute; exact I.
    + vm_compute. reflexivity.
  - reflexivity.
  - reflexivity.
Qed.

Lemma aggregate_is_rebuild_witness :
  ∃ a, kb_keys (pi_keyboard (aggregate a)) = [4; 5] ∧
    rebuild_aggregate (devices a) = Ok (aggregate a).
Proof.
  destruct sample_aggregator_reach as (a & Hr & Hk & _). exists a. split; [exact Hk|].
  exact (proj1 (aggregate_is_rebuild 2 a Hr)).
Defined.

Lemma removal_total_witness :
  ∃ a a', existsb (has_device 1) (devices a) = true ∧ remove_device a 1 = (true, a').
Proof.
  destruct sample_aggregator_reach as (a & Hr & _ & Hd).
  destruct (proj1 (removal_total 2 a 1 1 Hr)) as (a' & H & _). exists a, a'.
  rewrite Hd in H. split; [exact Hd|exact H].
Defined.
