(* ===== verification/UsbReport.v ===== *)
(** * USB HID reports ([src/src/usb_hid/report.rs])

    The fields of a report descriptor, bit fields in a report, the events a report decodes to, and
    writing mouse movement into a report.  A descriptor and an event buffer are the lists of their
    entries, with the capacity as an argument of what pushes.  [usize] sums wrap at 32 bits. *)

From S2P Require Import Prelude Input.

Definition USAGE_PAGE_GENERIC_DESKTOP : Z := 0x01.
Definition USAGE_PAGE_KEYBOARD : Z := 0x07.
Definition USAGE_PAGE_LED : Z := 0x08.
Definition USAGE_PAGE_BUTTON : Z := 0x09.
Definition USAGE_PAGE_CONSUMER : Z := 0x0c.
Definition USAGE_X : Z := 0x30.
Definition USAGE_Y : Z := 0x31.
Definition USAGE_WHEEL : Z := 0x38.
Definition USAGE_AC_PAN : Z := 0x0238.
Definition FIELD_FLAG_CONSTANT : Z := 0x01.
Definition FIELD_FLAG_VARIABLE : Z := 0x02.

Inductive HidReportError :=
  | ReportIdMissing | TooManyFields | TooManyEvents | HidOutputBufferTooSmall | MotionFieldMissing.
#[export] Instance HidReportError_eq_dec : EqDecision HidReportError.
Proof. solve_decision. Defined.

Record ReportField := mkReportField {
  rf_report_id : Z;
  rf_usage_page : Z;
  rf_usage_min : Z;
  rf_usage_max : Z;
  rf_bit_offset : Z;
  rf_bit_size : Z;
  rf_count : Z;
  rf_flags : Z;
  rf_logical_min : Z;
  rf_logical_max : Z
}.

(** ** Fields *)

Definition is_constant (self : ReportField) : bool := negb (Z.land (rf_flags self) FIELD_FLAG_CONSTANT =? 0).
Definition is_variable (self : ReportField) : bool := negb (Z.land (rf_flags self) FIELD_FLAG_VARIABLE =? 0).

Definition usage_at (self : ReportField) (index : nat) : option Z :=
  if rf_count self <=? Z.of_nat index then None
  else
    let usage := rf_usage_min self + as_u16 (Z.of_nat index) in
    if (usage <=? U16_MAX) && (usage <=? rf_usage_max self) then Some usage else None.

Definition index_of_usage (self : ReportField) (usage : Z) : option nat :=
  if (usage <? rf_usage_min self) || (rf_usage_max self <? usage) then None
  else
    let index := usage - rf_usage_min self in
    if index <? rf_count self then Some (Z.to_nat index) else None.

(** The first bit of entry [index], when the entry lies in the payload. *)
Definition field_start (self : ReportField) (payload : list Z) (index : nat) : option Z :=
  if (rf_bit_size self =? 0) || (32 <? rf_bit_size self) || (rf_count self <=? Z.of_nat index) then None
  else
    let start := as_u32 (rf_bit_offset self + Z.of_nat index * rf_bit_size self) in
    let stop := start + rf_bit_size self in
    if (U32_MAX <? stop) || (usize_len payload * 8 <? stop) then None else Some start.

Definition source_bit (payload : list Z) (bit : Z) : Z :=
  Z.land (Z.shiftr (byte_at payload (Z.to_nat (bit / 8))) (bit mod 8)) 1.

(** The loop over the bits of an entry. *)
Definition gather_bits (payload : list Z) (start size : Z) : Z :=
  fold_left (λ value bit, Z.lor value (Z.shiftl (source_bit payload (start + Z.of_nat bit)) (Z.of_nat bit)))
    (seq 0 (Z.to_nat size)) 0.

Definition field_extract_u32 (self : ReportField) (payload : list Z) (index : nat) : option Z :=
  match field_start self payload index with
  | None => None
  | Some start => Some (gather_bits payload start (rf_bit_size self))
  end.

Definition field_extract_bool (self : ReportField) (payload : list Z) (index : nat) : option bool :=
  (λ value, negb (value =? 0)) <$> field_extract_u32 self payload index.

Definition field_extract_i32 (self : ReportField) (payload : list Z) (index : nat) : option Z :=
  match field_extract_u32 self payload index with
  | None => None
  | Some raw =>
      if (rf_logical_min self <? 0) && (rf_bit_size self <? 32) &&
         negb (Z.land raw (Z.shiftl 1 (rf_bit_size self - 1)) =? 0)
      then Some (as_i32 (Z.lor raw (as_u32 (Z.lnot (Z.shiftl 1 (rf_bit_size self) - 1)))))
      else Some (as_i32 raw)
  end.

(** One round of the loop of [write_i32]. *)
Definition put_bit (payload : list Z) (bit : Z) (value : bool) : list Z :=
  let index := Z.to_nat (bit / 8) in
  let mask := Z.shiftl 1 (bit mod 8) in
  <[index := if value then Z.lor (byte_at payload index) mask else Z.land (byte_at payload index) (u8_not mask)]> payload.

Definition scatter_bits (payload : list Z) (start size raw : Z) : list Z :=
  fold_left (λ payload bit, put_bit payload (start + Z.of_nat bit)
      (negb (Z.land raw (Z.shiftl 1 (Z.of_nat bit)) =? 0)))
    (seq 0 (Z.to_nat size)) payload.

(** The value as it goes into the field. *)
Definition raw_value (size value : Z) : Z :=
  if value <? 0 then
    Z.land (as_u32 (value + Z.shiftl 1 size)) (if size =? 32 then U32_MAX else Z.shiftl 1 size - 1)
  else value.

(** [i32::clamp] panics when its bounds are crossed. *)
Definition write_i32 (self : ReportField) (payload : list Z) (index : nat) (value : Z) : Run (list Z * bool) :=
  match field_start self payload index with
  | None => Returns (payload, false)
  | Some start =>
      if rf_logical_max self <? rf_logical_min self then Panics
      else
        let value := clamp (rf_logical_min self) (rf_logical_max self) value in
        Returns (scatter_bits payload start (rf_bit_size self) (raw_value (rf_bit_size self) value), true)
  end.

(** ** Descriptors *)

Record HidReportDescriptor := mkHidReportDescriptor {
  hrd_fields : list ReportField;
  has_report_ids : bool
}.

Definition HidReportDescriptor_new (has_ids : bool) : HidReportDescriptor := mkHidReportDescriptor [] has_ids.
Definition descriptor_len (self : HidReportDescriptor) : nat := length (hrd_fields self).
Definition descriptor_is_empty (self : HidReportDescriptor) : bool := Nat.eqb (descriptor_len self) 0.

Definition descriptor_push (capacity : nat) (field : ReportField) (self : HidReportDescriptor)
  : HidReportDescriptor * Result HidReportError unit :=
  match vec_push capacity field (hrd_fields self) with
  | None => (self, Err TooManyFields)
  | Some fields => (mkHidReportDescriptor fields (has_report_ids self), Ok tt)
  end.

Definition matching_payload (self : HidReportDescriptor) (report : list Z) : Result HidReportError (Z * list Z) :=
  if negb (has_report_ids self) then Ok (0, report)
  else match report with [] => Err ReportIdMissing | report_id :: payload => Ok (report_id, payload) end.

Definition report_id_for (self : HidReportDescriptor) (report : list Z) : Result HidReportError (Z * list Z) :=
  matching_payload self report.

Record HidReportDomains := mkDomains { dom_keyboard : bool; dom_mouse : bool; dom_consumer : bool }.
Definition HidReportDomains_empty : HidReportDomains := mkDomains false false false.

Definition has_usage (field : ReportField) (usage : Z) : bool := bool_decide (index_of_usage field usage ≠ None).

(** One field in [report_domains]. *)
Definition domain_step (report_id : Z) (domains : HidReportDomains) (field : ReportField) : HidReportDomains :=
  if negb (rf_report_id field =? report_id) || is_constant field then domains
  else
    let page := rf_usage_page field in
    if page =? USAGE_PAGE_KEYBOARD then mkDomains true (dom_mouse domains) (dom_consumer domains)
    else if page =? USAGE_PAGE_BUTTON then mkDomains (dom_keyboard domains) true (dom_consumer domains)
    else if page =? USAGE_PAGE_GENERIC_DESKTOP then
      if has_usage field USAGE_X || has_usage field USAGE_Y || has_usage field USAGE_WHEEL
      then mkDomains (dom_keyboard domains) true (dom_consumer domains) else domains
    else if page =? USAGE_PAGE_CONSUMER then
      let is_pan := (rf_usage_min field =? USAGE_AC_PAN) && (rf_usage_max field =? USAGE_AC_PAN) in
      mkDomains (dom_keyboard domains)
        (if is_variable field && is_pan && (rf_count field =? 1) then true else dom_mouse domains)
        (if negb is_pan || (1 <? rf_count field) || negb (is_variable field) then true else dom_consumer domains)
    else domains.

Definition report_domains (self : HidReportDescriptor) (report_id : Z) : HidReportDomains :=
  fold_left (domain_step report_id) (hrd_fields self) HidReportDomains_empty.

(** The first variable field of the report with the usage, and the usage's index in it. *)
Fixpoint find_usage (fields : list ReportField) (report_id usage_page usage : Z) : option (ReportField * nat) :=
  match fields with
  | [] => None
  | field :: fields =>
      if negb (rf_report_id field =? report_id) || is_constant field || negb (is_variable field) ||
         negb (rf_usage_page field =? usage_page)
      then find_usage fields report_id usage_page usage
      else match index_of_usage field usage with
           | None => find_usage fields report_id usage_page usage
           | Some index => Some (field, index)
           end
  end.

Definition extract_i32 (self : HidReportDescriptor) (payload : list Z) (report_id usage_page usage : Z) : option Z :=
  match find_usage (hrd_fields self) report_id usage_page usage with
  | None => None
  | Some (field, index) => field_extract_i32 field payload index
  end.

Definition extract_bool (self : HidReportDescriptor) (payload : list Z) (report_id usage_page usage : Z) : option bool :=
  match find_usage (hrd_fields self) report_id usage_page usage with
  | None => None
  | Some (field, index) => field_extract_bool field payload index
  end.

(** ** Writing movement *)

Definition motion_axes (movement : MouseMovement) : list (Z * Z * Z) :=
  [(USAGE_PAGE_GENERIC_DESKTOP, USAGE_X, move_x movement);
   (USAGE_PAGE_GENERIC_DESKTOP, USAGE_Y, move_y movement);
   (USAGE_PAGE_GENERIC_DESKTOP, USAGE_WHEEL, move_wheel movement);
   (USAGE_PAGE_CONSUMER, USAGE_AC_PAN, move_pan movement)].

Fixpoint write_axes (self : HidReportDescriptor) (report_id : Z) (axes : list (Z * Z * Z)) (payload : list Z) (wrote : bool)
  : Run (list Z * bool) :=
  match axes with
  | [] => Returns (payload, wrote)
  | (usage_page, usage, value) :: axes =>
      match find_usage (hrd_fields self) report_id usage_page usage with
      | None => write_axes self report_id axes payload wrote
      | Some (field, index) =>
          let! (payload, written) := write_i32 field payload index value in
          write_axes self report_id axes payload (wrote || written)
      end
  end.

(** [out] is the caller's buffer, written from its start. *)
Definition rewrite_relative_motion (self : HidReportDescriptor) (report : list Z) (movement : MouseMovement)
  (out : list Z) : Run (list Z * Result HidReportError nat) :=
  if decide (length out < length report)%nat then Returns (out, Err HidOutputBufferTooSmall)
  else
    match matching_payload self report with
    | Err e => Returns (out, Err e)
    | Ok (report_id, _) =>
        let out := blit 0 report out in
        let offset := if has_report_ids self then 1%nat else 0%nat in
        let! (payload, wrote) :=
          write_axes self report_id (motion_axes movement) (slice offset (length report) out) false in
        let out := blit offset payload out in
        Returns (out, if (wrote : bool) then Ok (length report) else Err MotionFieldMissing)
    end.

(** ** Events *)

Inductive HidReportEvent :=
  | KeyboardUsageDown (usage : Z)
  | MouseButtonDown (button : MouseButton)
  | MouseX (x : Z)
  | MouseY (y : Z)
  | MouseWheel (wheel : Z)
  | MousePan (pan : Z)
  | ConsumerUsageDown (usage : Z).

Definition event_push (capacity : nat) (event : HidReportEvent) (events : list HidReportEvent)
  : list HidReportEvent * Result HidReportError unit :=
  match vec_push capacity event events with
  | None => (events, Err TooManyEvents)
  | Some events => (events, Ok tt)
  end.

(** A loop over indices that may push one event each. *)
Fixpoint push_each (capacity : nat) (body : nat → option HidReportEvent) (indices : list nat) (events : list HidReportEvent)
  : list HidReportEvent * Result HidReportError unit :=
  match indices with
  | [] => (events, Ok tt)
  | index :: indices =>
      match body index with
      | None => push_each capacity body indices events
      | Some event =>
          match event_push capacity event events with
          | (events, Err e) => (events, Err e)
          | (events, Ok _) => push_each capacity body indices events
          end
      end
  end.

Definition field_indices (field : ReportField) : list nat := seq 0 (Z.to_nat (rf_count field)).

Definition keyboard_bit (field : ReportField) (payload : list Z) (index : nat) : option HidReportEvent :=
  match field_extract_bool field payload index with
  | Some true =>
      match usage_at field index with
      | Some usage => if usage <=? U8_MAX then Some (KeyboardUsageDown usage) else None
      | None => None
      end
  | _ => None
  end.

Definition keyboard_entry (field : ReportField) (payload : list Z) (index : nat) : option HidReportEvent :=
  match field_extract_u32 field payload index with
  | Some usage => if (4 <=? usage) && (usage <=? U8_MAX) then Some (KeyboardUsageDown (as_u8 usage)) else None
  | None => None
  end.

Definition consumer_bit (field : ReportField) (payload : list Z) (index : nat) : option HidReportEvent :=
  match field_extract_bool field payload index with
  | Some true =>
      match usage_at field index with
      | Some usage => if negb (usage =? USAGE_AC_PAN) then Some (ConsumerUsageDown usage) else None
      | None => None
      end
  | _ => None
  end.

Definition consumer_entry (field : ReportField) (payload : list Z) (index : nat) : option HidReportEvent :=
  match field_extract_u32 field payload index with
  | Some usage => if negb (usage =? 0) && (usage <=? U16_MAX) then Some (ConsumerUsageDown (as_u16 usage)) else None
  | None => None
  end.

(** The loops over the fields; [body] is what an entry of a field of the page pushes. *)
Fixpoint decode_fields (capacity : nat) (report_id usage_page : Z) (body : ReportField → option (nat → option HidReportEvent))
  (fields : list ReportField) (events : list HidReportEvent) : list HidReportEvent * Result HidReportError unit :=
  match fields with
  | [] => (events, Ok tt)
  | field :: fields =>
      if negb (rf_report_id field =? report_id) || is_constant field || negb (rf_usage_page field =? usage_page)
      then decode_fields capacity report_id usage_page body fields events
      else
        match body field with
        | None => decode_fields capacity report_id usage_page body fields events
        | Some entry =>
            match push_each capacity entry (field_indices field) events with
            | (events, Err e) => (events, Err e)
            | (events, Ok _) => decode_fields capacity report_id usage_page body fields events
            end
        end
  end.

Definition keyboard_body (payload : list Z) (field : ReportField) : option (nat → option HidReportEvent) :=
  if is_variable field && (rf_bit_size field =? 1) then Some (keyboard_bit field payload)
  else if negb (is_variable field) then Some (keyboard_entry field payload)
  else None.

Definition decode_keyboard (capacity : nat) (descriptor : HidReportDescriptor) (report_id : Z) (payload : list Z)
  (events : list HidReportEvent) : list HidReportEvent * Result HidReportError unit :=
  decode_fields capacity report_id USAGE_PAGE_KEYBOARD (keyboard_body payload) (hrd_fields descriptor) events.

Definition consumer_body (payload : list Z) (field : ReportField) : option (nat → option HidReportEvent) :=
  if is_variable field then Some (consumer_bit field payload) else Some (consumer_entry field payload).

Definition decode_consumer (capacity : nat) (descriptor : HidReportDescriptor) (report_id : Z) (payload : list Z)
  (events : list HidReportEvent) : list HidReportEvent * Result HidReportError unit :=
  decode_fields capacity report_id USAGE_PAGE_CONSUMER (consumer_body payload) (hrd_fields descriptor) events.

Definition axis_event (value : option Z) (event : Z → HidReportEvent) : option HidReportEvent :=
  match value with Some x => if negb (x =? 0) then Some (event x) else None | None => None end.

Definition button_usages : list (Z * MouseButton) :=
  [(1, MouseLeft); (2, MouseRight); (3, MouseMiddle); (4, MouseBack); (5, MouseForward)].

(** What the nine steps of [decode_mouse] may push: four axes, then five buttons. *)
Definition mouse_events (descriptor : HidReportDescriptor) (report_id : Z) (payload : list Z) : list (option HidReportEvent) :=
  let axis page usage := extract_i32 descriptor payload report_id page usage in
  [axis_event (axis USAGE_PAGE_GENERIC_DESKTOP USAGE_X) MouseX;
   axis_event (axis USAGE_PAGE_GENERIC_DESKTOP USAGE_Y) MouseY;
   axis_event (axis USAGE_PAGE_GENERIC_DESKTOP USAGE_WHEEL) MouseWheel;
   axis_event (axis USAGE_PAGE_CONSUMER USAGE_AC_PAN) MousePan] ++
  map (λ '(usage, button),
    match extract_bool descriptor payload report_id USAGE_PAGE_BUTTON usage with
    | Some true => Some (MouseButtonDown button)
    | _ => None
    end) button_usages.

Definition decode_mouse (capacity : nat) (descriptor : HidReportDescriptor) (report_id : Z) (payload : list Z)
  (events : list HidReportEvent) : list HidReportEvent * Result HidReportError unit :=
  let steps := mouse_events descriptor report_id payload in
  push_each capacity (λ step, nth step steps None) (seq 0 9) events.

(** [events.clear()] comes first, so what was there does not matter. *)
Definition decode_report (capacity : nat) (descriptor : HidReportDescriptor) (report : list Z)
  : list HidReportEvent * Result HidReportError unit :=
  match matching_payload descriptor report with
  | Err e => ([], Err e)
  | Ok (report_id, payload) =>
      match decode_keyboard capacity descriptor report_id payload [] with
      | (events, Err e) => (events, Err e)
      | (events, Ok _) =>
          match decode_mouse capacity descriptor report_id payload events with
          | (events, Err e) => (events, Err e)
          | (events, Ok _) => decode_consumer capacity descriptor report_id payload events
          end
      end
  end.

(** ** Bits *)

Definition payload_bit (payload : list Z) (j : Z) : bool := Z.testbit (byte_at payload (Z.to_nat (j / 8))) (j mod 8).

Lemma source_bit_eq payload j : source_bit payload j = Z.b2z (payload_bit payload j).
Proof.
  unfold source_bit, payload_bit. assert (0 ≤ j mod 8) by (apply Z.mod_pos_bound; lia).
  rewrite (Z.land_ones _ 1) by lia. change (2 ^ 1) with 2. rewrite <- Z.bit0_mod, Z.shiftr_spec by lia.
  by rewrite Z.add_0_l.
Qed.

Lemma gather_testbit payload start n k : 0 ≤ k →
  Z.testbit (gather_bits payload start (Z.of_nat n)) k =
    if decide (k < Z.of_nat n) then payload_bit payload (start + k) else false.
Proof.
  intros Hk. unfold gather_bits. rewrite Nat2Z.id. induction n as [|n IH]; [cbn [seq fold_left]; rewrite decide_False by lia; apply Z.bits_0|].
  rewrite seq_S, fold_left_app. cbn [fold_left Nat.add]. rewrite Z.lor_spec, IH, source_bit_eq, Z.shiftl_spec by lia.
  destruct (decide (k = Z.of_nat n)) as [->|Hne].
  - rewrite decide_False, decide_True by lia. rewrite Z.sub_diag. by rewrite Z.b2z_bit0.
  - destruct (decide (k < Z.of_nat n)).
    + rewrite decide_True by lia. rewrite (Z.testbit_neg_r _ (k - _)) by lia. by rewrite orb_false_r.
    + rewrite decide_False by lia. cbn. destruct (payload_bit payload (start + Z.of_nat n)); [|apply Z.bits_0].
      cbn [Z.b2z]. apply Z.bits_above_log2; [lia|]. cbn. lia.
Qed.

Lemma bit_of raw k : 0 ≤ k → negb (Z.land raw (Z.shiftl 1 k) =? 0) = Z.testbit raw k.
Proof.
  intros Hk. rewrite Z.shiftl_1_l. destruct (Z.testbit raw k) eqn:Hb.
  - apply negb_true_iff, Z.eqb_neq. intros H. apply (f_equal (λ z, Z.testbit z k)) in H.
    rewrite Z.land_spec, Hb, Z.pow2_bits_true, Z.bits_0 in H by done. done.
  - apply negb_false_iff, Z.eqb_eq. apply Z.bits_inj'. intros i Hi. rewrite Z.land_spec, Z.bits_0.
    destruct (decide (i = k)) as [->|Hne]; [by rewrite Hb|]. rewrite Z.pow2_bits_false by done. apply andb_false_r.
Qed.

Lemma length_put_bit payload bit value : length (put_bit payload bit value) = length payload.
Proof. unfold put_bit. apply length_insert. Qed.

Lemma put_bit_spec payload d value j : 0 ≤ d < usize_len payload * 8 → 0 ≤ j →
  payload_bit (put_bit payload d value) j = if decide (j = d) then value else payload_bit payload j.
Proof.
  intros Hd Hj. unfold put_bit, payload_bit, usize_len in *.
  assert (0 ≤ d mod 8 < 8) as Hdm by (apply Z.mod_pos_bound; lia).
  assert (0 ≤ j mod 8 < 8) as Hjm by (apply Z.mod_pos_bound; lia).
  assert (Z.to_nat (d / 8) < length payload)%nat as Hlt.
  { assert (d / 8 < Z.of_nat (length payload)) by (apply Z.div_lt_upper_bound; lia).
    assert (0 ≤ d / 8) by (apply Z.div_pos; lia). lia. }
  destruct (decide (Z.to_nat (j / 8) = Z.to_nat (d / 8))) as [Hq|Hq].
  - rewrite Hq. unfold byte_at at 1. rewrite nth_lookup, list_lookup_insert_eq by done. cbn [from_option]. unfold id.
    assert (j / 8 = d / 8) as Hqz by (assert (0 ≤ j / 8) by (apply Z.div_pos; lia); assert (0 ≤ d / 8) by (apply Z.div_pos; lia); lia).
    assert (j = d ↔ j mod 8 = d mod 8) as Heq by (split; [by intros ->|];
      intros Hm; rewrite (Z.div_mod j 8), (Z.div_mod d 8) by lia; by rewrite Hqz, Hm).
    rewrite Z.shiftl_1_l. destruct (decide (j = d)) as [->|Hne].
    + destruct value; cbn match; [rewrite Z.lor_spec, Z.pow2_bits_true by lia; by rewrite orb_true_r|].
      unfold u8_not. rewrite Z.land_spec, Z.lxor_spec, Z.pow2_bits_true by lia.
      assert (Z.testbit 255 (d mod 8) = true) as -> by (change 255 with (Z.ones 8); apply Z.ones_spec_low; lia).
      by rewrite andb_false_r.
    + assert (j mod 8 ≠ d mod 8) as Hnm by (intros H; by apply Hne, Heq).
      destruct value; cbn match; [rewrite Z.lor_spec, Z.pow2_bits_false by done; by rewrite orb_false_r|].
      unfold u8_not. rewrite Z.land_spec, Z.lxor_spec, Z.pow2_bits_false by done.
      assert (Z.testbit 255 (j mod 8) = true) as -> by (change 255 with (Z.ones 8); apply Z.ones_spec_low; lia).
      by rewrite andb_true_r.
  - rewrite decide_False by (intros ->; by apply Hq).
    unfold byte_at. rewrite !nth_lookup. by rewrite list_lookup_insert_ne by congruence.
Qed.

Lemma scatter_spec payload start raw n : 0 ≤ start → start + Z.of_nat n ≤ usize_len payload * 8 →
  length (scatter_bits payload start (Z.of_nat n) raw) = length payload ∧
  ∀ j, 0 ≤ j → payload_bit (scatter_bits payload start (Z.of_nat n) raw) j =
    if decide (start ≤ j < start + Z.of_nat n) then Z.testbit raw (j - start) else payload_bit payload j.
Proof.
  intros Hs Hn. unfold scatter_bits. rewrite Nat2Z.id. induction n as [|n IH].
  - cbn [seq fold_left]. split; [done|]. intros j Hj. by rewrite decide_False by lia.
  - rewrite seq_S, fold_left_app. cbn [fold_left Nat.add]. destruct IH as [Hl IH]; [lia|].
    split; [by rewrite length_put_bit|]. intros j Hj. rewrite put_bit_spec by (unfold usize_len in *; rewrite ?Hl; lia).
    rewrite bit_of by lia. destruct (decide (j = start + Z.of_nat n)) as [->|Hne].
    + rewrite decide_True by lia. f_equal. lia.
    + rewrite IH by done. destruct (decide (start ≤ j < start + Z.of_nat n)); [by rewrite decide_True by lia|].
      by rewrite decide_False by lia.
Qed.

(** ** One field *)

(** The logical range is one the field can hold. *)
Definition field_range_ok (f : ReportField) : Prop :=
  0 < rf_bit_size f ≤ 32 ∧ rf_logical_min f ≤ rf_logical_max f ∧
  if rf_logical_min f <? 0
  then - 2 ^ (rf_bit_size f - 1) ≤ rf_logical_min f ∧ rf_logical_max f < 2 ^ (rf_bit_size f - 1)
  else rf_logical_max f < 2 ^ Z.min 31 (rf_bit_size f).

Lemma field_start_nonneg f payload index start : field_start f payload index = Some start → 0 ≤ start.
Proof.
  unfold field_start. destruct (_ || _ || _); [done|]. destruct (_ || _); [done|]. intros [= <-].
  apply Z.mod_pos_bound. lia.
Qed.

Lemma field_start_end f payload index start : field_start f payload index = Some start →
  start + rf_bit_size f ≤ usize_len payload * 8.
Proof.
  unfold field_start. destruct (_ || _ || _); [done|]. destruct (_ || _) eqn:H; [done|]. intros [= <-].
  apply orb_false_iff in H as [_ H]. apply Z.ltb_ge in H. exact H.
Qed.

Lemma field_start_length f payload payload' index : length payload' = length payload →
  field_start f payload' index = field_start f payload index.
Proof. intros H. unfold field_start, usize_len. by rewrite H. Qed.

Lemma gather_ext payload payload' start size : 0 ≤ start → (∀ j, start ≤ j < start + size → payload_bit payload' j = payload_bit payload j) →
  gather_bits payload' start size = gather_bits payload start size.
Proof.
  intros Hs H. destruct (decide (size ≤ 0)) as [Hz|Hz]; [unfold gather_bits; by replace (Z.to_nat size) with 0%nat by lia|].
  replace size with (Z.of_nat (Z.to_nat size)) in * by lia. apply Z.bits_inj'. intros k Hk. rewrite !gather_testbit by done.
  case_decide; [|done]. apply H. lia.
Qed.

Lemma gather_scatter payload start size raw : 0 ≤ start → 0 < size → start + size ≤ usize_len payload * 8 →
  gather_bits (scatter_bits payload start size raw) start size = Z.land raw (Z.ones size).
Proof.
  intros Hs Hz He. replace size with (Z.of_nat (Z.to_nat size)) in * by lia.
  apply Z.bits_inj'. intros k Hk. rewrite gather_testbit, Z.land_spec, Z.testbit_ones_nonneg by lia.
  case_decide as Hc.
  - rewrite (proj2 (scatter_spec payload start raw (Z.to_nat size) Hs ltac:(lia))) by lia.
    rewrite decide_True by lia. replace (start + k - start) with k by lia.
    rewrite (proj2 (Z.ltb_lt _ _)) by lia. by rewrite andb_true_r.
  - rewrite (proj2 (Z.ltb_ge _ _)) by lia. by rewrite andb_false_r.
Qed.

(** What goes into the field, as a number. *)
Lemma raw_value_eq size v : 0 < size ≤ 32 → - 2 ^ size ≤ v < 2 ^ size →
  Z.land (raw_value size v) (Z.ones size) = v mod 2 ^ size.
Proof.
  intros Hs Hv. rewrite Z.land_ones by lia. unfold raw_value. destruct (v <? 0) eqn:Hn; [|done]. apply Z.ltb_lt in Hn.
  assert ((if size =? 32 then U32_MAX else Z.shiftl 1 size - 1) = Z.ones size) as ->.
  { destruct (size =? 32) eqn:H32; [apply Z.eqb_eq in H32; by subst size|]. rewrite Z.shiftl_1_l, Z.ones_equiv. lia. }
  rewrite Z.land_ones, Z.shiftl_1_l by lia. rewrite Z.mod_mod by lia. unfold as_u32.
  assert ((2 ^ size | 2 ^ 32)) as Hdiv by (exists (2 ^ (32 - size)); rewrite <- Z.pow_add_r by lia; f_equal; lia).
  rewrite Z.mod_mod_divide by done. rewrite <- (Z.mul_1_l (2 ^ size)) at 1. rewrite Z.mod_add by lia. done.
Qed.

Lemma sign_extend raw size : 0 < size < 32 → 0 ≤ raw < 2 ^ size →
  as_i32 (Z.lor raw (as_u32 (Z.lnot (Z.shiftl 1 size - 1)))) = as_i32 (raw - 2 ^ size).
Proof.
  intros Hs Hr. rewrite Z.shiftl_1_l. unfold Z.lnot, as_u32.
  assert (2 ^ size < 2 ^ 32) as Hlt by (apply Z.pow_lt_mono_r; lia).
  replace (Z.pred (- (2 ^ size - 1)) mod 2 ^ 32) with (2 ^ 32 - 2 ^ size)
    by (replace (Z.pred (- (2 ^ size - 1))) with (2 ^ 32 - 2 ^ size + (-1) * 2 ^ 32) by lia;
        rewrite Z.mod_add, Z.mod_small by lia; done).
  assert (Z.land raw (2 ^ 32 - 2 ^ size) = 0) as Hz.
  { replace (2 ^ 32 - 2 ^ size) with ((2 ^ (32 - size) - 1) * 2 ^ size)
      by (rewrite Z.mul_sub_distr_r, <- Z.pow_add_r by lia; replace (32 - size + size) with 32 by lia; lia).
    rewrite <- (Z.mod_small raw (2 ^ size)) by lia. rewrite <- Z.land_ones by lia.
    rewrite <- Z.land_assoc, (Z.land_comm (Z.ones size)), Z.land_ones by lia. rewrite Z.mod_mul by lia. apply Z.land_0_r. }
  rewrite <- Z.lxor_lor by done. rewrite <- Z.add_nocarry_lxor by done.
  unfold as_i32. f_equal. change 4294967296 with (2 ^ 32). replace (raw + (2 ^ 32 - 2 ^ size) + 2147483648) with (raw - 2 ^ size + 2147483648 + 1 * 2 ^ 32) by lia.
  by rewrite Z.mod_add by lia.
Qed.

Lemma as_i32_id v : -2147483648 ≤ v < 2147483648 → as_i32 v = v.
Proof. intros H. unfold as_i32. rewrite Z.mod_small; lia. Qed.

(** A value in the range is read back. *)
Lemma write_read f payload index start v : field_start f payload index = Some start → field_range_ok f →
  rf_logical_min f ≤ v ≤ rf_logical_max f → - 2 ^ 31 ≤ v < 2 ^ 31 →
  field_extract_i32 f (scatter_bits payload start (rf_bit_size f) (raw_value (rf_bit_size f) v)) index = Some v.
Proof.
  intros Hst (Hsize & Hle & Hrange) Hv Hi32. pose proof (field_start_nonneg _ _ _ _ Hst) as Hs0.
  pose proof (field_start_end _ _ _ _ Hst) as Hend. unfold field_extract_i32, field_extract_u32.
  rewrite (field_start_length f payload) by (replace (rf_bit_size f) with (Z.of_nat (Z.to_nat (rf_bit_size f))) by lia;
    apply scatter_spec; lia).
  rewrite Hst, gather_scatter by lia. set (n := rf_bit_size f) in *.
  assert (2 ^ n = 2 * 2 ^ (n - 1)) as Hpow by (rewrite <- Z.pow_succ_r by lia; f_equal; lia).
  assert (0 < 2 ^ (n - 1)) as Hpos by (apply Z.pow_pos_nonneg; lia).
  assert (2 ^ Z.min 31 n ≤ 2 ^ n) as Hmin by (apply Z.pow_le_mono_r; lia).
  assert (- 2 ^ n ≤ v < 2 ^ n) as Hvn by (destruct (rf_logical_min f <? 0) eqn:Hl; [|apply Z.ltb_ge in Hl]; lia).
  rewrite raw_value_eq by done. rewrite bit_of by lia.
  destruct (rf_logical_min f <? 0) eqn:Hl; cbn [andb].
  - destruct (n <? 32) eqn:Hn32; cbn [andb].
    + apply Z.ltb_lt in Hn32. assert (2 ^ n ≤ 2 ^ 31) as H31 by (apply Z.pow_le_mono_r; lia).
      destruct (decide (v < 0)) as [Hneg|Hneg].
      * assert (v mod 2 ^ n = v + 2 ^ n) as Hm
          by (rewrite <- (Z.mod_add v 1) by lia; rewrite Z.mul_1_l; apply Z.mod_small; lia).
        assert (Z.testbit (v mod 2 ^ n) (n - 1) = true) as ->.
        { rewrite Hm. rewrite Z.testbit_true by lia.
          replace ((v + 2 ^ n) / 2 ^ (n - 1)) with 1 by (apply (Z.div_unique _ _ _ (v + 2 ^ n - 2 ^ (n - 1))); lia). done. }
        rewrite sign_extend by (rewrite ?Hm; lia). rewrite Hm. f_equal. rewrite as_i32_id by lia. lia.
      * rewrite Z.mod_small by lia.
        assert (Z.testbit v (n - 1) = false) as -> by (rewrite Z.testbit_false by lia; by rewrite Z.div_small by lia).
        f_equal. apply as_i32_id. lia.
    + apply Z.ltb_ge in Hn32. assert (n = 32) as Hn by lia. rewrite Hn. f_equal. unfold as_i32. change (2 ^ 32) with 4294967296.
      change (2 ^ 31) with 2147483648 in Hi32. divmod.
  - apply Z.ltb_ge in Hl. rewrite Z.mod_small by lia. f_equal. apply as_i32_id. lia.
Qed.

(** ** Movement *)

Definition axis : Type := Z * Z * Z.

(** The bits of an axis in the payload. *)
Definition axis_bits (d : HidReportDescriptor) (report_id : Z) (payload : list Z) (a : axis) : option (Z * Z) :=
  match find_usage (hrd_fields d) report_id a.1.1 a.1.2 with
  | None => None
  | Some (f, index) => (λ start, (start, start + rf_bit_size f)) <$> field_start f payload index
  end.

Definition bits_apart (a b : option (Z * Z)) : Prop :=
  match a, b with Some (lo, hi), Some (lo', hi') => hi ≤ lo' ∨ hi' ≤ lo | _, _ => True end.

(** Every axis the descriptor has lies in the payload, with a range its field can hold. *)
Definition axis_ok (d : HidReportDescriptor) (report_id : Z) (payload : list Z) (a : axis) : Prop :=
  - 2 ^ 31 ≤ a.2 < 2 ^ 31 ∧
  ∀ f index, find_usage (hrd_fields d) report_id a.1.1 a.1.2 = Some (f, index) →
    field_start f payload index ≠ None ∧ field_range_ok f ∧ - 2 ^ 31 ≤ rf_logical_min f ∧ rf_logical_max f < 2 ^ 31.

(** The value an axis reads as after it was written. *)
Definition axis_written (d : HidReportDescriptor) (report_id : Z) (a : axis) : option Z :=
  match find_usage (hrd_fields d) report_id a.1.1 a.1.2 with
  | None => None
  | Some (f, _) => Some (clamp (rf_logical_min f) (rf_logical_max f) a.2)
  end.

Definition same_outside (ranges : list (option (Z * Z))) (payload payload' : list Z) : Prop :=
  ∀ j, 0 ≤ j → Forall (λ r, match r with Some (lo, hi) => ¬ (lo ≤ j < hi) | None => True end) ranges →
    payload_bit payload' j = payload_bit payload j.

Lemma find_usage_first fields id page usage f index : find_usage fields id page usage = Some (f, index) →
  f ∈ fields ∧ rf_report_id f = id ∧ is_constant f = false ∧ is_variable f = true ∧ rf_usage_page f = page ∧
  index_of_usage f usage = Some index.
Proof.
  induction fields as [|g fields IH]; cbn [find_usage]; [done|]. destruct (_ || _ || _ || _) eqn:H.
  { intros Hf. destruct (IH Hf) as (Hin & Hrest). split; [by apply list_elem_of_further|exact Hrest]. }
  apply orb_false_iff in H as [[[H1 H2]%orb_false_iff H3]%orb_false_iff H4].
  destruct (index_of_usage g usage) as [k|] eqn:Hk.
  - intros [= -> ->]. split; [apply list_elem_of_here|]. apply negb_false_iff, Z.eqb_eq in H1. apply negb_false_iff in H3.
    apply negb_false_iff, Z.eqb_eq in H4. done.
  - intros Hf. destruct (IH Hf) as (Hin & Hrest). split; [by apply list_elem_of_further|exact Hrest].
Qed.

Lemma axis_bits_length d id payload payload' a : length payload' = length payload →
  axis_bits d id payload' a = axis_bits d id payload a.
Proof.
  intros H. unfold axis_bits. destruct (find_usage _ _ _ _) as [[f index]|]; [|done]. by rewrite (field_start_length f payload).
Qed.

Lemma axis_ok_length d id payload payload' a : length payload' = length payload → axis_ok d id payload a → axis_ok d id payload' a.
Proof.
  intros H [Hv Hf]. split; [done|]. intros f index Hfind. rewrite (field_start_length f payload) by done. by apply Hf.
Qed.

(** Reading an axis looks at its bits only. *)
Lemma extract_same d id payload payload' a : length payload' = length payload →
  (∀ lo hi j, axis_bits d id payload a = Some (lo, hi) → lo ≤ j < hi → payload_bit payload' j = payload_bit payload j) →
  extract_i32 d payload' id a.1.1 a.1.2 = extract_i32 d payload id a.1.1 a.1.2.
Proof.
  intros Hl H. unfold extract_i32, axis_bits in *. destruct (find_usage _ _ _ _) as [[f index]|]; [|done].
  unfold field_extract_i32, field_extract_u32. rewrite (field_start_length f payload) by done.
  destruct (field_start f payload index) as [start|] eqn:Hst; [|done].
  rewrite (gather_ext payload payload'); [done|by apply (field_start_nonneg f payload index)|].
  intros j Hj. by apply (H start (start + rf_bit_size f)).
Qed.

Lemma clamp_range lo hi v : lo ≤ hi → lo ≤ clamp lo hi v ≤ hi.
Proof. unfold clamp. lia. Qed.

(** Writing the axes one after the other. *)
Lemma write_axes_spec d id axes payload wrote : Forall (axis_ok d id payload) axes →
  ForallOrdPairs (λ a b, bits_apart (axis_bits d id payload a) (axis_bits d id payload b)) axes →
  ∃ payload', write_axes d id axes payload wrote =
      Returns (payload', wrote || existsb (λ a, bool_decide (axis_bits d id payload a ≠ None)) axes) ∧
    length payload' = length payload ∧ same_outside (map (axis_bits d id payload) axes) payload payload' ∧
    Forall (λ a, extract_i32 d payload' id a.1.1 a.1.2 = axis_written d id a) axes.
Proof.
  intros Hok Hap. revert payload wrote Hok Hap. induction axes as [|[[page usage] v] axes IH]; intros payload wrote Hok Hap.
  { exists payload. cbn. rewrite orb_false_r. split; [done|split; [done|split; [by intros j _ _|constructor]]]. }
  apply List.Forall_cons_iff in Hok as [[Hv Ha] Hok]. inversion Hap as [|? ? Hhead Htail]; subst.
  cbn [write_axes existsb]. cbn [fst snd] in *.
  destruct (find_usage (hrd_fields d) id page usage) as [[f index]|] eqn:Hf.
  - destruct (Ha f index eq_refl) as (Hst & Hr & Hlo & Hhi). destruct (field_start f payload index) as [start|] eqn:Hs; [|done].
    pose proof Hr as (Hsize & Hle & _). pose proof (field_start_nonneg _ _ _ _ Hs) as Hs0. pose proof (field_start_end _ _ _ _ Hs) as Hend.
    unfold write_i32. rewrite Hs, (proj2 (Z.ltb_ge _ _)) by done. cbn [run_bind].
    set (p1 := scatter_bits payload start (rf_bit_size f) _).
    destruct (scatter_spec payload start (raw_value (rf_bit_size f) (clamp (rf_logical_min f) (rf_logical_max f) v))
      (Z.to_nat (rf_bit_size f)) Hs0 ltac:(lia)) as [Hl1 Hb1].
    rewrite Z2Nat.id in Hl1, Hb1 by lia. fold p1 in Hl1, Hb1.
    destruct (IH p1 (wrote || true)) as (p2 & Hw & Hl2 & Hout & Hread).
    { eapply List.Forall_impl; [|exact Hok]. intros a. by apply axis_ok_length. }
    { clear -Htail Hl1. induction Htail as [|a l Hl _ IHt]; [constructor|]. constructor; [|done].
      eapply List.Forall_impl; [|exact Hl]. intros b. by rewrite !(axis_bits_length d id payload p1). }
    assert (axis_bits d id payload (page, usage, v) = Some (start, start + rf_bit_size f)) as Hbits
      by (unfold axis_bits; cbn [fst snd]; by rewrite Hf, Hs).
    assert (map (axis_bits d id p1) axes = map (axis_bits d id payload) axes) as Hmap
      by (apply map_ext; intros a; by apply axis_bits_length).
    exists p2. split; [|split; [by rewrite Hl2|split]].
    + rewrite Hw. f_equal. f_equal. rewrite Hbits, bool_decide_true by done. by rewrite !orb_true_r.
    + intros j Hj Hall. cbn [map] in Hall. apply List.Forall_cons_iff in Hall as [Hj1 Hall]. rewrite Hbits in Hj1.
      rewrite Hout by (done || by rewrite Hmap). rewrite Hb1 by done. by rewrite decide_False.
    + constructor; [|exact Hread]. cbn [fst snd]. transitivity (extract_i32 d p1 id page usage).
      * apply (extract_same d id p1 p2 (page, usage, v) Hl2). intros lo hi j Hax Hj.
        rewrite (axis_bits_length d id payload) in Hax by done. rewrite Hbits in Hax. injection Hax as <- <-.
        apply Hout; [lia|]. rewrite Hmap. apply List.Forall_map. eapply List.Forall_impl; [|exact Hhead]. intros b.
        rewrite Hbits. destruct (axis_bits d id payload b) as [[lo' hi']|]; cbn [bits_apart]; lia.
      * unfold extract_i32, axis_written. cbn [fst snd]. rewrite Hf. pose proof (clamp_range _ _ v Hle).
        apply write_read; [done..|lia|lia].
  - destruct (IH payload wrote Hok Htail) as (p2 & Hw & Hl2 & Hout & Hread). exists p2.
    assert (axis_bits d id payload (page, usage, v) = None) as Hbits by (unfold axis_bits; cbn [fst snd]; by rewrite Hf).
    split; [|split; [done|split]].
    + rewrite Hw, Hbits. by rewrite bool_decide_false by (intros H; by apply H).
    + intros j Hj Hall. cbn [map] in Hall. apply List.Forall_cons_iff in Hall as [_ Hall]. by apply Hout.
    + constructor; [|exact Hread]. unfold extract_i32, axis_written. cbn [fst snd]. by rewrite Hf.
Qed.

(** C39: movement written into a report is what the report decodes to.  When the axes of a descriptor
    lie in the report, apart from each other and with ranges their fields can hold, the rewritten
    report has the same length and identifier, every axis decodes to the new value, clamped to its
    range, every other bit of it and of the buffer is as before; a report without any axis is refused. *)
Theorem rewritten_motion_decodes d report m out report_id payload :
  matching_payload d report = Ok (report_id, payload) → (length report ≤ length out)%nat →
  Forall (axis_ok d report_id payload) (motion_axes m) →
  ForallOrdPairs (λ a b, bits_apart (axis_bits d report_id payload a) (axis_bits d report_id payload b)) (motion_axes m) →
  ∃ out' payload', rewrite_relative_motion d report m out =
      Returns (out', if existsb (λ a, bool_decide (axis_bits d report_id payload a ≠ None)) (motion_axes m)
                     then Ok (length report) else Err MotionFieldMissing) ∧
    matching_payload d (take (length report) out') = Ok (report_id, payload') ∧
    drop (length report) out' = drop (length report) out ∧ length payload' = length payload ∧
    same_outside (map (axis_bits d report_id payload) (motion_axes m)) payload payload' ∧
    Forall (λ a, extract_i32 d payload' report_id a.1.1 a.1.2 = axis_written d report_id a) (motion_axes m).
Proof.
  intros Hm Hlen Hok Hap. unfold rewrite_relative_motion. rewrite decide_False by lia. rewrite Hm.
  destruct (write_axes_spec d report_id (motion_axes m) payload false Hok Hap) as (payload' & Hw & Hl & Hout & Hread).
  set (offset := if has_report_ids d then 1%nat else 0%nat).
  assert (payload = drop offset report ∧ (offset ≤ length report)%nat ∧
    ∀ p, length p = length payload → matching_payload d (take offset report ++ p) = Ok (report_id, p)) as (Hp & Hoff & Hback).
  { unfold matching_payload in *. subst offset. destruct (has_report_ids d); cbn [negb] in *; [|injection Hm as <- <-; cbn; split; [done|split; [lia|done]]].
    destruct report as [|b report]; [done|]. injection Hm as <- <-. cbn. split; [done|]. split; [lia|done]. }
  assert (blit 0 report out = report ++ drop (length report) out) as Hb0 by (unfold blit; by rewrite take_0).
  assert (slice offset (length report) (blit 0 report out) = payload) as Hsl.
  { rewrite Hb0. unfold slice. rewrite Hp, drop_app_le by lia. rewrite take_app_le by (rewrite length_drop; lia).
    apply take_ge. rewrite length_drop. lia. }
  rewrite Hsl, Hw. cbn [run_bind orb].
  assert (blit offset payload' (blit 0 report out) = (take offset report ++ payload') ++ drop (length report) out) as Hb.
  { rewrite Hb0. unfold blit. rewrite take_app_le by lia. rewrite <- app_assoc. f_equal. f_equal.
    rewrite Hl, Hp, length_drop. rewrite drop_app_ge by lia. rewrite drop_drop. f_equal. lia. }
  assert (length (take offset report ++ payload') = length report) as Hlr
    by (rewrite length_app, length_take, Hl, Hp, length_drop; lia).
  rewrite Hb. eexists _, payload'. split; [done|]. rewrite take_app_length', drop_app_length' by done.
  split; [by apply Hback|]. done.
Qed.

(** ** What a report decodes to *)

(** The entries of one field, and of all fields of a page. *)
Definition field_events (report_id usage_page : Z) (body : ReportField → option (nat → option HidReportEvent))
  (field : ReportField) : list HidReportEvent :=
  if negb (rf_report_id field =? report_id) || is_constant field || negb (rf_usage_page field =? usage_page) then []
  else match body field with Some entry => omap entry (field_indices field) | None => [] end.

(** The events of a report, whatever their number. *)
Definition report_events (d : HidReportDescriptor) (report_id : Z) (payload : list Z) : list HidReportEvent :=
  (hrd_fields d ≫= field_events report_id USAGE_PAGE_KEYBOARD (keyboard_body payload)) ++
  omap id (mouse_events d report_id payload) ++
  (hrd_fields d ≫= field_events report_id USAGE_PAGE_CONSUMER (consumer_body payload)).

(** [events] pushed onto what is there: all of them, or as many as fit and an error. *)
Definition pushed (capacity : nat) (before events : list HidReportEvent) : list HidReportEvent * Result HidReportError unit :=
  if decide (length before + length events ≤ capacity)%nat then (before ++ events, Ok tt)
  else (take capacity (before ++ events), Err TooManyEvents).

Lemma push_each_spec capacity body indices before : (length before ≤ capacity)%nat →
  push_each capacity body indices before = pushed capacity before (omap body indices).
Proof.
  revert before. induction indices as [|i indices IH]; intros before Hb; cbn [push_each].
  { unfold pushed. rewrite decide_True by (cbn; lia). by rewrite app_nil_r. }
  change (omap body (i :: indices)) with
    (match body i with Some y => y :: omap body indices | None => omap body indices end).
  destruct (body i) as [event|]; [|by apply IH]. unfold event_push.
  destruct (vec_push capacity event before) as [events|] eqn:Hp.
  - apply vec_push_Some in Hp as [Hlt ->]. rewrite IH by (rewrite length_app; cbn; lia). unfold pushed.
    rewrite length_app. cbn [length]. rewrite <- app_assoc. cbn [app].
    destruct (decide (length before + 1 + length (omap body indices) ≤ capacity)%nat);
      [rewrite decide_True by lia|rewrite decide_False by lia]; done.
  - apply vec_push_None in Hp. unfold pushed. rewrite decide_False by (cbn; lia).
    f_equal. rewrite take_app_le by lia. symmetry. apply take_ge. lia.
Qed.

Lemma pushed_app capacity before a b : (length before ≤ capacity)%nat →
  match pushed capacity before a with
  | (events, Err e) => (events, Err e)
  | (events, Ok _) => pushed capacity events b
  end = pushed capacity before (a ++ b).
Proof.
  intros Hb. unfold pushed. rewrite length_app. case_decide as Ha.
  - rewrite length_app. destruct (decide (length before + length a + length b ≤ capacity)%nat);
      [rewrite decide_True by lia|rewrite decide_False by lia]; by rewrite <- app_assoc.
  - rewrite decide_False by lia. f_equal. rewrite app_assoc. symmetry. apply take_app_le. rewrite length_app. lia.
Qed.

Lemma pushed_length capacity before a events : (length before ≤ capacity)%nat → pushed capacity before a = (events, Ok tt) →
  (length events ≤ capacity)%nat.
Proof. intros Hb. unfold pushed. case_decide; [|done]. intros [= <-]. rewrite length_app. lia. Qed.

Lemma decode_fields_spec capacity report_id usage_page body fields before : (length before ≤ capacity)%nat →
  decode_fields capacity report_id usage_page body fields before =
    pushed capacity before (fields ≫= field_events report_id usage_page body).
Proof.
  revert before. induction fields as [|f fields IH]; intros before Hb; cbn [decode_fields].
  { unfold pushed. rewrite decide_True by (cbn; lia). by rewrite app_nil_r. }
  rewrite bind_cons, <- pushed_app by done.
  assert (pushed capacity before [] = (before, Ok tt)) as Hnil
    by (unfold pushed; rewrite decide_True by (cbn; lia); by rewrite app_nil_r).
  assert (field_events report_id usage_page body f =
    if negb (rf_report_id f =? report_id) || is_constant f || negb (rf_usage_page f =? usage_page) then []
    else match body f with Some entry => omap entry (field_indices f) | None => [] end) as -> by done.
  destruct (_ || _ || _); [rewrite Hnil; by apply IH|]. destruct (body f) as [entry|]; [|rewrite Hnil; by apply IH].
  rewrite push_each_spec by done. destruct (pushed capacity before (omap entry _)) as [events [[]|e]] eqn:Hp; [|done].
  apply IH. by apply (pushed_length capacity before _ _ Hb Hp).
Qed.

Lemma decode_mouse_spec capacity d report_id payload before : (length before ≤ capacity)%nat →
  decode_mouse capacity d report_id payload before = pushed capacity before (omap id (mouse_events d report_id payload)).
Proof.
  intros Hb. unfold decode_mouse. by rewrite push_each_spec by done.
Qed.

(** The bounded decoder against the unbounded reading of the report. *)
Lemma decode_report_spec capacity d report :
  decode_report capacity d report =
    match matching_payload d report with
    | Err e => ([], Err e)
    | Ok (report_id, payload) => pushed capacity [] (report_events d report_id payload)
    end.
Proof.
  unfold decode_report. destruct (matching_payload d report) as [[id payload]|e]; [|done].
  unfold decode_keyboard. rewrite decode_fields_spec by (cbn; lia). unfold report_events.
  rewrite <- (pushed_app capacity []) by (cbn; lia).
  destruct (pushed capacity [] _) as [events [[]|e]] eqn:Hp; [|done].
  apply pushed_length in Hp; [|cbn; lia]. rewrite decode_mouse_spec, <- pushed_app by done.
  destruct (pushed capacity events _) as [events' [[]|e]] eqn:Hp'; [|done].
  apply decode_fields_spec. by apply (pushed_length capacity events _ _ Hp Hp').
Qed.

(** ** Instances *)

(** Buttons, X, Y and wheel of a mouse, one byte each. *)
Definition sample_mouse : HidReportDescriptor :=
  mkHidReportDescriptor
    [mkReportField 0 USAGE_PAGE_BUTTON 1 3 0 1 3 2 0 1;
     mkReportField 0 USAGE_PAGE_BUTTON 0 0 3 5 1 1 0 1;
     mkReportField 0 USAGE_PAGE_GENERIC_DESKTOP USAGE_X USAGE_Y 8 8 2 2 (-127) 127;
     mkReportField 0 USAGE_PAGE_GENERIC_DESKTOP USAGE_WHEEL USAGE_WHEEL 24 8 1 2 (-127) 127] false.

Definition sample_motion : MouseMovement := mkMouseMovement (-300) 7 (-1) 0.

Lemma sample_axes_ok : Forall (axis_ok sample_mouse 0 [1; 5; 251; 0]) (motion_axes sample_motion).
Proof.
  repeat (apply List.Forall_cons; [split; [vm_compute; split; congruence|]; intros f index H; vm_compute in H;
    first [discriminate H | injection H as <- <-; split; [vm_compute; discriminate|];
      split; [vm_compute; repeat split; congruence|vm_compute; split; congruence]]|]).
  apply List.Forall_nil.
Qed.

Lemma sample_axes_apart : ForallOrdPairs (λ a b, bits_apart (axis_bits sample_mouse 0 [1; 5; 251; 0] a)
  (axis_bits sample_mouse 0 [1; 5; 251; 0] b)) (motion_axes sample_motion).
Proof.
  repeat (constructor; [repeat (apply List.Forall_cons; [vm_compute; first [exact I | left; discriminate | right; discriminate]|]);
    apply List.Forall_nil|]). constructor.
Qed.

Lemma rewritten_motion_decodes_witness :
  ∃ out' payload', rewrite_relative_motion sample_mouse [1; 5; 251; 0] sample_motion [0; 0; 0; 0; 9] = Returns (out', Ok 4%nat) ∧
    matching_payload sample_mouse (take 4 out') = Ok (0, payload') ∧
    Forall (λ a, extract_i32 sample_mouse payload' 0 a.1.1 a.1.2 = axis_written sample_mouse 0 a) (motion_axes sample_motion).
Proof.
  destruct (rewritten_motion_decodes sample_mouse [1; 5; 251; 0] sample_motion [0; 0; 0; 0; 9] 0 [1; 5; 251; 0] eq_refl
    ltac:(cbn; lia) sample_axes_ok sample_axes_apart) as (out' & payload' & H1 & H2 & _ & _ & _ & H3).
  exists out', payload'. split; [exact H1|]. split; [exact H2|exact H3].
Defined.
