(* ===== verification/UsbFrame.v ===== *)
(** * USB input frames ([src/src/usb_hid/frame.rs], [boot_keyboard.rs], [power.rs])

    The frame an HID report becomes, the changes between two boot keyboard reports, and when the USB
    bus may sleep. *)

From S2P Require Import Prelude Input Aggregator UsbReport.

(** ** Frames *)

Inductive UsbInputFrameError := FrameHidReport (e : HidReportError) | FrameInput (e : InputError).
#[export] Instance UsbInputFrameError_eq_dec : EqDecision UsbInputFrameError.
Proof. solve_decision. Defined.

Definition modifier_from_keyboard_usage (usage : Z) : option Modifier :=
  match usage with
  | 0xe0 => Some LeftCtrl | 0xe1 => Some LeftShift | 0xe2 => Some LeftAlt | 0xe3 => Some LeftGui
  | 0xe4 => Some RightCtrl | 0xe5 => Some RightShift | 0xe6 => Some RightAlt | 0xe7 => Some RightGui
  | _ => None
  end.

Definition clamp_i32_to_i16 (value : Z) : Z :=
  if I16_MAX <? value then I16_MAX else if value <? I16_MIN then I16_MIN else as_i16 value.

Definition clamp_i32_to_i8 (value : Z) : Z :=
  if I8_MAX <? value then I8_MAX else if value <? I8_MIN then I8_MIN else as_i8 value.

(** The locals of [events_to_standard_input_frame]. *)
Record FrameLocals := mkFrameLocals {
  fl_modifiers : Z;
  fl_keyboard : KeyboardFrame;
  fl_has_keyboard : bool;
  fl_mouse_buttons : Z;
  fl_mouse_movement : MouseMovement;
  fl_has_mouse : bool;
  fl_consumer : option Z
}.
#[export] Instance eta_FrameLocals : Eta FrameLocals :=
  λ r, mkFrameLocals (fl_modifiers r) (fl_keyboard r) (fl_has_keyboard r) (fl_mouse_buttons r) (fl_mouse_movement r)
         (fl_has_mouse r) (fl_consumer r).

Definition FrameLocals_new : FrameLocals :=
  mkFrameLocals 0 (KeyboardFrame_new 0) false 0 MouseMovement_neutral false None.

(** One event. *)
Definition frame_event (event : HidReportEvent) (l : FrameLocals) : Result InputError FrameLocals :=
  let m := fl_mouse_movement l in
  match event with
  | KeyboardUsageDown usage =>
      let l := l <| fl_has_keyboard := true |> in
      match modifier_from_keyboard_usage usage with
      | Some modifier => Ok (l <| fl_modifiers := set_modifier_state (fl_modifiers l) modifier true |>)
      | None =>
          if 4 <=? usage then
            match push_key (fl_keyboard l) usage with
            | (keyboard, Ok _) => Ok (l <| fl_keyboard := keyboard |>)
            | (_, Err e) => Err e
            end
          else Ok l
      end
  | MouseButtonDown button =>
      Ok (l <| fl_has_mouse := true |> <| fl_mouse_buttons := MouseButtons_set (fl_mouse_buttons l) button true |>)
  | MouseX x =>
      Ok (l <| fl_has_mouse := true |>
            <| fl_mouse_movement := mkMouseMovement (clamp_i32_to_i16 x) (move_y m) (move_wheel m) (move_pan m) |>)
  | MouseY y =>
      Ok (l <| fl_has_mouse := true |>
            <| fl_mouse_movement := mkMouseMovement (move_x m) (clamp_i32_to_i16 y) (move_wheel m) (move_pan m) |>)
  | MouseWheel wheel =>
      Ok (l <| fl_has_mouse := true |>
            <| fl_mouse_movement := mkMouseMovement (move_x m) (move_y m) (clamp_i32_to_i8 wheel) (move_pan m) |>)
  | MousePan pan =>
      Ok (l <| fl_has_mouse := true |>
            <| fl_mouse_movement := mkMouseMovement (move_x m) (move_y m) (move_wheel m) (clamp_i32_to_i8 pan) |>)
  | ConsumerUsageDown usage =>
      match fl_consumer l with
      | None => Ok (l <| fl_consumer := Some usage |>)
      | Some _ => Ok l
      end
  end.

Fixpoint frame_events (events : list HidReportEvent) (l : FrameLocals) : Result InputError FrameLocals :=
  match events with
  | [] => Ok l
  | event :: events => let? l := frame_event event l in frame_events events l
  end.

Definition events_to_standard_input_frame (device_id interface_id : Z) (events : list HidReportEvent)
  : Result InputError StandardInputFrame :=
  let? l := frame_events events FrameLocals_new in
  let keyboard := mkKeyboardFrame (fl_modifiers l) (frame_keys (fl_keyboard l)) in
  Ok (mkStandardInputFrame device_id interface_id
        (if fl_has_keyboard l then Some keyboard else None)
        (if fl_has_mouse l then Some (mkMouseFrame (fl_mouse_buttons l) (fl_mouse_movement l)) else None)
        ((λ active, mkConsumerFrame (Some active)) <$> fl_consumer l)).

Definition decode_standard_input_frame (capacity : nat) (device_id interface_id : Z) (descriptor : HidReportDescriptor)
  (report : list Z) : Result UsbInputFrameError StandardInputFrame :=
  let? (report_id, _) := map_err FrameHidReport (report_id_for descriptor report) in
  let domains := report_domains descriptor report_id in
  match decode_report capacity descriptor report with
  | (_, Err e) => Err (FrameHidReport e)
  | (events, Ok _) =>
      let? frame := map_err FrameInput (events_to_standard_input_frame device_id interface_id events) in
      let keyboard := match sif_keyboard frame with
        | None => if dom_keyboard domains then Some (KeyboardFrame_new 0) else None
        | keyboard => keyboard
        end in
      let mouse := match sif_mouse frame with
        | None => if dom_mouse domains then Some (mkMouseFrame 0 MouseMovement_neutral) else None
        | mouse => mouse
        end in
      let consumer := match sif_consumer frame with
        | None => if dom_consumer domains then Some (mkConsumerFrame None) else None
        | consumer => consumer
        end in
      Ok (mkStandardInputFrame (sif_device_id frame) (sif_interface_id frame) keyboard mouse consumer)
  end.

(** ** Boot keyboard ([boot_keyboard.rs]) *)

Definition BOOT_KEYBOARD_REPORT_LEN : nat := 8.
Definition BOOT_KEYBOARD_KEY_SLOTS : nat := 6.
Definition MAX_BOOT_KEYBOARD_EVENTS : nat := 14.

Inductive BootKeyboardError := InvalidKeyArray | BootTooManyEvents.

Record BootKeyboardReport := mkBootKeyboardReport { bkr_modifiers : Z; bkr_keys : list Z }.

Definition BootKeyboardReport_empty : BootKeyboardReport := mkBootKeyboardReport 0 (zeros BOOT_KEYBOARD_KEY_SLOTS).

Definition BootKeyboardReport_from_bytes (bytes : list Z) : BootKeyboardReport :=
  mkBootKeyboardReport (byte_at bytes 0) (map (byte_at bytes) [2; 3; 4; 5; 6; 7]%nat).

Definition BootKeyboardReport_from_key_array (modifiers : Z) (keys : list (option Z)) : BootKeyboardReport :=
  mkBootKeyboardReport modifiers (map (default 0) (take BOOT_KEYBOARD_KEY_SLOTS keys)).

(** [KeyboardEvent]; a [KeyCode] is its usage. *)
Inductive KeyboardEvent :=
  | KeyPress (usage : Z) | KeyRelease (usage : Z) | ModifierPress (m : Modifier) | ModifierRelease (m : Modifier).

Definition modifier_from_bit (bit : nat) : Modifier :=
  match bit with
  | 0 => LeftCtrl | 1 => LeftShift | 2 => LeftAlt | 3 => LeftGui | 4 => RightCtrl | 5 => RightShift | 6 => RightAlt
  | _ => RightGui
  end%nat.

Definition is_real_key (key : Z) : bool := 4 <=? key.
Definition contains_key (keys : list Z) (needle : Z) : bool := bool_decide (needle ∈ keys).

Definition boot_push (event : KeyboardEvent) (events : list KeyboardEvent)
  : list KeyboardEvent * Result BootKeyboardError unit :=
  match vec_push MAX_BOOT_KEYBOARD_EVENTS event events with
  | None => (events, Err BootTooManyEvents)
  | Some events => (events, Ok tt)
  end.

(** A loop that may push one event a round. *)
Fixpoint boot_loop {A} (body : A → option KeyboardEvent) (items : list A) (events : list KeyboardEvent)
  : list KeyboardEvent * Result BootKeyboardError unit :=
  match items with
  | [] => (events, Ok tt)
  | item :: items =>
      match body item with
      | None => boot_loop body items events
      | Some event =>
          match boot_push event events with
          | (events, Err e) => (events, Err e)
          | (events, Ok _) => boot_loop body items events
          end
      end
  end.

Definition modifier_change (self previous : BootKeyboardReport) (bit : nat) : option KeyboardEvent :=
  let mask := Z.shiftl 1 (Z.of_nat bit) in
  let was_pressed := negb (Z.land (bkr_modifiers previous) mask =? 0) in
  let is_pressed := negb (Z.land (bkr_modifiers self) mask =? 0) in
  if Bool.eqb was_pressed is_pressed then None
  else Some (if is_pressed then ModifierPress (modifier_from_bit bit) else ModifierRelease (modifier_from_bit bit)).

Definition key_released (self : BootKeyboardReport) (key : Z) : option KeyboardEvent :=
  if is_real_key key && negb (contains_key (bkr_keys self) key) then Some (KeyRelease key) else None.

Definition key_pressed (previous : BootKeyboardReport) (key : Z) : option KeyboardEvent :=
  if is_real_key key && negb (contains_key (bkr_keys previous) key) then Some (KeyPress key) else None.

Definition diff_into (self previous : BootKeyboardReport) : list KeyboardEvent * Result BootKeyboardError unit :=
  match boot_loop (modifier_change self previous) (seq 0 8) [] with
  | (events, Err e) => (events, Err e)
  | (events, Ok _) =>
      match boot_loop (key_released self) (bkr_keys previous) events with
      | (events, Err e) => (events, Err e)
      | (events, Ok _) => boot_loop (key_pressed previous) (bkr_keys self) events
      end
  end.

(** ** Bus power ([power.rs]) *)

Definition USB_HOST_SUSPEND_DELAY_MS : Z := 3000.

Inductive UsbHostBusState := BusRunning | BusSuspended.
#[export] Instance UsbHostBusState_eq_dec : EqDecision UsbHostBusState.
Proof. solve_decision. Defined.

Record UsbHostPowerPolicy := mkPowerPolicy { upp_state : UsbHostBusState; upp_suspend_deadline_ms : option Z }.

Definition UsbHostPowerPolicy_new : UsbHostPowerPolicy := mkPowerPolicy BusRunning None.

Definition power_update (self : UsbHostPowerPolicy) (now_ms : Z) (usb_device_present computer_connected : bool)
  : UsbHostPowerPolicy * option UsbHostBusState :=
  if negb usb_device_present || computer_connected then
    if decide (upp_state self = BusSuspended) then (mkPowerPolicy BusRunning None, Some BusRunning)
    else (mkPowerPolicy (upp_state self) None, None)
  else if decide (upp_state self = BusSuspended) then (self, None)
  else
    let deadline := default (u64_saturating_add now_ms USB_HOST_SUSPEND_DELAY_MS) (upp_suspend_deadline_ms self) in
    if now_ms <? deadline then (mkPowerPolicy (upp_state self) (Some deadline), None)
    else (mkPowerPolicy BusSuspended None, Some BusSuspended).

(** ** What the events of a report are *)

Lemma omap_in {A B} (f : A → option B) (l : list A) y : y ∈ omap f l ↔ ∃ x, x ∈ l ∧ f x = Some y.
Proof. apply list_elem_of_omap. Qed.

Lemma field_event_in rid page body (fields : list ReportField) e :
  e ∈ (fields ≫= field_events rid page body) ↔
  ∃ f entry index, f ∈ fields ∧ rf_report_id f = rid ∧ is_constant f = false ∧ rf_usage_page f = page ∧
    body f = Some entry ∧ Z.of_nat index < rf_count f ∧ entry index = Some e.
Proof.
  rewrite list_elem_of_bind. split.
  - intros (f & He & Hf). unfold field_events in He. destruct (_ || _ || _) eqn:Hc; [by apply elem_of_nil in He|].
    apply orb_false_iff in Hc as [[H1 H2]%orb_false_iff H3]. apply negb_false_iff, Z.eqb_eq in H1. apply negb_false_iff, Z.eqb_eq in H3.
    destruct (body f) as [entry|] eqn:Hb; [|by apply elem_of_nil in He]. apply omap_in in He as (index & Hi & He).
    exists f, entry, index. apply elem_of_seq in Hi. repeat (split; [done||lia|]). done.
  - intros (f & entry & index & Hf & H1 & H2 & H3 & Hb & Hi & He). exists f. split; [|done]. unfold field_events.
    rewrite H1, H2, H3, !Z.eqb_refl, Hb. cbn [negb orb]. apply omap_in. exists index. split; [|done].
    apply elem_of_seq. lia.
Qed.

(** A key is down: its bit is set in a bitmap, or an array holds its usage. *)
Definition key_in_report (d : HidReportDescriptor) (rid : Z) (payload : list Z) (usage : Z) : Prop :=
  ∃ f index, f ∈ hrd_fields d ∧ rf_report_id f = rid ∧ is_constant f = false ∧ rf_usage_page f = USAGE_PAGE_KEYBOARD ∧
    Z.of_nat index < rf_count f ∧
    (is_variable f = true ∧ rf_bit_size f = 1 ∧ field_extract_bool f payload index = Some true ∧
       usage_at f index = Some usage ∧ usage ≤ U8_MAX ∨
     is_variable f = false ∧ field_extract_u32 f payload index = Some usage ∧ 4 ≤ usage ≤ U8_MAX).

Lemma mouse_event_shape d rid payload e : e ∈ omap id (mouse_events d rid payload) →
  match e with
  | MouseX x => extract_i32 d payload rid USAGE_PAGE_GENERIC_DESKTOP USAGE_X = Some x ∧ x ≠ 0
  | MouseY x => extract_i32 d payload rid USAGE_PAGE_GENERIC_DESKTOP USAGE_Y = Some x ∧ x ≠ 0
  | MouseWheel x => extract_i32 d payload rid USAGE_PAGE_GENERIC_DESKTOP USAGE_WHEEL = Some x ∧ x ≠ 0
  | MousePan x => extract_i32 d payload rid USAGE_PAGE_CONSUMER USAGE_AC_PAN = Some x ∧ x ≠ 0
  | MouseButtonDown b => ∃ u, (u, b) ∈ button_usages ∧ extract_bool d payload rid USAGE_PAGE_BUTTON u = Some true
  | _ => False
  end.
Proof.
  intros (o & Ho & He)%omap_in. cbn in He. subst o. unfold mouse_events in Ho.
  apply elem_of_app in Ho as [Ho|Ho].
  - unfold axis_event in Ho. repeat (apply elem_of_cons in Ho as [Ho|Ho]; [
      destruct (extract_i32 _ _ _ _ _) as [x|]; [|done]; destruct (x =? 0) eqn:Hz; [done|]; injection Ho as ->;
      split; [done|]; by apply Z.eqb_neq in Hz|]).
    by apply elem_of_nil in Ho.
  - apply list_elem_of_fmap in Ho as ([u b] & Ho & Hin). destruct (extract_bool d payload rid USAGE_PAGE_BUTTON u) as [[]|] eqn:Hb; try done.
    injection Ho as ->. by exists u.
Qed.

(** Which events an entry of a field is. *)
Lemma keyboard_entry_event payload f entry index e : keyboard_body payload f = Some entry → entry index = Some e →
  ∃ u, e = KeyboardUsageDown u.
Proof.
  intros Hb He. unfold keyboard_body in Hb. destruct (is_variable f && _); [injection Hb as <-|destruct (negb _); [injection Hb as <-|done]].
  - unfold keyboard_bit in He. destruct (field_extract_bool f payload index) as [[]|]; try done.
    destruct (usage_at f index); [|done]. destruct (_ <=? _); [|done]. injection He as <-. by eexists.
  - unfold keyboard_entry in He. destruct (field_extract_u32 f payload index); [|done]. destruct (_ && _); [|done].
    injection He as <-. by eexists.
Qed.

Lemma consumer_entry_event payload f entry index e : consumer_body payload f = Some entry → entry index = Some e →
  ∃ u, e = ConsumerUsageDown u.
Proof.
  intros Hb He. unfold consumer_body in Hb. destruct (is_variable f); injection Hb as <-.
  - unfold consumer_bit in He. destruct (field_extract_bool f payload index) as [[]|]; try done.
    destruct (usage_at f index); [|done]. destruct (negb _); [|done]. injection He as <-. by eexists.
  - unfold consumer_entry in He. destruct (field_extract_u32 f payload index); [|done]. destruct (_ && _); [|done].
    injection He as <-. by eexists.
Qed.

Lemma key_event_in d rid payload u : KeyboardUsageDown u ∈ report_events d rid payload ↔ key_in_report d rid payload u.
Proof.
  unfold report_events. rewrite !elem_of_app, !field_event_in. split.
  - intros [H|[H|H]].
    + destruct H as (f & entry & index & Hf & H1 & H2 & H3 & Hb & Hi & He). exists f, index. repeat (split; [done|]).
      unfold keyboard_body in Hb. destruct (is_variable f) eqn:Hv; cbn [andb negb] in Hb.
      * destruct (rf_bit_size f =? 1) eqn:Hs; [|done]. injection Hb as <-. left. apply Z.eqb_eq in Hs.
        unfold keyboard_bit in He. destruct (field_extract_bool f payload index) as [[]|]; try done.
        destruct (usage_at f index) as [v|]; [|done]. destruct (v <=? U8_MAX) eqn:Hle; [|done]. injection He as ->.
        apply Z.leb_le in Hle. done.
      * injection Hb as <-. right. unfold keyboard_entry in He. destruct (field_extract_u32 f payload index) as [v|]; [|done].
        destruct (_ && _) eqn:Hle; [|done]. apply andb_true_iff in Hle as [Hl%Z.leb_le Hu%Z.leb_le]. injection He as <-.
        unfold as_u8. unfold U8_MAX in *. rewrite Z.mod_small by lia. done.
    + by apply mouse_event_shape in H.
    + destruct H as (f & entry & index & _ & _ & _ & _ & Hb & _ & He). by destruct (consumer_entry_event _ _ _ _ _ Hb He).
  - intros (f & index & Hf & H1 & H2 & H3 & Hi & Hc). left.
    destruct Hc as [(Hv & Hs & Hb & Hu & Hle)|(Hv & Hx & Hle)].
    + exists f, (keyboard_bit f payload), index. repeat (split; [done|]). unfold keyboard_body, keyboard_bit.
      rewrite Hv, Hs, Hb, Hu. cbn. rewrite (proj2 (Z.leb_le _ _)) by done. done.
    + exists f, (keyboard_entry f payload), index. repeat (split; [done|]). unfold keyboard_body, keyboard_entry.
      rewrite Hv, Hx. cbn. rewrite !(proj2 (Z.leb_le _ _)) by lia. cbn. unfold as_u8. unfold U8_MAX in *. by rewrite Z.mod_small by lia.
Qed.

(** Keyboard and consumer events come only with their domains. *)
Lemma domains_monotone rid fields dom :
  (dom_keyboard dom = true → dom_keyboard (fold_left (domain_step rid) fields dom) = true) ∧
  (dom_consumer dom = true → dom_consumer (fold_left (domain_step rid) fields dom) = true).
Proof.
  revert dom. induction fields as [|f fields IH]; intros dom; [done|]. cbn [fold_left].
  destruct (IH (domain_step rid dom f)) as [IHk IHc]. unfold domain_step in *.
  split; intros H; [apply IHk|apply IHc]; repeat case_match; done.
Qed.

Lemma domain_keyboard_in rid f fields dom : f ∈ fields → rf_report_id f = rid → is_constant f = false →
  rf_usage_page f = USAGE_PAGE_KEYBOARD → dom_keyboard (fold_left (domain_step rid) fields dom) = true.
Proof.
  intros Hf H1 H2 H3. revert dom. induction Hf as [f fields|f g fields Hf IH]; intros dom; cbn [fold_left]; [|by apply IH].
  apply domains_monotone. unfold domain_step. rewrite H1, H2, H3, Z.eqb_refl. done.
Qed.

Lemma domain_consumer_in rid f fields dom : f ∈ fields → rf_report_id f = rid → is_constant f = false →
  rf_usage_page f = USAGE_PAGE_CONSUMER →
  negb ((rf_usage_min f =? USAGE_AC_PAN) && (rf_usage_max f =? USAGE_AC_PAN)) || (1 <? rf_count f) || negb (is_variable f) = true →
  dom_consumer (fold_left (domain_step rid) fields dom) = true.
Proof.
  intros Hf H1 H2 H3 H4. revert dom. induction Hf as [f fields|f g fields Hf IH]; intros dom; cbn [fold_left]; [|by apply IH].
  apply domains_monotone. unfold domain_step. rewrite H1, H2, H3, Z.eqb_refl. cbn [negb orb]. cbn. by rewrite H4.
Qed.

(** ** Collecting the events *)

Definition key_of (e : HidReportEvent) : option Z :=
  match e with
  | KeyboardUsageDown u =>
      match modifier_from_keyboard_usage u with Some _ => None | None => if 4 <=? u then Some u else None end
  | _ => None
  end.

Definition modifier_of (e : HidReportEvent) : option Modifier :=
  match e with KeyboardUsageDown u => modifier_from_keyboard_usage u | _ => None end.

Definition button_of (e : HidReportEvent) : option MouseButton :=
  match e with MouseButtonDown b => Some b | _ => None end.

Definition consumer_usage_of (e : HidReportEvent) : option Z :=
  match e with ConsumerUsageDown u => Some u | _ => None end.

Definition is_key_event (e : HidReportEvent) : bool := match e with KeyboardUsageDown _ => true | _ => false end.
Definition is_mouse_event (e : HidReportEvent) : bool :=
  match e with KeyboardUsageDown _ | ConsumerUsageDown _ => false | _ => true end.

Definition add_key (keys : list Z) (u : Z) : list Z := if contains keys u then keys else keys ++ [u].

(** The axis [MouseX], [MouseY], [MouseWheel] or [MousePan] of an event and of a movement. *)
Inductive MotionAxis := AxisX | AxisY | AxisWheel | AxisPan.
Definition axis_event_value (a : MotionAxis) (e : HidReportEvent) : option Z :=
  match a, e with
  | AxisX, MouseX v | AxisY, MouseY v | AxisWheel, MouseWheel v | AxisPan, MousePan v => Some v
  | _, _ => None
  end.
Definition axis_of_movement (a : MotionAxis) (m : MouseMovement) : Z :=
  match a with AxisX => move_x m | AxisY => move_y m | AxisWheel => move_wheel m | AxisPan => move_pan m end.
Definition axis_clamped (a : MotionAxis) (v : Z) : Z :=
  match a with AxisX | AxisY => clamp_i32_to_i16 v | AxisWheel | AxisPan => clamp_i32_to_i8 v end.

Definition is_ok_frame (l l' : FrameLocals) (events : list HidReportEvent) : Prop :=
  frame_keys (fl_keyboard l') = fold_left add_key (omap key_of events) (frame_keys (fl_keyboard l)) ∧
  fl_modifiers l' = fold_left (λ s m, set_modifier_state s m true) (omap modifier_of events) (fl_modifiers l) ∧
  fl_has_keyboard l' = fl_has_keyboard l || existsb is_key_event events ∧
  fl_mouse_buttons l' = fold_left (λ s b, MouseButtons_set s b true) (omap button_of events) (fl_mouse_buttons l) ∧
  fl_has_mouse l' = fl_has_mouse l || existsb is_mouse_event events ∧
  fl_consumer l' = match fl_consumer l with Some u => Some u | None => hd_error (omap consumer_usage_of events) end ∧
  ∀ a, axis_of_movement a (fl_mouse_movement l') =
    match list.last (omap (axis_event_value a) events) with
    | Some v => axis_clamped a v
    | None => axis_of_movement a (fl_mouse_movement l)
    end.

Lemma add_key_grows us keys : (length keys ≤ length (fold_left add_key us keys))%nat.
Proof.
  revert keys. induction us as [|u us IH]; intros keys; cbn [fold_left]; [done|].
  specialize (IH (add_key keys u)). unfold add_key in *. destruct (contains keys u); [done|]. rewrite length_app in IH. cbn in IH. lia.
Qed.

Lemma omap_cons_eq {A B} (f : A → option B) x (l : list A) :
  omap f (x :: l) = match f x with Some y => y :: omap f l | None => omap f l end.
Proof. done. Qed.

Lemma last_cons_some {A} (y : A) l : list.last (y :: l) = match list.last l with Some z => Some z | None => Some y end.
Proof. apply last_cons. Qed.

(** One event, when the keys have room. *)
Lemma frame_event_spec e l : 
  match frame_event e l with
  | Ok l' => is_ok_frame l l' [e]
  | Err err => err = KeyCapacity ∧ ∃ u, key_of e = Some u ∧ (32 < length (add_key (frame_keys (fl_keyboard l)) u))%nat
  end.
Proof.
  unfold is_ok_frame. destruct e as [u|b|x|x|x|x|u]; cbn [frame_event].
  - destruct (modifier_from_keyboard_usage u) as [m|] eqn:Hm.
    + rewrite !omap_cons_eq. cbn. rewrite Hm, orb_true_r, orb_false_r. repeat (split; [done|]).
      split; [by destruct (fl_consumer l)|]. by intros [].
    + destruct (4 <=? u) eqn:H4.
      * unfold push_key. change (fl_keyboard (l <| fl_has_keyboard := true |>)) with (fl_keyboard l).
        rewrite !omap_cons_eq. cbn [key_of modifier_of button_of consumer_usage_of]. rewrite Hm, H4. cbn [omap list_omap fold_left].
        destruct (contains (frame_keys (fl_keyboard l)) u) eqn:Hc.
        -- unfold add_key. rewrite Hc. cbn. rewrite orb_true_r, orb_false_r. repeat (split; [done|]).
           split; [by destruct (fl_consumer l)|]. by intros [].
        -- destruct (vec_push _ u _) as [keys|] eqn:Hp.
           ++ apply vec_push_Some in Hp as [_ ->]. unfold add_key. rewrite Hc. cbn. rewrite orb_true_r, orb_false_r.
              repeat (split; [done|]). split; [by destruct (fl_consumer l)|]. by intros [].
           ++ split; [done|]. exists u. split; [done|]. apply vec_push_None in Hp. unfold add_key. rewrite Hc, length_app. cbn.
              unfold PHYSICAL_KEYBOARD_KEY_CAPACITY in Hp. lia.
      * rewrite !omap_cons_eq. cbn. rewrite Hm, H4, orb_true_r, orb_false_r. repeat (split; [done|]).
        split; [by destruct (fl_consumer l)|]. by intros [].
  - cbn. rewrite orb_true_r, orb_false_r. repeat (split; [done|]). split; [by destruct (fl_consumer l)|]. by intros [].
  - cbn. rewrite orb_true_r, orb_false_r. repeat (split; [done|]). split; [by destruct (fl_consumer l)|]. by intros [].
  - cbn. rewrite orb_true_r, orb_false_r. repeat (split; [done|]). split; [by destruct (fl_consumer l)|]. by intros [].
  - cbn. rewrite orb_true_r, orb_false_r. repeat (split; [done|]). split; [by destruct (fl_consumer l)|]. by intros [].
  - cbn. rewrite orb_true_r, orb_false_r. repeat (split; [done|]). split; [by destruct (fl_consumer l)|]. by intros [].
  - cbn. destruct (fl_consumer l) eqn:Hcons; cbn; rewrite !orb_false_r; repeat (split; [by rewrite ?Hcons|]); by intros [].
Qed.

Lemma is_ok_frame_trans l l1 l2 e events : is_ok_frame l l1 [e] → is_ok_frame l1 l2 events → is_ok_frame l l2 (e :: events).
Proof.
  intros (K1 & M1 & H1 & B1 & C1 & D1 & A1) (K2 & M2 & H2 & B2 & C2 & D2 & A2). unfold is_ok_frame.
  rewrite !omap_cons_eq in *. cbn [omap list_omap existsb] in *.
  assert (∀ {A B} (f : B → A → B) (o : option A) xs b,
    fold_left f (match o with Some y => y :: xs | None => xs end) b =
    fold_left f xs (fold_left f (match o with Some y => [y] | None => [] end) b)) as Hfold by (intros A B f [y|] xs b; done).
  split; [by rewrite Hfold, <- K1|]. split; [by rewrite Hfold, <- M1|].
  split; [rewrite H2, H1; by destruct (fl_has_keyboard l), (is_key_event e)|]. split; [by rewrite Hfold, <- B1|].
  split; [rewrite C2, C1; by destruct (fl_has_mouse l), (is_mouse_event e)|]. split.
  - rewrite D2, D1. destruct (fl_consumer l); [done|]. by destruct (consumer_usage_of e).
  - intros a. specialize (A1 a). specialize (A2 a). 
    destruct (axis_event_value a e) as [v|]; [|by rewrite A2, A1]. rewrite last_cons_some, A2.
    by destruct (list.last (omap (axis_event_value a) events)).
Qed.

(** All events: the locals collect them, or there are more than 32 keys. *)
Lemma frame_events_spec events l : (length (frame_keys (fl_keyboard l)) ≤ 32)%nat →
  match frame_events events l with
  | Ok l' => is_ok_frame l l' events ∧ (length (frame_keys (fl_keyboard l')) ≤ 32)%nat
  | Err err => err = KeyCapacity ∧
      (32 < length (fold_left add_key (omap key_of events) (frame_keys (fl_keyboard l))))%nat
  end.
Proof.
  revert l. induction events as [|e events IH]; intros l Hl; cbn [frame_events].
  { split; [|done]. unfold is_ok_frame. cbn. rewrite !orb_false_r. repeat (split; [done|]). split; [by destruct (fl_consumer l)|done]. }
  pose proof (frame_event_spec e l) as He. destruct (frame_event e l) as [l1|err] eqn:Hev; cbn [result_bind].
  - assert (length (frame_keys (fl_keyboard l1)) ≤ 32)%nat as Hl1.
    { destruct He as (K1 & _). destruct e as [u|b|x|x|x|x|u]; try (rewrite K1; exact Hl).
      cbn [frame_event] in Hev. destruct (modifier_from_keyboard_usage u); [by injection Hev as <-|].
      destruct (4 <=? u); [|by injection Hev as <-]. unfold push_key in Hev.
      change (fl_keyboard (l <| fl_has_keyboard := true |>)) with (fl_keyboard l) in Hev.
      destruct (contains (frame_keys (fl_keyboard l)) u); [by injection Hev as <-|].
      destruct (vec_push _ u _) as [keys|] eqn:Hp; [|done]. injection Hev as <-. apply vec_push_Some in Hp as [Hlt ->].
      cbn. rewrite length_app. cbn. unfold PHYSICAL_KEYBOARD_KEY_CAPACITY in Hlt. lia. }
    specialize (IH l1 Hl1). destruct (frame_events events l1) as [l2|err].
    + destruct IH as [IH Hl2]. split; [by apply (is_ok_frame_trans l l1)|done].
    + destruct IH as [-> IH]. split; [done|]. destruct He as (K1 & _). rewrite K1, <- fold_left_app in IH.
      by rewrite <- omap_app in IH.
  - destruct He as [-> (u & Hu & Hlen)]. split; [done|]. rewrite omap_cons_eq, Hu. cbn [fold_left].
    eapply Nat.lt_le_trans; [exact Hlen|apply add_key_grows].
Qed.

Lemma add_keys_spec us keys : NoDup keys →
  NoDup (fold_left add_key us keys) ∧ ∀ u, u ∈ fold_left add_key us keys ↔ u ∈ keys ∨ u ∈ us.
Proof.
  revert keys. induction us as [|v us IH]; intros keys Hk; cbn [fold_left].
  { split; [done|]. intros u. split; [by left|]. by intros [H|H%elem_of_nil]. }
  destruct (IH (add_key keys v)) as [Hn Hin].
  { unfold add_key, contains. case_bool_decide as Hc; [done|]. apply list.NoDup_app. split; [done|]. split; [|apply NoDup_singleton].
    by intros x Hx ->%list_elem_of_singleton. }
  split; [done|]. intros u. rewrite Hin, elem_of_cons. unfold add_key, contains. case_bool_decide as Hc.
  - split; [intros [H|H]; auto|]. intros [H|[->|H]]; auto.
  - rewrite elem_of_app, list_elem_of_singleton. tauto.
Qed.

Lemma flag_shape m : ∃ k, 0 ≤ k < 8 ∧ Modifier_flag m = 2 ^ k ∧ ∀ m', Modifier_flag m' = 2 ^ k → m' = m.
Proof. by destruct m; [exists 0|exists 1|exists 2|exists 3|exists 4|exists 5|exists 6|exists 7]; (split; [lia|]); (split; [done|]); intros []. Qed.

Lemma land_pow2 x k : 0 ≤ k → Z.land x (2 ^ k) ≠ 0 ↔ Z.testbit x k = true.
Proof.
  intros Hk. pose proof (bit_of x k Hk) as H. rewrite Z.shiftl_1_l in H. rewrite <- H, negb_true_iff, Z.eqb_neq. done.
Qed.

Lemma flag_set m m' s : Z.land (Z.lor s (Modifier_flag m')) (Modifier_flag m) ≠ 0 ↔ Z.land s (Modifier_flag m) ≠ 0 ∨ m' = m.
Proof.
  destruct (flag_shape m) as (k & Hk & Hf & Hu). destruct (flag_shape m') as (k' & Hk' & Hf' & _). rewrite Hf.
  rewrite !land_pow2, Z.lor_spec, orb_true_iff by lia. split; (intros [H|H]; [by left|right]).
  - apply Hu. rewrite Hf' in H |- *. destruct (decide (k' = k)) as [->|Hne]; [done|]. by rewrite Z.pow2_bits_false in H.
  - subst m'. rewrite Hf. apply Z.pow2_bits_true. lia.
Qed.

Lemma modifiers_spec ms m s : Z.land (fold_left (λ s m, set_modifier_state s m true) ms s) (Modifier_flag m) ≠ 0 ↔
  Z.land s (Modifier_flag m) ≠ 0 ∨ m ∈ ms.
Proof.
  revert s. induction ms as [|m' ms IH]; intros s; cbn [fold_left].
  { split; [by left|]. by intros [H|H%elem_of_nil]. }
  rewrite IH. unfold set_modifier_state. rewrite flag_set, elem_of_cons. split; [intros [[H|H]|H]; auto|intros [H|[H|H]]; auto].
Qed.

Lemma modifiers_u8 ms s : u8_ok s → u8_ok (fold_left (λ s m, set_modifier_state s m true) ms s).
Proof.
  revert s. induction ms as [|m ms IH]; intros s Hs; cbn [fold_left]; [done|]. apply IH. unfold set_modifier_state.
  apply lor_u8; [done|]. by destruct m; vm_compute.
Qed.

Lemma button_shape b : ∃ k, 0 ≤ k < 5 ∧ MouseButton_mask b = 2 ^ k ∧ ∀ b', MouseButton_mask b' = 2 ^ k → b' = b.
Proof. by destruct b; [exists 0|exists 1|exists 2|exists 3|exists 4]; (split; [lia|]); (split; [done|]); intros []. Qed.

Lemma buttons_spec bs b s : MouseButtons_contains (fold_left (λ s b, MouseButtons_set s b true) bs s) b = true ↔
  MouseButtons_contains s b = true ∨ b ∈ bs.
Proof.
  unfold MouseButtons_contains. rewrite !bool_decide_eq_true.
  revert s. induction bs as [|b' bs IH]; intros s; cbn [fold_left].
  { split; [by left|]. by intros [H|H%elem_of_nil]. }
  rewrite IH, elem_of_cons. unfold MouseButtons_set.
  destruct (button_shape b) as (k & Hk & Hf & Hu). destruct (button_shape b') as (k' & Hk' & Hf' & _). rewrite Hf.
  rewrite !land_pow2, Z.lor_spec, orb_true_iff by lia. split.
  - intros [[H|H]|H]; [by left| |by right; right]. right; left. symmetry. apply Hu. rewrite Hf' in H |- *.
    destruct (decide (k' = k)) as [->|Hne]; [done|]. by rewrite Z.pow2_bits_false in H.
  - intros [H|[H|H]]; [by left; left| |by right]. left; right. subst b'. rewrite Hf. apply Z.pow2_bits_true. lia.
Qed.

Lemma buttons_truncated bs s : MouseButtons_from_bits_truncate s = s →
  MouseButtons_from_bits_truncate (fold_left (λ s b, MouseButtons_set s b true) bs s) =
    fold_left (λ s b, MouseButtons_set s b true) bs s.
Proof.
  revert s. induction bs as [|b bs IH]; intros s Hs; cbn [fold_left]; [done|]. apply IH.
  unfold MouseButtons_from_bits_truncate, MouseButtons_set in *. rewrite Z.land_lor_distr_l, Hs. f_equal. by destruct b.
Qed.

(** The last of values that are all the same. *)
Lemma last_same {A} (l : list A) v : (∀ x, x ∈ l → x = v) → list.last l = None ∧ l = [] ∨ list.last l = Some v ∧ v ∈ l.
Proof.
  intros H. destruct (list.last l) as [x|] eqn:Hl.
  - right. assert (x ∈ l) as Hin by (apply last_Some in Hl as [l' ->]; apply elem_of_app; right; by apply list_elem_of_singleton).
    pose proof (H x Hin) as Hx. subst x. by split.
  - left. split; [done|]. by apply last_None.
Qed.

Lemma consumer_event_in d rid payload u : ConsumerUsageDown u ∈ report_events d rid payload →
  dom_consumer (report_domains d rid) = true.
Proof.
  unfold report_events. rewrite !elem_of_app, !field_event_in. intros [H|[H|H]].
  - destruct H as (f & entry & index & _ & _ & _ & _ & Hb & _ & He). by destruct (keyboard_entry_event _ _ _ _ _ Hb He).
  - by apply mouse_event_shape in H.
  - destruct H as (f & entry & index & Hf & H1 & H2 & H3 & Hb & Hi & He). apply (domain_consumer_in rid f); try done.
    unfold consumer_body in Hb. destruct (is_variable f); injection Hb as <-; [|apply orb_true_r].
    unfold consumer_bit in He. destruct (field_extract_bool f payload index) as [[]|]; try done.
    destruct (usage_at f index) as [v|] eqn:Hu; [|done]. destruct (negb (v =? USAGE_AC_PAN)) eqn:Hv; [|done].
    unfold usage_at in Hu. destruct (rf_count f <=? Z.of_nat index); [done|]. destruct (_ && _) eqn:Hle; [|done].
    apply andb_true_iff in Hle as [_ Hle%Z.leb_le]. injection Hu as Hu. apply negb_true_iff, Z.eqb_neq in Hv.
    destruct ((rf_usage_min f =? USAGE_AC_PAN) && _) eqn:Hpan; [|done]. exfalso.
    apply andb_true_iff in Hpan as [Hmin%Z.eqb_eq Hmax%Z.eqb_eq]. rewrite Hu in Hle.
    assert (0 ≤ as_u16 (Z.of_nat index)) by (apply Z.mod_pos_bound; lia). lia.
Qed.

Lemma key_event_domain d rid payload u : key_in_report d rid payload u → dom_keyboard (report_domains d rid) = true.
Proof. intros (f & index & Hf & H1 & H2 & H3 & _). by apply (domain_keyboard_in rid f). Qed.

Lemma existsb_event (p : HidReportEvent → bool) events : existsb p events = true ↔ ∃ e, e ∈ events ∧ p e = true.
Proof. rewrite existsb_exists. split; intros (e & He & Hp); exists e; (split; [|done]); by apply list_elem_of_In. Qed.

(** The mouse events are the readings of the axes and buttons. *)
Lemma mouse_event_in d rid payload e : is_mouse_event e = true →
  e ∈ report_events d rid payload ↔ e ∈ omap (@id (option HidReportEvent)) (mouse_events d rid payload).
Proof.
  intros Hm. unfold report_events. rewrite !elem_of_app, !field_event_in. split; [|by right; left].
  intros [H|[H|H]]; [exfalso|done|exfalso]; destruct H as (f & entry & index & _ & _ & _ & _ & Hb & _ & He).
  - by destruct (keyboard_entry_event _ _ _ _ _ Hb He) as [u ->].
  - by destruct (consumer_entry_event _ _ _ _ _ Hb He) as [u ->].
Qed.

(** ** The frame of a report *)

(** What the axis reads in the payload. *)
Definition axis_reading (d : HidReportDescriptor) (rid : Z) (payload : list Z) (a : MotionAxis) : option Z :=
  match a with
  | AxisX => extract_i32 d payload rid USAGE_PAGE_GENERIC_DESKTOP USAGE_X
  | AxisY => extract_i32 d payload rid USAGE_PAGE_GENERIC_DESKTOP USAGE_Y
  | AxisWheel => extract_i32 d payload rid USAGE_PAGE_GENERIC_DESKTOP USAGE_WHEEL
  | AxisPan => extract_i32 d payload rid USAGE_PAGE_CONSUMER USAGE_AC_PAN
  end.

Definition button_down (d : HidReportDescriptor) (rid : Z) (payload : list Z) (b : MouseButton) : Prop :=
  ∃ u, (u, b) ∈ button_usages ∧ extract_bool d payload rid USAGE_PAGE_BUTTON u = Some true.

Lemma axis_events_in d rid payload a v : v ∈ omap (axis_event_value a) (report_events d rid payload) ↔
  axis_reading d rid payload a = Some v ∧ v ≠ 0.
Proof.
  rewrite omap_in. split.
  - intros (e & He & Hv). assert (is_mouse_event e = true) as Hm by (by destruct a, e).
    apply mouse_event_in in He; [|done]. apply mouse_event_shape in He. destruct a, e; try done; injection Hv as <-; exact He.
  - intros [Hr Hv]. assert (∃ e, axis_event_value a e = Some v ∧ is_mouse_event e = true ∧ e ∈ omap (@id (option HidReportEvent)) (mouse_events d rid payload))
      as (e & He & Hm & Hin).
    { apply Z.eqb_neq in Hv. exists (match a with AxisX => MouseX v | AxisY => MouseY v | AxisWheel => MouseWheel v | AxisPan => MousePan v end).
      destruct a; cbn in Hr; (split; [reflexivity|]); (split; [reflexivity|]); apply omap_in; eexists; (split; [|reflexivity]);
        unfold mouse_events; rewrite Hr; unfold axis_event; rewrite Hv; cbn; rewrite !elem_of_cons; auto 10. }
    exists e. split; [by apply mouse_event_in|done].
Qed.

Lemma button_events_in d rid payload b : b ∈ omap button_of (report_events d rid payload) ↔ button_down d rid payload b.
Proof.
  rewrite omap_in. split.
  - intros (e & He & Hv). destruct e as [|b'|?|?|?|?|?]; try done. injection Hv as ->.
    apply mouse_event_in in He; [|done]. by apply mouse_event_shape in He.
  - intros (u & Hu & Hb). exists (MouseButtonDown b). split; [|done]. apply mouse_event_in; [done|]. apply omap_in.
    exists (Some (MouseButtonDown b)). split; [|done]. unfold mouse_events. apply elem_of_app. right.
    apply list_elem_of_fmap. exists (u, b). by rewrite Hb.
Qed.

(** The frame [decode_standard_input_frame] fills with neutral states. *)
Definition keyboard_read (d : HidReportDescriptor) (rid : Z) (payload : list Z) (keyboard : option KeyboardFrame) : Prop :=
  match keyboard with
  | Some k => dom_keyboard (report_domains d rid) = true ∧ frame_ok k ∧
      (∀ u, u ∈ frame_keys k ↔ key_in_report d rid payload u ∧ 4 ≤ u ∧ modifier_from_keyboard_usage u = None) ∧
      (∀ u m, modifier_from_keyboard_usage u = Some m →
         Z.land (frame_modifiers k) (Modifier_flag m) ≠ 0 ↔ key_in_report d rid payload u)
  | None => dom_keyboard (report_domains d rid) = false
  end.

Definition mouse_read (d : HidReportDescriptor) (rid : Z) (payload : list Z) (mouse : option MouseFrame) : Prop :=
  (∀ b, button_down d rid payload b ↔ ∃ m, mouse = Some m ∧ MouseButtons_contains (mouse_buttons m) b = true) ∧
  (∀ a, match mouse with
        | Some m => axis_of_movement a (mouse_movement m) = axis_clamped a (default 0 (axis_reading d rid payload a))
        | None => default 0 (axis_reading d rid payload a) = 0
        end) ∧
  (mouse = None → dom_mouse (report_domains d rid) = false).

Definition consumer_read (d : HidReportDescriptor) (rid : Z) (payload : list Z) (consumer : option ConsumerFrame) : Prop :=
  match consumer with
  | Some c => dom_consumer (report_domains d rid) = true ∧
      cf_active c = hd_error (omap consumer_usage_of (report_events d rid payload))
  | None => dom_consumer (report_domains d rid) = false
  end.

Lemma usage_of_modifier u m : modifier_from_keyboard_usage u = Some m → 0xe0 ≤ u ≤ 0xe7 ∧ ∀ u', modifier_from_keyboard_usage u' = Some m → u' = u.
Proof.
  assert (∀ v n, modifier_from_keyboard_usage v = Some n → v = 0xe0 + Z.log2 (Modifier_flag n)) as H.
  { intros v n Hv. unfold modifier_from_keyboard_usage in Hv. repeat (case_match; try done); by injection Hv as <-. }
  intros Hu. split; [rewrite (H u m Hu); destruct m; cbn; lia|]. intros u' Hu'. by rewrite (H u m Hu), (H u' m Hu').
Qed.

Lemma modifier_events_in d rid payload u m : modifier_from_keyboard_usage u = Some m →
  m ∈ omap modifier_of (report_events d rid payload) ↔ key_in_report d rid payload u.
Proof.
  intros Hu. rewrite omap_in, <- key_event_in. split.
  - intros (e & He & Hm). destruct e as [u'|?|?|?|?|?|?]; try done. cbn in Hm. destruct (usage_of_modifier u m Hu) as [_ H].
    by rewrite (H u' Hm) in He.
  - intros He. by exists (KeyboardUsageDown u).
Qed.

Lemma key_events_in d rid payload u : u ∈ omap key_of (report_events d rid payload) ↔
  key_in_report d rid payload u ∧ 4 ≤ u ∧ modifier_from_keyboard_usage u = None.
Proof.
  rewrite omap_in, <- key_event_in. split.
  - intros (e & He & Hk). destruct e as [u'|?|?|?|?|?|?]; try done. cbn in Hk.
    destruct (modifier_from_keyboard_usage u') eqn:Hm; [done|]. destruct (4 <=? u') eqn:H4; [|done]. injection Hk as ->.
    by apply Z.leb_le in H4.
  - intros (He & H4 & Hm). exists (KeyboardUsageDown u). split; [done|]. cbn. rewrite Hm. by rewrite (proj2 (Z.leb_le _ _)).
Qed.

Lemma key_in_report_bound d rid payload u : key_in_report d rid payload u → u ≤ 255.
Proof. intros (f & index & _ & _ & _ & _ & _ & [H|H]); unfold U8_MAX in H; tauto || lia. Qed.

(** The parts of the collected frame. *)
Lemma collected_keyboard d rid payload l : is_ok_frame FrameLocals_new l (report_events d rid payload) →
  (length (frame_keys (fl_keyboard l)) ≤ 32)%nat →
  keyboard_read d rid payload
    (match (if fl_has_keyboard l then Some (mkKeyboardFrame (fl_modifiers l) (frame_keys (fl_keyboard l))) else None) with
     | None => if dom_keyboard (report_domains d rid) then Some (KeyboardFrame_new 0) else None
     | keyboard => keyboard
     end).
Proof.
  intros (HK & HM & HH & _) Hlen. cbn [FrameLocals_new fl_keyboard fl_modifiers fl_has_keyboard KeyboardFrame_new frame_keys orb] in *.
  destruct (add_keys_spec (omap key_of (report_events d rid payload)) [] (NoDup_nil_2)) as [Hnd Hin].
  rewrite <- HK in Hnd, Hin.
  assert (∀ u, u ∈ frame_keys (fl_keyboard l) ↔ key_in_report d rid payload u ∧ 4 ≤ u ∧ modifier_from_keyboard_usage u = None) as Hkeys.
  { intros u. rewrite Hin, key_events_in. split; [by intros [H%elem_of_nil|H]|by right]. }
  destruct (fl_has_keyboard l) eqn:Hhas.
  - symmetry in HH. apply existsb_event in HH as (e & He & Hk). destruct e as [u|?|?|?|?|?|?]; try done. apply key_event_in in He.
    split; [by apply (key_event_domain d rid payload u)|]. split; [split|split; [exact Hkeys|]]; cbn [frame_modifiers frame_keys].
    + rewrite HM. apply modifiers_u8. vm_compute. split; congruence.
    + apply List.Forall_forall. intros v Hv%list_elem_of_In. apply Hkeys in Hv as (Hv & H4 & _). apply key_in_report_bound in Hv.
      split; lia.
    + exact Hnd.
    + exact Hlen.
    + intros u' m Hm. rewrite HM, modifiers_spec, (modifier_events_in d rid payload u' m Hm). by split; [intros [H|H]|by right].
  - symmetry in HH. assert (∀ u, ¬ key_in_report d rid payload u) as Hno.
    { intros u Hu. apply key_event_in in Hu. assert (existsb is_key_event (report_events d rid payload) = true) as Ht
        by (apply existsb_event; by exists (KeyboardUsageDown u)). by rewrite Ht in HH. }
    destruct (dom_keyboard (report_domains d rid)) eqn:Hdom; [|done].
    split; [done|]. split; [split; cbn; [split; lia|constructor|constructor|lia]|]. split.
    + intros u. split; [by intros H%elem_of_nil|]. intros [H _]. by destruct (Hno u).
    + intros u m _. split; [|intros H; by destruct (Hno u)]. by cbn; rewrite Z.land_0_l.
Qed.

Lemma collected_mouse d rid payload l : is_ok_frame FrameLocals_new l (report_events d rid payload) →
  let mouse := match (if fl_has_mouse l then Some (mkMouseFrame (fl_mouse_buttons l) (fl_mouse_movement l)) else None) with
    | None => if dom_mouse (report_domains d rid) then Some (mkMouseFrame 0 MouseMovement_neutral) else None
    | mouse => mouse
    end in
  mouse_read d rid payload mouse ∧
  ∀ m, mouse = Some m → MouseButtons_from_bits_truncate (mouse_buttons m) = mouse_buttons m.
Proof.
  intros (_ & _ & _ & HB & HH & _ & HA).
  cbn [FrameLocals_new fl_mouse_buttons fl_has_mouse fl_mouse_movement orb] in *.
  assert (∀ a, axis_of_movement a (fl_mouse_movement l) = axis_clamped a (default 0 (axis_reading d rid payload a))) as Haxis.
  { intros a. rewrite HA. pose proof (axis_events_in d rid payload a) as Hev.
    destruct (last_same (omap (axis_event_value a) (report_events d rid payload)) (default 0 (axis_reading d rid payload a)))
      as [[-> Hnil]|[-> _]]; [by intros x [-> _]%Hev| |done].
    assert (default 0 (axis_reading d rid payload a) = 0) as ->; [|by destruct a].
    destruct (axis_reading d rid payload a) as [v|] eqn:Hr; [|done]. cbn. destruct (decide (v = 0)); [done|].
    assert (v ∈ omap (axis_event_value a) (report_events d rid payload)) as Hv by (by apply Hev). rewrite Hnil in Hv. by apply elem_of_nil in Hv. }
  destruct (fl_has_mouse l) eqn:Hhas.
  - split; [split; [|split; [exact Haxis|done]]|].
    + intros b. rewrite <- button_events_in. split.
      * intros Hb. eexists. split; [done|]. cbn [mouse_buttons]. rewrite HB. apply buttons_spec. by right.
      * intros (m & [= <-] & Hb). cbn [mouse_buttons] in Hb. rewrite HB in Hb. apply buttons_spec in Hb as [Hb|Hb]; [by destruct b|done].
    + intros m [= <-]. cbn [mouse_buttons]. rewrite HB. by apply buttons_truncated.
  - symmetry in HH. assert (∀ e, is_mouse_event e = true → e ∉ report_events d rid payload) as Hno.
    { intros e Hm He. assert (existsb is_mouse_event (report_events d rid payload) = true) as Ht
        by (apply existsb_event; by exists e). by rewrite Ht in HH. }
    assert (∀ b, ¬ button_down d rid payload b) as Hnob.
    { intros b Hb. apply button_events_in, omap_in in Hb as (e & He & Hb). apply (Hno e); [by destruct e|done]. }
    assert (∀ a, default 0 (axis_reading d rid payload a) = 0) as Hnoa.
    { intros a. destruct (axis_reading d rid payload a) as [v|] eqn:Hr; [|done]. cbn. destruct (decide (v = 0)) as [|Hv]; [done|].
      pose proof (proj2 (axis_events_in d rid payload a v) (conj Hr Hv)) as Hin. apply omap_in in Hin as (e & He & Hax).
      exfalso. apply (Hno e); [by destruct a, e|done]. }
    destruct (dom_mouse (report_domains d rid)) eqn:Hdom.
    + split; [split; [|split; [|done]]|by intros m [= <-]].
      * intros b. split; [intros Hb; by destruct (Hnob b)|]. intros (m & [= <-] & Hb). by destruct b.
      * intros a. rewrite Hnoa. by destruct a.
    + split; [split; [|split; [exact Hnoa|done]]|done]. intros b. split; [intros Hb; by destruct (Hnob b)|by intros (m & H & _)].
Qed.

(** C5: the frame of a report.  A frame holds exactly the keys and modifiers whose bits or array entries
    the report has, the buttons and axes it reads, clamped to the width of a frame, and its first
    consumer usage; a part is present whenever the report has a field for it, so that released keys
    are seen.  The frame is well formed.  A report is refused only for more events than the buffer
    holds or more than 32 keys. *)
Theorem report_frame capacity device_id interface_id d report rid payload :
  matching_payload d report = Ok (rid, payload) →
  match decode_standard_input_frame capacity device_id interface_id d report with
  | Ok f => (length (report_events d rid payload) ≤ capacity)%nat ∧ input_ok f ∧
      sif_device_id f = device_id ∧ sif_interface_id f = interface_id ∧
      keyboard_read d rid payload (sif_keyboard f) ∧ mouse_read d rid payload (sif_mouse f) ∧
      consumer_read d rid payload (sif_consumer f)
  | Err (FrameHidReport e) => e = TooManyEvents ∧ (capacity < length (report_events d rid payload))%nat
  | Err (FrameInput e) => e = KeyCapacity ∧ ∃ keys, NoDup keys ∧ (32 < length keys)%nat ∧
      Forall (λ u, key_in_report d rid payload u ∧ 4 ≤ u ∧ modifier_from_keyboard_usage u = None) keys
  end.
Proof.
  intros Hm. unfold decode_standard_input_frame, report_id_for. rewrite Hm. cbn [map_err result_bind].
  rewrite decode_report_spec, Hm. unfold pushed. cbn [length app].
  case_decide as Hcap; [|split; [done|lia]]. unfold events_to_standard_input_frame.
  pose proof (frame_events_spec (report_events d rid payload) FrameLocals_new ltac:(cbn; lia)) as Hspec.
  destruct (frame_events (report_events d rid payload) FrameLocals_new) as [l|e]; cbn [result_bind map_err].
  - destruct Hspec as [Hl Hlen]. pose proof (collected_keyboard d rid payload l Hl Hlen) as Hk.
    pose proof (collected_mouse d rid payload l Hl) as [Hmo Hbt].
    cbn [sif_keyboard sif_mouse sif_consumer sif_device_id sif_interface_id].
    split; [exact Hcap|]. split; [|split; [done|split; [done|split; [exact Hk|split; [exact Hmo|]]]]].
    + split; cbn [sif_keyboard sif_mouse]; [|exact Hbt].
      intros k Hkeq. rewrite Hkeq in Hk. by destruct Hk as (_ & Hf & _).
    + destruct Hl as (_ & _ & _ & _ & _ & HC & _). cbn [fl_consumer FrameLocals_new] in HC. rewrite HC.
      destruct (omap consumer_usage_of (report_events d rid payload)) as [|u us] eqn:Hus; cbn [hd_error fmap option_fmap option_map consumer_read].
      * unfold consumer_read. destruct (dom_consumer _); [split; [done|by rewrite Hus]|done].
      * unfold consumer_read. split; [|by rewrite Hus]. assert (u ∈ omap consumer_usage_of (report_events d rid payload)) as Hu
          by (rewrite Hus; apply list_elem_of_here).
        apply omap_in in Hu as (e & He & Hue). destruct e as [?|?|?|?|?|?|v]; try done. by apply (consumer_event_in d rid payload v).
  - destruct Hspec as [-> Hlen]. split; [done|]. cbn [FrameLocals_new fl_keyboard KeyboardFrame_new frame_keys] in Hlen.
    destruct (add_keys_spec (omap key_of (report_events d rid payload)) [] (NoDup_nil_2)) as [Hnd Hin].
    eexists. split; [exact Hnd|]. split; [exact Hlen|]. apply List.Forall_forall. intros u Hu%list_elem_of_In.
    apply Hin in Hu as [H%elem_of_nil|H]; [done|]. by apply key_events_in in H.
Qed.

(** A boot keyboard as the fixtures of the tests describe it: modifiers, then an array of six keys. *)
Definition sample_boot_keyboard : HidReportDescriptor :=
  mkHidReportDescriptor
    [mkReportField 0 USAGE_PAGE_KEYBOARD 0xe0 0xe7 0 1 8 2 0 1;
     mkReportField 0 USAGE_PAGE_KEYBOARD 0 0xff 16 8 6 0 0 255] false.

Lemma report_frame_witness :
  ∃ f, decode_standard_input_frame 16 1 2 sample_boot_keyboard [0x02; 0; 4; 5; 0; 0; 0; 0] = Ok f ∧
    input_ok f ∧ sif_keyboard f = Some (mkKeyboardFrame 2 [4; 5]) ∧
    keyboard_read sample_boot_keyboard 0 [0x02; 0; 4; 5; 0; 0; 0; 0] (sif_keyboard f).
Proof.
  pose proof (report_frame 16 1 2 sample_boot_keyboard [0x02; 0; 4; 5; 0; 0; 0; 0] 0 _ eq_refl) as H.
  destruct (decode_standard_input_frame 16 1 2 sample_boot_keyboard [0x02; 0; 4; 5; 0; 0; 0; 0]) as [f|e] eqn:Hf;
    [|vm_compute in Hf; discriminate Hf].
  exists f. destruct H as (_ & Hok & _ & _ & Hk & _). split; [reflexivity|]. split; [exact Hok|]. split; [|exact Hk].
  vm_compute in Hf. injection Hf as <-. reflexivity.
Defined.

(** ** Boot keyboard changes *)

(** All changes between two reports, whatever their number. *)
Definition boot_changes (self previous : BootKeyboardReport) : list KeyboardEvent :=
  omap (modifier_change self previous) (seq 0 8) ++ omap (key_released self) (bkr_keys previous) ++
  omap (key_pressed previous) (bkr_keys self).

(** A keyboard that follows the events: its modifiers and the keys that are down. *)
Definition replay_event (st : Z * list Z) (e : KeyboardEvent) : Z * list Z :=
  match e with
  | ModifierPress m => (set_modifier_state st.1 m true, st.2)
  | ModifierRelease m => (set_modifier_state st.1 m false, st.2)
  | KeyPress u => (st.1, u :: st.2)
  | KeyRelease u => (st.1, filter (λ k, k ≠ u) st.2)
  end.

Definition real_keys (r : BootKeyboardReport) : list Z := filter (λ k, 4 ≤ k) (bkr_keys r).

Lemma boot_loop_spec {A} (body : A → option KeyboardEvent) items before : (length before ≤ 14)%nat →
  boot_loop body items before =
    if decide (length before + length (omap body items) ≤ 14)%nat then (before ++ omap body items, Ok tt)
    else (take 14 (before ++ omap body items), Err BootTooManyEvents).
Proof.
  revert before. induction items as [|x items IH]; intros before Hb; cbn [boot_loop].
  { rewrite decide_True by (cbn; lia). by rewrite app_nil_r. }
  rewrite omap_cons_eq. destruct (body x) as [e|]; [|by apply IH]. unfold boot_push, MAX_BOOT_KEYBOARD_EVENTS.
  destruct (vec_push 14 e before) as [events|] eqn:Hp.
  - apply vec_push_Some in Hp as [Hlt ->]. rewrite IH by (rewrite length_app; cbn; lia). rewrite length_app. cbn [length].
    rewrite <- app_assoc. cbn [app].
    destruct (decide (length before + 1 + length (omap body items) ≤ 14)%nat); [rewrite decide_True by lia|rewrite decide_False by lia]; done.
  - apply vec_push_None in Hp. rewrite decide_False by (cbn; lia). f_equal. rewrite take_app_le by lia. symmetry. apply take_ge. lia.
Qed.

Lemma diff_into_spec self previous : diff_into self previous =
  if decide (length (boot_changes self previous) ≤ 14)%nat then (boot_changes self previous, Ok tt)
  else (take 14 (boot_changes self previous), Err BootTooManyEvents).
Proof.
  unfold diff_into, boot_changes. rewrite boot_loop_spec by (cbn; lia). cbn [length app].
  set (a := omap (modifier_change self previous) (seq 0 8)). set (b := omap (key_released self) (bkr_keys previous)).
  set (c := omap (key_pressed previous) (bkr_keys self)). rewrite !length_app.
  destruct (decide (0 + length a ≤ 14)%nat).
  - rewrite boot_loop_spec by lia. fold b. destruct (decide (length a + length b ≤ 14)%nat).
    + rewrite boot_loop_spec by (rewrite length_app; lia). rewrite length_app. fold c.
      destruct (decide (length a + length b + length c ≤ 14)%nat); [rewrite decide_True by lia|rewrite decide_False by lia]; by rewrite <- app_assoc.
    + rewrite decide_False by lia. f_equal. rewrite app_assoc. symmetry. apply take_app_le. rewrite length_app. lia.
  - rewrite decide_False by lia. f_equal. symmetry. apply take_app_le. lia.
Qed.

Lemma bit_flag bit : (bit < 8)%nat → Modifier_flag (modifier_from_bit bit) = 2 ^ Z.of_nat bit.
Proof. intros H. do 8 (destruct bit as [|bit]; [done|]). lia. Qed.

Lemma set_modifier_bit s bit pressed k : (bit < 8)%nat → 0 ≤ k < 8 →
  Z.testbit (set_modifier_state s (modifier_from_bit bit) pressed) k = if decide (k = Z.of_nat bit) then pressed else Z.testbit s k.
Proof.
  intros Hb Hk. unfold set_modifier_state, u8_not. rewrite bit_flag by done.
  assert (Z.testbit 255 k = true) as H255 by (change 255 with (Z.ones 8); apply Z.ones_spec_low; lia).
  destruct pressed; rewrite ?Z.lor_spec, ?Z.land_spec, ?Z.lxor_spec, ?H255; case_decide as Hc.
  - rewrite Hc, Z.pow2_bits_true by lia. apply orb_true_r.
  - rewrite Z.pow2_bits_false by congruence. apply orb_false_r.
  - rewrite Hc, Z.pow2_bits_true by lia. apply andb_false_r.
  - rewrite Z.pow2_bits_false by congruence. apply andb_true_r.
Qed.

Lemma replay_keys_kept events st : Forall (λ e, match e with ModifierPress _ | ModifierRelease _ => True | _ => False end) events →
  (fold_left replay_event events st).2 = st.2.
Proof. revert st. induction events as [|e events IH]; intros st H; [done|]. apply List.Forall_cons_iff in H as [He H]. cbn [fold_left]. rewrite IH by done. by destruct e. Qed.

Lemma u8_bits_eq a b : u8_ok a → u8_ok b → (∀ k, 0 ≤ k < 8 → Z.testbit a k = Z.testbit b k) → a = b.
Proof.
  intros Ha Hb H. apply Z.bits_inj'. intros k Hk. destruct (decide (k < 8)); [by apply H|].
  assert (∀ x, u8_ok x → Z.testbit x k = false) as Hx; [|by rewrite !Hx].
  intros x Hx. rewrite <- (Z.mod_small x (2 ^ 8)) by (unfold u8_ok in Hx; lia). apply Z.mod_pow2_bits_high. lia.
Qed.

Lemma set_modifier_u8 s m pressed : u8_ok s → u8_ok (set_modifier_state s m pressed).
Proof.
  intros Hs. unfold set_modifier_state. destruct pressed; [apply lor_u8|apply land_u8]; try done; by destruct m; vm_compute.
Qed.

Lemma replay_modifiers self previous ks n : u8_ok (bkr_modifiers previous) → (n ≤ 8)%nat → ∃ m,
  fold_left replay_event (omap (modifier_change self previous) (seq 0 n)) (bkr_modifiers previous, ks) = (m, ks) ∧ u8_ok m ∧
  ∀ k, 0 ≤ k < 8 → Z.testbit m k = Z.testbit (if decide (k < Z.of_nat n) then bkr_modifiers self else bkr_modifiers previous) k.
Proof.
  intros H8. induction n as [|n IH]; intros Hn.
  { eexists. split; [done|]. split; [done|]. intros k Hk. by rewrite decide_False by lia. }
  destruct IH as (m & Hf & Hu & Hm); [lia|]. rewrite seq_S, omap_app, fold_left_app, Hf. cbn [Nat.add].
  rewrite omap_cons_eq. unfold modifier_change. rewrite !bit_of by lia.
  assert (∀ k, 0 ≤ k < 8 → k ≠ Z.of_nat n → (if decide (k < Z.of_nat (S n)) then bkr_modifiers self else bkr_modifiers previous) =
    (if decide (k < Z.of_nat n) then bkr_modifiers self else bkr_modifiers previous)) as Hsame
    by (intros k Hk Hne; destruct (decide (k < Z.of_nat n)); [by rewrite decide_True by lia|by rewrite decide_False by lia]).
  destruct (Z.testbit (bkr_modifiers previous) (Z.of_nat n)) eqn:Hp, (Z.testbit (bkr_modifiers self) (Z.of_nat n)) eqn:Hs;
    cbn [Bool.eqb fold_left replay_event fst snd]; eexists; (split; [reflexivity|]); (split; [by try apply set_modifier_u8|]); intros k Hk;
    rewrite ?set_modifier_bit by lia; destruct (decide (k = Z.of_nat n)) as [->|Hne];
    rewrite ?Hsame, ?Hm by done; try done; try (rewrite decide_True by lia; by rewrite Hs).
  all: rewrite decide_False, decide_True by lia; congruence.
Qed.

Lemma replay_releases self l m ks : ∃ ks',
  fold_left replay_event (omap (key_released self) l) (m, ks) = (m, ks') ∧
  ∀ u, u ∈ ks' ↔ u ∈ ks ∧ ¬ (u ∈ l ∧ 4 ≤ u ∧ u ∉ bkr_keys self).
Proof.
  revert ks. induction l as [|x l IH]; intros ks.
  { eexists. split; [done|]. intros u. split; [intros H; split; [done|by intros [H'%elem_of_nil _]]|by intros [H _]]. }
  rewrite omap_cons_eq. unfold key_released at 1. unfold is_real_key, contains_key.
  destruct ((4 <=? x) && _) eqn:Hx; cbn [fold_left replay_event fst snd].
  - apply andb_true_iff in Hx as [H4%Z.leb_le Hc]. apply negb_true_iff, bool_decide_eq_false in Hc.
    destruct (IH (filter (λ k, k ≠ x) ks)) as (ks' & Hf & Hin). exists ks'. split; [done|]. intros u.
    rewrite Hin, list_elem_of_filter, elem_of_cons. split.
    + intros [[Hne Hu] Hno]. split; [done|]. intros ([->|Hl] & H4' & Hs); [done|by apply Hno].
    + intros [Hu Hno]. split; [split; [intros ->; by apply Hno; auto|done]|]. intros (Hl & H4' & Hs). apply Hno; auto.
  - destruct (IH ks) as (ks' & Hf & Hin). exists ks'. split; [done|]. intros u. rewrite Hin, elem_of_cons.
    apply andb_false_iff in Hx. rewrite negb_false_iff, bool_decide_eq_true, Z.leb_gt in Hx.
    split; intros [Hu Hno]; (split; [done|]); [intros ([->|Hl] & H4' & Hs); [destruct Hx; [lia|done]|by apply Hno]|].
    intros (Hl & H4' & Hs). apply Hno; auto.
Qed.

Lemma replay_presses previous l m ks : ∃ ks',
  fold_left replay_event (omap (key_pressed previous) l) (m, ks) = (m, ks') ∧
  ∀ u, u ∈ ks' ↔ u ∈ ks ∨ u ∈ l ∧ 4 ≤ u ∧ u ∉ bkr_keys previous.
Proof.
  revert ks. induction l as [|x l IH]; intros ks.
  { eexists. split; [done|]. intros u. split; [by left|]. by intros [H|[H%elem_of_nil _]]. }
  rewrite omap_cons_eq. unfold key_pressed at 1. unfold is_real_key, contains_key.
  destruct ((4 <=? x) && _) eqn:Hx; cbn [fold_left replay_event fst snd].
  - apply andb_true_iff in Hx as [H4%Z.leb_le Hc]. apply negb_true_iff, bool_decide_eq_false in Hc.
    destruct (IH (x :: ks)) as (ks' & Hf & Hin). exists ks'. split; [done|]. intros u. rewrite Hin, !elem_of_cons. split.
    + intros [[->|Hu]|(Hl & H)]; auto.
    + intros [Hu|([->|Hl] & H)]; auto.
  - destruct (IH ks) as (ks' & Hf & Hin). exists ks'. split; [done|]. intros u. rewrite Hin, elem_of_cons.
    apply andb_false_iff in Hx. rewrite negb_false_iff, bool_decide_eq_true, Z.leb_gt in Hx.
    split; [intros [Hu|(Hl & H)]; auto|]. intros [Hu|([->|Hl] & H4' & Hs)]; [by left|destruct Hx; [lia|done]|auto].
Qed.

(** The changes between two boot keyboard reports, replayed on the keyboard of the first, give the
    keyboard of the second; they are reported exactly when there are at most fourteen, fewer than the
    twenty two reports can differ by. *)
Theorem boot_diff_replays self previous : u8_ok (bkr_modifiers self) → u8_ok (bkr_modifiers previous) →
  (∃ keys, fold_left replay_event (boot_changes self previous) (bkr_modifiers previous, real_keys previous) =
     (bkr_modifiers self, keys) ∧ ∀ u, u ∈ keys ↔ u ∈ real_keys self) ∧
  (diff_into self previous = (boot_changes self previous, Ok tt) ∨
   (14 < length (boot_changes self previous))%nat ∧ (diff_into self previous).2 = Err BootTooManyEvents).
Proof.
  intros Hs Hp. split.
  - unfold boot_changes. rewrite !fold_left_app.
    destruct (replay_modifiers self previous (real_keys previous) 8 Hp ltac:(lia)) as (m & -> & Hu8 & Hm).
    assert (m = bkr_modifiers self) as ->
      by (apply u8_bits_eq; [done..|]; intros k Hk; rewrite Hm by done; by rewrite decide_True by lia).
    destruct (replay_releases self (bkr_keys previous) (bkr_modifiers self) (real_keys previous)) as (ks1 & -> & H1).
    destruct (replay_presses previous (bkr_keys self) (bkr_modifiers self) ks1) as (ks2 & -> & H2).
    exists ks2. split; [done|]. intros u. rewrite H2, H1. unfold real_keys. rewrite !list_elem_of_filter. split.
    + intros [[[H4 Hu] Hno]|(Hu & H4 & _)]; [|done]. split; [done|]. destruct (decide (u ∈ bkr_keys self)); [done|].
      exfalso. apply Hno. done.
    + intros [H4 Hu]. destruct (decide (u ∈ bkr_keys previous)); [left|right; done]. split; [done|]. by intros (_ & _ & H).
  - rewrite diff_into_spec. destruct (decide (length (boot_changes self previous) ≤ 14)%nat); [by left|right]. split; [lia|done].
Qed.

(** Eight modifiers, six keys up and six down. *)
Lemma boot_diff_overflows :
  (diff_into (mkBootKeyboardReport 0xff [10; 11; 12; 13; 14; 15]) (mkBootKeyboardReport 0 [4; 5; 6; 7; 8; 9])).2
    = Err BootTooManyEvents.
Proof. by vm_compute. Qed.

(** ** Bus power *)

(** One reading: the time, whether a device is present, whether a computer is connected. *)
Record PowerReading := mkPowerReading { pwr_now : Z; pwr_present : bool; pwr_connected : bool }.

Definition reading_idle (r : PowerReading) : bool := pwr_present r && negb (pwr_connected r).

(** Since when the readings have been idle. *)
Definition idle_since (since : option Z) (r : PowerReading) : option Z :=
  if reading_idle r then Some (default (pwr_now r) since) else None.

Definition power_step (st : UsbHostPowerPolicy * option Z) (r : PowerReading) : UsbHostPowerPolicy * option Z :=
  ((power_update st.1 (pwr_now r) (pwr_present r) (pwr_connected r)).1, idle_since st.2 r).

(** Readings in the order of time, far from the end of the clock. *)
Fixpoint readings_from (t : Z) (rs : list PowerReading) : Prop :=
  match rs with
  | [] => True
  | r :: rs => t ≤ pwr_now r ∧ pwr_now r + USB_HOST_SUSPEND_DELAY_MS ≤ U64_MAX ∧ readings_from (pwr_now r) rs
  end.

Definition power_inv (now : Z) (st : UsbHostPowerPolicy * option Z) : Prop :=
  match st.2 with
  | None => st.1 = mkPowerPolicy BusRunning None
  | Some t => t ≤ now ∧
      st.1 = if decide (t + USB_HOST_SUSPEND_DELAY_MS ≤ now) then mkPowerPolicy BusSuspended None
             else mkPowerPolicy BusRunning (Some (t + USB_HOST_SUSPEND_DELAY_MS))
  end.

Lemma power_step_inv now st r : power_inv now st → now ≤ pwr_now r → pwr_now r + USB_HOST_SUSPEND_DELAY_MS ≤ U64_MAX →
  power_inv (pwr_now r) (power_step st r).
Proof.
  destruct st as [p [t|]]; unfold power_inv, power_step, idle_since, reading_idle, power_update; cbn [fst snd].
  - intros [Ht ->] Hn Hmax. destruct (pwr_present r), (pwr_connected r); cbn [negb orb andb].
    1, 3, 4: by destruct (decide (t + USB_HOST_SUSPEND_DELAY_MS ≤ now)); cbn.
    cbn [default]. unfold id. destruct (decide (t + USB_HOST_SUSPEND_DELAY_MS ≤ now)) as [Hs|Hs]; cbn [upp_state upp_suspend_deadline_ms default].
    + rewrite decide_True by done. split; [lia|]. by rewrite decide_True by lia.
    + rewrite decide_False by done. unfold id. destruct (pwr_now r <? t + USB_HOST_SUSPEND_DELAY_MS) eqn:Hlt.
      * apply Z.ltb_lt in Hlt. split; [lia|]. by rewrite decide_False by lia.
      * apply Z.ltb_ge in Hlt. split; [lia|]. by rewrite decide_True by lia.
  - intros -> Hn Hmax. destruct (pwr_present r), (pwr_connected r); cbn [negb orb andb default]; try done.
    cbn. split; [done|]. unfold u64_saturating_add. rewrite Z.min_r by lia.
    unfold USB_HOST_SUSPEND_DELAY_MS in *. rewrite (decide_False (P := BusRunning = BusSuspended)) by done.
    rewrite decide_False by lia. by rewrite (proj2 (Z.ltb_lt _ _)) by lia.
Qed.

(** The bus sleeps exactly when a device has been there without a computer for three seconds, and never
    otherwise. *)
Theorem bus_sleeps_when_idle t rs : readings_from t rs →
  let st := fold_left power_step rs (UsbHostPowerPolicy_new, None) in
  upp_state st.1 = BusSuspended ↔
    ∃ since r, st.2 = Some since ∧ list.last rs = Some r ∧ since + USB_HOST_SUSPEND_DELAY_MS ≤ pwr_now r.
Proof.
  assert (∀ rs t st, power_inv t st → readings_from t rs →
    power_inv (match list.last rs with Some r => pwr_now r | None => t end) (fold_left power_step rs st)) as H.
  { clear. induction rs as [|r rs IH]; intros t st Hi Hr; [done|]. destruct Hr as (H1 & H2 & Hr). cbn [fold_left].
    specialize (IH (pwr_now r) (power_step st r) (power_step_inv _ _ _ Hi H1 H2) Hr). rewrite last_cons_some.
    by destruct (list.last rs). }
  intros Hr st. specialize (H rs t (UsbHostPowerPolicy_new, None) eq_refl Hr). fold st in H. unfold power_inv in H.
  destruct (st.2) as [since|] eqn:Hst.
  - destruct H as [Hle ->]. destruct (list.last rs) as [r|] eqn:Hl.
    + case_decide as Hc; cbn; split; [intros _; by exists since, r|done|done|]. by intros (s' & r' & [= <-] & [= <-] & H).
    + apply last_None in Hl. subst rs. by cbn in Hst.
  - rewrite H. split; [done|]. by intros (s' & r' & H1 & _).
Qed.
