(* ===== verification/Movement.v ===== *)
(** * Mouse movement under back-pressure ([input/movement_queue.rs], [mouse_accumulator.rs])

    Two coalescers between a fast mouse and a slow output: per USB interface, and per BLE
    host.  Movement that cannot be sent yet is summed in 32 bits and handed out in report
    sized pieces; button changes are never merged into older movement. *)

From S2P Require Import Prelude Input Reports.

(** ** Axes

    The four [i32] sums [x], [y], [wheel] and [pan] of a pending slot are kept as one
    [MouseMovement]; [saturated] is the statistics counter both files thread through. *)

(** [add_axis] (and [saturating_add] of the BLE side). *)
Definition add_axis (current delta saturated : Z) : Z * Z :=
  if decide (i32_ok (current + delta)) then (current + delta, saturated)
  else (clamp I32_MIN I32_MAX (current + delta), u32_saturating_add saturated 1).

(** [take_axis_i16] and [take_axis_i8]: the part handed out and what is left. *)
Definition take_axis_i16 (value : Z) : Z * Z :=
  let output := clamp I16_MIN I16_MAX value in (output, value - output).
Definition take_axis_i8 (value : Z) : Z * Z :=
  let output := clamp I8_MIN I8_MAX value in (output, value - output).

Definition add_movement (sum m : MouseMovement) (saturated : Z) : MouseMovement * Z :=
  let '(x, saturated) := add_axis (move_x sum) (move_x m) saturated in
  let '(y, saturated) := add_axis (move_y sum) (move_y m) saturated in
  let '(wheel, saturated) := add_axis (move_wheel sum) (move_wheel m) saturated in
  let '(pan, saturated) := add_axis (move_pan sum) (move_pan m) saturated in
  (mkMouseMovement x y wheel pan, saturated).

Definition take_movement (sum : MouseMovement) : MouseMovement * MouseMovement :=
  let '(x, x') := take_axis_i16 (move_x sum) in
  let '(y, y') := take_axis_i16 (move_y sum) in
  let '(wheel, wheel') := take_axis_i8 (move_wheel sum) in
  let '(pan, pan') := take_axis_i8 (move_pan sum) in
  (mkMouseMovement x y wheel pan, mkMouseMovement x' y' wheel' pan').

Definition movement_left (sum : MouseMovement) : bool :=
  bool_decide (move_x sum ≠ 0) || bool_decide (move_y sum ≠ 0) ||
  bool_decide (move_wheel sum ≠ 0) || bool_decide (move_pan sum ≠ 0).

Record CoalescerStats := mkStats { reports_coalesced : Z; movement_saturated : Z }.
#[export] Instance eta_CoalescerStats : Eta CoalescerStats :=
  λ r, mkStats (reports_coalesced r) (movement_saturated r).

(** ** [UsbMovementCoalescer] *)

Record PendingMovement := mkPendingMovement {
  pv_device_id : Z;
  pv_interface_id : Z;
  pv_buttons : Z;
  pv_sum : MouseMovement;
  pv_pending : bool
}.

Definition PendingMovement_empty : PendingMovement :=
  mkPendingMovement 0 0 0 MouseMovement_neutral false.

Inductive CoalescerError := NotMovementOnly | InterfaceCapacity.

Record UsbMovementCoalescer := mkCoalescer {
  um_pending : list PendingMovement;
  um_stats : CoalescerStats
}.

Definition UsbMovementCoalescer_new (n : nat) : UsbMovementCoalescer :=
  mkCoalescer (replicate n PendingMovement_empty) (mkStats 0 0).

(** The slot of an interface: the pending one, or else the first free one. *)
Definition coalescer_slot (self : UsbMovementCoalescer) (interface : Z) : option nat :=
  match position (λ p, pv_pending p && bool_decide (pv_interface_id p = interface))
          (um_pending self) with
  | Some i => Some i
  | None => position (λ p, negb (pv_pending p)) (um_pending self)
  end.

Definition coalescer_push (self : UsbMovementCoalescer) (frame : StandardInputFrame)
  : Result CoalescerError UsbMovementCoalescer :=
  match sif_mouse frame with
  | None => Err NotMovementOnly
  | Some mouse =>
      if is_some (sif_keyboard frame) || is_some (sif_consumer frame)
         || bool_decide (mouse_movement mouse = MouseMovement_neutral)
      then Err NotMovementOnly
      else match coalescer_slot self (sif_interface_id frame) with
      | None => Err InterfaceCapacity
      | Some index =>
          match um_pending self !! index with
          | None => Err InterfaceCapacity
          | Some p =>
              let finish p stats :=
                let '(sum, sat) :=
                  add_movement (pv_sum p) (mouse_movement mouse) (movement_saturated stats) in
                Ok (mkCoalescer
                      (<[index := mkPendingMovement (pv_device_id p) (pv_interface_id p)
                                    (pv_buttons p) sum true]> (um_pending self))
                      (stats <| movement_saturated := sat |>)) in
              if pv_pending p then
                if bool_decide (pv_device_id p ≠ sif_device_id frame)
                   || bool_decide (pv_buttons p ≠ mouse_buttons mouse)
                then Err NotMovementOnly
                else finish p (um_stats self
                       <| reports_coalesced ::= λ n, u32_saturating_add n 1 |>)
              else finish (mkPendingMovement (sif_device_id frame) (sif_interface_id frame)
                             (mouse_buttons mouse) (pv_sum p) true) (um_stats self)
          end
      end
  end.

Definition coalescer_take_next (self : UsbMovementCoalescer)
  : option (StandardInputFrame * UsbMovementCoalescer) :=
  let+ index := position pv_pending (um_pending self) in
  let+ p := um_pending self !! index in
  let '(movement, rest) := take_movement (pv_sum p) in
  Some (mkStandardInputFrame (pv_device_id p) (pv_interface_id p) None
          (Some (mkMouseFrame (pv_buttons p) movement)) None,
        mkCoalescer
          (<[index := mkPendingMovement (pv_device_id p) (pv_interface_id p) (pv_buttons p)
                        rest (movement_left rest)]> (um_pending self))
          (um_stats self)).

(** ** [MouseReportAccumulator] *)

Record PendingMouseState := mkPendingMouse {
  ps_buttons : Z;
  ps_sum : MouseMovement;
  ps_pending : bool
}.

Definition PendingMouseState_default : PendingMouseState :=
  mkPendingMouse 0 MouseMovement_neutral false.

Record MouseReportAccumulator := mkAccumulator {
  ma_hosts : list PendingMouseState;
  ma_stats : CoalescerStats
}.

Definition MouseReportAccumulator_new (hosts : nat) : MouseReportAccumulator :=
  mkAccumulator (replicate hosts PendingMouseState_default) (mkStats 0 0).

(** [host_id.0.checked_sub(1)? as usize], below [HOSTS]. *)
Definition host_index (hosts : nat) (host : Z) : option nat :=
  if decide (host < 1) then None
  else let index := Z.to_nat (host - 1) in
       if decide (index < hosts)%nat then Some index else None.

Definition accumulator_state (self : MouseReportAccumulator) (host : Z)
  : option (nat * PendingMouseState) :=
  let+ index := host_index (length (ma_hosts self)) host in
  let+ state := ma_hosts self !! index in Some (index, state).

Definition accumulator_push (self : MouseReportAccumulator) (host : Z) (report : MouseReport)
  : bool * MouseReportAccumulator :=
  match accumulator_state self host with
  | None => (false, self)
  | Some (index, state) =>
      let movement := mouse_report_movement report in
      if bool_decide (mouse_report_buttons report ≠ ps_buttons state) && ps_pending state
      then (false, self)
      else
        let stats := if ps_pending state
          then ma_stats self <| reports_coalesced ::= λ n, u32_saturating_add n 1 |>
          else ma_stats self in
        let '(sum, sat) := add_movement (ps_sum state) movement (movement_saturated stats) in
        (true, mkAccumulator
                 (<[index := mkPendingMouse (mouse_report_buttons report) sum true]>
                    (ma_hosts self))
                 (stats <| movement_saturated := sat |>))
  end.

Definition accumulator_set_buttons (self : MouseReportAccumulator) (host buttons : Z)
  : bool * MouseReportAccumulator :=
  match accumulator_state self host with
  | None => (false, self)
  | Some (index, state) =>
      (true, mkAccumulator
               (<[index := mkPendingMouse buttons (ps_sum state) (ps_pending state)]>
                  (ma_hosts self)) (ma_stats self))
  end.

Definition accumulator_buttons (self : MouseReportAccumulator) (host : Z) : option Z :=
  (λ st, ps_buttons (snd st)) <$> accumulator_state self host.

Definition accumulator_take_next (self : MouseReportAccumulator) (host : Z)
  : option (MouseReport * MouseReportAccumulator) :=
  let+ st := accumulator_state self host in
  let '(index, state) := st in
  if ps_pending state then
    let '(movement, rest) := take_movement (ps_sum state) in
    Some (MouseReport_from_frame (MouseButtons_from_bits_truncate (ps_buttons state)) movement,
          mkAccumulator
            (<[index := mkPendingMouse (ps_buttons state) rest (movement_left rest)]>
               (ma_hosts self)) (ma_stats self))
  else None.

Definition accumulator_discard (self : MouseReportAccumulator) (host : Z)
  : MouseReportAccumulator :=
  match host_index (length (ma_hosts self)) host with
  | Some index =>
      mkAccumulator (<[index := PendingMouseState_default]> (ma_hosts self)) (ma_stats self)
  | None => self
  end.

Definition accumulator_discard_all (self : MouseReportAccumulator) : MouseReportAccumulator :=
  mkAccumulator (map (λ _, PendingMouseState_default) (ma_hosts self)) (ma_stats self).

Definition accumulator_is_pending (self : MouseReportAccumulator) (host : Z) : bool :=
  match accumulator_state self host with Some (_, st) => ps_pending st | None => false end.

(** ** Sums *)

Inductive Axis := AxisX | AxisY | AxisWheel | AxisPan.

Definition along (a : Axis) (m : MouseMovement) : Z :=
  match a with
  | AxisX => move_x m | AxisY => move_y m | AxisWheel => move_wheel m | AxisPan => move_pan m
  end.

Definition zsum (l : list Z) : Z := foldr Z.add 0 l.

Lemma zsum_app l l' : zsum (l ++ l') = zsum l + zsum l'.
Proof. induction l; simpl; lia. Qed.

Lemma zsum_snoc {A} (c : A → Z) l x : zsum (map c (l ++ [x])) = zsum (map c l) + c x.
Proof. rewrite map_app, zsum_app. simpl. lia. Qed.

Lemma zsum_insert {A} (c : A → Z) l i x y : l !! i = Some x →
  zsum (map c (<[i := y]> l)) + c x = zsum (map c l) + c y.
Proof.
  intros H. rewrite insert_take_drop by (by eapply lookup_lt_Some).
  rewrite <- (take_drop_middle l i x H) at 3.
  rewrite !map_app, !zsum_app. simpl. lia.
Qed.

Lemma zsum_cons x l : zsum (x :: l) = x + zsum l.
Proof. reflexivity. Qed.

Lemma zsum_zero {A} (c : A → Z) l : Forall (λ x, c x = 0) l → zsum (map c l) = 0.
Proof. induction 1 as [|x l Hx _ IH]; [done|]. cbn [map]. rewrite zsum_cons. lia. Qed.

#[global] Arguments zsum : simpl never.

Lemma add_axis_exact c d s r s' : add_axis c d s = (r, s') → 0 ≤ s ≤ U32_MAX →
  s ≤ s' ≤ U32_MAX ∧ (s' = 0 → r = c + d).
Proof.
  unfold add_axis, u32_saturating_add. case_decide; intros [= <- <-] Hs; words.
Qed.

Lemma add_movement_exact q m s q' s' : add_movement q m s = (q', s') → 0 ≤ s ≤ U32_MAX →
  s ≤ s' ≤ U32_MAX ∧ (s' = 0 → ∀ a, along a q' = along a q + along a m).
Proof.
  unfold add_movement. intros H Hs.
  destruct (add_axis (move_x _) _ _) as [x s1] eqn:E1.
  destruct (add_axis (move_y _) _ _) as [y s2] eqn:E2.
  destruct (add_axis (move_wheel _) _ _) as [w s3] eqn:E3.
  destruct (add_axis (move_pan _) _ _) as [p s4] eqn:E4. injection H as <- <-.
  apply add_axis_exact in E1 as [B1 X1]; [|lia]. apply add_axis_exact in E2 as [B2 X2]; [|lia].
  apply add_axis_exact in E3 as [B3 X3]; [|lia]. apply add_axis_exact in E4 as [B4 X4]; [|lia].
  split; [lia|]. intros Hz [| | |]; cbn; [apply X1|apply X2|apply X3|apply X4]; lia.
Qed.

Lemma take_movement_sum q part rest a : take_movement q = (part, rest) →
  along a q = along a part + along a rest.
Proof.
  unfold take_movement, take_axis_i16, take_axis_i8. intros [= <- <-].
  destruct a; cbn; lia.
Qed.

Lemma take_movement_ok q part rest : take_movement q = (part, rest) → movement_ok part.
Proof.
  unfold take_movement, take_axis_i16, take_axis_i8. intros [= <- <-].
  split; cbn; words.
Qed.

(** How much is left to hand out. *)
Definition mass (m : MouseMovement) : Z :=
  Z.abs (move_x m) + Z.abs (move_y m) + Z.abs (move_wheel m) + Z.abs (move_pan m).

Lemma take_axis_shrinks lo hi v : lo < 0 < hi →
  Z.abs (v - clamp lo hi v) ≤ Z.abs v ∧
  (v - clamp lo hi v ≠ 0 → Z.abs (v - clamp lo hi v) < Z.abs v).
Proof. unfold clamp. lia. Qed.

Lemma movement_left_false m : movement_left m = false → m = MouseMovement_neutral.
Proof.
  destruct m as [x y w p]. unfold movement_left. cbn.
  rewrite !orb_false_iff, !bool_decide_eq_false. intros (((H1 & H2) & H3) & H4).
  apply dec_stable in H1, H2, H3, H4. by subst.
Qed.

Lemma take_movement_mass q part rest : take_movement q = (part, rest) →
  0 ≤ mass rest ≤ mass q ∧ (movement_left rest = true → mass rest < mass q) ∧
  (movement_left rest = false → rest = MouseMovement_neutral).
Proof.
  unfold take_movement, take_axis_i16, take_axis_i8. intros [= <- <-].
  pose proof (take_axis_shrinks I16_MIN I16_MAX (move_x q) ltac:(words)) as [X1 X2].
  pose proof (take_axis_shrinks I16_MIN I16_MAX (move_y q) ltac:(words)) as [Y1 Y2].
  pose proof (take_axis_shrinks I8_MIN I8_MAX (move_wheel q) ltac:(words)) as [W1 W2].
  pose proof (take_axis_shrinks I8_MIN I8_MAX (move_pan q) ltac:(words)) as [P1 P2].
  unfold mass. cbn [move_x move_y move_wheel move_pan].
  split; [|split; [|apply movement_left_false]].
  - clear X2 Y2 W2 P2. lia.
  - unfold movement_left. cbn [move_x move_y move_wheel move_pan].
    rewrite !orb_true_iff, !bool_decide_eq_true. revert X1 X2 Y1 Y2 W1 W2 P1 P2.
    generalize (move_x q - clamp I16_MIN I16_MAX (move_x q)),
      (move_y q - clamp I16_MIN I16_MAX (move_y q)),
      (move_wheel q - clamp I8_MIN I8_MAX (move_wheel q)),
      (move_pan q - clamp I8_MIN I8_MAX (move_pan q)).
    intros x y w p X1 X2 Y1 Y2 W1 W2 P1 P2 [[[H|H]|H]|H];
      [specialize (X2 H)|specialize (Y2 H)|specialize (W2 H)|specialize (P2 H)];
      lia.
Qed.

(** ** Conservation of motion: the USB coalescer *)

(** What a frame moves along an axis, counted under its device, interface and buttons. *)
Definition frame_moves (device interface buttons : Z) (a : Axis) (f : StandardInputFrame) : Z :=
  match sif_mouse f with
  | Some m =>
      if decide (sif_device_id f = device ∧ sif_interface_id f = interface ∧
                 mouse_buttons m = buttons)
      then along a (mouse_movement m) else 0
  | None => 0
  end.

Definition pending_moves (device interface buttons : Z) (a : Axis) (p : PendingMovement) : Z :=
  if decide (pv_device_id p = device ∧ pv_interface_id p = interface ∧ pv_buttons p = buttons)
  then along a (pv_sum p) else 0.

(** A free slot holds no movement. *)
Definition slot_clear (p : PendingMovement) : Prop :=
  pv_pending p = false → pv_sum p = MouseMovement_neutral.

Inductive CoalescerOp := OpPush (f : StandardInputFrame) | OpTake.

(** A run: the state, the frames accepted and the frames handed out. *)
Record CoalescerRun := mkCoalescerRun {
  cr_state : UsbMovementCoalescer;
  cr_pushed : list StandardInputFrame;
  cr_taken : list StandardInputFrame
}.

Definition coalescer_op (r : CoalescerRun) (op : CoalescerOp) : CoalescerRun :=
  match op with
  | OpPush f =>
      match coalescer_push (cr_state r) f with
      | Ok s => mkCoalescerRun s (cr_pushed r ++ [f]) (cr_taken r)
      | Err _ => r
      end
  | OpTake =>
      match coalescer_take_next (cr_state r) with
      | Some (f, s) => mkCoalescerRun s (cr_pushed r) (cr_taken r ++ [f])
      | None => r
      end
  end.

Definition coalescer_run (n : nat) (ops : list CoalescerOp) : CoalescerRun :=
  fold_left coalescer_op ops (mkCoalescerRun (UsbMovementCoalescer_new n) [] []).

Record coalescer_inv (r : CoalescerRun) : Prop := {
  ci_stats : 0 ≤ movement_saturated (um_stats (cr_state r)) ≤ U32_MAX;
  ci_clear : Forall slot_clear (um_pending (cr_state r));
  ci_sum : movement_saturated (um_stats (cr_state r)) = 0 → ∀ d i b a,
    zsum (map (frame_moves d i b a) (cr_pushed r)) =
    zsum (map (frame_moves d i b a) (cr_taken r)) +
    zsum (map (pending_moves d i b a) (um_pending (cr_state r)))
}.

Lemma coalescer_push_inv s f s' : coalescer_push s f = Ok s' →
  ∃ m index p stats sum sat,
    sif_mouse f = Some m ∧ um_pending s !! index = Some p ∧
    (pv_pending p = true → pv_device_id p = sif_device_id f ∧ pv_interface_id p = sif_interface_id f
       ∧ pv_buttons p = mouse_buttons m) ∧
    movement_saturated stats = movement_saturated (um_stats s) ∧
    add_movement (pv_sum p) (mouse_movement m) (movement_saturated stats) = (sum, sat) ∧
    s' = mkCoalescer (<[index := mkPendingMovement (sif_device_id f) (sif_interface_id f)
                                   (mouse_buttons m) sum true]> (um_pending s))
           (stats <| movement_saturated := sat |>).
Proof.
  unfold coalescer_push. intros H. destruct (sif_mouse f) as [m|]; [|done].
  destruct (is_some _ || _ || _); [done|]. unfold coalescer_slot in H.
  assert (∀ index p, um_pending s !! index = Some p → pv_pending p = true →
    (∃ i, position (λ p, pv_pending p && bool_decide (pv_interface_id p = sif_interface_id f))
            (um_pending s) = Some i ∧ i = index) → pv_interface_id p = sif_interface_id f) as Hif.
  { intros index p Hp Ht (i & Hi & ->). apply position_Some in Hi as (p' & Hp' & Hb).
    rewrite Hp in Hp'. injection Hp' as <-. apply andb_true_iff in Hb as [_ Hb].
    by apply bool_decide_eq_true in Hb. }
  destruct (match position _ (um_pending s) with Some i => Some i | None => _ end)
    as [index|] eqn:Hslot; [|done].
  destruct (um_pending s !! index) as [p|] eqn:Hp; [|done].
  destruct (pv_pending p) eqn:Hpend.
  - destruct (bool_decide _ || bool_decide _) eqn:Hb; [done|].
    apply orb_false_iff in Hb as [Hd Hbt]. apply bool_decide_eq_false in Hd, Hbt.
    apply dec_stable in Hd, Hbt.
    destruct (position (λ p, pv_pending p && _) _) as [i|] eqn:Hi.
    2: { apply position_Some in Hslot as (p' & Hp' & Hn). rewrite Hp in Hp'.
         injection Hp' as <-. by rewrite Hpend in Hn. }
    injection Hslot as ->. pose proof (Hif index p Hp Hpend ltac:(eauto)) as Hint.
    destruct (add_movement _ _ _) as [sum sat] eqn:Ha. injection H as <-.
    rewrite Hd, Hbt, Hint.
    do 6 eexists. split; [done|]. split; [exact Hp|]. split; [done|].
    split; [|split; [exact Ha|reflexivity]]. done.
  - destruct (add_movement _ _ _) as [sum sat] eqn:Ha. injection H as <-.
    do 6 eexists. split; [done|]. split; [exact Hp|]. split; [by rewrite Hpend|].
    split; [|split; [exact Ha|reflexivity]]. done.
Qed.

Lemma coalescer_push_preserves r f s' : coalescer_inv r →
  coalescer_push (cr_state r) f = Ok s' →
  coalescer_inv (mkCoalescerRun s' (cr_pushed r ++ [f]) (cr_taken r)).
Proof.
  intros [Hst Hcl Hsum] H.
  apply coalescer_push_inv in H as (m & index & p & stats & sum & sat & Hm & Hp & Hkey & Hs & Ha & ->).
  rewrite Hs in Ha. apply add_movement_exact in Ha as [Hmono Hexact]; [|done].
  split; unfold upd; cbn.
  - lia.
  - apply Forall_insert; [done|]. by intros [=].
  - intros -> d i b a. rewrite zsum_snoc.
    pose proof (zsum_insert (pending_moves d i b a) (um_pending (cr_state r)) index p
      (mkPendingMovement (sif_device_id f) (sif_interface_id f) (mouse_buttons m) sum true) Hp) as Hz.
    rewrite Hsum by lia. unfold frame_moves at 2. rewrite Hm.
    assert (pending_moves d i b a (mkPendingMovement (sif_device_id f) (sif_interface_id f)
      (mouse_buttons m) sum true) = pending_moves d i b a p +
      (if decide (sif_device_id f = d ∧ sif_interface_id f = i ∧ mouse_buttons m = b)
       then along a (mouse_movement m) else 0)) as Hnew;
      [|rewrite Hnew in Hz; lia].
    unfold pending_moves. cbn [pv_device_id pv_interface_id pv_buttons pv_sum].
    destruct (pv_pending p) eqn:Hpend.
    + destruct (Hkey eq_refl) as (-> & -> & ->). case_decide; [by apply Hexact|done].
    + pose proof (Forall_lookup_1 _ _ _ _ Hcl Hp Hpend) as Hzero.
      rewrite Hexact, Hzero by done. repeat case_decide; destruct a; cbn; lia.
Qed.

Lemma coalescer_take_inv s f s' : coalescer_take_next s = Some (f, s') →
  ∃ index p part rest, um_pending s !! index = Some p ∧ pv_pending p = true ∧
    take_movement (pv_sum p) = (part, rest) ∧
    f = mkStandardInputFrame (pv_device_id p) (pv_interface_id p) None
          (Some (mkMouseFrame (pv_buttons p) part)) None ∧
    s' = mkCoalescer (<[index := mkPendingMovement (pv_device_id p) (pv_interface_id p)
                          (pv_buttons p) rest (movement_left rest)]> (um_pending s)) (um_stats s).
Proof.
  unfold coalescer_take_next. intros H. destruct (position _ _) as [index|] eqn:Hi; [|done].
  apply position_Some in Hi as (p & Hp & Ht). rewrite Hp in H.
  destruct (take_movement _) as [part rest] eqn:Htk. injection H as <- <-.
  exists index, p, part, rest. done.
Qed.

Lemma coalescer_take_preserves r f s' : coalescer_inv r →
  coalescer_take_next (cr_state r) = Some (f, s') →
  coalescer_inv (mkCoalescerRun s' (cr_pushed r) (cr_taken r ++ [f])).
Proof.
  intros [Hst Hcl Hsum] H.
  apply coalescer_take_inv in H as (index & p & part & rest & Hp & _ & Htk & -> & ->).
  split; cbn; [done| |].
  - apply Forall_insert; [done|]. intros Hl. cbn in Hl |- *.
    by apply (take_movement_mass _ _ _ Htk).
  - intros Hz0 d i b a. rewrite zsum_snoc, Hsum by done.
    pose proof (zsum_insert (pending_moves d i b a) (um_pending (cr_state r)) index p
      (mkPendingMovement (pv_device_id p) (pv_interface_id p) (pv_buttons p) rest
         (movement_left rest)) Hp) as Hz.
    pose proof (take_movement_sum _ _ _ a Htk) as Hs.
    unfold frame_moves at 3. cbn [sif_mouse sif_device_id sif_interface_id mouse_buttons
      mouse_movement].
    assert (pending_moves d i b a p =
      (if decide (pv_device_id p = d ∧ pv_interface_id p = i ∧ pv_buttons p = b)
       then along a part else 0) +
      pending_moves d i b a (mkPendingMovement (pv_device_id p) (pv_interface_id p)
        (pv_buttons p) rest (movement_left rest))) as Hsplit;
      [|lia].
    unfold pending_moves. cbn [pv_device_id pv_interface_id pv_buttons pv_sum].
    case_decide; lia.
Qed.

Lemma coalescer_op_inv r op : coalescer_inv r → coalescer_inv (coalescer_op r op).
Proof.
  intros H. destruct op as [f|]; simpl.
  - destruct (coalescer_push _ f) eqn:E; [by apply coalescer_push_preserves|done].
  - destruct (coalescer_take_next _) as [[f s]|] eqn:E; [by apply coalescer_take_preserves|done].
Qed.

Lemma coalescer_run_inv n ops : coalescer_inv (coalescer_run n ops).
Proof.
  unfold coalescer_run.
  assert (coalescer_inv (mkCoalescerRun (UsbMovementCoalescer_new n) [] [])) as H0.
  { split; cbn; [words|by apply Forall_replicate|].
    intros _ d i b a. rewrite zsum_zero; [done|]. apply Forall_replicate.
    unfold pending_moves. case_decide; by destruct a. }
  revert H0. generalize (mkCoalescerRun (UsbMovementCoalescer_new n) [] []).
  induction ops as [|op ops IH]; intros r Hr; [done|]. simpl. apply IH. by apply coalescer_op_inv.
Qed.

(** *** Draining *)

(** What is pending, plus one per pending slot. *)
Definition pending_mass (ps : list PendingMovement) : Z :=
  zsum (map (λ p, if pv_pending p then mass (pv_sum p) + 1 else 0) ps).

Lemma mass_nonneg m : 0 ≤ mass m.
Proof. unfold mass. lia. Qed.

Lemma pending_mass_nonneg ps : 0 ≤ pending_mass ps.
Proof.
  unfold pending_mass. induction ps as [|p ps IH]; [done|]. cbn [map]. rewrite zsum_cons.
  pose proof (mass_nonneg (pv_sum p)). destruct (pv_pending p); lia.
Qed.

Lemma coalescer_take_mass s f s' : coalescer_take_next s = Some (f, s') →
  pending_mass (um_pending s') < pending_mass (um_pending s).
Proof.
  intros H. apply coalescer_take_inv in H as (index & p & part & rest & Hp & Ht & Htk & -> & ->).
  cbn [um_pending]. unfold pending_mass.
  pose proof (zsum_insert (λ p, if pv_pending p then mass (pv_sum p) + 1 else 0) (um_pending s)
    index p (mkPendingMovement (pv_device_id p) (pv_interface_id p) (pv_buttons p) rest
      (movement_left rest)) Hp) as Hz.
  cbn [pv_pending pv_sum] in Hz. rewrite Ht in Hz.
  pose proof (mass_nonneg (pv_sum p)).
  destruct (take_movement_mass _ _ _ Htk) as (H1 & H2 & _).
  destruct (movement_left rest); [specialize (H2 eq_refl)|]; lia.
Qed.

Lemma coalescer_drains r : ∃ k, 
  let r' := fold_left coalescer_op (replicate k OpTake) r in
  position pv_pending (um_pending (cr_state r')) = None ∧ cr_pushed r' = cr_pushed r ∧
  um_stats (cr_state r') = um_stats (cr_state r).
Proof.
  remember (Z.to_nat (pending_mass (um_pending (cr_state r)))) as n eqn:Hn.
  revert r Hn. induction n as [n IH] using lt_wf_ind. intros r Hn.
  destruct (coalescer_take_next (cr_state r)) as [[f s]|] eqn:E.
  - pose proof (coalescer_take_mass _ _ _ E) as Hlt.
    pose proof (pending_mass_nonneg (um_pending s)) as Hnn.
    destruct (IH (Z.to_nat (pending_mass (um_pending s))) ltac:(lia)
      (mkCoalescerRun s (cr_pushed r) (cr_taken r ++ [f])) eq_refl) as (k & H1 & H2 & H3).
    exists (S k). cbn [replicate fold_left coalescer_op]. rewrite E. split; [done|].
    split; [done|]. rewrite H3. cbn [cr_state].
    apply coalescer_take_inv in E as (? & ? & ? & ? & _ & _ & _ & _ & ->). done.
  - exists 0%nat. cbn. split; [|done]. unfold coalescer_take_next in E.
    destruct (position _ _) as [i|] eqn:Hi; [|done].
    apply position_Some in Hi as (p & Hp & _). rewrite Hp in E.
    destruct (take_movement _). done.
Qed.

(** ** Conservation of motion: the BLE accumulator *)

Inductive AccumulatorOp := AccPush (host : Z) (report : MouseReport) | AccTake (host : Z).

(** A run logs the reports accepted and handed out with the slot they went through. *)
Record AccumulatorRun := mkAccumulatorRun {
  ar_state : MouseReportAccumulator;
  ar_pushed : list (nat * MouseReport);
  ar_taken : list (nat * MouseReport)
}.

Definition accumulator_op (r : AccumulatorRun) (op : AccumulatorOp) : AccumulatorRun :=
  match op with
  | AccPush host report =>
      match accumulator_push (ar_state r) host report, accumulator_state (ar_state r) host with
      | (true, s), Some (slot, _) =>
          mkAccumulatorRun s (ar_pushed r ++ [(slot, report)]) (ar_taken r)
      | (_, s), _ => mkAccumulatorRun s (ar_pushed r) (ar_taken r)
      end
  | AccTake host =>
      match accumulator_take_next (ar_state r) host, accumulator_state (ar_state r) host with
      | Some (report, s), Some (slot, _) =>
          mkAccumulatorRun s (ar_pushed r) (ar_taken r ++ [(slot, report)])
      | _, _ => r
      end
  end.

Definition accumulator_run (hosts : nat) (ops : list AccumulatorOp) : AccumulatorRun :=
  fold_left accumulator_op ops (mkAccumulatorRun (MouseReportAccumulator_new hosts) [] []).

(** Motion of a logged report, and of a pending slot, under a slot and a button state;
    only the five defined buttons count. *)
Definition report_moves (slot : nat) (buttons : Z) (a : Axis) (r : nat * MouseReport) : Z :=
  if decide (fst r = slot ∧
       MouseButtons_from_bits_truncate (mouse_report_buttons (snd r)) = buttons)
  then along a (mouse_report_movement (snd r)) else 0.

Definition host_moves (buttons : Z) (a : Axis) (st : PendingMouseState) : Z :=
  if decide (MouseButtons_from_bits_truncate (ps_buttons st) = buttons)
  then along a (ps_sum st) else 0.

Definition slot_moves (s : MouseReportAccumulator) (slot : nat) (buttons : Z) (a : Axis) : Z :=
  match ma_hosts s !! slot with Some st => host_moves buttons a st | None => 0 end.

Definition host_clear (st : PendingMouseState) : Prop :=
  ps_pending st = false → ps_sum st = MouseMovement_neutral.

Record accumulator_inv (r : AccumulatorRun) : Prop := {
  au_stats : 0 ≤ movement_saturated (ma_stats (ar_state r)) ≤ U32_MAX;
  au_clear : Forall host_clear (ma_hosts (ar_state r));
  au_sum : movement_saturated (ma_stats (ar_state r)) = 0 → ∀ slot b a,
    zsum (map (report_moves slot b a) (ar_pushed r)) =
    zsum (map (report_moves slot b a) (ar_taken r)) + slot_moves (ar_state r) slot b a
}.

Lemma accumulator_state_Some s host slot st : accumulator_state s host = Some (slot, st) →
  ma_hosts s !! slot = Some st.
Proof.
  unfold accumulator_state. destruct (host_index _ _) as [i|]; [|done].
  destruct (ma_hosts s !! i) as [st'|] eqn:E; [|done]. by intros [= <- <-].
Qed.

Lemma accumulator_push_inv s host report s' : accumulator_push s host report = (true, s') →
  ∃ slot st stats sum sat, accumulator_state s host = Some (slot, st) ∧
    (ps_pending st = true → ps_buttons st = mouse_report_buttons report) ∧
    movement_saturated stats = movement_saturated (ma_stats s) ∧
    add_movement (ps_sum st) (mouse_report_movement report) (movement_saturated stats) = (sum, sat) ∧
    s' = mkAccumulator (<[slot := mkPendingMouse (mouse_report_buttons report) sum true]>
           (ma_hosts s)) (stats <| movement_saturated := sat |>).
Proof.
  unfold accumulator_push. intros H. destruct (accumulator_state s host) as [[slot st]|]; [|done].
  destruct (bool_decide _ && _) eqn:Hb; [done|].
  destruct (add_movement _ _ _) as [sum sat] eqn:Ha. injection H as <-.
  do 5 eexists. split; [done|]. split.
  - intros Hp. rewrite Hp, andb_true_r in Hb. apply bool_decide_eq_false, dec_stable in Hb. done.
  - split; [|split; [exact Ha|reflexivity]]. by destruct (ps_pending st).
Qed.

Lemma host_moves_empty b a st : ps_sum st = MouseMovement_neutral → host_moves b a st = 0.
Proof. unfold host_moves. intros ->. case_decide; by destruct a. Qed.

Lemma accumulator_push_preserves r host report s' slot st : accumulator_inv r →
  accumulator_push (ar_state r) host report = (true, s') →
  accumulator_state (ar_state r) host = Some (slot, st) →
  accumulator_inv (mkAccumulatorRun s' (ar_pushed r ++ [(slot, report)]) (ar_taken r)).
Proof.
  intros [Hst Hcl Hsum] H Hs.
  apply accumulator_push_inv in H as (slot' & st' & stats & sum & sat & Hs' & Hkey & Hss & Ha & ->).
  rewrite Hs in Hs'. injection Hs' as <- <-. apply accumulator_state_Some in Hs as Hlk.
  rewrite Hss in Ha. apply add_movement_exact in Ha as [Hmono Hexact]; [|done].
  split; unfold upd; cbn [ar_state ar_pushed ar_taken ma_stats ma_hosts movement_saturated
    reports_coalesced].
  - lia.
  - apply Forall_insert; [done|]. by intros [=].
  - intros -> slot' b a. rewrite zsum_snoc, Hsum by lia.
    unfold slot_moves. cbn [ma_hosts]. unfold report_moves at 2. cbn [fst snd].
    destruct (decide (slot = slot')) as [<-|Hne].
    + rewrite list_lookup_insert_eq by (by eapply lookup_lt_Some). rewrite Hlk.
      unfold host_moves at 2. cbn [ps_buttons ps_sum].
      destruct (ps_pending st) eqn:Hp.
      * unfold host_moves. rewrite (Hkey eq_refl).
        repeat case_decide; rewrite ?Hexact by done; first [lia|tauto].
      * pose proof (Forall_lookup_1 _ _ _ _ Hcl Hlk Hp) as Hz.
        rewrite host_moves_empty by done. rewrite Hexact, Hz by done.
        repeat case_decide; destruct a; cbn; first [lia|tauto].
    + rewrite list_lookup_insert_ne by done. rewrite decide_False by tauto. lia.
Qed.

Lemma accumulator_take_preserves r host report s' slot st : accumulator_inv r →
  accumulator_take_next (ar_state r) host = Some (report, s') →
  accumulator_state (ar_state r) host = Some (slot, st) →
  accumulator_inv (mkAccumulatorRun s' (ar_pushed r) (ar_taken r ++ [(slot, report)])).
Proof.
  intros [Hst Hcl Hsum] H Hs. unfold accumulator_take_next in H. rewrite Hs in H.
  apply accumulator_state_Some in Hs as Hlk. destruct (ps_pending st); [|done].
  destruct (take_movement (ps_sum st)) as [part rest] eqn:Htk. injection H as <- <-.
  split; cbn [ar_state ar_pushed ar_taken ma_stats ma_hosts]; [done| |].
  - apply Forall_insert; [done|]. intros Hl. cbn in Hl |- *.
    by apply (take_movement_mass _ _ _ Htk).
  - intros Hz slot' b a. rewrite zsum_snoc, Hsum by done.
    unfold slot_moves. cbn [ma_hosts]. unfold report_moves at 3. cbn [fst snd].
    destruct (from_frame_roundtrip (MouseButtons_from_bits_truncate (ps_buttons st)) part
      (take_movement_ok _ _ _ Htk)) as [-> ->]. rewrite trunc_idem.
    pose proof (take_movement_sum _ _ _ a Htk) as Hsplit.
    destruct (decide (slot = slot')) as [<-|Hne].
    + rewrite list_lookup_insert_eq by (by eapply lookup_lt_Some). rewrite Hlk.
      unfold host_moves. cbn [ps_buttons ps_sum]. repeat case_decide; first [lia|tauto].
    + rewrite list_lookup_insert_ne by done. rewrite decide_False by tauto. lia.
Qed.

Lemma accumulator_push_false s host report s' :
  accumulator_push s host report = (false, s') → s' = s.
Proof.
  unfold accumulator_push. destruct (accumulator_state s host) as [[slot st]|];
    [|by intros [= <-]]. destruct (bool_decide _ && _); [by intros [= <-]|].
  by destruct (add_movement _ _ _).
Qed.

Lemma accumulator_op_inv r op : accumulator_inv r → accumulator_inv (accumulator_op r op).
Proof.
  intros H. destruct op as [host report|host]; cbn [accumulator_op].
  - destruct (accumulator_push _ _ _) as [[|] s] eqn:E.
    + destruct (accumulator_state _ _) as [[slot st]|] eqn:Es;
        [by eapply accumulator_push_preserves|].
      apply accumulator_push_inv in E as (? & ? & ? & ? & ? & Hs & _). by rewrite Es in Hs.
    + apply accumulator_push_false in E as ->. by destruct H.
  - destruct (accumulator_take_next _ _) as [[report s]|] eqn:E; [|done].
    destruct (accumulator_state _ _) as [[slot st]|] eqn:Es; [|done].
    by eapply accumulator_take_preserves.
Qed.

Lemma accumulator_run_inv hosts ops : accumulator_inv (accumulator_run hosts ops).
Proof.
  unfold accumulator_run.
  assert (accumulator_inv (mkAccumulatorRun (MouseReportAccumulator_new hosts) [] [])) as H0.
  { split; cbn; [words|by apply Forall_replicate|].
    intros _ slot b a. unfold slot_moves. cbn.
    destruct (replicate hosts _ !! slot) as [st|] eqn:E; [|done].
    apply lookup_replicate in E as [-> _]. by rewrite host_moves_empty. }
  revert H0. generalize (mkAccumulatorRun (MouseReportAccumulator_new hosts) [] []).
  induction ops as [|op ops IH]; intros r Hr; [done|]. simpl. apply IH. by apply accumulator_op_inv.
Qed.

(** ** Properties *)

(** C12: mouse motion is conserved.  After any mix of pushes and takes, as long as no
    32-bit sum saturated, the motion accepted on each axis under each device, interface
    and button state is exactly the motion handed out under them plus what is pending;
    and finitely many takes hand out all the rest, so nothing is lost, invented or
    credited to another button state. *)
Theorem coalescer_conserves_motion n ops :
  let r := coalescer_run n ops in
  movement_saturated (um_stats (cr_state r)) = 0 →
  (∀ device interface buttons a,
     zsum (map (frame_moves device interface buttons a) (cr_pushed r)) =
     zsum (map (frame_moves device interface buttons a) (cr_taken r)) +
     zsum (map (pending_moves device interface buttons a) (um_pending (cr_state r)))) ∧
  ∃ k, let r' := coalescer_run n (ops ++ replicate k OpTake) in
    position pv_pending (um_pending (cr_state r')) = None ∧ cr_pushed r' = cr_pushed r ∧
    ∀ device interface buttons a,
      zsum (map (frame_moves device interface buttons a) (cr_pushed r)) =
      zsum (map (frame_moves device interface buttons a) (cr_taken r')).
Proof.
  intros r Hz. pose proof (coalescer_run_inv n ops) as [_ _ Hsum]. fold r in Hsum.
  split; [by apply Hsum|].
  destruct (coalescer_drains r) as (k & Hp & Hpush & Hst). exists k.
  unfold coalescer_run. rewrite fold_left_app. fold (coalescer_run n ops). fold r.
  split; [exact Hp|]. split; [exact Hpush|]. intros d i b a.
  pose proof (coalescer_run_inv n (ops ++ replicate k OpTake)) as [_ Hcl Hsum'].
  unfold coalescer_run in Hcl, Hsum'. rewrite fold_left_app in Hcl, Hsum'.
  fold (coalescer_run n ops) in Hcl, Hsum'. fold r in Hcl, Hsum'.
  rewrite Hst in Hsum'. specialize (Hsum' Hz d i b a). rewrite Hpush in Hsum'.
  set (r' := fold_left coalescer_op _ r) in *.
  enough (zsum (map (pending_moves d i b a) (um_pending (cr_state r'))) = 0) by lia.
  cbn [cr_state] in Hcl. revert Hp Hcl. generalize (um_pending (cr_state r')) as ps.
  clear. intros ps Hp Hcl. induction ps as [|p ps IH]; [done|].
  apply List.Forall_cons_iff in Hcl as [Hc Hcl]. cbn [position] in Hp.
  destruct (pv_pending p) eqn:Hpp; [done|]. destruct (position pv_pending ps); [done|].
  cbn [map]. rewrite zsum_cons, IH by done.
  unfold pending_moves. rewrite (Hc Hpp). case_decide; by destruct a.
Qed.

Lemma coalescer_conserves_motion_witness :
  let push x := OpPush (mkStandardInputFrame 1 2 None
                  (Some (mkMouseFrame 1 (mkMouseMovement x 0 200 0))) None) in
  ∃ k, position pv_pending (um_pending (cr_state
         (coalescer_run 2 ([push 30000; push 30000] ++ replicate k OpTake)))) = None.
Proof.
  intros push.
  destruct (coalescer_conserves_motion 2 [push 30000; push 30000] ltac:(vm_compute; reflexivity))
    as (_ & k & H & _). exists k. exact H.
Defined.

(** The BLE accumulator conserves motion per host and button state, hands a report
    back only with the buttons its motion was made under, and refuses a push only for an
    unknown host or when the buttons change while older motion is pending, in which case
    nothing is modified. *)
Theorem accumulator_conserves_motion hosts ops :
  let r := accumulator_run hosts ops in
  (movement_saturated (ma_stats (ar_state r)) = 0 → ∀ slot buttons a,
     zsum (map (report_moves slot buttons a) (ar_pushed r)) =
     zsum (map (report_moves slot buttons a) (ar_taken r)) +
     slot_moves (ar_state r) slot buttons a) ∧
  (∀ host report s', accumulator_push (ar_state r) host report = (false, s') →
     s' = ar_state r ∧
     (accumulator_state (ar_state r) host = None ∨
      accumulator_is_pending (ar_state r) host = true ∧
      accumulator_buttons (ar_state r) host ≠ Some (mouse_report_buttons report))).
Proof.
  intros r. split; [apply (accumulator_run_inv hosts ops)|].
  intros host report s' H. split; [by eapply accumulator_push_false|].
  unfold accumulator_push, accumulator_is_pending, accumulator_buttons in *.
  destruct (accumulator_state _ _) as [[slot st]|]; [right|by left].
  destruct (bool_decide _ && _) eqn:Hb; [|by destruct (add_movement _ _ _)].
  apply andb_true_iff in Hb as [Hb ->]. apply bool_decide_eq_true in Hb.
  split; [done|]. simpl. intros [= Heq]. by apply Hb.
Qed.

Lemma accumulator_conserves_motion_witness :
  let report := MouseReport_from_frame 1 (mkMouseMovement 5 6 7 8) in
  10 = 0 + slot_moves (ar_state (accumulator_run 4 [AccPush 2 report; AccPush 2 report])) 1 1 AxisX.
Proof.
  intros report.
  exact (proj1 (accumulator_conserves_motion 4 [AccPush 2 report; AccPush 2 report])
    eq_refl 1%nat 1 AxisX).
Defined.
