(* ===== verification/Message.v ===== *)
(** * Inter-chip messages ([src/src/interchip/message.rs])

    The payloads of the records: one codec per message, on byte lists.  A message with a
    fixed array and a length keeps both.  [encode] into a caller's buffer gives the buffer
    back with its result. *)

From S2P Require Import Prelude Input Reports.

(** ** Constants *)

Definition RECORD_HELLO : Z := 0x01.
Definition RECORD_HELLO_ACK : Z := 0x02.
Definition RECORD_HEARTBEAT : Z := 0x03.
Definition RECORD_LINK_RESET : Z := 0x04.
Definition RECORD_PROFILE_BEGIN : Z := 0x10.
Definition RECORD_PROFILE_CHUNK : Z := 0x11.
Definition RECORD_PROFILE_COMMIT : Z := 0x12.
Definition RECORD_PROFILE_RESULT : Z := 0x13.
Definition RECORD_ACTIVATE_PROFILE : Z := 0x14.
Definition RECORD_FORCE_FALLBACK : Z := 0x15.
Definition RECORD_USB_STATE : Z := 0x20.
Definition RECORD_CONTROL_REQUEST : Z := 0x21.
Definition RECORD_CONTROL_RESPONSE : Z := 0x22.
Definition RECORD_CONTROL_CANCEL : Z := 0x23.
Definition RECORD_RAW_ENDPOINT_IN : Z := 0x24.
Definition RECORD_RAW_ENDPOINT_OUT : Z := 0x25.
Definition RECORD_STANDARD_INPUT_REPORT : Z := 0x26.
Definition RECORD_STANDARD_OUTPUT_REPORT : Z := 0x27.
Definition RECORD_STANDARD_RELEASE_ALL : Z := 0x28.
Definition RECORD_MANAGEMENT_REQUEST : Z := 0x29.
Definition RECORD_MANAGEMENT_RESPONSE : Z := 0x2a.
Definition RECORD_MANAGEMENT_EVENT : Z := 0x2b.
Definition RECORD_GET_DIAGNOSTICS : Z := 0x30.
Definition RECORD_DIAGNOSTICS : Z := 0x31.
Definition RECORD_TEST_FAULT : Z := 0x32.

Definition HELLO_WIRE_LEN : nat := 12.
Definition USB_STATE_WIRE_LEN : nat := 8.
Definition STANDARD_INPUT_HEADER_LEN : nat := 5.
Definition STANDARD_INPUT_MAX_LEN : nat := STANDARD_INPUT_HEADER_LEN + KEYBOARD_REPORT_LEN.
Definition STANDARD_OUTPUT_MAX_DATA_LEN : nat := 8.
Definition STANDARD_OUTPUT_WIRE_LEN : nat := 2 + STANDARD_OUTPUT_MAX_DATA_LEN.
Definition PROFILE_BEGIN_WIRE_LEN : nat := 16.
Definition PROFILE_CHUNK_HEADER_LEN : nat := 8.
Definition PROFILE_CHUNK_MAX_DATA_LEN : nat := 96.
Definition PROFILE_RESULT_WIRE_LEN : nat := 12.
Definition ACTIVATE_PROFILE_WIRE_LEN : nat := 8.
Definition RAW_ENDPOINT_HEADER_LEN : nat := 6.
Definition RAW_ENDPOINT_MAX_DATA_LEN : nat := 64.
Definition RAW_ENDPOINT_MAX_WIRE_LEN : nat := RAW_ENDPOINT_HEADER_LEN + RAW_ENDPOINT_MAX_DATA_LEN.
Definition CONTROL_REQUEST_HEADER_LEN : nat := 14.
Definition CONTROL_RESPONSE_HEADER_LEN : nat := 7.
Definition CONTROL_DATA_MAX_LEN : nat := 256.
Definition CONTROL_REQUEST_MAX_WIRE_LEN : nat := CONTROL_REQUEST_HEADER_LEN + CONTROL_DATA_MAX_LEN.
Definition CONTROL_RESPONSE_MAX_WIRE_LEN : nat := CONTROL_RESPONSE_HEADER_LEN + CONTROL_DATA_MAX_LEN.

Definition CAPABILITY_DYNAMIC_PROFILE : Z := Z.shiftl 1 0.
Definition CAPABILITY_FALLBACK_PROFILE : Z := Z.shiftl 1 1.
Definition CAPABILITY_CONTROL_FORWARDING : Z := Z.shiftl 1 2.
Definition CAPABILITY_ENDPOINT_IN : Z := Z.shiftl 1 3.
Definition CAPABILITY_ENDPOINT_OUT : Z := Z.shiftl 1 4.
Definition CAPABILITY_PROFILE_FLASH_CACHE : Z := Z.shiftl 1 5.
Definition CAPABILITY_STANDARD_WIRED_HID : Z := Z.shiftl 1 6.
Definition CAPABILITY_USB_STATE_REPORTING : Z := Z.shiftl 1 7.
Definition CAPABILITY_HID_MANAGEMENT : Z := Z.shiftl 1 8.

Inductive MessageError := InvalidLength | InvalidRole | InvalidFlags | InvalidStatus.
#[export] Instance MessageError_eq_dec : EqDecision MessageError.
Proof. solve_decision. Defined.

(** ** [Hello] *)

Inductive InterchipRole := RoleHost | RoleDevice.
#[export] Instance InterchipRole_eq_dec : EqDecision InterchipRole.
Proof. solve_decision. Defined.

Definition InterchipRole_code (r : InterchipRole) : Z :=
  match r with RoleHost => 1 | RoleDevice => 2 end.

Record Hello := mkHello {
  hello_role : InterchipRole;
  hello_protocol_version : Z;
  hello_firmware_major : Z;
  hello_firmware_minor : Z;
  hello_capabilities : Z;
  hello_active_profile_hash : Z
}.

Definition Hello_encode (m : Hello) : list Z :=
  [InterchipRole_code (hello_role m); hello_protocol_version m; hello_firmware_major m;
   hello_firmware_minor m] ++ u32_to_le_bytes (hello_capabilities m) ++
  u32_to_le_bytes (hello_active_profile_hash m).

Definition Hello_decode (bytes : list Z) : Result MessageError Hello :=
  match bytes with
  | [role; version; major; minor; c0; c1; c2; c3; h0; h1; h2; h3] =>
      let? role := if decide (role = 1) then Ok RoleHost
                   else if decide (role = 2) then Ok RoleDevice else Err InvalidRole in
      Ok (mkHello role version major minor (u32_from_le_bytes c0 c1 c2 c3)
            (u32_from_le_bytes h0 h1 h2 h3))
  | _ => Err InvalidLength
  end.

(** ** [RawEndpointReport] *)

Record RawEndpointReport := mkRawEndpoint {
  raw_endpoint_address : Z;
  raw_packet_sequence : Z;
  raw_length : Z;
  raw_array : list Z
}.

Definition RawEndpointReport_new (address sequence : Z) (data : list Z)
  : Result MessageError RawEndpointReport :=
  if decide (length data > RAW_ENDPOINT_MAX_DATA_LEN)%nat then Err InvalidLength
  else Ok (mkRawEndpoint address sequence (as_u8 (Z.of_nat (length data)))
             (blit 0 data (zeros RAW_ENDPOINT_MAX_DATA_LEN))).

Definition raw_data (m : RawEndpointReport) : list Z :=
  take (Z.to_nat (raw_length m)) (raw_array m).

Definition RawEndpointReport_encode (m : RawEndpointReport) (out : list Z)
  : list Z * Result MessageError nat :=
  let len := (RAW_ENDPOINT_HEADER_LEN + length (raw_data m))%nat in
  if decide (length out < len)%nat then (out, Err InvalidLength)
  else
    let out := blit 0 [raw_endpoint_address m] out in
    let out := blit 1 [0] out in
    let out := blit 2 (u16_to_le_bytes (raw_packet_sequence m)) out in
    let out := blit 4 (u16_to_le_bytes (as_u16 (Z.of_nat (length (raw_data m))))) out in
    (blit 6 (raw_data m) out, Ok len).

Definition RawEndpointReport_decode (bytes : list Z) : Result MessageError RawEndpointReport :=
  if decide (length bytes < RAW_ENDPOINT_HEADER_LEN)%nat then Err InvalidLength
  else if decide (byte_at bytes 1 ≠ 0 ∨
                  read_u16 (slice 4 6 bytes) ≠ Z.of_nat (length bytes - RAW_ENDPOINT_HEADER_LEN))
  then Err InvalidLength
  else RawEndpointReport_new (byte_at bytes 0) (read_u16 (slice 2 4 bytes)) (drop 6 bytes).

(** ** [MirrorControlRequest] *)

Record MirrorControlRequest := mkControlRequest {
  creq_request_id : Z;
  creq_setup_packet : list Z;
  creq_length : Z;
  creq_array : list Z
}.

Definition MirrorControlRequest_new (id : Z) (setup data : list Z)
  : Result MessageError MirrorControlRequest :=
  if decide (length data > CONTROL_DATA_MAX_LEN)%nat then Err InvalidLength
  else Ok (mkControlRequest id setup (as_u16 (Z.of_nat (length data)))
             (blit 0 data (zeros CONTROL_DATA_MAX_LEN))).

Definition creq_data (m : MirrorControlRequest) : list Z :=
  take (Z.to_nat (creq_length m)) (creq_array m).

Definition MirrorControlRequest_encode (m : MirrorControlRequest) (out : list Z)
  : list Z * Result MessageError nat :=
  let len := (CONTROL_REQUEST_HEADER_LEN + length (creq_data m))%nat in
  if decide (length out < len)%nat then (out, Err InvalidLength)
  else
    let out := blit 0 (u32_to_le_bytes (creq_request_id m)) out in
    let out := blit 4 (creq_setup_packet m) out in
    let out := blit 12 (u16_to_le_bytes (as_u16 (Z.of_nat (length (creq_data m))))) out in
    (blit 14 (creq_data m) out, Ok len).

Definition MirrorControlRequest_decode (bytes : list Z)
  : Result MessageError MirrorControlRequest :=
  if decide (length bytes < CONTROL_REQUEST_HEADER_LEN)%nat then Err InvalidLength
  else if decide (read_u16 (slice 12 14 bytes) ≠
                  Z.of_nat (length bytes - CONTROL_REQUEST_HEADER_LEN))
  then Err InvalidLength
  else MirrorControlRequest_new (read_u32 (take 4 bytes)) (slice 4 12 bytes) (drop 14 bytes).

(** ** [MirrorControlResponse] *)

Inductive ControlStatus :=
| ControlSuccess | ControlStall | ControlTimeout | ControlDisconnected | ControlUnsupported.
#[export] Instance ControlStatus_eq_dec : EqDecision ControlStatus.
Proof. solve_decision. Defined.

Definition ControlStatus_code (s : ControlStatus) : Z :=
  match s with
  | ControlSuccess => 0 | ControlStall => 1 | ControlTimeout => 2
  | ControlDisconnected => 3 | ControlUnsupported => 4
  end.

(** The [match] on the status byte. *)
Definition ControlStatus_of (b : Z) : Result MessageError ControlStatus :=
  match b with
  | 0 => Ok ControlSuccess | 1 => Ok ControlStall | 2 => Ok ControlTimeout
  | 3 => Ok ControlDisconnected | 4 => Ok ControlUnsupported
  | _ => Err InvalidStatus
  end.

Record MirrorControlResponse := mkControlResponse {
  cres_request_id : Z;
  cres_status : ControlStatus;
  cres_length : Z;
  cres_array : list Z
}.
#[export] Instance eta_MirrorControlResponse : Eta MirrorControlResponse :=
  λ r, mkControlResponse (cres_request_id r) (cres_status r) (cres_length r) (cres_array r).

Definition MirrorControlResponse_new (id : Z) (status : ControlStatus) (data : list Z)
  : Result MessageError MirrorControlResponse :=
  if decide (length data > CONTROL_DATA_MAX_LEN)%nat then Err InvalidLength
  else Ok (mkControlResponse id status (as_u16 (Z.of_nat (length data)))
             (blit 0 data (zeros CONTROL_DATA_MAX_LEN))).

Definition cres_data (m : MirrorControlResponse) : list Z :=
  take (Z.to_nat (cres_length m)) (cres_array m).

Definition with_request_id (m : MirrorControlResponse) (id : Z) : MirrorControlResponse :=
  m <| cres_request_id := id |>.

Definition MirrorControlResponse_encode (m : MirrorControlResponse) (out : list Z)
  : list Z * Result MessageError nat :=
  let len := (CONTROL_RESPONSE_HEADER_LEN + length (cres_data m))%nat in
  if decide (length out < len)%nat then (out, Err InvalidLength)
  else
    let out := blit 0 (u32_to_le_bytes (cres_request_id m)) out in
    let out := blit 4 [ControlStatus_code (cres_status m)] out in
    let out := blit 5 (u16_to_le_bytes (as_u16 (Z.of_nat (length (cres_data m))))) out in
    (blit 7 (cres_data m) out, Ok len).

Definition MirrorControlResponse_decode (bytes : list Z)
  : Result MessageError MirrorControlResponse :=
  if decide (length bytes < CONTROL_RESPONSE_HEADER_LEN)%nat then Err InvalidLength
  else if decide (read_u16 (slice 5 7 bytes) ≠
                  Z.of_nat (length bytes - CONTROL_RESPONSE_HEADER_LEN))
  then Err InvalidLength
  else
    let? status := ControlStatus_of (byte_at bytes 4) in
    MirrorControlResponse_new (read_u32 (take 4 bytes)) status (drop 7 bytes).

(** ** Profile messages *)

Record ProfileBegin := mkProfileBegin {
  pb_transfer_id : Z; pb_total_length : Z; pb_crc32 : Z; pb_profile_hash : Z
}.
#[export] Instance ProfileBegin_eq_dec : EqDecision ProfileBegin.
Proof. solve_decision. Defined.

Definition ProfileBegin_encode (m : ProfileBegin) : list Z :=
  u32_to_le_bytes (pb_transfer_id m) ++ u32_to_le_bytes (pb_total_length m) ++
  u32_to_le_bytes (pb_crc32 m) ++ u32_to_le_bytes (pb_profile_hash m).

Definition ProfileBegin_decode (bytes : list Z) : Result MessageError ProfileBegin :=
  if decide (length bytes ≠ PROFILE_BEGIN_WIRE_LEN) then Err InvalidLength
  else Ok (mkProfileBegin (read_u32 (slice 0 4 bytes)) (read_u32 (slice 4 8 bytes))
             (read_u32 (slice 8 12 bytes)) (read_u32 (slice 12 16 bytes))).

(** [ProfileChunk] borrows its data; [ProfileChunkData] copies it. *)
Record ProfileChunk := mkProfileChunk { pc_transfer_id : Z; pc_offset : Z; pc_data : list Z }.

Definition ProfileChunk_decode (bytes : list Z) : Result MessageError ProfileChunk :=
  if decide (PROFILE_CHUNK_HEADER_LEN ≤ length bytes ≤
             PROFILE_CHUNK_HEADER_LEN + PROFILE_CHUNK_MAX_DATA_LEN)%nat
  then Ok (mkProfileChunk (read_u32 (slice 0 4 bytes)) (read_u32 (slice 4 8 bytes))
             (drop PROFILE_CHUNK_HEADER_LEN bytes))
  else Err InvalidLength.

Definition ProfileChunk_encode (m : ProfileChunk) (out : list Z)
  : list Z * Result MessageError nat :=
  let len := (PROFILE_CHUNK_HEADER_LEN + length (pc_data m))%nat in
  if decide (length (pc_data m) > PROFILE_CHUNK_MAX_DATA_LEN ∨ length out < len)%nat
  then (out, Err InvalidLength)
  else
    let out := blit 0 (u32_to_le_bytes (pc_transfer_id m)) out in
    let out := blit 4 (u32_to_le_bytes (pc_offset m)) out in
    (blit 8 (pc_data m) out, Ok len).

Record ProfileChunkData := mkProfileChunkData {
  pcd_transfer_id : Z; pcd_offset : Z; pcd_length : Z; pcd_array : list Z
}.

Definition ProfileChunkData_from_borrowed (c : ProfileChunk)
  : Result MessageError ProfileChunkData :=
  if decide (length (pc_data c) > PROFILE_CHUNK_MAX_DATA_LEN)%nat then Err InvalidLength
  else Ok (mkProfileChunkData (pc_transfer_id c) (pc_offset c)
             (as_u8 (Z.of_nat (length (pc_data c))))
             (blit 0 (pc_data c) (zeros PROFILE_CHUNK_MAX_DATA_LEN))).

Definition ProfileChunkData_as_borrowed (c : ProfileChunkData) : ProfileChunk :=
  mkProfileChunk (pcd_transfer_id c) (pcd_offset c)
    (take (Z.to_nat (pcd_length c)) (pcd_array c)).

Inductive ProfileResultStatus :=
| ProfileAccepted | ProfileAlreadyStored | ProfileInvalidImage | ProfileUnsupported
| ProfileResourceExhausted | ProfileStorageError | ProfileBusy.
#[export] Instance ProfileResultStatus_eq_dec : EqDecision ProfileResultStatus.
Proof. solve_decision. Defined.

Definition ProfileResultStatus_code (s : ProfileResultStatus) : Z :=
  match s with
  | ProfileAccepted => 0 | ProfileAlreadyStored => 1 | ProfileInvalidImage => 2
  | ProfileUnsupported => 3 | ProfileResourceExhausted => 4 | ProfileStorageError => 5
  | ProfileBusy => 6
  end.

Definition ProfileResultStatus_of (b : Z) : Result MessageError ProfileResultStatus :=
  match b with
  | 0 => Ok ProfileAccepted | 1 => Ok ProfileAlreadyStored | 2 => Ok ProfileInvalidImage
  | 3 => Ok ProfileUnsupported | 4 => Ok ProfileResourceExhausted
  | 5 => Ok ProfileStorageError | 6 => Ok ProfileBusy
  | _ => Err InvalidStatus
  end.

Record ProfileResult := mkProfileResult {
  pr_transfer_id : Z; pr_profile_hash : Z; pr_status : ProfileResultStatus;
  pr_reject_reason : Z; pr_detail : Z
}.

Definition ProfileResult_encode (m : ProfileResult) : list Z :=
  u32_to_le_bytes (pr_transfer_id m) ++ u32_to_le_bytes (pr_profile_hash m) ++
  [ProfileResultStatus_code (pr_status m); pr_reject_reason m] ++ u16_to_le_bytes (pr_detail m).

Definition ProfileResult_decode (bytes : list Z) : Result MessageError ProfileResult :=
  if decide (length bytes ≠ PROFILE_RESULT_WIRE_LEN) then Err InvalidLength
  else
    let? status := ProfileResultStatus_of (byte_at bytes 8) in
    Ok (mkProfileResult (read_u32 (slice 0 4 bytes)) (read_u32 (slice 4 8 bytes)) status
          (byte_at bytes 9) (u16_from_le_bytes (byte_at bytes 10) (byte_at bytes 11))).

Record ActivateProfile := mkActivateProfile { ap_operation_id : Z; ap_profile_hash : Z }.

Definition ActivateProfile_encode (m : ActivateProfile) : list Z :=
  u32_to_le_bytes (ap_operation_id m) ++ u32_to_le_bytes (ap_profile_hash m).

Definition ActivateProfile_decode (bytes : list Z) : Result MessageError ActivateProfile :=
  if decide (length bytes ≠ ACTIVATE_PROFILE_WIRE_LEN) then Err InvalidLength
  else Ok (mkActivateProfile (read_u32 (take 4 bytes)) (read_u32 (drop 4 bytes))).

(** ** [UsbState] *)

Record UsbState := mkUsbState {
  us_attached : bool; us_configured : bool; us_fallback_active : bool; us_healthy : bool;
  us_active_profile_hash : Z; us_error_code : Z
}.

Definition flag_bit (b : bool) (i : Z) : Z := if b then Z.shiftl 1 i else 0.

Definition UsbState_encode (m : UsbState) : list Z :=
  let flags := Z.lor (Z.lor (Z.lor (flag_bit (us_attached m) 0) (flag_bit (us_configured m) 1))
                 (flag_bit (us_fallback_active m) 2)) (flag_bit (us_healthy m) 3) in
  [flags; 0] ++ u32_to_le_bytes (us_active_profile_hash m) ++ u16_to_le_bytes (us_error_code m).

Definition UsbState_decode (bytes : list Z) : Result MessageError UsbState :=
  match bytes with
  | [flags; reserved; h0; h1; h2; h3; e0; e1] =>
      if decide (reserved ≠ 0 ∨ Z.land flags (u8_not 0x0f) ≠ 0) then Err InvalidFlags
      else
        let bit i := bool_decide (Z.land flags (Z.shiftl 1 i) ≠ 0) in
        Ok (mkUsbState (bit 0) (bit 1) (bit 2) (bit 3)
              (u32_from_le_bytes h0 h1 h2 h3) (u16_from_le_bytes e0 e1))
  | _ => Err InvalidLength
  end.

(** ** Standard reports *)

Inductive StandardOutputReportError := OutDataTooLong | OutInvalidLength.

Record StandardOutputReport := mkStandardOutput { so_kind : Z; so_length : Z; so_data : list Z }.

Definition StandardOutputReport_new (kind : Z) (data : list Z)
  : Result StandardOutputReportError StandardOutputReport :=
  if decide (length data > STANDARD_OUTPUT_MAX_DATA_LEN)%nat then Err OutDataTooLong
  else Ok (mkStandardOutput kind (as_u8 (Z.of_nat (length data)))
             (blit 0 data (zeros STANDARD_OUTPUT_MAX_DATA_LEN))).

Definition so_payload (m : StandardOutputReport) : list Z :=
  take (Z.to_nat (so_length m)) (so_data m).

(** The copy loop over [index] writes the eight data bytes from offset 2. *)
Definition StandardOutputReport_encode (m : StandardOutputReport) : list Z :=
  [so_kind m; so_length m] ++ so_data m.

Definition StandardOutputReport_decode (bytes : list Z)
  : Result StandardOutputReportError StandardOutputReport :=
  if decide (length bytes ≠ STANDARD_OUTPUT_WIRE_LEN) then Err OutInvalidLength
  else
    let len := Z.to_nat (byte_at bytes 1) in
    if decide (len > STANDARD_OUTPUT_MAX_DATA_LEN)%nat then Err OutInvalidLength
    else if existsb (λ b, bool_decide (b ≠ 0)) (drop (2 + len) bytes) then Err OutInvalidLength
    else Ok (mkStandardOutput (byte_at bytes 0) (as_u8 (Z.of_nat len)) (drop 2 bytes)).

Inductive StandardInputReportError := InInvalidLength | InInvalidKind | InInvalidReportLength.

Record StandardInputReport := mkStandardInput {
  si_flags : Z; si_sequence : Z; si_report : StandardHidReport
}.

Definition standard_kind (r : StandardHidReport) : Z :=
  match r with ReportOfKeyboard _ => 1 | ReportOfMouse _ => 2 | ReportOfConsumer _ => 3 end.

(** The array of [STANDARD_INPUT_MAX_LEN] bytes and the length in use. *)
Definition StandardInputReport_encode (m : StandardInputReport) : list Z * Z :=
  let data := report_bytes (si_report m) in
  let bytes := zeros STANDARD_INPUT_MAX_LEN in
  let bytes := <[1%nat := si_flags m]> bytes in
  let bytes := blit 2 (u16_to_le_bytes (si_sequence m)) bytes in
  let bytes := <[0%nat := standard_kind (si_report m)]> bytes in
  let bytes := <[4%nat := as_u8 (Z.of_nat (length data))]> bytes in
  (blit STANDARD_INPUT_HEADER_LEN data bytes,
   as_u8 (Z.of_nat (STANDARD_INPUT_HEADER_LEN + length data))).

Definition StandardInputReport_decode (bytes : list Z)
  : Result StandardInputReportError StandardInputReport :=
  if decide (length bytes < STANDARD_INPUT_HEADER_LEN)%nat then Err InInvalidLength
  else
    let data_len := Z.to_nat (byte_at bytes 4) in
    if decide (length bytes ≠ (STANDARD_INPUT_HEADER_LEN + data_len)%nat) then Err InInvalidLength
    else
      let data := drop STANDARD_INPUT_HEADER_LEN bytes in
      let kind := byte_at bytes 0 in
      let? report :=
        if decide (kind = 1 ∧ data_len = KEYBOARD_REPORT_LEN)
        then Ok (ReportOfKeyboard (mkKeyboardReport data))
        else if decide (kind = 2 ∧ data_len = MOUSE_REPORT_LEN)
        then Ok (ReportOfMouse (mkMouseReport data))
        else if decide (kind = 3 ∧ data_len = CONSUMER_REPORT_LEN)
        then Ok (ReportOfConsumer (ConsumerReport_from_usage_id
                   (u16_from_le_bytes (byte_at data 0) (byte_at data 1))))
        else if decide (1 ≤ kind ≤ 3) then Err InInvalidReportLength
        else Err InInvalidKind in
      Ok (mkStandardInput (byte_at bytes 1)
            (u16_from_le_bytes (byte_at bytes 2) (byte_at bytes 3)) report).

(** ** Codecs

    What a record's payload type promises to the layers that carry it: every well-formed
    message has a wire form that reads back as itself, and only the wire form of a
    well-formed message is accepted. *)

Class WireCodec (M E : Type) := {
  wire_wf : M → Prop;
  wire : M → list Z;
  parse : list Z → Result E M;
  wire_bytes_ok : ∀ m, wire_wf m → bytes_ok (wire m);
  parse_wire : ∀ m, wire_wf m → parse (wire m) = Ok m;
  wire_parse : ∀ b m, bytes_ok b → parse b = Ok m → wire_wf m ∧ wire m = b
}.

Lemma wire_inj `{WireCodec M E} m m' : wire_wf m → wire_wf m' → wire m = wire m' → m = m'.
Proof.
  intros H1 H2 Heq. apply parse_wire in H1, H2. rewrite Heq, H2 in H1. by injection H1.
Qed.

(** Evaluate the reads of an explicit byte list. *)
Ltac reads := unfold read_u32, read_u16, slice, byte_at in *; cbn [take drop nth Nat.sub] in *;
  rewrite ?drop_0 in *.

Lemma as_u8_of_nat n : (n ≤ 255)%nat → as_u8 (Z.of_nat n) = Z.of_nat n.
Proof. intros H. unfold as_u8. apply Z.mod_small. lia. Qed.

Lemma as_u16_of_nat n : Z.of_nat n < 65536 → as_u16 (Z.of_nat n) = Z.of_nat n.
Proof. intros H. unfold as_u16. apply Z.mod_small. lia. Qed.

Lemma data_of_array cap d : (length d ≤ cap)%nat →
  take (length d) (blit 0 d (zeros cap)) = d.
Proof. intros _. by apply take_blit. Qed.

Lemma u16_len_le n : Z.of_nat n < 65536 →
  u16_from_le_bytes (as_u16 (Z.of_nat n) mod 256) (as_u16 (Z.of_nat n) / 256 mod 256) = Z.of_nat n.
Proof. intros H. rewrite as_u16_of_nat by done. apply u16_from_to_le. words. Qed.

(** *** Fixed-size messages *)

Record hello_wf (m : Hello) : Prop := {
  hw_version : u8_ok (hello_protocol_version m);
  hw_major : u8_ok (hello_firmware_major m);
  hw_minor : u8_ok (hello_firmware_minor m);
  hw_caps : u32_ok (hello_capabilities m);
  hw_hash : u32_ok (hello_active_profile_hash m)
}.

#[export] Program Instance Hello_codec : WireCodec Hello MessageError := {|
  wire_wf := hello_wf; wire := Hello_encode; parse := Hello_decode |}.
Next Obligation. intros [[] v ma mi c h] []; cbn in *; unfold Hello_encode; cbn; solve_bytes; apply u8_ok_mod. Qed.
Next Obligation.
  intros [r v ma mi c h] []. unfold Hello_encode, Hello_decode. cbn in *.
  rewrite !u32_from_to_le by done. by destruct r.
Qed.
Next Obligation.
  intros b m Hb H. unfold Hello_decode in H.
  do 13 (destruct b as [|? b]; try discriminate H). split_bytes Hb.
  apply bind_ok in H as (r & Hr & H). injection H as <-. split.
  - split; cbn; auto with hid.
  - unfold Hello_encode. cbn [hello_role hello_protocol_version hello_firmware_major
      hello_firmware_minor hello_capabilities hello_active_profile_hash].
    rewrite !u32_to_from_le by done.
    repeat case_decide; try discriminate Hr; injection Hr as <-; by subst.
Qed.

Record profile_begin_wf (m : ProfileBegin) : Prop := {
  pbw_id : u32_ok (pb_transfer_id m);
  pbw_len : u32_ok (pb_total_length m);
  pbw_crc : u32_ok (pb_crc32 m);
  pbw_hash : u32_ok (pb_profile_hash m)
}.

#[export] Program Instance ProfileBegin_codec : WireCodec ProfileBegin MessageError := {|
  wire_wf := profile_begin_wf; wire := ProfileBegin_encode; parse := ProfileBegin_decode |}.
Next Obligation. intros m _. unfold ProfileBegin_encode. solve_bytes. Qed.
Next Obligation.
  intros [a b c d] []. unfold ProfileBegin_encode, ProfileBegin_decode. cbn in *.
  unfold read_u32. cbn. by rewrite !u32_from_to_le by done.
Qed.
Next Obligation.
  intros b m Hb H. unfold ProfileBegin_decode in H. case_decide as Hl; [done|].
  unfold PROFILE_BEGIN_WIRE_LEN in Hl. explode b Hl.
  split_bytes Hb. injection H as <-. reads. split.
  - split; cbn; auto with hid.
  - unfold ProfileBegin_encode. cbn [pb_transfer_id pb_total_length pb_crc32 pb_profile_hash].
    by rewrite !u32_to_from_le by done.
Qed.

Record profile_result_wf (m : ProfileResult) : Prop := {
  prw_id : u32_ok (pr_transfer_id m);
  prw_hash : u32_ok (pr_profile_hash m);
  prw_reason : u8_ok (pr_reject_reason m);
  prw_detail : u16_ok (pr_detail m)
}.

Lemma ProfileResultStatus_code_of s : ProfileResultStatus_of (ProfileResultStatus_code s) = Ok s.
Proof. by destruct s. Qed.

Lemma ProfileResultStatus_of_code b s : ProfileResultStatus_of b = Ok s →
  ProfileResultStatus_code s = b.
Proof.
  unfold ProfileResultStatus_of. destruct b as [|p|p]; [by intros [= <-]| |done].
  do 3 (destruct p as [p|p|]; try done; try (by intros [= <-])).
Qed.

#[export] Program Instance ProfileResult_codec : WireCodec ProfileResult MessageError := {|
  wire_wf := profile_result_wf; wire := ProfileResult_encode; parse := ProfileResult_decode |}.
Next Obligation. intros [a b s r d] []. unfold ProfileResult_encode. cbn in *. destruct s; cbn; solve_bytes; apply u8_ok_mod. Qed.
Next Obligation.
  intros [a b s r d] []. unfold ProfileResult_encode, ProfileResult_decode. cbn in *.
  rewrite decide_False by (intros Hn; by apply Hn). rewrite ProfileResultStatus_code_of. cbn.
  unfold read_u32. cbn. by rewrite !u32_from_to_le, u16_from_to_le by done.
Qed.
Next Obligation.
  intros b m Hb H. unfold ProfileResult_decode in H. case_decide as Hl; [done|].
  unfold PROFILE_RESULT_WIRE_LEN in Hl. explode b Hl.
  split_bytes Hb. apply bind_ok in H as (s & Hs & H). injection H as <-.
  apply ProfileResultStatus_of_code in Hs. reads. split.
  - split; cbn; auto with hid.
  - unfold ProfileResult_encode. cbn [pr_transfer_id pr_profile_hash pr_status pr_reject_reason pr_detail].
    by rewrite !u32_to_from_le, u16_to_from_le, Hs by done.
Qed.

Record activate_profile_wf (m : ActivateProfile) : Prop := {
  apw_id : u32_ok (ap_operation_id m);
  apw_hash : u32_ok (ap_profile_hash m)
}.

#[export] Program Instance ActivateProfile_codec : WireCodec ActivateProfile MessageError := {|
  wire_wf := activate_profile_wf; wire := ActivateProfile_encode; parse := ActivateProfile_decode |}.
Next Obligation. intros m _. unfold ActivateProfile_encode. solve_bytes. Qed.
Next Obligation.
  intros [a b] []. unfold ActivateProfile_encode, ActivateProfile_decode. cbn in *.
  unfold read_u32. cbn. by rewrite !u32_from_to_le by done.
Qed.
Next Obligation.
  intros b m Hb H. unfold ActivateProfile_decode in H. case_decide as Hl; [done|].
  unfold ACTIVATE_PROFILE_WIRE_LEN in Hl. explode b Hl.
  split_bytes Hb. injection H as <-. reads. split.
  - split; cbn; auto with hid.
  - unfold ActivateProfile_encode. cbn [ap_operation_id ap_profile_hash].
    by rewrite !u32_to_from_le by done.
Qed.

Record usb_state_wf (m : UsbState) : Prop := {
  usw_hash : u32_ok (us_active_profile_hash m);
  usw_error : u16_ok (us_error_code m)
}.

(** A flags byte with only the four low bits is the disjunction of those bits. *)
Lemma flags_of_bits f : u8_ok f → Z.land f (u8_not 0x0f) = 0 →
  let bit i := bool_decide (Z.land f (Z.shiftl 1 i) ≠ 0) in
  Z.lor (Z.lor (Z.lor (flag_bit (bit 0) 0) (flag_bit (bit 1) 1)) (flag_bit (bit 2) 2))
    (flag_bit (bit 3) 3) = f.
Proof.
  intros Hf H. assert (f < 16) as Hlt.
  { destruct (decide (f < 16)) as [|Hge]; [done|]. exfalso.
    change (u8_not 15) with (Z.shiftl (Z.ones 4) 4) in H.
    assert (Z.shiftr (Z.land f (Z.shiftl (Z.ones 4) 4)) 4 = 0) as Hs by by rewrite H.
    rewrite Z.shiftr_land, Z.shiftr_shiftl_l in Hs by lia. simpl in Hs.
    change (Z.land (Z.shiftr f 4) (Z.ones 4) = 0) in Hs.
    rewrite Z.land_ones, Z.shiftr_div_pow2 in Hs by lia. unfold u8_ok in Hf.
    rewrite Z.mod_small in Hs; Z.to_euclidean_division_equations; lia. }
  unfold u8_ok in Hf. assert (∃ n, f = Z.of_nat n ∧ (n < 16)%nat) as (n & -> & Hn).
  { exists (Z.to_nat f). lia. }
  do 16 (destruct n as [|n]; [done|]). lia.
Qed.

#[export] Program Instance UsbState_codec : WireCodec UsbState MessageError := {|
  wire_wf := usb_state_wf; wire := UsbState_encode; parse := UsbState_decode |}.
Next Obligation.
  intros [[] [] [] [] h e] []; cbn in *; unfold UsbState_encode; cbn; solve_bytes; apply u8_ok_mod.
Qed.
Next Obligation.
  intros [a c f h hash e] []. cbn in *. unfold UsbState_encode, UsbState_decode.
  cbn [us_attached us_configured us_fallback_active us_healthy us_active_profile_hash us_error_code
    app u32_to_le_bytes u16_to_le_bytes].
  rewrite u32_from_to_le, u16_from_to_le by done.
  destruct a, c, f, h; (rewrite decide_False by (vm_compute; intros [?|?]; congruence)); reflexivity.
Qed.
Next Obligation.
  intros b m Hb H. unfold UsbState_decode in H.
  do 9 (destruct b as [|? b]; try discriminate H). split_bytes Hb.
  case_decide as Hbad; [done|]. injection H as <-. split; [split; cbn; auto with hid|].
  unfold UsbState_encode. cbn [us_attached us_configured us_fallback_active us_healthy
    us_active_profile_hash us_error_code].
  rewrite u32_to_from_le, u16_to_from_le by done.
  assert (z0 = 0 ∧ Z.land z (u8_not 15) = 0) as [-> Hz] by (split; apply dec_stable; tauto).
  rewrite flags_of_bits by done. done.
Qed.

(** *** Messages with data *)

Lemma blit_first {A} (s d : list A) : blit 0 s d = s ++ drop (length s) d.
Proof. reflexivity. Qed.

Lemma blit_next {A} n (s p d : list A) : n = length p →
  blit n s (p ++ d) = (p ++ s) ++ drop (length s) d.
Proof. intros ->. rewrite blit_app by done. by rewrite blit_first, <- app_assoc. Qed.

(** What a data message writes into a buffer with room for it. *)
Definition buffer_encoded (w out : list Z) : list Z := w ++ drop (length w) out.

Ltac encoded_into :=
  unfold buffer_encoded; rewrite blit_first; repeat (rewrite blit_next by reflexivity);
  rewrite !drop_drop, <- !app_assoc; f_equal.

Definition raw_wire (m : RawEndpointReport) : list Z :=
  ([raw_endpoint_address m; 0] ++ u16_to_le_bytes (raw_packet_sequence m) ++
   u16_to_le_bytes (as_u16 (Z.of_nat (length (raw_data m))))) ++ raw_data m.

Definition raw_wf (m : RawEndpointReport) : Prop :=
  u8_ok (raw_endpoint_address m) ∧ u16_ok (raw_packet_sequence m) ∧ bytes_ok (raw_data m) ∧
  RawEndpointReport_new (raw_endpoint_address m) (raw_packet_sequence m) (raw_data m) = Ok m.

Definition creq_wire (m : MirrorControlRequest) : list Z :=
  (u32_to_le_bytes (creq_request_id m) ++ creq_setup_packet m ++
   u16_to_le_bytes (as_u16 (Z.of_nat (length (creq_data m))))) ++ creq_data m.

Definition creq_wf (m : MirrorControlRequest) : Prop :=
  u32_ok (creq_request_id m) ∧ length (creq_setup_packet m) = 8%nat ∧
  bytes_ok (creq_setup_packet m) ∧ bytes_ok (creq_data m) ∧
  MirrorControlRequest_new (creq_request_id m) (creq_setup_packet m) (creq_data m) = Ok m.

Definition cres_wire (m : MirrorControlResponse) : list Z :=
  (u32_to_le_bytes (cres_request_id m) ++ [ControlStatus_code (cres_status m)] ++
   u16_to_le_bytes (as_u16 (Z.of_nat (length (cres_data m))))) ++ cres_data m.

Definition cres_wf (m : MirrorControlResponse) : Prop :=
  u32_ok (cres_request_id m) ∧ bytes_ok (cres_data m) ∧
  MirrorControlResponse_new (cres_request_id m) (cres_status m) (cres_data m) = Ok m.

Definition chunk_wire (m : ProfileChunk) : list Z :=
  (u32_to_le_bytes (pc_transfer_id m) ++ u32_to_le_bytes (pc_offset m)) ++ pc_data m.

Definition chunk_wf (m : ProfileChunk) : Prop :=
  u32_ok (pc_transfer_id m) ∧ u32_ok (pc_offset m) ∧ bytes_ok (pc_data m) ∧
  (length (pc_data m) ≤ PROFILE_CHUNK_MAX_DATA_LEN)%nat.

Lemma raw_new_data a s d m : RawEndpointReport_new a s d = Ok m →
  raw_endpoint_address m = a ∧ raw_packet_sequence m = s ∧ raw_data m = d ∧
  (length d ≤ RAW_ENDPOINT_MAX_DATA_LEN)%nat.
Proof.
  unfold RawEndpointReport_new. case_decide as H; [done|]. intros [= <-].
  unfold raw_data. cbn [raw_length raw_array]. rewrite as_u8_of_nat, Nat2Z.id, data_of_array
    by (unfold RAW_ENDPOINT_MAX_DATA_LEN in *; lia). split; [done|]. split; [done|]. split; [done|lia].
Qed.

Lemma creq_new_data i s d m : MirrorControlRequest_new i s d = Ok m →
  creq_request_id m = i ∧ creq_setup_packet m = s ∧ creq_data m = d ∧
  (length d ≤ CONTROL_DATA_MAX_LEN)%nat.
Proof.
  unfold MirrorControlRequest_new. case_decide as H; [done|]. intros [= <-].
  unfold creq_data. cbn [creq_length creq_array]. rewrite as_u16_of_nat, Nat2Z.id, data_of_array
    by (unfold CONTROL_DATA_MAX_LEN in *; lia). split; [done|]. split; [done|]. split; [done|lia].
Qed.

Lemma cres_new_data i s d m : MirrorControlResponse_new i s d = Ok m →
  cres_request_id m = i ∧ cres_status m = s ∧ cres_data m = d ∧
  (length d ≤ CONTROL_DATA_MAX_LEN)%nat.
Proof.
  unfold MirrorControlResponse_new. case_decide as H; [done|]. intros [= <-].
  unfold cres_data. cbn [cres_length cres_array]. rewrite as_u16_of_nat, Nat2Z.id, data_of_array
    by (unfold CONTROL_DATA_MAX_LEN in *; lia). split; [done|]. split; [done|]. split; [done|lia].
Qed.

Lemma raw_encode_wire m out : raw_wf m →
  RawEndpointReport_encode m out =
    if decide (length out < length (raw_wire m))%nat then (out, Err InvalidLength)
    else (buffer_encoded (raw_wire m) out, Ok (length (raw_wire m))).
Proof.
  intros _. unfold RawEndpointReport_encode.
  assert (length (raw_wire m) = RAW_ENDPOINT_HEADER_LEN + length (raw_data m))%nat as Hl
    by (unfold raw_wire; by rewrite length_app).
  rewrite Hl. case_decide; [done|]. f_equal. unfold raw_wire. by encoded_into.
Qed.

Lemma creq_encode_wire m out : creq_wf m →
  MirrorControlRequest_encode m out =
    if decide (length out < length (creq_wire m))%nat then (out, Err InvalidLength)
    else (buffer_encoded (creq_wire m) out, Ok (length (creq_wire m))).
Proof.
  intros (_ & Hs & _). unfold MirrorControlRequest_encode.
  assert (length (creq_wire m) = CONTROL_REQUEST_HEADER_LEN + length (creq_data m))%nat as Hl
    by (unfold creq_wire; rewrite !length_app, Hs; done).
  rewrite Hl. case_decide; [done|]. f_equal. unfold creq_wire, buffer_encoded.
  destruct m as [i s l d]. cbn [creq_setup_packet creq_request_id] in *. explode s Hs.
  by encoded_into.
Qed.

Lemma cres_encode_wire m out : cres_wf m →
  MirrorControlResponse_encode m out =
    if decide (length out < length (cres_wire m))%nat then (out, Err InvalidLength)
    else (buffer_encoded (cres_wire m) out, Ok (length (cres_wire m))).
Proof.
  intros _. unfold MirrorControlResponse_encode.
  assert (length (cres_wire m) = CONTROL_RESPONSE_HEADER_LEN + length (cres_data m))%nat as Hl
    by (unfold cres_wire; by rewrite length_app).
  rewrite Hl. case_decide; [done|]. f_equal. unfold cres_wire. by encoded_into.
Qed.

Lemma chunk_encode_wire m out : chunk_wf m →
  ProfileChunk_encode m out =
    if decide (length out < length (chunk_wire m))%nat then (out, Err InvalidLength)
    else (buffer_encoded (chunk_wire m) out, Ok (length (chunk_wire m))).
Proof.
  intros (_ & _ & _ & Hd). unfold ProfileChunk_encode.
  assert (length (chunk_wire m) = PROFILE_CHUNK_HEADER_LEN + length (pc_data m))%nat as Hl
    by (unfold chunk_wire; by rewrite length_app).
  rewrite Hl. case_decide as H1; case_decide as H2; try done; try lia.
  f_equal. unfold chunk_wire. by encoded_into.
Qed.

Lemma ControlStatus_code_of s : ControlStatus_of (ControlStatus_code s) = Ok s.
Proof. by destruct s. Qed.

Lemma ControlStatus_of_code b s : ControlStatus_of b = Ok s → ControlStatus_code s = b.
Proof.
  unfold ControlStatus_of. destruct b as [|p|p]; [by intros [= <-]| |done].
  do 3 (destruct p as [p|p|]; try done; try (by intros [= <-])).
Qed.

(** The length field and the data behind a header of [n] explicit bytes. *)
Lemma u16_len_bytes d : Z.of_nat (length d) < 65536 →
  u16_from_le_bytes (as_u16 (Z.of_nat (length (d : list Z))) mod 256)
    (as_u16 (Z.of_nat (length d)) / 256 mod 256) = Z.of_nat (length d).
Proof. apply u16_len_le. Qed.

Lemma u16_len_back a b n : u8_ok a → u8_ok b → u16_from_le_bytes a b = Z.of_nat n →
  u16_to_le_bytes (as_u16 (Z.of_nat n)) = [a; b].
Proof.
  intros Ha Hb H. pose proof (u16_from_le_ok a b Ha Hb) as Hok. rewrite H in Hok.
  rewrite as_u16_of_nat by (unfold u16_ok in Hok; lia). rewrite <- H. by apply u16_to_from_le.
Qed.

#[export] Program Instance RawEndpointReport_codec : WireCodec RawEndpointReport MessageError := {|
  wire_wf := raw_wf; wire := raw_wire; parse := RawEndpointReport_decode |}.
Next Obligation. intros m (Ha & Hs & Hd & _). unfold raw_wire. solve_bytes. Qed.
Next Obligation.
  intros m (Ha & Hs & Hd & Hnew). pose proof (raw_new_data _ _ _ _ Hnew) as (_ & _ & _ & Hl).
  unfold RawEndpointReport_decode, raw_wire. unfold RAW_ENDPOINT_MAX_DATA_LEN in Hl.
  cbn [app u16_to_le_bytes length]. unfold RAW_ENDPOINT_HEADER_LEN.
  rewrite decide_False by lia. reads. rewrite u16_len_bytes by lia.
  rewrite decide_False by (intros [?|?]; [done|lia]).
  rewrite u16_from_to_le by done. exact Hnew.
Qed.
Next Obligation.
  intros b m Hb H. unfold RawEndpointReport_decode in H. case_decide as Hl; [done|].
  unfold RAW_ENDPOINT_HEADER_LEN in *.
  do 6 (destruct b as [|? b]; [cbn in Hl; lia|]). split_bytes Hb. reads.
  case_decide as Hc; [done|]. cbn [length] in Hc.
  assert (z0 = 0 ∧ u16_from_le_bytes z3 z4 = Z.of_nat (length b)) as [-> Hlen].
  { split; [apply dec_stable; tauto|]. replace (length b) with (6 + length b - 6)%nat by lia.
    apply dec_stable. tauto. }
  pose proof (raw_new_data _ _ _ _ H) as (H1' & H2' & H3' & H4'). split.
  - unfold wire_wf, raw_wf. rewrite H1', H2', H3'. auto with hid.
  - unfold wire, raw_wire. rewrite H1', H2', H3', u16_to_from_le by done.
    by rewrite (u16_len_back z3 z4).
Qed.

#[export] Program Instance MirrorControlRequest_codec
  : WireCodec MirrorControlRequest MessageError := {|
  wire_wf := creq_wf; wire := creq_wire; parse := MirrorControlRequest_decode |}.
Next Obligation. intros m (Hi & _ & Hs & Hd & _). unfold creq_wire. solve_bytes. Qed.
Next Obligation.
  intros m (Hi & Hsl & Hs & Hd & Hnew). pose proof (creq_new_data _ _ _ _ Hnew) as (_ & _ & _ & Hl).
  unfold MirrorControlRequest_decode, creq_wire. unfold CONTROL_DATA_MAX_LEN in Hl.
  remember (creq_setup_packet m) as s. explode s Hsl.
  cbn [app u16_to_le_bytes u32_to_le_bytes length]. unfold CONTROL_REQUEST_HEADER_LEN.
  rewrite decide_False by lia. reads. rewrite u16_len_bytes by lia.
  rewrite decide_False by lia. rewrite u32_from_to_le by done. exact Hnew.
Qed.
Next Obligation.
  intros b m Hb H. unfold MirrorControlRequest_decode in H. case_decide as Hl; [done|].
  unfold CONTROL_REQUEST_HEADER_LEN in *.
  do 14 (destruct b as [|? b]; [cbn in Hl; lia|]). split_bytes Hb. reads.
  case_decide as Hc; [done|]. cbn [length] in Hc.
  replace (S (S (S (S (S (S (S (S (S (S (S (S (S (S (length b)))))))))))))) - 14)%nat
    with (length b) in Hc by lia.
  pose proof (creq_new_data _ _ _ _ H) as (H1' & H2' & H3' & H4'). split.
  - unfold wire_wf, creq_wf. rewrite H1', H2', H3'. split; [auto with hid|].
    split; [done|]. split; [solve_bytes|]. split; done.
  - unfold wire, creq_wire. rewrite H1', H2', H3', u32_to_from_le by done.
    by rewrite (u16_len_back z11 z12).
Qed.

#[export] Program Instance MirrorControlResponse_codec
  : WireCodec MirrorControlResponse MessageError := {|
  wire_wf := cres_wf; wire := cres_wire; parse := MirrorControlResponse_decode |}.
Next Obligation. intros m (Hi & Hd & _). unfold cres_wire. destruct (cres_status m); solve_bytes. Qed.
Next Obligation.
  intros m (Hi & Hd & Hnew). pose proof (cres_new_data _ _ _ _ Hnew) as (_ & _ & _ & Hl).
  unfold MirrorControlResponse_decode, cres_wire. unfold CONTROL_DATA_MAX_LEN in Hl.
  cbn [app u16_to_le_bytes u32_to_le_bytes length]. unfold CONTROL_RESPONSE_HEADER_LEN.
  rewrite decide_False by lia. reads. rewrite u16_len_bytes by lia.
  rewrite decide_False by lia. rewrite ControlStatus_code_of. cbn [result_bind].
  rewrite u32_from_to_le by done. exact Hnew.
Qed.
Next Obligation.
  intros b m Hb H. unfold MirrorControlResponse_decode in H. case_decide as Hl; [done|].
  unfold CONTROL_RESPONSE_HEADER_LEN in *.
  do 7 (destruct b as [|? b]; [cbn in Hl; lia|]). split_bytes Hb. reads.
  case_decide as Hc; [done|]. cbn [length] in Hc.
  replace (S (S (S (S (S (S (S (length b))))))) - 7)%nat with (length b) in Hc by lia.
  apply bind_ok in H as (st & Hst & H). apply ControlStatus_of_code in Hst.
  pose proof (cres_new_data _ _ _ _ H) as (H1' & H2' & H3' & H4'). split.
  - unfold wire_wf, cres_wf. rewrite H1', H2', H3'. auto with hid.
  - unfold wire, cres_wire. rewrite H1', H2', H3', Hst, u32_to_from_le by done.
    by rewrite (u16_len_back z4 z5).
Qed.

#[export] Program Instance ProfileChunk_codec : WireCodec ProfileChunk MessageError := {|
  wire_wf := chunk_wf; wire := chunk_wire; parse := ProfileChunk_decode |}.
Next Obligation. intros m (Hi & Ho & Hd & _). unfold chunk_wire. solve_bytes. Qed.
Next Obligation.
  intros [i o d] (Hi & Ho & Hd & Hl). cbn in *. unfold ProfileChunk_decode, chunk_wire.
  cbn [pc_transfer_id pc_offset pc_data app u32_to_le_bytes length].
  unfold PROFILE_CHUNK_HEADER_LEN, PROFILE_CHUNK_MAX_DATA_LEN in *.
  rewrite decide_True by lia. reads. by rewrite !u32_from_to_le.
Qed.
Next Obligation.
  intros b m Hb H. unfold ProfileChunk_decode in H. case_decide as Hl; [|done].
  unfold PROFILE_CHUNK_HEADER_LEN in *.
  do 8 (destruct b as [|? b]; [cbn in Hl; lia|]). split_bytes Hb. reads. injection H as <-.
  split.
  - cbn [length] in Hl. unfold wire_wf, chunk_wf, PROFILE_CHUNK_MAX_DATA_LEN in *.
    cbn [pc_transfer_id pc_offset pc_data]. split; [auto with hid|]. split; [auto with hid|].
    split; [done|lia].
  - unfold wire, chunk_wire. cbn [pc_transfer_id pc_offset pc_data].
    by rewrite !u32_to_from_le.
Qed.

(** *** Standard reports *)

Definition so_wf (m : StandardOutputReport) : Prop :=
  u8_ok (so_kind m) ∧ bytes_ok (so_payload m) ∧
  StandardOutputReport_new (so_kind m) (so_payload m) = Ok m.

Lemma so_new_inv k d m : StandardOutputReport_new k d = Ok m →
  (length d ≤ 8)%nat ∧
  m = mkStandardOutput k (Z.of_nat (length d)) (d ++ zeros (8 - length d)).
Proof.
  unfold StandardOutputReport_new, STANDARD_OUTPUT_MAX_DATA_LEN. case_decide; [done|].
  intros [= <-]. rewrite as_u8_of_nat, blit_zeros by lia. split; [lia|done].
Qed.

Lemma existsb_zeros l : existsb (λ b, bool_decide (b ≠ 0)) l = false ↔ l = zeros (length l).
Proof.
  induction l as [|x l IH]; [done|]. cbn [existsb length zeros replicate].
  rewrite orb_false_iff, bool_decide_eq_false, IH. split.
  - intros [H1 H2]. f_equal; [by apply dec_stable|done].
  - intros [= -> H]. split; [|exact H]. intros Hn. by apply Hn.
Qed.

#[export] Program Instance StandardOutputReport_codec
  : WireCodec StandardOutputReport StandardOutputReportError := {|
  wire_wf := so_wf; wire := StandardOutputReport_encode; parse := StandardOutputReport_decode |}.
Next Obligation.
  intros m (Hk & Hd & Hnew). apply so_new_inv in Hnew as [Hl Hm]. rewrite Hm.
  unfold StandardOutputReport_encode. cbn [so_kind so_length so_data]. solve_bytes.
  apply bytes_ok_zeros.
Qed.
Next Obligation.
  intros m (Hk & Hd & Hnew). apply so_new_inv in Hnew as [Hl Hm]. rewrite Hm.
  revert Hk Hd Hl. generalize (so_payload m), (so_kind m). clear. intros d k Hk Hd Hl.
  unfold StandardOutputReport_decode, StandardOutputReport_encode.
  cbn [so_kind so_length so_data app].
  rewrite decide_False by (cbn [length]; rewrite length_app, length_zeros;
    unfold STANDARD_OUTPUT_WIRE_LEN, STANDARD_OUTPUT_MAX_DATA_LEN; lia).
  unfold byte_at. cbn [nth]. rewrite Nat2Z.id. unfold STANDARD_OUTPUT_MAX_DATA_LEN.
  rewrite decide_False by lia.
  change (drop (2 + length d) _) with (drop (length d) (d ++ zeros (8 - length d))).
  rewrite drop_app_length. rewrite (proj2 (existsb_zeros _)) by by rewrite length_zeros.
  by rewrite as_u8_of_nat by lia.
Qed.
Next Obligation.
  intros b m Hb H. unfold StandardOutputReport_decode in H. case_decide as Hl; [done|].
  unfold STANDARD_OUTPUT_WIRE_LEN, STANDARD_OUTPUT_MAX_DATA_LEN in *.
  destruct b as [|k [|n b]]; [done..|]. apply List.Forall_cons_iff in Hb as [Hk Hb].
  apply List.Forall_cons_iff in Hb as [Hn Hb]. unfold byte_at in H. cbn [nth] in H.
  case_decide as Hlen; [done|]. cbn [length] in Hl.
  change (drop (2 + Z.to_nat n) (k :: n :: b)) with (drop (Z.to_nat n) b) in H.
  destruct (existsb _ _) eqn:Hz; [done|]. apply existsb_zeros in Hz. injection H as <-.
  rewrite length_drop in Hz.
  assert (as_u8 (Z.of_nat (Z.to_nat n)) = n) as Hn8.
  { rewrite as_u8_of_nat by lia. unfold u8_ok in Hn. lia. }
  rewrite Hn8. unfold drop at 1. split; [|done]. unfold wire_wf, so_wf, so_payload.
  cbn [so_kind so_length so_data]. split; [done|]. split; [by apply bytes_ok_take|].
  unfold StandardOutputReport_new, STANDARD_OUTPUT_MAX_DATA_LEN.
  rewrite length_take. rewrite decide_False by lia.
  replace (Z.to_nat n `min` length b)%nat with (Z.to_nat n) by lia. rewrite Hn8.
  do 2 f_equal. rewrite blit_zeros, length_take by (rewrite length_take; lia).
  replace (8 - Z.to_nat n `min` length b)%nat with (length b - Z.to_nat n)%nat by lia.
  rewrite <- Hz. apply take_drop.
Qed.

Definition si_wf (m : StandardInputReport) : Prop :=
  u8_ok (si_flags m) ∧ u16_ok (si_sequence m) ∧ report_ok (si_report m).

(** The used part of the array [encode] gives. *)
Definition si_wire (m : StandardInputReport) : list Z :=
  take (Z.to_nat (StandardInputReport_encode m).2) (StandardInputReport_encode m).1.

Lemma report_len_le r : report_ok r → (length (report_bytes r) ≤ 8)%nat.
Proof. intros [-> _]. destruct r; cbn; unfold KEYBOARD_REPORT_LEN, MOUSE_REPORT_LEN, CONSUMER_REPORT_LEN; lia. Qed.

Lemma si_wire_eq m : si_wf m →
  si_wire m = [standard_kind (si_report m); si_flags m] ++ u16_to_le_bytes (si_sequence m) ++
    [Z.of_nat (length (report_bytes (si_report m)))] ++ report_bytes (si_report m).
Proof.
  intros (_ & _ & Hr). pose proof (report_len_le _ Hr) as Hl. unfold si_wire.
  destruct m as [f s r]. cbn [si_flags si_sequence si_report] in *.
  unfold StandardInputReport_encode. cbn [fst snd si_flags si_sequence si_report].
  unfold STANDARD_INPUT_HEADER_LEN. rewrite !as_u8_of_nat, Nat2Z.id by lia.
  set (d := report_bytes r) in *.
  change (<[1%nat:=f]> (zeros STANDARD_INPUT_MAX_LEN)) with (0 :: f :: zeros 11).
  change (0 :: f :: zeros 11) with ([0; f] ++ zeros 11). rewrite blit_app by done.
  rewrite blit_zeros by (cbn; lia). cbn [app u16_to_le_bytes length Nat.sub].
  change (zeros 9) with (0 :: zeros 8). cbn [list_insert insert].
  match goal with |- take _ (blit 5 d (?x1 :: ?x2 :: ?x3 :: ?x4 :: ?x5 :: _)) = _ =>
    change (x1 :: x2 :: x3 :: x4 :: x5 :: zeros 8) with ([x1; x2; x3; x4; x5] ++ zeros 8) end.
  rewrite blit_app by done.
  rewrite blit_zeros by done. cbn [app take Nat.add]. by rewrite take_app_length.
Qed.

#[export] Program Instance StandardInputReport_codec
  : WireCodec StandardInputReport StandardInputReportError := {|
  wire_wf := si_wf; wire := si_wire; parse := StandardInputReport_decode |}.
Next Obligation.
  intros m Hm. rewrite si_wire_eq by done. destruct Hm as (Hf & Hs & Hr).
  pose proof (report_len_le _ Hr). pose proof (report_bytes_ok _ Hr).
  destruct (si_report m); cbn [standard_kind]; solve_bytes.
Qed.
Next Obligation.
  intros m Hm. rewrite si_wire_eq by done. destruct Hm as (Hf & Hs & Hr).
  destruct m as [f s r]. cbn [si_flags si_sequence si_report] in *.
  pose proof (report_len_le _ Hr) as Hl. destruct Hr as [Hlen Hb].
  unfold StandardInputReport_decode, STANDARD_INPUT_HEADER_LEN.
  cbn [app u16_to_le_bytes length]. rewrite decide_False by lia. unfold byte_at. cbn [nth].
  rewrite Nat2Z.id. rewrite decide_False by (intros Hn; apply Hn; lia).
  cbn [drop]. rewrite u16_from_to_le by done.
  destruct r as [[d]|[d]|[d]]; cbn [report_bytes keyboard_bytes mouse_bytes consumer_bytes
    report_kind report_len standard_kind] in *; rewrite Hlen.
  - rewrite decide_True by done. done.
  - rewrite decide_False by (intros [? _]; done). rewrite decide_True by done. done.
  - rewrite !(decide_False (P := (_ = _ ∧ _))) by (intros [? _]; done).
    rewrite decide_True by done. cbn [result_bind]. unfold CONSUMER_REPORT_LEN in Hlen.
    explode d Hlen. split_bytes Hb. cbn [nth]. unfold ConsumerReport_from_usage_id.
    by rewrite u16_to_from_le.
Qed.
Next Obligation.
  intros b m Hb H. unfold StandardInputReport_decode, STANDARD_INPUT_HEADER_LEN in H.
  case_decide as Hl; [done|]. do 5 (destruct b as [|? b]; [cbn in Hl; lia|]).
  unfold byte_at in H. cbn [nth drop] in H. case_decide as Hlen; [done|].
  split_bytes Hb. cbn [length] in Hlen.
  apply bind_ok in H as (r & Hr & H). injection H as <-.
  assert (length b = Z.to_nat z3) as Hbl by lia.
  assert (standard_kind r = z ∧ report_bytes r = b ∧ report_ok r) as (Hk & Hrb & Hok).
  { case_decide as K1; [injection Hr as <-; destruct K1 as [-> K]; split; [done|]; split; [done|];
      split; [exact (eq_trans Hbl K)|done]|].
    case_decide as K2; [injection Hr as <-; destruct K2 as [-> K]; split; [done|]; split; [done|];
      split; [exact (eq_trans Hbl K)|done]|].
    case_decide as K3; [|by destruct (decide (1 ≤ z ≤ 3))].
    injection Hr as <-; destruct K3 as [-> K]. rewrite K in Hbl. unfold CONSUMER_REPORT_LEN in Hbl.
    explode b Hbl. split_bytes Hb. cbn [nth].
    assert (consumer_bytes (ConsumerReport_from_usage_id (u16_from_le_bytes b0 b1)) = [b0; b1])
      as Hc by by apply u16_to_from_le.
    split; [done|]. split; [exact Hc|]. split; [done|]. apply u16_to_le_bytes_ok. }
  assert (si_wf (mkStandardInput z0 (u16_from_le_bytes z1 z2) r)) as Hwf
    by (split; [done|split; [cbn; auto with hid|done]]).
  split; [done|]. unfold wire. rewrite si_wire_eq by done. cbn [si_report si_flags si_sequence].
  rewrite Hk, Hrb, u16_to_from_le, Hbl by done. cbn [app]. do 4 f_equal.
  f_equal. unfold u8_ok in *. lia.
Qed.

(** ** Properties *)

(** The fixed-size messages of the link (handshake, profile begin, result and
    activation, USB state, LED output and input reports) read back as they were written,
    and each decoder accepts exactly one image per message, so a valid record has one
    meaning and every other byte string is refused. *)
Theorem fixed_message_codecs :
  (∀ m, hello_wf m → Hello_decode (Hello_encode m) = Ok m) ∧
  (∀ b m, bytes_ok b → Hello_decode b = Ok m → hello_wf m ∧ Hello_encode m = b) ∧
  (∀ m, profile_begin_wf m → ProfileBegin_decode (ProfileBegin_encode m) = Ok m) ∧
  (∀ b m, bytes_ok b → ProfileBegin_decode b = Ok m → ProfileBegin_encode m = b) ∧
  (∀ m, profile_result_wf m → ProfileResult_decode (ProfileResult_encode m) = Ok m) ∧
  (∀ b m, bytes_ok b → ProfileResult_decode b = Ok m → ProfileResult_encode m = b) ∧
  (∀ m, activate_profile_wf m → ActivateProfile_decode (ActivateProfile_encode m) = Ok m) ∧
  (∀ b m, bytes_ok b → ActivateProfile_decode b = Ok m → ActivateProfile_encode m = b) ∧
  (∀ m, usb_state_wf m → UsbState_decode (UsbState_encode m) = Ok m) ∧
  (∀ b m, bytes_ok b → UsbState_decode b = Ok m → UsbState_encode m = b) ∧
  (∀ m, so_wf m → StandardOutputReport_decode (StandardOutputReport_encode m) = Ok m) ∧
  (∀ b m, bytes_ok b → StandardOutputReport_decode b = Ok m →
     so_wf m ∧ StandardOutputReport_encode m = b) ∧
  (∀ m, si_wf m → StandardInputReport_decode (si_wire m) = Ok m) ∧
  (∀ b m, bytes_ok b → StandardInputReport_decode b = Ok m → si_wf m ∧ si_wire m = b).
Proof.
  split; [exact (parse_wire (M := Hello))|]. split; [exact (wire_parse (M := Hello))|].
  split; [exact (parse_wire (M := ProfileBegin))|].
  split; [intros b m Hb H; exact (proj2 (wire_parse (M := ProfileBegin) (E := MessageError) b m Hb H))|].
  split; [exact (parse_wire (M := ProfileResult))|].
  split; [intros b m Hb H; exact (proj2 (wire_parse (M := ProfileResult) (E := MessageError) b m Hb H))|].
  split; [exact (parse_wire (M := ActivateProfile))|].
  split; [intros b m Hb H; exact (proj2 (wire_parse (M := ActivateProfile) (E := MessageError) b m Hb H))|].
  split; [exact (parse_wire (M := UsbState))|].
  split; [intros b m Hb H; exact (proj2 (wire_parse (M := UsbState) (E := MessageError) b m Hb H))|].
  split; [exact (parse_wire (M := StandardOutputReport))|].
  split; [exact (wire_parse (M := StandardOutputReport))|].
  split; [exact (parse_wire (M := StandardInputReport))|].
  exact (wire_parse (M := StandardInputReport)).
Qed.

Lemma fixed_message_codecs_witness :
  Hello_decode (Hello_encode (mkHello RoleDevice 1 0 9 511 77)) =
    Ok (mkHello RoleDevice 1 0 9 511 77).
Proof.
  apply (proj1 fixed_message_codecs). split; apply (bool_decide_unpack _); vm_compute; exact I.
Defined.

(** A buffer encoder: either the buffer is too short and untouched, or the used prefix
    reads back as the message and the rest of the buffer is as it was. *)
Definition encodes_into {M} (wf : M → Prop) (size : M → nat)
  (encode : M → list Z → list Z * Result MessageError nat)
  (decode : list Z → Result MessageError M) : Prop :=
  ∀ m out, wf m →
    match encode m out with
    | (out', Ok n) => n = size m ∧ (n ≤ length out)%nat ∧ length out' = length out ∧
        decode (take n out') = Ok m ∧ drop n out' = drop n out
    | (out', Err e) => e = InvalidLength ∧ out' = out ∧ (length out < size m)%nat
    end.

Lemma encodes_into_codec {M} `{WireCodec M MessageError} encode :
  (∀ m out, wire_wf m → encode m out =
     if decide (length out < length (wire m))%nat then (out, Err InvalidLength)
     else (buffer_encoded (wire m) out, Ok (length (wire m)))) →
  encodes_into wire_wf (λ m, length (wire m)) encode parse.
Proof.
  intros He m out Hm. rewrite He by done. case_decide as Hl; [done|].
  unfold buffer_encoded. split; [done|]. split; [lia|].
  split; [rewrite length_app, length_drop; lia|].
  rewrite take_app_length, drop_app_length. split; [by apply parse_wire|done].
Qed.

(** The messages with data (endpoint reports, control requests and responses, profile
    chunks) written into a caller's buffer either fit, read back unchanged and leave the
    rest of the buffer alone, or are refused without touching it; and what decodes is
    the image of the message it gives. *)
Theorem buffer_message_codecs :
  encodes_into raw_wf (λ m, 6 + length (raw_data m))%nat
    RawEndpointReport_encode RawEndpointReport_decode ∧
  encodes_into creq_wf (λ m, 14 + length (creq_data m))%nat
    MirrorControlRequest_encode MirrorControlRequest_decode ∧
  encodes_into cres_wf (λ m, 7 + length (cres_data m))%nat
    MirrorControlResponse_encode MirrorControlResponse_decode ∧
  encodes_into chunk_wf (λ m, 8 + length (pc_data m))%nat
    ProfileChunk_encode ProfileChunk_decode ∧
  (∀ b m, bytes_ok b → RawEndpointReport_decode b = Ok m → raw_wf m ∧ raw_wire m = b) ∧
  (∀ b m, bytes_ok b → MirrorControlRequest_decode b = Ok m → creq_wf m ∧ creq_wire m = b) ∧
  (∀ b m, bytes_ok b → MirrorControlResponse_decode b = Ok m → cres_wf m ∧ cres_wire m = b) ∧
  (∀ b m, bytes_ok b → ProfileChunk_decode b = Ok m → chunk_wf m ∧ chunk_wire m = b).
Proof.
  assert (∀ M (wf : M → Prop) s s' enc dec, (∀ m, wf m → s m = s' m) →
    encodes_into wf s enc dec → encodes_into wf s' enc dec) as Hsize.
  { intros M wf s s' enc dec Hs H m out Hm. specialize (H m out Hm). rewrite <- Hs by done.
    exact H. }
  split; [|split; [|split; [|split; [|split; [exact (wire_parse (M := RawEndpointReport))|
    split; [exact (wire_parse (M := MirrorControlRequest))|
    split; [exact (wire_parse (M := MirrorControlResponse))|
    exact (wire_parse (M := ProfileChunk))]]]]]]].
  - eapply Hsize; [|exact (@encodes_into_codec RawEndpointReport RawEndpointReport_codec _ raw_encode_wire)].
    intros m _. change (length (raw_wire m) = (6 + length (raw_data m))%nat). unfold raw_wire. by rewrite length_app.
  - eapply Hsize; [|exact (@encodes_into_codec MirrorControlRequest MirrorControlRequest_codec _ creq_encode_wire)].
    intros m (_ & Hs & _). change (length (creq_wire m) = (14 + length (creq_data m))%nat). unfold creq_wire. rewrite !length_app, Hs. done.
  - eapply Hsize; [|exact (@encodes_into_codec MirrorControlResponse MirrorControlResponse_codec _ cres_encode_wire)].
    intros m _. change (length (cres_wire m) = (7 + length (cres_data m))%nat). unfold cres_wire. by rewrite length_app.
  - eapply Hsize; [|exact (@encodes_into_codec ProfileChunk ProfileChunk_codec _ chunk_encode_wire)].
    intros m _. change (length (chunk_wire m) = (8 + length (pc_data m))%nat). unfold chunk_wire. by rewrite length_app.
Qed.

Lemma buffer_message_codecs_witness :
  ∃ out', ProfileChunk_encode (mkProfileChunk 1 2 [3; 4]) (zeros 12) = (out', Ok 10%nat) ∧
    ProfileChunk_decode (take 10 out') = Ok (mkProfileChunk 1 2 [3; 4]).
Proof.
  pose proof (proj1 (proj2 (proj2 (proj2 buffer_message_codecs)))
    (mkProfileChunk 1 2 [3; 4]) (zeros 12)
    ltac:(unfold chunk_wf; apply (bool_decide_unpack _); vm_compute; exact I)) as H.
  destruct (ProfileChunk_encode _ _) as [out' r] eqn:E. vm_compute in E.
  injection E as <- <-. eexists. split; [reflexivity|]. apply H.
Defined.
