(* ===== verification/ControlFragment.v ===== *)
(** * Control transfer fragments ([src/src/interchip/control_fragment.rs])

    A mirrored control request or response of up to 256 data bytes crosses the link in
    fragments that fit one cell.  The two directions have the same fields and the same
    assembler except for what they repeat in every fragment, the setup packet or the
    status; that tag is the parameter [T] here.  The wire formats are separate. *)

From S2P Require Import Prelude Cell Records Message.

Definition CONTROL_FRAGMENT_FIRST : Z := Z.shiftl 1 0.
Definition CONTROL_FRAGMENT_LAST : Z := Z.shiftl 1 1.
Definition CONTROL_FRAGMENT_DATA_MAX_LEN : nat := 86.
Definition CONTROL_REQUEST_FRAGMENT_HEADER_LEN : nat := 18.
Definition CONTROL_RESPONSE_FRAGMENT_HEADER_LEN : nat := 10.
Definition CONTROL_REQUEST_FRAGMENT_MAX_WIRE_LEN : nat :=
  CONTROL_REQUEST_FRAGMENT_HEADER_LEN + CONTROL_FRAGMENT_DATA_MAX_LEN.
Definition CONTROL_RESPONSE_FRAGMENT_MAX_WIRE_LEN : nat :=
  CONTROL_RESPONSE_FRAGMENT_HEADER_LEN + CONTROL_FRAGMENT_DATA_MAX_LEN.

Inductive ControlFragmentError := FragMalformed | FragOutOfOrder | FragTooLarge.
#[export] Instance ControlFragmentError_eq_dec : EqDecision ControlFragmentError.
Proof. solve_decision. Defined.

Definition fragment_bounds (total_length offset : nat) : Result ControlFragmentError unit :=
  if decide (total_length > CONTROL_DATA_MAX_LEN ∨ offset > total_length)%nat
  then Err FragTooLarge
  else if decide (total_length ≠ 0 ∧ offset = total_length)%nat then Err FragOutOfOrder
  else Ok tt.

Definition fragment_flags (offset fin total_length : nat) : Z :=
  Z.lor (Z.b2z (bool_decide (offset = 0%nat)) * CONTROL_FRAGMENT_FIRST)
        (Z.b2z (bool_decide (fin = total_length)) * CONTROL_FRAGMENT_LAST).

Definition has_flag (flags flag : Z) : bool := bool_decide (Z.land flags flag ≠ 0).

Definition validate_fragment (flags offset total_length : Z) (data_length : nat)
  : Result ControlFragmentError unit :=
  if decide (
    Z.land flags (u8_not (Z.lor CONTROL_FRAGMENT_FIRST CONTROL_FRAGMENT_LAST)) ≠ 0 ∨
    total_length > Z.of_nat CONTROL_DATA_MAX_LEN ∨
    offset + Z.of_nat data_length > total_length ∨
    has_flag flags CONTROL_FRAGMENT_FIRST ≠ bool_decide (offset = 0) ∨
    has_flag flags CONTROL_FRAGMENT_LAST ≠
      bool_decide (offset + Z.of_nat data_length = total_length))
  then Err FragMalformed else Ok tt.

Section Fragments.
Context {T : Type} `{EqDecision T}.

(** [ControlRequestFragment] and [ControlResponseFragment]. *)
Record Fragment := mkFragment {
  frag_request_id : Z;
  frag_tag : T;
  frag_offset : Z;
  frag_total_length : Z;
  frag_flags : Z;
  frag_length : Z;
  frag_array : list Z
}.

Definition frag_data (f : Fragment) : list Z := take (Z.to_nat (frag_length f)) (frag_array f).

(** [from_request] and [from_response], given the message's fields. *)
Definition fragment_from (id : Z) (tag : T) (data : list Z) (offset : nat)
  : Result ControlFragmentError Fragment :=
  let? _ := fragment_bounds (length data) offset in
  let fin := Nat.min (length data) (offset + CONTROL_FRAGMENT_DATA_MAX_LEN) in
  Ok (mkFragment id tag (as_u16 (Z.of_nat offset)) (as_u16 (Z.of_nat (length data)))
        (fragment_flags offset fin (length data)) (as_u8 (Z.of_nat (fin - offset)))
        (blit 0 (slice offset fin data) (zeros CONTROL_FRAGMENT_DATA_MAX_LEN))).

(** [ControlRequestAssembler] and [ControlResponseAssembler]. *)
Record Assembler := mkAssembler {
  asm_request_id : option Z;
  asm_tag : T;
  asm_total_length : Z;
  asm_next_offset : Z;
  asm_data : list Z
}.

Definition Assembler_new (default_tag : T) : Assembler :=
  mkAssembler None default_tag 0 0 (zeros CONTROL_DATA_MAX_LEN).

Definition asm_reset (a : Assembler) : Assembler :=
  mkAssembler None (asm_tag a) 0 0 (asm_data a).

(** [push]; [finish] is the message's [new]. *)
Definition asm_push {M} (finish : Z → T → list Z → Result MessageError M)
  (a : Assembler) (f : Fragment) : Assembler * Result ControlFragmentError (option M) :=
  let a := if has_flag (frag_flags f) CONTROL_FRAGMENT_FIRST
           then mkAssembler (Some (frag_request_id f)) (frag_tag f) (frag_total_length f) 0
                  (asm_data a)
           else a in
  if decide (asm_request_id a ≠ Some (frag_request_id f) ∨ asm_tag a ≠ frag_tag f ∨
             asm_total_length a ≠ frag_total_length f ∨ asm_next_offset a ≠ frag_offset f)
  then (asm_reset a, Err FragOutOfOrder)
  else
    let fin := (Z.to_nat (frag_offset f) + length (frag_data f))%nat in
    let a := mkAssembler (asm_request_id a) (asm_tag a) (asm_total_length a)
               (as_u16 (Z.of_nat fin))
               (blit (Z.to_nat (frag_offset f)) (frag_data f) (asm_data a)) in
    if negb (has_flag (frag_flags f) CONTROL_FRAGMENT_LAST) then (a, Ok None)
    else match finish (frag_request_id f) (frag_tag f) (take fin (asm_data a)) with
         | Err _ => (a, Err FragMalformed)
         | Ok m => (asm_reset a, Ok (Some m))
         end.
End Fragments.
Arguments Fragment : clear implicits.
Arguments Assembler : clear implicits.

(** ** Requests *)

Definition ControlRequestFragment : Type := Fragment (list Z).

Definition from_request (m : MirrorControlRequest) (offset : nat)
  : Result ControlFragmentError ControlRequestFragment :=
  fragment_from (creq_request_id m) (creq_setup_packet m) (creq_data m) offset.

Definition ControlRequestFragment_encode (f : ControlRequestFragment) (out : list Z)
  : list Z * Result MessageError nat :=
  let len := (CONTROL_REQUEST_FRAGMENT_HEADER_LEN + length (frag_data f))%nat in
  if decide (length out < len)%nat then (out, Err InvalidLength)
  else
    let out := blit 0 (u32_to_le_bytes (frag_request_id f)) out in
    let out := blit 4 [frag_flags f] out in
    let out := blit 5 [0] out in
    let out := blit 6 (u16_to_le_bytes (frag_offset f)) out in
    let out := blit 8 (u16_to_le_bytes (frag_total_length f)) out in
    let out := blit 10 (frag_tag f) out in
    (blit 18 (frag_data f) out, Ok len).

Definition ControlRequestFragment_decode (bytes : list Z)
  : Result ControlFragmentError ControlRequestFragment :=
  if decide (length bytes < CONTROL_REQUEST_FRAGMENT_HEADER_LEN)%nat then Err FragMalformed
  else
    let data_len := (length bytes - CONTROL_REQUEST_FRAGMENT_HEADER_LEN)%nat in
    if decide (byte_at bytes 5 ≠ 0 ∨ (data_len > CONTROL_FRAGMENT_DATA_MAX_LEN)%nat)
    then Err FragMalformed
    else
      let offset := read_u16 (slice 6 8 bytes) in
      let total_length := read_u16 (slice 8 10 bytes) in
      let? _ := validate_fragment (byte_at bytes 4) offset total_length data_len in
      Ok (mkFragment (read_u32 (take 4 bytes)) (slice 10 18 bytes) offset total_length
            (byte_at bytes 4) (as_u8 (Z.of_nat data_len))
            (blit 0 (drop 18 bytes) (zeros CONTROL_FRAGMENT_DATA_MAX_LEN))).

Definition ControlRequestAssembler_push (a : Assembler (list Z)) (f : ControlRequestFragment) :=
  asm_push MirrorControlRequest_new a f.

(** ** Responses *)

Definition ControlResponseFragment : Type := Fragment ControlStatus.

Definition from_response (m : MirrorControlResponse) (offset : nat)
  : Result ControlFragmentError ControlResponseFragment :=
  fragment_from (cres_request_id m) (cres_status m) (cres_data m) offset.

Definition ControlResponseFragment_encode (f : ControlResponseFragment) (out : list Z)
  : list Z * Result MessageError nat :=
  let len := (CONTROL_RESPONSE_FRAGMENT_HEADER_LEN + length (frag_data f))%nat in
  if decide (length out < len)%nat then (out, Err InvalidLength)
  else
    let out := blit 0 (u32_to_le_bytes (frag_request_id f)) out in
    let out := blit 4 [ControlStatus_code (frag_tag f)] out in
    let out := blit 5 [frag_flags f] out in
    let out := blit 6 (u16_to_le_bytes (frag_offset f)) out in
    let out := blit 8 (u16_to_le_bytes (frag_total_length f)) out in
    (blit 10 (frag_data f) out, Ok len).

Definition ControlResponseFragment_decode (bytes : list Z)
  : Result ControlFragmentError ControlResponseFragment :=
  if decide (length bytes < CONTROL_RESPONSE_FRAGMENT_HEADER_LEN)%nat then Err FragMalformed
  else
    let data_len := (length bytes - CONTROL_RESPONSE_FRAGMENT_HEADER_LEN)%nat in
    if decide (data_len > CONTROL_FRAGMENT_DATA_MAX_LEN)%nat then Err FragMalformed
    else
      let? status := map_err (λ _, FragMalformed) (ControlStatus_of (byte_at bytes 4)) in
      let offset := read_u16 (slice 6 8 bytes) in
      let total_length := read_u16 (slice 8 10 bytes) in
      let? _ := validate_fragment (byte_at bytes 5) offset total_length data_len in
      Ok (mkFragment (read_u32 (take 4 bytes)) status offset total_length (byte_at bytes 5)
            (as_u8 (Z.of_nat data_len))
            (blit 0 (drop 10 bytes) (zeros CONTROL_FRAGMENT_DATA_MAX_LEN))).

Definition ControlResponseAssembler_push (a : Assembler ControlStatus)
  (f : ControlResponseFragment) := asm_push MirrorControlResponse_new a f.

(** ** Fragments by position *)

(** The fragment of a message of [total] bytes that carries [d] at [off]. *)
Definition frag_at {T} (id : Z) (tag : T) (total off : nat) (d : list Z) : Fragment T :=
  mkFragment id tag (Z.of_nat off) (Z.of_nat total) (fragment_flags off (off + length d) total)
    (Z.of_nat (length d)) (blit 0 d (zeros CONTROL_FRAGMENT_DATA_MAX_LEN)).

(** What a decoder accepts and a sender makes. *)
Definition frag_fits (total off : nat) (d : list Z) : Prop :=
  (off + length d ≤ total ≤ CONTROL_DATA_MAX_LEN)%nat ∧
  (length d ≤ CONTROL_FRAGMENT_DATA_MAX_LEN)%nat ∧ bytes_ok d.

Definition frag_wf {T} (tag_ok : T → Prop) (f : Fragment T) : Prop :=
  ∃ id tag total off d,
    u32_ok id ∧ tag_ok tag ∧ frag_fits total off d ∧ f = frag_at id tag total off d.

Lemma frag_at_data {T} id (tag : T) total off d :
  frag_data (frag_at id tag total off d) = d.
Proof. unfold frag_data. cbn [frag_length frag_array frag_at]. rewrite Nat2Z.id. by apply take_blit. Qed.

Lemma has_flag_first off fin total :
  has_flag (fragment_flags off fin total) CONTROL_FRAGMENT_FIRST = bool_decide (off = 0%nat).
Proof. unfold fragment_flags. by destruct (bool_decide (off = _)), (bool_decide (fin = _)). Qed.

Lemma has_flag_last off fin total :
  has_flag (fragment_flags off fin total) CONTROL_FRAGMENT_LAST = bool_decide (fin = total).
Proof. unfold fragment_flags. by destruct (bool_decide (off = _)), (bool_decide (fin = _)). Qed.

Lemma fragment_flags_u8 off fin total : u8_ok (fragment_flags off fin total).
Proof.
  unfold fragment_flags.
  destruct (bool_decide (off = _)), (bool_decide (fin = _)); vm_compute; split; done.
Qed.

(** A flags byte that passes validation is the one the sender computes. *)
Lemma flags_canonical flags off fin total : u8_ok flags →
  Z.land flags (u8_not (Z.lor CONTROL_FRAGMENT_FIRST CONTROL_FRAGMENT_LAST)) = 0 →
  has_flag flags CONTROL_FRAGMENT_FIRST = bool_decide (off = 0%nat) →
  has_flag flags CONTROL_FRAGMENT_LAST = bool_decide (fin = total) →
  flags = fragment_flags off fin total.
Proof.
  intros Hf Hrest H1 H2.
  assert (flags < 4) as Hlt.
  { destruct (decide (flags < 4)) as [|Hge]; [done|]. exfalso.
    change (u8_not _) with (Z.shiftl (Z.ones 6) 2) in Hrest.
    assert (Z.shiftr (Z.land flags (Z.shiftl (Z.ones 6) 2)) 2 = 0) as Hs by by rewrite Hrest.
    rewrite Z.shiftr_land, Z.shiftr_shiftl_l in Hs by lia.
    change (Z.land (Z.shiftr flags 2) (Z.ones 6) = 0) in Hs.
    rewrite Z.land_ones, Z.shiftr_div_pow2 in Hs by lia. unfold u8_ok in Hf.
    rewrite Z.mod_small in Hs; Z.to_euclidean_division_equations; lia. }
  unfold fragment_flags. rewrite <- H1, <- H2. unfold u8_ok in Hf.
  assert (flags = 0 ∨ flags = 1 ∨ flags = 2 ∨ flags = 3) as [->|[->|[->| ->]]] by lia; done.
Qed.

Lemma validate_fragment_inv flags offset total dlen : u8_ok flags → u16_ok offset → u16_ok total →
  validate_fragment flags offset total dlen = Ok tt →
  (Z.to_nat offset + dlen ≤ Z.to_nat total ≤ CONTROL_DATA_MAX_LEN)%nat ∧
  flags = fragment_flags (Z.to_nat offset) (Z.to_nat offset + dlen) (Z.to_nat total).
Proof.
  intros Hf Ho Ht. unfold validate_fragment. case_decide as H; [done|]. intros _.
  apply Decidable.not_or in H as [H1 H]. apply Decidable.not_or in H as [H2 H].
  apply Decidable.not_or in H as [H3 H]. apply Decidable.not_or in H as [H4 H5].
  apply dec_stable in H1, H4, H5. unfold u16_ok in *.
  split; [unfold CONTROL_DATA_MAX_LEN in *; lia|]. apply flags_canonical; [done|done| |].
  - rewrite H4. apply bool_decide_ext. lia.
  - rewrite H5. apply bool_decide_ext. lia.
Qed.

Lemma validate_fragment_ok total off d : frag_fits total off d →
  validate_fragment (fragment_flags off (off + length d) total) (Z.of_nat off) (Z.of_nat total)
    (length d) = Ok tt.
Proof.
  intros (Hl & _). unfold validate_fragment. rewrite decide_False; [done|].
  rewrite has_flag_first, has_flag_last. unfold CONTROL_DATA_MAX_LEN in *.
  intros [H|[H|[H|[H|H]]]].
  - apply H. unfold fragment_flags. by destruct (bool_decide (off = _)), (bool_decide (_ = total)).
  - lia.
  - lia.
  - apply H. apply bool_decide_ext. lia.
  - apply H. apply bool_decide_ext. lia.
Qed.

Lemma fragment_from_at {T} id (tag : T) data off :
  (length data ≤ CONTROL_DATA_MAX_LEN)%nat → (off < length data ∨ off = 0 ∧ length data = 0)%nat →
  fragment_from id tag data off =
    Ok (frag_at id tag (length data) off
          (slice off (Nat.min (length data) (off + CONTROL_FRAGMENT_DATA_MAX_LEN)) data)).
Proof.
  intros Hl Hoff. unfold fragment_from, fragment_bounds.
  rewrite decide_False by lia. rewrite decide_False by lia. cbn [result_bind].
  unfold frag_at. set (fin := Nat.min _ _).
  assert (length (slice off fin data) = fin - off)%nat as Hs by (rewrite length_slice; lia).
  rewrite Hs. unfold CONTROL_DATA_MAX_LEN, CONTROL_FRAGMENT_DATA_MAX_LEN in *.
  rewrite !as_u16_of_nat, as_u8_of_nat by lia.
  replace (off + (fin - off))%nat with fin by lia. done.
Qed.

(** ** Wire formats *)

Definition req_frag_wire (f : ControlRequestFragment) : list Z :=
  (u32_to_le_bytes (frag_request_id f) ++ [frag_flags f; 0] ++ u16_to_le_bytes (frag_offset f) ++
   u16_to_le_bytes (frag_total_length f) ++ frag_tag f) ++ frag_data f.

Definition res_frag_wire (f : ControlResponseFragment) : list Z :=
  (u32_to_le_bytes (frag_request_id f) ++ [ControlStatus_code (frag_tag f); frag_flags f] ++
   u16_to_le_bytes (frag_offset f) ++ u16_to_le_bytes (frag_total_length f)) ++ frag_data f.

Definition setup_ok (setup : list Z) : Prop := length setup = 8%nat ∧ bytes_ok setup.

Lemma u16_of_nat_256 n : (n ≤ 256)%nat → u16_ok (Z.of_nat n).
Proof. words. Qed.

#[export] Program Instance ControlRequestFragment_codec
  : WireCodec ControlRequestFragment ControlFragmentError := {|
  wire_wf := frag_wf setup_ok; wire := req_frag_wire; parse := ControlRequestFragment_decode |}.
Next Obligation.
  intros f (id & tag & total & off & d & Hid & [_ Hb] & (_ & _ & Hd) & ->).
  unfold req_frag_wire. rewrite frag_at_data. cbn [frag_request_id frag_flags frag_offset
    frag_total_length frag_tag frag_at]. solve_bytes. apply fragment_flags_u8.
Qed.
Next Obligation.
  intros f (id & tag & total & off & d & Hid & [Hl8 Hb] & Hfit & ->).
  pose proof (validate_fragment_ok _ _ _ Hfit) as Hv. destruct Hfit as (Hl & Hm & Hd).
  unfold ControlRequestFragment_decode, req_frag_wire. rewrite frag_at_data.
  cbn [frag_request_id frag_flags frag_offset frag_total_length frag_tag frag_at].
  explode tag Hl8. cbn [app u16_to_le_bytes u32_to_le_bytes length].
  unfold CONTROL_REQUEST_FRAGMENT_HEADER_LEN, CONTROL_FRAGMENT_DATA_MAX_LEN, CONTROL_DATA_MAX_LEN in *.
  rewrite decide_False by lia. reads. rewrite decide_False by (intros [?|?]; [done|lia]).
  rewrite u32_from_to_le, !u16_from_to_le by (try done; apply u16_of_nat_256; lia).
  rewrite Nat.sub_0_r, ?take_0, Hv. cbn [result_bind].
  unfold frag_at. by rewrite as_u8_of_nat by lia.
Qed.
Next Obligation.
  intros b f Hb H. unfold ControlRequestFragment_decode, CONTROL_REQUEST_FRAGMENT_HEADER_LEN in H.
  case_decide as Hl; [done|].
  do 18 (destruct b as [|? b]; [cbn in Hl; lia|]). split_bytes Hb. reads.
  case_decide as Hc; [done|]. apply bind_ok in H as ([] & Hv & H). injection H as <-.
  apply Decidable.not_or in Hc as [Hz Hm]. apply dec_stable in Hz. subst.
  cbn [length Nat.sub] in *. rewrite Nat.sub_0_r in *. rewrite ?take_0 in *.
  apply validate_fragment_inv in Hv as [Hfit Hflags]; [|auto with hid..].
  set (off := u16_from_le_bytes z5 z6) in *. set (total := u16_from_le_bytes z7 z8) in *.
  assert (u16_ok off ∧ u16_ok total) as [Ho Ht] by (split; unfold off, total; auto with hid).
  unfold CONTROL_FRAGMENT_DATA_MAX_LEN in *. rewrite as_u8_of_nat by lia.
  assert (mkFragment (u32_from_le_bytes z z0 z1 z2) [z9; z10; z11; z12; z13; z14; z15; z16] off total
    z3 (Z.of_nat (length b)) (blit 0 b (zeros 86)) =
    frag_at (u32_from_le_bytes z z0 z1 z2) [z9; z10; z11; z12; z13; z14; z15; z16]
      (Z.to_nat total) (Z.to_nat off) b) as Heq.
  { unfold frag_at. rewrite !Z2Nat.id by (unfold u16_ok in *; lia). by rewrite <- Hflags. }
  rewrite Heq. split.
  - exists (u32_from_le_bytes z z0 z1 z2), [z9; z10; z11; z12; z13; z14; z15; z16],
      (Z.to_nat total), (Z.to_nat off), b. split; [auto with hid|]. split; [split; [done|solve_bytes]|].
    split; [|done]. split; [done|]. split; [unfold CONTROL_FRAGMENT_DATA_MAX_LEN; lia|done].
  - unfold wire, req_frag_wire. rewrite frag_at_data.
    cbn [frag_request_id frag_flags frag_offset frag_total_length frag_tag frag_at].
    rewrite <- Hflags, !Z2Nat.id by (unfold u16_ok in *; lia). unfold off, total.
    by rewrite u32_to_from_le, !u16_to_from_le.
Qed.

#[export] Program Instance ControlResponseFragment_codec
  : WireCodec ControlResponseFragment ControlFragmentError := {|
  wire_wf := frag_wf (λ _, True); wire := res_frag_wire; parse := ControlResponseFragment_decode |}.
Next Obligation.
  intros f (id & tag & total & off & d & Hid & _ & (_ & _ & Hd) & ->).
  unfold res_frag_wire. rewrite frag_at_data. cbn [frag_request_id frag_flags frag_offset
    frag_total_length frag_tag frag_at]. pose proof (fragment_flags_u8 off (off + length d) total).
  destruct tag; solve_bytes.
Qed.
Next Obligation.
  intros f (id & tag & total & off & d & Hid & _ & Hfit & ->).
  pose proof (validate_fragment_ok _ _ _ Hfit) as Hv. destruct Hfit as (Hl & Hm & Hd).
  unfold ControlResponseFragment_decode, res_frag_wire. rewrite frag_at_data.
  cbn [frag_request_id frag_flags frag_offset frag_total_length frag_tag frag_at].
  cbn [app u16_to_le_bytes u32_to_le_bytes length].
  unfold CONTROL_RESPONSE_FRAGMENT_HEADER_LEN, CONTROL_FRAGMENT_DATA_MAX_LEN, CONTROL_DATA_MAX_LEN in *.
  rewrite decide_False by lia. reads. rewrite decide_False by lia.
  rewrite ControlStatus_code_of. cbn [map_err result_bind].
  rewrite u32_from_to_le, !u16_from_to_le by (try done; apply u16_of_nat_256; lia).
  rewrite Nat.sub_0_r, ?take_0, Hv. cbn [result_bind].
  unfold frag_at. by rewrite as_u8_of_nat by lia.
Qed.
Next Obligation.
  intros b f Hb H. unfold ControlResponseFragment_decode, CONTROL_RESPONSE_FRAGMENT_HEADER_LEN in H.
  case_decide as Hl; [done|].
  do 10 (destruct b as [|? b]; [cbn in Hl; lia|]). split_bytes Hb. reads.
  case_decide as Hm; [done|]. apply bind_ok in H as (st & Hst & H).
  apply bind_ok in H as ([] & Hv & H). injection H as <-.
  destruct (ControlStatus_of z3) as [st'|] eqn:Hst'; [|done]. injection Hst as ->.
  apply ControlStatus_of_code in Hst'.
  cbn [length Nat.sub] in *. rewrite Nat.sub_0_r in *. rewrite ?take_0 in *.
  apply validate_fragment_inv in Hv as [Hfit Hflags]; [|auto with hid..].
  set (off := u16_from_le_bytes z5 z6) in *. set (total := u16_from_le_bytes z7 z8) in *.
  assert (u16_ok off ∧ u16_ok total) as [Ho Ht] by (split; unfold off, total; auto with hid).
  unfold CONTROL_FRAGMENT_DATA_MAX_LEN in *. rewrite as_u8_of_nat by lia.
  assert (mkFragment (u32_from_le_bytes z z0 z1 z2) st off total
    z4 (Z.of_nat (length b)) (blit 0 b (zeros 86)) =
    frag_at (u32_from_le_bytes z z0 z1 z2) st (Z.to_nat total) (Z.to_nat off) b) as Heq.
  { unfold frag_at. rewrite !Z2Nat.id by (unfold u16_ok in *; lia). by rewrite <- Hflags. }
  rewrite Heq. split.
  - exists (u32_from_le_bytes z z0 z1 z2), st, (Z.to_nat total), (Z.to_nat off), b.
    split; [auto with hid|]. split; [done|].
    split; [|done]. split; [done|]. split; [unfold CONTROL_FRAGMENT_DATA_MAX_LEN; lia|done].
  - unfold wire, res_frag_wire. rewrite frag_at_data.
    cbn [frag_request_id frag_flags frag_offset frag_total_length frag_tag frag_at].
    rewrite <- Hflags, !Z2Nat.id by (unfold u16_ok in *; lia). unfold off, total.
    by rewrite u32_to_from_le, !u16_to_from_le, Hst'.
Qed.

Lemma req_frag_encode_wire f out : length (frag_tag f) = 8%nat →
  ControlRequestFragment_encode f out =
    if decide (length out < length (req_frag_wire f))%nat then (out, Err InvalidLength)
    else (buffer_encoded (req_frag_wire f) out, Ok (length (req_frag_wire f))).
Proof.
  intros Hs. unfold ControlRequestFragment_encode.
  assert (length (req_frag_wire f) =
    CONTROL_REQUEST_FRAGMENT_HEADER_LEN + length (frag_data f))%nat as Hl
    by (unfold req_frag_wire; rewrite !length_app, Hs; done).
  rewrite Hl. case_decide; [done|]. f_equal. unfold req_frag_wire.
  destruct f as [i tag o t fl l arr]. cbn [frag_tag frag_request_id frag_flags frag_offset
    frag_total_length] in *. explode tag Hs. by encoded_into.
Qed.

Lemma res_frag_encode_wire f out :
  ControlResponseFragment_encode f out =
    if decide (length out < length (res_frag_wire f))%nat then (out, Err InvalidLength)
    else (buffer_encoded (res_frag_wire f) out, Ok (length (res_frag_wire f))).
Proof.
  unfold ControlResponseFragment_encode.
  assert (length (res_frag_wire f) =
    CONTROL_RESPONSE_FRAGMENT_HEADER_LEN + length (frag_data f))%nat as Hl
    by (unfold res_frag_wire; by rewrite !length_app).
  rewrite Hl. case_decide; [done|]. f_equal. unfold res_frag_wire. by encoded_into.
Qed.

(** ** Reassembly *)

Section Reassembly.
Context {T M : Type} `{EqDecision T}.
Context (finish : Z → T → list Z → Result MessageError M).

(** Every push in turn. *)
Fixpoint push_fragments (a : Assembler T) (fs : list (Fragment T))
  : Assembler T * list (Result ControlFragmentError (option M)) :=
  match fs with
  | [] => (a, [])
  | f :: fs =>
      let '(a, r) := asm_push finish a f in
      let '(a, rs) := push_fragments a fs in (a, r :: rs)
  end.

(** What a sender queues (as [DeviceLink::queue_next_control_request_fragment] does):
    fragments from [off] on, each starting where the one before ended, up to the one
    flagged last.  Every fragment but an empty one carries data, so [length data + 1] is
    enough fuel. *)
Fixpoint fragments_from (fuel : nat) (id : Z) (tag : T) (data : list Z) (off : nat)
  : list (Fragment T) :=
  match fuel with
  | O => []
  | S fuel =>
      match fragment_from id tag data off with
      | Err _ => []
      | Ok f =>
          f :: if has_flag (frag_flags f) CONTROL_FRAGMENT_LAST then []
               else fragments_from fuel id tag data (off + length (frag_data f))
      end
  end.

Definition all_fragments (id : Z) (tag : T) (data : list Z) : list (Fragment T) :=
  fragments_from (S (length data)) id tag data 0.

(** The assembler has the first [off] bytes of [data] and waits for the rest. *)
Definition waiting (a : Assembler T) (id : Z) (tag : T) (data : list Z) (off : nat) : Prop :=
  length (asm_data a) = CONTROL_DATA_MAX_LEN ∧
  (off = 0%nat ∨
   asm_request_id a = Some id ∧ asm_tag a = tag ∧ asm_total_length a = Z.of_nat (length data) ∧
   asm_next_offset a = Z.of_nat off ∧ take off (asm_data a) = take off data).

Lemma take_blit_extend (arr d : list Z) off :
  (off + length d ≤ length arr)%nat →
  take (off + length d) (blit off d arr) = take off arr ++ d.
Proof.
  intros Hl. unfold blit. rewrite app_assoc.
  rewrite take_app_le by (rewrite length_app, length_take; lia).
  apply take_ge. rewrite length_app, length_take. lia.
Qed.

Lemma asm_push_waiting a id tag data off d m :
  waiting a id tag data off → frag_fits (length data) off d →
  take (off + length d) data = take off data ++ d → finish id tag data = Ok m →
  let '(a', r) := asm_push finish a (frag_at id tag (length data) off d) in
  if decide (off + length d = length data)%nat
  then r = Ok (Some m) ∧ asm_request_id a' = None ∧ length (asm_data a') = CONTROL_DATA_MAX_LEN
  else r = Ok None ∧ waiting a' id tag data (off + length d).
Proof.
  intros [Hal Hw] (Hfit & Hd86 & _) Hext Hm. unfold asm_push.
  rewrite frag_at_data. cbn [frag_request_id frag_flags frag_offset frag_total_length frag_tag frag_at].
  rewrite has_flag_first, has_flag_last, Nat2Z.id.
  set (a1 := if bool_decide (off = 0%nat) then _ else a).
  assert (asm_request_id a1 = Some id ∧ asm_tag a1 = tag ∧
    asm_total_length a1 = Z.of_nat (length data) ∧ asm_next_offset a1 = Z.of_nat off ∧
    take off (asm_data a1) = take off data ∧ asm_data a1 = asm_data a)
    as (H1 & H2 & H3 & H4 & H5 & H6).
  { unfold a1. case_bool_decide as Hz; [by subst off|]. destruct Hw as [?|(?&?&?&?&?)]; [done|].
    repeat split; done. }
  rewrite H1, H2, H3, H4.
  rewrite decide_False by tauto. cbn [asm_data asm_request_id asm_tag].
  assert (take (off + length d) (blit off d (asm_data a1)) = take (off + length d) data) as Htake.
  { rewrite take_blit_extend by (rewrite H6, Hal; lia). by rewrite H5, Hext. }
  rewrite as_u16_of_nat by (unfold CONTROL_DATA_MAX_LEN in *; lia).
  assert (length (blit off d (asm_data a1)) = CONTROL_DATA_MAX_LEN) as Hbl
    by (rewrite length_blit; rewrite H6, ?Hal; [done|lia]).
  destruct (decide (off + length d = length data)%nat) as [Hlast|Hlast].
  - rewrite bool_decide_true by done. cbn [negb].
    rewrite Htake, take_ge, Hm by lia. done.
  - rewrite bool_decide_false by done. cbn [negb].
    split; [done|]. split; [exact Hbl|]. right. done.
Qed.

(** Feeding the sender's fragments to an assembler in any state gives [None] for each but
    the last, which gives the message, and leaves nothing half-assembled. *)
Lemma push_all_fragments fuel a id tag data off m :
  waiting a id tag data off → finish id tag data = Ok m → bytes_ok data →
  (length data ≤ CONTROL_DATA_MAX_LEN)%nat →
  (off < length data ∨ off = 0 ∧ length data = 0)%nat → (length data - off < fuel)%nat →
  ∃ n a', push_fragments a (fragments_from fuel id tag data off) =
      (a', replicate n (Ok None) ++ [Ok (Some m)]) ∧ asm_request_id a' = None.
Proof.
  intros Hw Hm Hb Hl. revert a off Hw. induction fuel as [|fuel IH]; intros a off Hw Hoff Hf; [lia|].
  cbn [fragments_from]. rewrite fragment_from_at by done.
  set (fin := Nat.min (length data) (off + CONTROL_FRAGMENT_DATA_MAX_LEN)).
  set (d := slice off fin data). rewrite frag_at_data.
  assert (length d = fin - off)%nat as Hdl by (unfold d; rewrite length_slice; lia).
  unfold CONTROL_FRAGMENT_DATA_MAX_LEN in *.
  assert (frag_fits (length data) off d) as Hfit.
  { split; [lia|]. split; [unfold CONTROL_FRAGMENT_DATA_MAX_LEN; lia|]. by apply bytes_ok_slice. }
  assert (take (off + length d) data = take off data ++ d) as Hext.
  { rewrite Hdl. replace (off + (fin - off))%nat with fin by lia.
    rewrite <- !slice_0. unfold d. rewrite slice_split by lia. done. }
  pose proof (asm_push_waiting a id tag data off d m Hw Hfit Hext Hm) as Hp.
  cbn [push_fragments]. destruct (asm_push finish a _) as [a1 r].
  cbn [frag_at frag_flags]. rewrite has_flag_last.
  destruct (decide (off + length d = length data)%nat) as [Hlast|Hlast].
  - destruct Hp as (-> & Hnone & _). rewrite bool_decide_true by done.
    exists 0%nat, a1. done.
  - destruct Hp as (-> & Hw1). rewrite bool_decide_false by done.
    destruct (IH a1 (off + length d)%nat Hw1 ltac:(lia) ltac:(lia)) as (n & a' & -> & Hn).
    exists (S n), a'. done.
Qed.

(** *** Any sequence of fragments *)

Definition run_data (run : list (Fragment T)) : list Z := concat (map frag_data run).

(** Consecutive fragments of one message, from its first byte on. *)
Definition run_ok (id : Z) (tag : T) (total : nat) (run : list (Fragment T)) : Prop :=
  ∀ k f, run !! k = Some f →
    frag_request_id f = id ∧ frag_tag f = tag ∧ frag_total_length f = Z.of_nat total ∧
    frag_offset f = Z.of_nat (length (run_data (take k run))).

(** The assembler's state after the pushes [fs]. *)
Definition asm_inv (a : Assembler T) (fs : list (Fragment T)) : Prop :=
  length (asm_data a) = CONTROL_DATA_MAX_LEN ∧
  (asm_request_id a = None ∨
   ∃ pre run id tag total, fs = pre ++ run ∧ run_ok id tag total run ∧
     asm_request_id a = Some id ∧ asm_tag a = tag ∧ asm_total_length a = Z.of_nat total ∧
     asm_next_offset a = Z.of_nat (length (run_data run)) ∧
     take (length (run_data run)) (asm_data a) = run_data run).

Lemma run_data_snoc run f : run_data (run ++ [f]) = run_data run ++ frag_data f.
Proof. unfold run_data. rewrite map_app, concat_app. simpl. by rewrite app_nil_r. Qed.

Lemma run_ok_snoc id tag total run f : run_ok id tag total run →
  frag_request_id f = id → frag_tag f = tag → frag_total_length f = Z.of_nat total →
  frag_offset f = Z.of_nat (length (run_data run)) → run_ok id tag total (run ++ [f]).
Proof.
  intros Hrun H1 H2 H3 H4 k g Hk. destruct (decide (k < length run)%nat) as [Hlt|Hge].
  - rewrite lookup_app_l in Hk by done. apply Hrun in Hk as (?&?&?&?).
    by rewrite take_app_le by lia.
  - apply lookup_lt_Some in Hk as Hlt. rewrite length_app in Hlt. simpl in Hlt.
    assert (k = length run) as -> by lia. rewrite lookup_app_r, Nat.sub_diag in Hk by lia.
    injection Hk as <-. rewrite take_app_length. done.
Qed.

Lemma asm_push_inv tag_ok a fs f a' r :
  asm_inv a fs → frag_wf tag_ok f → asm_push finish a f = (a', r) →
  asm_inv a' (fs ++ [f]) ∧
  (∀ m, r = Ok (Some m) → ∃ pre run id tag total, fs ++ [f] = pre ++ run ∧
     run_ok id tag total run ∧ length (run_data run) = total ∧
     finish id tag (run_data run) = Ok m).
Proof.
  intros [Hal Hst] (id & tag & total & off & d & _ & _ & Hfit & ->) H.
  destruct Hfit as (Hfit & Hd86 & _). unfold asm_push in H.
  rewrite frag_at_data in H. cbn [frag_request_id frag_flags frag_offset frag_total_length
    frag_tag frag_at] in H. rewrite has_flag_first, has_flag_last, Nat2Z.id in H.
  set (f := frag_at id tag total off d) in *.
  set (a1 := if bool_decide (off = 0%nat) then _ else a) in H.
  assert (asm_data a1 = asm_data a) as Hdata
    by (unfold a1; destruct (bool_decide _); reflexivity).
  case_decide as Hbad.
  { injection H as <- <-. split; [split; [by rewrite <- Hal, <- Hdata|by left]|done]. }
  apply Decidable.not_or in Hbad as [B1 B]. apply Decidable.not_or in B as [B2 B].
  apply Decidable.not_or in B as [B3 B4]. apply dec_stable in B1, B2, B3, B4.
  assert (∃ pre run, fs ++ [f] = pre ++ run ++ [f] ∧ run_ok id tag total run ∧
    off = length (run_data run) ∧ take off (asm_data a) = run_data run)
    as (pre & run & Hfs & Hrun & Hoff & Hpre).
  { unfold a1 in B1, B2, B3, B4.
    destruct (bool_decide (off = 0%nat)) eqn:Hz;
      [apply bool_decide_eq_true in Hz|apply bool_decide_eq_false in Hz].
    - subst off. exists fs, []. split; [done|]. split; [by intros k g Hk|]. by rewrite take_0.
    - destruct Hst as [Hnone|(pre & run & id' & tag' & total' & -> & Hrun & H1 & H2 & H3 & H4 & H5)];
        [by rewrite Hnone in B1|].
      rewrite H1 in B1. rewrite H2 in B2. rewrite H3 in B3. rewrite H4 in B4.
      injection B1 as B1. apply Nat2Z.inj in B3, B4. rewrite B1, B2, B3 in Hrun.
      exists pre, run. rewrite <- app_assoc. split; [done|]. split; [exact Hrun|].
      split; [done|]. by rewrite <- B4, H5. }
  assert (run_data (run ++ [f]) = run_data run ++ d) as Hsnoc
    by (rewrite run_data_snoc; unfold f; by rewrite frag_at_data).
  assert (length (run_data (run ++ [f])) = (off + length d)%nat) as Hlen
    by (rewrite Hsnoc, length_app; lia).
  assert (run_ok id tag total (run ++ [f])) as Hrun' by
    (apply run_ok_snoc; [done|done|done|done|by rewrite <- Hoff]).
  assert (take (off + length d) (blit off d (asm_data a1)) = run_data (run ++ [f])) as Htake.
  { rewrite take_blit_extend by (rewrite Hdata, Hal; lia). by rewrite Hdata, Hpre, Hsnoc. }
  assert (length (blit off d (asm_data a1)) = CONTROL_DATA_MAX_LEN) as Hbl
    by (rewrite length_blit; rewrite Hdata, ?Hal; [done|lia]).
  rewrite as_u16_of_nat in H by (unfold CONTROL_DATA_MAX_LEN in *; lia).
  cbn [asm_data] in H. case_bool_decide as Hlast; cbn [negb] in H.
  - rewrite Htake in H. destruct (finish id tag _) as [m|e] eqn:Hm.
    + injection H as <- <-. split; [split; [exact Hbl|by left]|].
      intros m' [= <-]. exists pre, (run ++ [f]), id, tag, total.
      split; [done|]. split; [done|]. split; [lia|done].
    + injection H as <- <-. split; [|done]. split; [exact Hbl|]. right.
      exists pre, (run ++ [f]), id, tag, total. rewrite Hlen.
      cbn [asm_request_id asm_tag asm_total_length asm_next_offset asm_data]. done.
  - injection H as <- <-. split; [|done]. split; [exact Hbl|]. right.
    exists pre, (run ++ [f]), id, tag, total. rewrite Hlen.
    cbn [asm_request_id asm_tag asm_total_length asm_next_offset asm_data]. done.
Qed.

Lemma push_fragments_inv tag_ok fs a seen : asm_inv a seen → Forall (frag_wf tag_ok) fs →
  ∀ k m, (push_fragments a fs).2 !! k = Some (Ok (Some m)) →
  ∃ pre run id tag total, seen ++ take (S k) fs = pre ++ run ∧ run_ok id tag total run ∧
    length (run_data run) = total ∧ finish id tag (run_data run) = Ok m.
Proof.
  intros Hinv Hfs. revert a seen Hinv. induction Hfs as [|f fs Hf _ IH]; intros a seen Hinv k m Hk;
    cbn [push_fragments] in Hk; [done|].
  destruct (asm_push finish a f) as [a1 r] eqn:E.
  destruct (asm_push_inv tag_ok _ _ _ _ _ Hinv Hf E) as [Hinv1 Hemit].
  destruct (push_fragments a1 fs) as [a2 rs] eqn:E2. destruct k as [|k].
  - injection Hk as ->. rewrite firstn_cons, take_0. by apply Hemit.
  - cbn in Hk. specialize (IH a1 (seen ++ [f]) Hinv1 k m).
    rewrite E2 in IH. specialize (IH Hk). rewrite firstn_cons.
    by rewrite <- app_assoc in IH.
Qed.
End Reassembly.

(** ** Properties *)

(** A control request survives the link.  For every well-formed request, from any
    state of the assembler, each fragment the sender queues fits its 104-byte buffer and
    is decoded back as it was, and pushing the decoded fragments gives [None] for all
    but the last, the request itself for the last, and leaves nothing half-assembled. *)
Theorem control_request_roundtrip m a :
  creq_wf m → length (asm_data a) = CONTROL_DATA_MAX_LEN →
  let fs := all_fragments (creq_request_id m) (creq_setup_packet m) (creq_data m) in
  encodes_into (frag_wf setup_ok) (λ f, length (req_frag_wire f))
    ControlRequestFragment_encode (λ b, map_err (λ _, InvalidLength) (ControlRequestFragment_decode b)) ∧
  Forall (λ f, frag_wf setup_ok f ∧ (length (req_frag_wire f) ≤ 104)%nat) fs ∧
  ∃ n a', push_fragments MirrorControlRequest_new a fs =
      (a', replicate n (Ok None) ++ [Ok (Some m)]) ∧ asm_request_id a' = None.
Proof.
  intros (Hid & Hs8 & Hsb & Hd & Hnew) Ha fs.
  destruct (creq_new_data _ _ _ _ Hnew) as (_ & _ & _ & Hl).
  assert (∀ fuel off, Forall (λ f, frag_wf setup_ok f ∧ (length (req_frag_wire f) ≤ 104)%nat)
    (fragments_from fuel (creq_request_id m) (creq_setup_packet m) (creq_data m) off)) as Hfs.
  { intros fuel. induction fuel as [|fuel IH]; intros off; [constructor|]. cbn [fragments_from].
    destruct (fragment_from _ _ _ off) as [f|] eqn:E; [|constructor].
    assert (off < length (creq_data m) ∨ off = 0 ∧ length (creq_data m) = 0)%nat as Hoff.
    { unfold fragment_from, fragment_bounds in E. case_decide; [done|]. case_decide; [done|lia]. }
    rewrite fragment_from_at in E by done. injection E as <-. constructor.
    2: { destruct (has_flag _ _); [apply List.Forall_nil|apply IH]. }
    set (d := slice _ _ (creq_data m)).
    assert (length d ≤ CONTROL_FRAGMENT_DATA_MAX_LEN ∧ off + length d ≤ length (creq_data m))%nat as [H1 H2]
      by (unfold d; rewrite length_slice; lia).
    split.
    - eexists _, _, _, _, _. split; [exact Hid|]. split; [by split|]. split; [|reflexivity].
      split; [lia|]. split; [done|]. by apply bytes_ok_slice.
    - unfold req_frag_wire. rewrite frag_at_data, !length_app.
      cbn [frag_tag frag_at frag_request_id frag_offset frag_total_length frag_flags].
      rewrite Hs8. cbn [length u32_to_le_bytes u16_to_le_bytes].
      unfold CONTROL_FRAGMENT_DATA_MAX_LEN in *. lia. }
  split; [|split; [apply Hfs|]].
  - intros f out Hf. assert (length (frag_tag f) = 8%nat) as Ht
      by (destruct Hf as (? & tag & ? & ? & ? & _ & [Ht _] & _ & ->); exact Ht).
    rewrite req_frag_encode_wire by done. case_decide as Hlen; [done|].
    unfold buffer_encoded. split; [done|]. split; [lia|].
    split; [rewrite length_app, length_drop; lia|].
    rewrite take_app_length, drop_app_length. split; [|done].
    assert (ControlRequestFragment_decode (req_frag_wire f) = Ok f) as Hdec
      by exact (@parse_wire _ _ ControlRequestFragment_codec f Hf).
    by rewrite Hdec.
  - apply push_all_fragments; try done; [split; [done|by left]|lia|lia].
Qed.

Lemma control_request_roundtrip_witness :
  ∃ m n a', MirrorControlRequest_new 7 [128; 6; 0; 1; 0; 0; 100; 0] (replicate 100 5) = Ok m ∧
    push_fragments MirrorControlRequest_new (Assembler_new (zeros 8))
      (all_fragments 7 [128; 6; 0; 1; 0; 0; 100; 0] (replicate 100 5)) =
    (a', replicate n (Ok None) ++ [Ok (Some m)]).
Proof.
  destruct (MirrorControlRequest_new 7 [128; 6; 0; 1; 0; 0; 100; 0] (replicate 100 5)) as [m|] eqn:E;
    [|discriminate E].
  destruct (creq_new_data _ _ _ _ E) as (H1 & H2 & H3 & _).
  destruct (control_request_roundtrip m (Assembler_new (zeros 8))) as (_ & _ & n & a' & H & _).
  - unfold creq_wf. rewrite H1, H2, H3.
    split; [apply (bool_decide_unpack _); vm_compute; exact I|]. split; [reflexivity|].
    split; [apply (bool_decide_unpack _); vm_compute; exact I|].
    split; [apply (bool_decide_unpack _); vm_compute; exact I|exact E].
  - reflexivity.
  - exists m, n, a'. rewrite H1, H2, H3 in H. split; [reflexivity|exact H].
Defined.

(** C13: reassembly is safe against any peer.  Whatever sequence of fragments the decoder
    accepted, in any order and mix, every message an assembler emits is the
    concatenation of the last consecutive fragments received, which all carry its
    identifier and its setup packet or status, start at offset zero, follow each other
    without a gap and add up to the announced length. *)
Theorem reassembly_sound (reqs : list ControlRequestFragment) (ress : list ControlResponseFragment) :
  Forall (frag_wf setup_ok) reqs → Forall (frag_wf (λ _, True)) ress →
  (∀ k m, (push_fragments MirrorControlRequest_new (Assembler_new (zeros 8)) reqs).2 !! k =
       Some (Ok (Some m)) →
     ∃ pre run, take (S k) reqs = pre ++ run ∧
       run_ok (creq_request_id m) (creq_setup_packet m) (length (creq_data m)) run ∧
       run_data run = creq_data m) ∧
  (∀ k m, (push_fragments MirrorControlResponse_new (Assembler_new ControlSuccess) ress).2 !! k =
       Some (Ok (Some m)) →
     ∃ pre run, take (S k) ress = pre ++ run ∧
       run_ok (cres_request_id m) (cres_status m) (length (cres_data m)) run ∧
       run_data run = cres_data m).
Proof.
  intros Hreqs Hress. split; intros k m Hk.
  - apply (push_fragments_inv _ setup_ok _ _ []) in Hk as
      (pre & run & id & tag & total & Hfs & Hrun & Ht & Hm); [|split; [done|by left]|done].
    apply creq_new_data in Hm as (-> & -> & -> & _). exists pre, run.
    split; [exact Hfs|]. split; [by rewrite Ht|done].
  - apply (push_fragments_inv _ (λ _, True) _ _ []) in Hk as
      (pre & run & id & tag & total & Hfs & Hrun & Ht & Hm); [|split; [done|by left]|done].
    apply cres_new_data in Hm as (-> & -> & -> & _). exists pre, run.
    split; [exact Hfs|]. split; [by rewrite Ht|done].
Qed.

Lemma reassembly_sound_witness :
  let f := frag_at 9 ControlStall 0 0 [] in
  ∃ m, (push_fragments MirrorControlResponse_new (Assembler_new ControlSuccess) [f]).2 =
       [Ok (Some m)] ∧ cres_data m = [].
Proof.
  intros f.
  assert (frag_wf (λ _, True) f) as Hf.
  { exists 9, ControlStall, 0%nat, 0%nat, []. split; [apply (bool_decide_unpack _); vm_compute; exact I|].
    split; [exact I|]. split; [|reflexivity]. unfold frag_fits.
    split; [vm_compute; lia|]. split; [vm_compute; lia|constructor]. }
  destruct (push_fragments MirrorControlResponse_new (Assembler_new ControlSuccess) [f]).2
    as [|[[m|]|e] [|? ?]] eqn:E; try (vm_compute in E; discriminate E).
  exists m. split; [reflexivity|].
  destruct (proj2 (reassembly_sound [] [f] ltac:(constructor) ltac:(constructor; [exact Hf|constructor]))
    0%nat m) as (pre & run & Hsplit & _ & Hd); [by rewrite E|].
  vm_compute in E. injection E as <-. reflexivity.
Defined.
