(* ===== verification/Timing.v ===== *)
(** * Link timing ([interchip/handshake.rs], [recovery.rs], [rate_budget.rs])

    Three small state machines driven by the firmware's millisecond or microsecond clock
    ([u64], so every difference saturates at zero). *)

From S2P Require Import Prelude.

(** ** [SpiReadyHandshake] *)

Inductive SpiReadyPhase :=
| AwaitingReady
| AwaitingDeassertion (transfer_started_ms : Z).

Inductive SpiReadyAction := ReadyWait | ReadyTransfer | ReadyRecoverTransfer.
#[export] Instance SpiReadyAction_eq_dec : EqDecision SpiReadyAction.
Proof. solve_decision. Defined.

Record SpiReadyHandshake := mkHandshake {
  hs_phase : SpiReadyPhase;
  deassertion_timeout_ms : Z
}.

Definition SpiReadyHandshake_new (timeout : Z) : SpiReadyHandshake :=
  mkHandshake AwaitingReady timeout.

Definition handshake_observe (self : SpiReadyHandshake) (ready_high deassertion_observed : bool)
  (now_ms : Z) : SpiReadyAction * SpiReadyHandshake :=
  let self :=
    match hs_phase self with
    | AwaitingDeassertion _ =>
        if deassertion_observed || negb ready_high
        then mkHandshake AwaitingReady (deassertion_timeout_ms self) else self
    | AwaitingReady => self
    end in
  (match hs_phase self with
   | AwaitingReady => if ready_high then ReadyTransfer else ReadyWait
   | AwaitingDeassertion started =>
       if ready_high && bool_decide (deassertion_timeout_ms self ≤ saturating_sub now_ms started)
       then ReadyRecoverTransfer else ReadyWait
   end, self).

Definition mark_transfer_started (self : SpiReadyHandshake) (now_ms : Z) : SpiReadyHandshake :=
  mkHandshake (AwaitingDeassertion now_ms) (deassertion_timeout_ms self).

Definition cancel_transfer (self : SpiReadyHandshake) : SpiReadyHandshake :=
  mkHandshake AwaitingReady (deassertion_timeout_ms self).

(** ** [SpiLinkRecovery] and [SpiTransactionWatchdog] *)

Inductive RecoveryPhase := Polling (last_progress_ms : Z) | Quiet (until_ms : Z).

Inductive SpiLinkRecoveryAction := RecPoll | RecEnterQuiet | RecStayQuiet | RecResumePolling.
#[export] Instance SpiLinkRecoveryAction_eq_dec : EqDecision SpiLinkRecoveryAction.
Proof. solve_decision. Defined.

Record SpiLinkRecovery := mkRecovery {
  rec_phase : RecoveryPhase;
  progress_timeout_ms : Z;
  quiet_period_ms : Z
}.

Definition SpiLinkRecovery_new (started progress_timeout quiet : Z) : SpiLinkRecovery :=
  mkRecovery (Polling started) progress_timeout quiet.

Definition recovery_observe_valid_cell (self : SpiLinkRecovery) (now_ms : Z) : SpiLinkRecovery :=
  match rec_phase self with
  | Polling _ => mkRecovery (Polling now_ms) (progress_timeout_ms self) (quiet_period_ms self)
  | Quiet _ => self
  end.

Definition recovery_advance (self : SpiLinkRecovery) (now_ms : Z)
  : SpiLinkRecoveryAction * SpiLinkRecovery :=
  let enter phase := mkRecovery phase (progress_timeout_ms self) (quiet_period_ms self) in
  match rec_phase self with
  | Polling last =>
      if decide (progress_timeout_ms self ≤ saturating_sub now_ms last)
      then (RecEnterQuiet, enter (Quiet (u64_saturating_add now_ms (quiet_period_ms self))))
      else (RecPoll, self)
  | Quiet until =>
      if decide (now_ms < until) then (RecStayQuiet, self)
      else (RecResumePolling, enter (Polling now_ms))
  end.

Record SpiTransactionWatchdog := mkWatchdog {
  wd_last : option Z;
  wd_timeout_ms : Z
}.

Definition SpiTransactionWatchdog_new (timeout : Z) : SpiTransactionWatchdog :=
  mkWatchdog None timeout.

Definition watchdog_observe_transaction (self : SpiTransactionWatchdog) (now_ms : Z)
  : SpiTransactionWatchdog :=
  match wd_last self with
  | None => mkWatchdog (Some now_ms) (wd_timeout_ms self)
  | Some _ => self
  end.

Definition watchdog_observe_valid_cell (self : SpiTransactionWatchdog) (now_ms : Z)
  : SpiTransactionWatchdog := mkWatchdog (Some now_ms) (wd_timeout_ms self).

Definition watchdog_timed_out (self : SpiTransactionWatchdog) (now_ms : Z) : bool :=
  match wd_last self with
  | Some last => bool_decide (wd_timeout_ms self ≤ saturating_sub now_ms last)
  | None => false
  end.

(** ** [FixedIntervalBudget] *)

Record FixedIntervalBudget := mkBudget {
  interval_us : Z;
  credit_us : Z;
  last_refill_us : Z;
  max_credit_us : Z
}.

Definition FixedIntervalBudget_new (now_us interval max_burst : Z) : FixedIntervalBudget :=
  mkBudget interval interval now_us (u64_saturating_mul interval max_burst).

Definition try_take (self : FixedIntervalBudget) (now_us : Z) : bool * FixedIntervalBudget :=
  let elapsed := saturating_sub now_us (last_refill_us self) in
  let credit := Z.min (u64_saturating_add (credit_us self) elapsed) (max_credit_us self) in
  if decide (credit < interval_us self)
  then (false, mkBudget (interval_us self) credit now_us (max_credit_us self))
  else (true, mkBudget (interval_us self) (credit - interval_us self) now_us (max_credit_us self)).

(** ** The handshake on a run *)

(** One turn of the master's loop: sample the line, and start the transfer when told to. *)
Record Sample := mkSample { sm_ready : bool; sm_deasserted : bool; sm_now : Z }.

Definition master_turn (h : SpiReadyHandshake) (s : Sample) : SpiReadyAction * SpiReadyHandshake :=
  let '(action, h) := handshake_observe h (sm_ready s) (sm_deasserted s) (sm_now s) in
  match action with
  | ReadyWait => (action, h)
  | _ => (action, mark_transfer_started h (sm_now s))
  end.

Fixpoint master_run (h : SpiReadyHandshake) (samples : list Sample) : list SpiReadyAction :=
  match samples with
  | [] => []
  | s :: samples => let '(a, h) := master_turn h s in a :: master_run h samples
  end.

(** The sample shows that the slave left the arm cycle. *)
Definition sample_deasserts (s : Sample) : bool := sm_deasserted s || negb (sm_ready s).

(** While a transfer started at [t0] waits, the next action that is not [Wait] comes
    after a deassertion, or is the recovery at least the timeout later. *)
Lemma master_run_after t0 timeout samples k s a :
  master_run (mkHandshake (AwaitingDeassertion t0) timeout) samples !! k = Some a →
  (∀ i, (i < k)%nat → master_run (mkHandshake (AwaitingDeassertion t0) timeout) samples !! i =
     Some ReadyWait) →
  samples !! k = Some s → a ≠ ReadyWait →
  sm_ready s = true ∧
  (a = ReadyTransfer → ∃ i s', (i ≤ k)%nat ∧ samples !! i = Some s' ∧ sample_deasserts s' = true) ∧
  (a = ReadyRecoverTransfer → timeout ≤ saturating_sub (sm_now s) t0 ∧
     ∀ i s', (i ≤ k)%nat → samples !! i = Some s' → sample_deasserts s' = false).
Proof.
  assert (∀ samples k s a, master_run (mkHandshake AwaitingReady timeout) samples !! k = Some a →
    (∀ i, (i < k)%nat → master_run (mkHandshake AwaitingReady timeout) samples !! i = Some ReadyWait) →
    samples !! k = Some s → a ≠ ReadyWait → sm_ready s = true ∧ a = ReadyTransfer) as Hready.
  { clear. intros samples. induction samples as [|[r d n] samples IH]; intros k s a Ha Hw Hs Hne; [done|].
    cbn [master_run] in *. unfold master_turn, handshake_observe in *. cbn in *.
    destruct r; cbn in *; destruct k as [|k]; cbn in *.
    - injection Ha as <-. injection Hs as <-. done.
    - specialize (Hw 0%nat ltac:(lia)). done.
    - injection Ha as <-. done.
    - apply (IH k s a Ha); [|done|done]. intros i Hi. apply (Hw (S i)). lia. }
  revert k s a. induction samples as [|[r d n] samples IH]; intros k s a Ha Hw Hs Hne; [done|].
  cbn [master_run] in *. unfold master_turn, handshake_observe in *. cbn [hs_phase sm_ready sm_deasserted
    sm_now deassertion_timeout_ms] in *.
  destruct (d || negb r) eqn:Hd; cbn [hs_phase] in *.
  - destruct r; cbn in Hd; [|].
    + destruct k as [|k]; [|specialize (Hw 0%nat ltac:(lia)); done].
      cbn in Ha, Hs. injection Ha as <-. injection Hs as <-. split; [done|]. split; [|done].
      intros _. exists 0%nat, (mkSample true d n). split; [lia|]. split; [done|].
      unfold sample_deasserts. cbn. by rewrite Hd.
    + destruct k as [|k]; [cbn in Ha; by injection Ha as <-|].
      cbn in Ha, Hs, Hw. destruct (Hready samples k s a Ha) as [H1 ->]; [|done|done|].
      { intros i Hi. apply (Hw (S i)). lia. }
      split; [done|]. split; [|done]. intros _. exists 0%nat, (mkSample false d n).
      split; [lia|]. split; [done|]. unfold sample_deasserts. cbn. by rewrite Hd.
  - apply orb_false_iff in Hd as [Hd0 Hr]. apply negb_false_iff in Hr. subst d r.
    cbn [andb] in *. case_bool_decide as Ht.
    + destruct k as [|k]; [|specialize (Hw 0%nat ltac:(lia)); done].
      cbn in Ha, Hs. injection Ha as <-. injection Hs as <-. split; [done|]. split; [done|].
      intros _. split; [done|]. intros [|i] s' Hi Hs'; [by injection Hs' as <-|lia].
    + destruct k as [|k]; [cbn in Ha; by injection Ha as <-|].
      cbn in Ha, Hs, Hw. destruct (IH k s a Ha) as (H1 & H2 & H3); [|done|done|].
      { intros i Hi. apply (Hw (S i)). lia. }
      split; [done|]. split.
      * intros Ha'. destruct (H2 Ha') as (i & s' & Hi & Hs' & Hd). exists (S i), s'.
        split; [lia|done].
      * intros Ha'. destruct (H3 Ha') as [H4 H5]. split; [done|].
        intros [|i] s' Hi Hs'; [by injection Hs' as <-|]. apply (H5 i); [lia|done].
Qed.

(** ** Properties *)

(** One transfer per arm cycle.  After a transfer started at [t0], the master starts
    the next one only with READY high, and either the slave was seen leaving the arm
    cycle in between (a latched edge or a low level), or it was not and the configured
    timeout has passed; a waiting master never stalls past that point. *)
Theorem one_transfer_per_arm_cycle t0 timeout samples :
  let h := mkHandshake (AwaitingDeassertion t0) timeout in
  (∀ k s a, master_run h samples !! k = Some a →
     (∀ i, (i < k)%nat → master_run h samples !! i = Some ReadyWait) →
     samples !! k = Some s → a ≠ ReadyWait →
     sm_ready s = true ∧
     (a = ReadyTransfer →
        ∃ i s', (i ≤ k)%nat ∧ samples !! i = Some s' ∧ sample_deasserts s' = true) ∧
     (a = ReadyRecoverTransfer → timeout ≤ saturating_sub (sm_now s) t0 ∧
        ∀ i s', (i ≤ k)%nat → samples !! i = Some s' → sample_deasserts s' = false)) ∧
  (∀ now deasserted, timeout ≤ saturating_sub now t0 →
     (master_turn h (mkSample true deasserted now)).1 ≠ ReadyWait).
Proof.
  intros h. split; [intros k s a; apply master_run_after|].
  intros now deasserted Ht. unfold master_turn, handshake_observe, h. cbn.
  destruct deasserted; cbn; [done|]. by rewrite bool_decide_true.
Qed.

(** ** Recovery *)

(** The wall-clock events a link sees. *)
Inductive RecoveryEvent := RecAdvance (now : Z) | RecValidCell (now : Z).

Definition recovery_step (r : SpiLinkRecovery) (e : RecoveryEvent)
  : option SpiLinkRecoveryAction * SpiLinkRecovery :=
  match e with
  | RecAdvance now => let '(a, r) := recovery_advance r now in (Some a, r)
  | RecValidCell now => (None, recovery_observe_valid_cell r now)
  end.

(** Forced silence is long enough.  Once the link enters its quiet period at [t], it
    stays quiet for every poll before [t + quiet], whatever cells appear to arrive, and
    the first poll from then on resumes polling with a fresh progress deadline; and it
    enters the quiet period exactly when no valid cell was seen for the progress timeout. *)
Theorem quiet_period_respected r t r' :
  recovery_advance r t = (RecEnterQuiet, r') → t + quiet_period_ms r ≤ U64_MAX →
  (∃ last, rec_phase r = Polling last ∧ progress_timeout_ms r ≤ saturating_sub t last) ∧
  (∀ events,
     Forall (λ e, match e with RecAdvance now => now < t + quiet_period_ms r
                             | RecValidCell _ => True end) events →
     let '(actions, r'') := fold_left (λ st e, let '(a, r) := recovery_step st.2 e in
                                               (st.1 ++ [a], r)) events ([], r') in
     r'' = r' ∧ Forall (λ a, a = Some RecStayQuiet ∨ a = None) actions) ∧
  (∀ now, t + quiet_period_ms r ≤ now →
     recovery_advance r' now =
       (RecResumePolling, mkRecovery (Polling now) (progress_timeout_ms r) (quiet_period_ms r))).
Proof.
  unfold recovery_advance at 1. intros H Hb. destruct (rec_phase r) as [last|until] eqn:Hp.
  2: { by case_decide. }
  case_decide as Ht; [|done]. injection H as <-.
  unfold u64_saturating_add. rewrite Z.min_r by lia.
  split; [by exists last|]. split.
  - intros events He.
    assert (∀ acc, Forall (λ a, a = Some RecStayQuiet ∨ a = None) acc →
      let '(actions, r'') := fold_left (λ st e, let '(a, r) := recovery_step st.2 e in
        (st.1 ++ [a], r)) events
        (acc, mkRecovery (Quiet (t + quiet_period_ms r)) (progress_timeout_ms r) (quiet_period_ms r)) in
      r'' = mkRecovery (Quiet (t + quiet_period_ms r)) (progress_timeout_ms r) (quiet_period_ms r) ∧
      Forall (λ a, a = Some RecStayQuiet ∨ a = None) actions) as Hgen; [|by apply Hgen].
    induction He as [|e events He _ IH]; intros acc Hacc; [done|].
    rewrite fold_left_cons_eq. destruct e as [now|now]; cbn [fst snd recovery_step].
    + unfold recovery_advance. cbn [rec_phase]. rewrite decide_True by done.
      apply IH. apply Forall_app. split; [done|]. constructor; [by left|constructor].
    + unfold recovery_observe_valid_cell. cbn [rec_phase].
      apply IH. apply Forall_app. split; [done|]. constructor; [by right|constructor].
  - intros now Hn. unfold recovery_advance. cbn [rec_phase]. by rewrite decide_False by lia.
Qed.

Lemma quiet_period_respected_witness :
  (recovery_advance (mkRecovery (Quiet 1300) 100 300) 1299).1 = RecStayQuiet ∧
  (recovery_advance (mkRecovery (Quiet 1300) 100 300) 1300).1 = RecResumePolling.
Proof.
  destruct (quiet_period_respected (SpiLinkRecovery_new 900 100 300) 1000
    (mkRecovery (Quiet 1300) 100 300) ltac:(reflexivity) ltac:(vm_compute; discriminate))
    as (_ & Hq & Hr).
  specialize (Hq [RecAdvance 1299] ltac:(constructor; [vm_compute; reflexivity|constructor])).
  specialize (Hr 1300 ltac:(vm_compute; discriminate)). split.
  - reflexivity.
  - rewrite Hr. reflexivity.
Defined.

(** ** The rate bound *)

Record budget_ok (b : FixedIntervalBudget) : Prop := {
  bg_interval : 0 ≤ interval_us b ≤ U64_MAX;
  bg_credit : 0 ≤ credit_us b ≤ U64_MAX;
  bg_max : 0 ≤ max_credit_us b ≤ U64_MAX
}.

(** The grants of a run of calls at the given times. *)
Fixpoint grants (b : FixedIntervalBudget) (times : list Z) : Z * FixedIntervalBudget :=
  match times with
  | [] => (0, b)
  | t :: times =>
      let '(g, b) := try_take b t in
      let '(n, b) := grants b times in (Z.b2z g + n, b)
  end.

(** Times that never go back, from [t0] to [t1]. *)
Fixpoint monotone (t0 : Z) (times : list Z) (t1 : Z) : Prop :=
  match times with [] => t0 = t1 | t :: times => t0 ≤ t ∧ monotone t times t1 end.

Lemma grants_bound times b t1 : budget_ok b → monotone (last_refill_us b) times t1 →
  let '(n, b') := grants b times in
  0 ≤ n ∧ n * interval_us b + credit_us b' ≤ credit_us b + (t1 - last_refill_us b) ∧
  0 ≤ credit_us b'.
Proof.
  revert b. induction times as [|t times IH]; intros b Hb Hm; cbn [grants monotone] in *.
  { destruct Hb. lia. }
  destruct Hm as [Ht Hm]. destruct Hb as [H1 H2 H3].
  set (credit := Z.min (u64_saturating_add (credit_us b) (saturating_sub t (last_refill_us b)))
                   (max_credit_us b)).
  assert (0 ≤ credit ≤ credit_us b + (t - last_refill_us b) ∧ credit ≤ U64_MAX) as [Hc Hc']
    by (unfold credit, u64_saturating_add, saturating_sub; lia).
  unfold try_take. fold credit. case_decide as Hlt.
  - specialize (IH (mkBudget (interval_us b) credit t (max_credit_us b))).
    destruct (grants _ times) as [n b']. cbn in IH. cbn [Z.b2z].
    destruct IH as (I1 & I2 & I3); [split; cbn; lia|done|]. lia.
  - specialize (IH (mkBudget (interval_us b) (credit - interval_us b) t (max_credit_us b))).
    destruct (grants _ times) as [n b']. cbn in IH. cbn [Z.b2z].
    destruct IH as (I1 & I2 & I3); [split; cbn; lia|done|]. nia.
Qed.


