(* ===== verification/InputBatch.v ===== *)
(** * Batching input reports into one cell ([src/src/interchip/input_batch.rs])

    The Bridge packs up to four input reports into the payload of one cell, writing the
    records itself instead of through [encode_records].  The theorem says that the bytes are
    nevertheless what [encode_records] would write, so the receiver's [RecordIter] and the
    message decoders give the reports back. *)

From S2P Require Import Prelude Cell Records Input Reports Message.

Definition INPUT_REPORT_BATCH_MAX_REPORTS : Z := 4.

Inductive InputReport :=
| RawInput (report : RawEndpointReport)
| StandardInput (report : StandardInputReport).

(** [InputReport::encode]: record type, the array and the length in use. *)
Definition InputReport_encode (self : InputReport) : Z * list Z * nat :=
  let data := zeros RAW_ENDPOINT_MAX_WIRE_LEN in
  match self with
  | RawInput report =>
      let report_data := raw_data report in
      let data := <[0%nat := raw_endpoint_address report]> data in
      let data := blit 2 (u16_to_le_bytes (raw_packet_sequence report)) data in
      let data := blit 4 (u16_to_le_bytes (as_u16 (Z.of_nat (length report_data)))) data in
      let data := blit 6 report_data data in
      (RECORD_RAW_ENDPOINT_IN, data, (6 + length report_data)%nat)
  | StandardInput report =>
      let '(encoded, len) := StandardInputReport_encode report in
      (RECORD_STANDARD_INPUT_REPORT, blit 0 (take (Z.to_nat len) encoded) data, Z.to_nat len)
  end.

Record InputReportBatch := mkBatch {
  batch_payload : list Z;
  batch_payload_len : Z;
  batch_report_count : Z
}.

(** [align4] of this file, on [usize] without overflow check. *)
Definition batch_align4 (value : nat) : nat :=
  Z.to_nat (Z.land (Z.of_nat value + 3) (Z.lnot 3)).

Definition push_encoded (self : InputReportBatch) (record_type : Z) (data : list Z)
  : InputReportBatch :=
  let record_len := batch_align4 (RECORD_HEADER_LEN + length data) in
  let offset := Z.to_nat (batch_payload_len self) in
  let payload := <[offset := record_type]> (batch_payload self) in
  let payload := <[(offset + 1)%nat := 0]> payload in
  let payload := blit (offset + 2) (u16_to_le_bytes (as_u16 (Z.of_nat (length data)))) payload in
  let message := (offset + RECORD_HEADER_LEN)%nat in
  mkBatch (blit message data payload) (as_u8 (Z.of_nat (offset + record_len)))
    (batch_report_count self + 1).

Definition batch_new (report : InputReport) : InputReportBatch :=
  let batch := mkBatch (zeros SPI_CELL_PAYLOAD_LEN) 0 0 in
  let '(record_type, data, data_len) := InputReport_encode report in
  push_encoded batch record_type (take data_len data).

Definition try_push (self : InputReportBatch) (report : InputReport)
  : InputReportBatch * Result InputReport unit :=
  if decide (INPUT_REPORT_BATCH_MAX_REPORTS ≤ batch_report_count self) then (self, Err report)
  else
    let '(record_type, data, data_len) := InputReport_encode report in
    let record_len := batch_align4 (RECORD_HEADER_LEN + data_len) in
    let offset := Z.to_nat (batch_payload_len self) in
    if decide (offset + record_len > SPI_CELL_PAYLOAD_LEN)%nat then (self, Err report)
    else (push_encoded self record_type (take data_len data), Ok ()).

Definition batch_encoded (self : InputReportBatch) : list Z * Z :=
  (take (Z.to_nat (batch_payload_len self)) (batch_payload self), batch_report_count self).

(** ** The record of a report *)

Definition input_wf (r : InputReport) : Prop :=
  match r with RawInput m => raw_wf m | StandardInput m => si_wf m end.

Definition input_record (r : InputReport) : WireRecord :=
  match r with
  | RawInput m => mkWireRecord RECORD_RAW_ENDPOINT_IN 0 (raw_wire m)
  | StandardInput m => mkWireRecord RECORD_STANDARD_INPUT_REPORT 0 (si_wire m)
  end.

(** What the Device's dispatch on the record type reads. *)
Definition read_input_record (r : WireRecord) : option InputReport :=
  if decide (record_type r = RECORD_RAW_ENDPOINT_IN) then
    match RawEndpointReport_decode (record_data r) with
    | Ok m => Some (RawInput m) | Err _ => None end
  else if decide (record_type r = RECORD_STANDARD_INPUT_REPORT) then
    match StandardInputReport_decode (record_data r) with
    | Ok m => Some (StandardInput m) | Err _ => None end
  else None.

Lemma read_input_record_ok r : input_wf r → read_input_record (input_record r) = Some r.
Proof.
  destruct r as [m|m]; intros H; unfold read_input_record, input_record; cbn [record_type record_data].
  - rewrite decide_True by done. pose proof (@parse_wire _ _ RawEndpointReport_codec m H) as Hp.
    cbv [parse wire RawEndpointReport_codec] in Hp. by rewrite Hp.
  - rewrite decide_False, decide_True by done.
    pose proof (@parse_wire _ _ StandardInputReport_codec m H) as Hp.
    cbv [parse wire StandardInputReport_codec] in Hp. by rewrite Hp.
Qed.

Lemma batch_align4_eq n : batch_align4 n = (4 * ((n + 3) / 4))%nat.
Proof.
  unfold batch_align4. rewrite <- Z.ldiff_land. change 3 with (Z.ones 2) at 2.
  rewrite Z.ldiff_ones_r, Z.shiftr_div_pow2, Z.shiftl_mul_pow2 by lia.
  change (2 ^ 2) with 4. divmod.
Qed.

Lemma raw_data_le m : raw_wf m → (length (raw_data m) ≤ 64)%nat.
Proof.
  intros (_ & _ & _ & Hn). unfold RawEndpointReport_new in Hn.
  case_decide as H; [done|]. unfold RAW_ENDPOINT_MAX_DATA_LEN in H. lia.
Qed.

Lemma si_wire_le m : si_wf m → (length (si_wire m) ≤ 13)%nat.
Proof.
  intros H. rewrite si_wire_eq by done. destruct H as (_ & _ & Hr%report_len_le).
  rewrite !length_app. cbn. lia.
Qed.

Lemma input_record_len r : input_wf r → (length (record_data (input_record r)) ≤ 70)%nat.
Proof.
  destruct r as [m|m]; cbn [input_wf input_record record_data]; intros H.
  - pose proof (raw_data_le m H). unfold raw_wire. rewrite length_app. cbn. lia.
  - pose proof (si_wire_le m H). lia.
Qed.

Lemma input_record_ok r : input_wf r → record_ok (input_record r).
Proof.
  intros H. pose proof (input_record_len r H) as Hl.
  refine (conj _ (conj _ (conj _ _))); [destruct r; done|destruct r; done| |words].
  destruct r as [m|m]; [exact (@wire_bytes_ok _ _ RawEndpointReport_codec m H)|
    exact (@wire_bytes_ok _ _ StandardInputReport_codec m H)].
Qed.

Lemma raw_encode_take m : raw_wf m →
  take (6 + length (raw_data m)) (InputReport_encode (RawInput m)).1.2 = raw_wire m.
Proof.
  intros H. pose proof (raw_data_le m H) as Hl. unfold InputReport_encode. cbn [fst snd].
  change (<[0%nat:=raw_endpoint_address m]> (zeros RAW_ENDPOINT_MAX_WIRE_LEN)) with
    ([raw_endpoint_address m; 0] ++ zeros 68).
  rewrite blit_app, blit_zeros by (cbn; lia).
  rewrite app_assoc, blit_app, blit_zeros by (cbn; lia).
  rewrite app_assoc, blit_app, blit_zeros by (cbn; lia).
  unfold raw_wire. rewrite app_assoc, take_app_length'; [by rewrite <- !app_assoc|].
  rewrite !length_app. cbn. lia.
Qed.

(** The used prefix of [encode] is the payload of the record. *)
Lemma InputReport_encode_spec r : input_wf r →
  let '(t, data, n) := InputReport_encode r in
  t = record_type (input_record r) ∧ take n data = record_data (input_record r) ∧
  n = length (record_data (input_record r)).
Proof.
  destruct r as [m|m]; intros H.
  - pose proof (raw_encode_take m H) as Ht. cbn [InputReport_encode fst snd] in *.
    split; [done|]. cbn [input_record record_data]. rewrite Ht. split; [done|].
    unfold raw_wire. by rewrite length_app.
  - pose proof (si_wire_le m H) as Hl. cbn [InputReport_encode].
    destruct (StandardInputReport_encode m) as [enc n] eqn:E.
    assert (take (Z.to_nat n) enc = si_wire m) as Hw by (unfold si_wire; by rewrite E).
    assert (length (si_wire m) = Z.to_nat n) as Hn.
    { unfold StandardInputReport_encode in E. rewrite si_wire_eq by done.
      injection E as _ <-. destruct H as (_ & _ & Hr%report_len_le).
      rewrite as_u8_of_nat, Nat2Z.id by (unfold STANDARD_INPUT_HEADER_LEN; lia).
      rewrite !length_app. cbn. unfold STANDARD_INPUT_HEADER_LEN. lia. }
    cbn [input_record record_type record_data]. split; [done|]. rewrite Hw. split; [|done].
    by rewrite take_blit.
Qed.

(** ** What a batch holds *)

Definition batch_bytes (rs : list InputReport) : list Z := records_wire (map input_record rs).

Record holds (b : InputReportBatch) (rs : list InputReport) : Prop := {
  holds_count : batch_report_count b = Z.of_nat (length rs);
  holds_len : batch_payload_len b = Z.of_nat (length (batch_bytes rs));
  holds_fits : (length (batch_bytes rs) ≤ SPI_CELL_PAYLOAD_LEN)%nat;
  holds_payload : batch_payload b =
    batch_bytes rs ++ zeros (SPI_CELL_PAYLOAD_LEN - length (batch_bytes rs))
}.

Lemma batch_bytes_snoc rs r :
  batch_bytes (rs ++ [r]) = batch_bytes rs ++ record_wire (input_record r).
Proof.
  unfold batch_bytes, records_wire. rewrite !map_app, concat_app. cbn [map concat].
  by rewrite app_nil_r.
Qed.

Lemma insert_is_blit {A} (l : list A) i x : (i < length l)%nat → <[i := x]> l = blit i [x] l.
Proof.
  intros H. rewrite insert_take_drop by done. unfold blit. cbn [length app].
  by rewrite Nat.add_1_r.
Qed.

Lemma push_encoded_holds b rs r : input_wf r → holds b rs →
  (length (batch_bytes (rs ++ [r])) ≤ SPI_CELL_PAYLOAD_LEN)%nat →
  holds (push_encoded b (record_type (input_record r)) (record_data (input_record r))) (rs ++ [r]).
Proof.
  intros Hr [Hc Hl Hf Hp] Hfit.
  pose proof (encode_record_stores (batch_bytes rs)
    (SPI_CELL_PAYLOAD_LEN - length (batch_bytes rs)) (input_record r)) as Hs.
  pose proof (input_record_len r Hr) as Hlen.
  rewrite batch_bytes_snoc, length_app in Hfit. specialize (Hs ltac:(lia)). cbn zeta in Hs.
  assert (record_flags (input_record r) = 0) as Hflag by by destruct r.
  assert (4 ≤ length (record_wire (input_record r)))%nat as Hpos
    by (rewrite length_record_wire; unfold RECORD_HEADER_LEN; divmod).
  split; unfold push_encoded; cbn [batch_report_count batch_payload_len batch_payload].
  - rewrite Hc, length_app. cbn. lia.
  - rewrite Hl, Nat2Z.id, batch_align4_eq, <- length_record_wire, batch_bytes_snoc, length_app.
    unfold SPI_CELL_PAYLOAD_LEN in *. by rewrite as_u8_of_nat by lia.
  - rewrite batch_bytes_snoc, length_app. lia.
  - rewrite Hl, Nat2Z.id, Hp, batch_bytes_snoc, as_u16_of_nat by lia.
    assert (length (batch_bytes rs ++ zeros (SPI_CELL_PAYLOAD_LEN - length (batch_bytes rs))) =
      SPI_CELL_PAYLOAD_LEN) as Hpl by (rewrite length_app, length_zeros; lia).
    rewrite insert_is_blit by (rewrite length_insert, Hpl; lia).
    rewrite insert_is_blit by (rewrite Hpl; lia).
    rewrite Hflag in Hs. unfold RECORD_HEADER_LEN. rewrite Hs. rewrite length_app.
    f_equal. f_equal. lia.
Qed.

Lemma batch_new_holds r : input_wf r → holds (batch_new r) [r].
Proof.
  intros H. pose proof (InputReport_encode_spec r H) as Hs. pose proof (input_record_len r H).
  unfold batch_new. destruct (InputReport_encode r) as [[t data] n]. destruct Hs as (-> & -> & _).
  apply (push_encoded_holds _ []); [done| |].
  - split; try done. cbn. lia.
  - unfold batch_bytes, records_wire. cbn [map concat app]. rewrite app_nil_r, length_record_wire.
    unfold SPI_CELL_PAYLOAD_LEN, RECORD_HEADER_LEN. divmod.
Qed.

Definition has_room (rs : list InputReport) (r : InputReport) : bool :=
  bool_decide (length rs < 4)%nat &&
  bool_decide (length (batch_bytes (rs ++ [r])) ≤ SPI_CELL_PAYLOAD_LEN)%nat.

Lemma try_push_holds b rs r : input_wf r → holds b rs →
  if has_room rs r
  then ∃ b', try_push b r = (b', Ok ()) ∧ holds b' (rs ++ [r])
  else try_push b r = (b, Err r).
Proof.
  intros H Hb. pose proof (InputReport_encode_spec r H) as Hs.
  pose proof Hb as [Hc Hl Hf Hp]. unfold try_push, has_room.
  rewrite Hc, Hl, Nat2Z.id. unfold INPUT_REPORT_BATCH_MAX_REPORTS.
  destruct (decide (length rs < 4)%nat) as [Hn|Hn].
  2: { rewrite bool_decide_false by done. cbn [andb]. by rewrite decide_True by lia. }
  rewrite bool_decide_true, decide_False by (done || lia). cbn [andb].
  destruct (InputReport_encode r) as [[t data] n]. destruct Hs as (-> & Ht & ->).
  rewrite Ht, batch_align4_eq, <- length_record_wire.
  pose proof (batch_bytes_snoc rs r) as Hsn. apply (f_equal length) in Hsn. rewrite length_app in Hsn.
  rewrite <- Hsn. case_bool_decide as Hfit.
  - rewrite decide_False by lia. eexists. split; [done|]. by apply push_encoded_holds.
  - by rewrite decide_True by lia.
Qed.

(** Pushing a queue of reports: the batch, and the first report refused with those after it. *)
Fixpoint fill_batch (b : InputReportBatch) (rs : list InputReport)
  : InputReportBatch * list InputReport :=
  match rs with
  | [] => (b, [])
  | r :: rest =>
      match try_push b r with
      | (b, Ok _) => fill_batch b rest
      | (b, Err r) => (b, r :: rest)
      end
  end.

Lemma fill_batch_holds rs : Forall input_wf rs → ∀ b held, holds b held →
  let '(b', rest) := fill_batch b rs in
  ∃ taken, rs = taken ++ rest ∧ holds b' (held ++ taken) ∧
    match rest with [] => True | r :: _ => has_room (held ++ taken) r = false end.
Proof.
  induction 1 as [|r rs Hr Hrs IH]; intros b held Hb; cbn [fill_batch].
  - exists []. by rewrite (app_nil_r held).
  - pose proof (try_push_holds b held r Hr Hb) as Hp. destruct (has_room held r) eqn:Hroom.
    + destruct Hp as (b' & -> & Hb'). specialize (IH b' _ Hb').
      destruct (fill_batch b' rs) as [b'' rest]. destruct IH as (taken & -> & Hh & Hrest).
      exists (r :: taken). rewrite <- app_assoc in Hh, Hrest. done.
    + rewrite Hp. exists []. by rewrite (app_nil_r held).
Qed.

(** A payload holds fewer records than a [u8] counts. *)
Lemma batch_count_le (rs : list InputReport) : (length (batch_bytes rs) ≤ SPI_CELL_PAYLOAD_LEN)%nat →
  (length rs ≤ 255)%nat.
Proof.
  unfold batch_bytes, SPI_CELL_PAYLOAD_LEN.
  assert (∀ l, (length (A := InputReport) l ≤ length (records_wire (map input_record l)))%nat) as H.
  { intros l. unfold records_wire. induction l as [|x l IH]; [done|]. cbn [map concat].
    rewrite length_app. assert (1 ≤ length (record_wire (input_record x)))%nat; [|cbn; lia].
    unfold record_wire. cbn. lia. }
  specialize (H rs). intros. lia.
Qed.

(** C15: batching loses nothing.  However many reports wait, the batch takes a prefix of
    them in order, stops only when it holds four or the next does not fit in the cell, and
    hands the rest back; its bytes are those [encode_records] would write, and the
    receiver's iterator reads exactly the taken reports back from them, with a clean
    [finish]. *)
Theorem batch_reads_back r rs :
  Forall input_wf (r :: rs) →
  let '(b, rest) := fill_batch (batch_new r) rs in
  let '(bytes, count) := batch_encoded b in
  ∃ taken, r :: rs = taken ++ rest ∧ taken ≠ [] ∧
    (∀ next after, rest = next :: after → has_room taken next = false) ∧
    count = Z.of_nat (length taken) ∧
    encode_records (map input_record taken) (zeros SPI_CELL_PAYLOAD_LEN) =
      (batch_payload b, Ok (Z.of_nat (length bytes), count)) ∧
    let it := RecordIter_new bytes count in
    let '(items, it') := RecordIter_drain (drain_fuel it) it in
    items = map Ok (map input_record taken) ∧ RecordIter_finish it' = Ok () ∧
    map read_input_record (map input_record taken) = map Some taken.
Proof.
  intros Hall. inversion_clear Hall as [|? ? Hr Hrs].
  pose proof (fill_batch_holds rs Hrs _ _ (batch_new_holds r Hr)) as H.
  destruct (fill_batch _ rs) as [b rest]. destruct H as (taken & -> & [Hc Hl Hf Hp] & Hrest).
  apply Forall_app in Hrs as [Htaken _].
  change ([r] ++ taken) with (r :: taken) in *.
  assert (Forall input_wf (r :: taken)) as Hwf by by constructor.
  assert (Forall record_ok (map input_record (r :: taken))) as Hok.
  { apply Forall_map. eapply List.Forall_impl; [|exact Hwf]. exact input_record_ok. }
  assert (length (map input_record (r :: taken)) ≤ 255)%nat as Hn.
  { rewrite length_map. by apply batch_count_le. }
  pose proof (encode_records_spec _ (zeros SPI_CELL_PAYLOAD_LEN) Hok Hn (length_zeros _)) as Henc.
  pose proof (drain_new_records _ Hok) as Hit. rewrite length_map in *.
  fold (batch_bytes (r :: taken)) in Henc, Hit. rewrite decide_True in Henc by done.
  unfold batch_encoded. rewrite Hl, Nat2Z.id, Hp, Hc, take_app_length.
  exists (r :: taken). split; [done|]. split; [done|].
  split; [intros next after ->; exact Hrest|]. split; [done|].
  split; [by rewrite Henc|].
  cbn zeta in *. destruct (RecordIter_drain _ _) as [items it']. destruct Hit as [-> Hfin].
  split; [done|]. split; [done|]. rewrite map_map. apply map_ext_in.
  intros x Hx. apply read_input_record_ok. rewrite List.Forall_forall in Hwf. by apply Hwf.
Qed.

Definition sample_standard (seq : Z) : InputReport :=
  StandardInput (mkStandardInput 0 seq (ReportOfKeyboard (mkKeyboardReport [2; 0; 4; 5; 0; 0; 0; 0]))).

Lemma sample_standard_wf seq : u16_ok seq → input_wf (sample_standard seq).
Proof.
  intros H. refine (conj _ (conj H _)); [done|]. split; [reflexivity|].
  apply (bool_decide_unpack _). vm_compute. exact I.
Qed.

Lemma batch_reads_back_witness :
  ∃ taken, map sample_standard [1; 2; 3; 4; 5; 6] = taken ++ map sample_standard [5; 6] ∧
    taken ≠ [].
Proof.
  pose proof (batch_reads_back (sample_standard 1) (map sample_standard [2; 3; 4; 5; 6])
    ltac:(repeat constructor; apply sample_standard_wf; words)) as H.
  destruct (fill_batch _ _) as [b rest] eqn:E. vm_compute in E.
  injection E as <- <-. destruct (batch_encoded _). destruct H as (taken & H1 & H2 & _).
  exists taken. split; [exact H1|exact H2].
Defined.
