(* ===== verification/MgmtFrame.v ===== *)
(** * Management frames and their byte stream ([src/src/management/frame.rs])

    The management envelope with its CRC-16, and its COBS encoding for byte-stream
    transports.  Where the code indexes or slices with a computed index, the model has an
    explicit outcome for the panic of an index out of range. *)

From S2P Require Import Prelude Checksum.

Definition FRAME_VERSION : Z := 1.
Definition FRAME_PAYLOAD_CAPACITY : nat := 512.
Definition FRAME_HEADER_LEN : nat := 10.
Definition FRAME_CRC_LEN : nat := 2.
Definition FRAME_CAPACITY : nat := FRAME_HEADER_LEN + FRAME_PAYLOAD_CAPACITY + FRAME_CRC_LEN.
Definition STREAM_FRAME_CAPACITY : nat := FRAME_CAPACITY + FRAME_CAPACITY / 254 + 2.

(** [*b"HS"]. *)
Definition MAGIC : list Z := [72; 83].

Inductive FrameError :=
| FrameTruncated | InvalidMagic | UnsupportedVersion | InvalidKind | InvalidNode | InvalidLength
| PayloadTooLarge | FrameCrcMismatch | MalformedCobs.
#[export] Instance FrameError_eq_dec : EqDecision FrameError.
Proof. solve_decision. Defined.

Inductive FrameKind := FkRequest | FkResponse | FkEvent | FkLog | FkUpdate.
#[export] Instance FrameKind_eq_dec : EqDecision FrameKind.
Proof. solve_decision. Defined.

Definition FrameKind_code (k : FrameKind) : Z :=
  match k with FkRequest => 1 | FkResponse => 2 | FkEvent => 3 | FkLog => 4 | FkUpdate => 5 end.

Definition FrameKind_from_byte (value : Z) : Result FrameError FrameKind :=
  match value with
  | 1 => Ok FkRequest | 2 => Ok FkResponse | 3 => Ok FkEvent | 4 => Ok FkLog | 5 => Ok FkUpdate
  | _ => Err InvalidKind
  end.

Inductive NodeId := NodeHost | NodeDevice.
#[export] Instance NodeId_eq_dec : EqDecision NodeId.
Proof. solve_decision. Defined.

Definition NodeId_code (n : NodeId) : Z := match n with NodeHost => 1 | NodeDevice => 2 end.

Definition NodeId_from_byte (value : Z) : Result FrameError NodeId :=
  match value with 1 => Ok NodeHost | 2 => Ok NodeDevice | _ => Err InvalidNode end.

Record Frame := mkFrame {
  frame_kind : FrameKind;
  frame_request_id : Z;
  frame_node : NodeId;
  frame_flags : Z;
  frame_payload : list Z
}.
#[export] Instance Frame_eq_dec : EqDecision Frame.
Proof. solve_decision. Defined.

Definition Frame_new (kind : FrameKind) (request_id : Z) (node : NodeId) (flags : Z)
  (payload : list Z) : Result FrameError Frame :=
  if decide (length payload > FRAME_PAYLOAD_CAPACITY)%nat then Err PayloadTooLarge
  else Ok (mkFrame kind request_id node flags payload).

(** [let _ = v.extend_from_slice(s)] on a vector of capacity [cap]: all of [s] or nothing;
    [let _ = v.push(x)] is the case of one byte. *)
Definition try_extend (cap : nat) (s v : list Z) : list Z :=
  if decide (length v + length s ≤ cap)%nat then v ++ s else v.

Definition Frame_encode (self : Frame) : list Z :=
  let bytes := try_extend FRAME_CAPACITY MAGIC [] in
  let bytes := try_extend FRAME_CAPACITY [FRAME_VERSION] bytes in
  let bytes := try_extend FRAME_CAPACITY [FrameKind_code (frame_kind self)] bytes in
  let bytes := try_extend FRAME_CAPACITY (u16_to_le_bytes (frame_request_id self)) bytes in
  let bytes := try_extend FRAME_CAPACITY [NodeId_code (frame_node self)] bytes in
  let bytes := try_extend FRAME_CAPACITY [frame_flags self] bytes in
  let bytes := try_extend FRAME_CAPACITY
    (u16_to_le_bytes (as_u16 (Z.of_nat (length (frame_payload self))))) bytes in
  let bytes := try_extend FRAME_CAPACITY (frame_payload self) bytes in
  let crc := crc16_ccitt_false bytes in
  try_extend FRAME_CAPACITY (u16_to_le_bytes crc) bytes.

Definition Frame_decode (bytes : list Z) : Result FrameError Frame :=
  if decide (length bytes < FRAME_HEADER_LEN + FRAME_CRC_LEN)%nat then Err FrameTruncated
  else if decide (take 2 bytes ≠ MAGIC) then Err InvalidMagic
  else if decide (byte_at bytes 2 ≠ FRAME_VERSION) then Err UnsupportedVersion
  else
    let payload_len := Z.to_nat (u16_from_le_bytes (byte_at bytes 8) (byte_at bytes 9)) in
    if decide (payload_len > FRAME_PAYLOAD_CAPACITY)%nat then Err PayloadTooLarge
    else if decide (length bytes ≠ FRAME_HEADER_LEN + payload_len + FRAME_CRC_LEN)%nat
    then Err InvalidLength
    else
      let body_end := (length bytes - FRAME_CRC_LEN)%nat in
      let expected := u16_from_le_bytes (byte_at bytes body_end) (byte_at bytes (body_end + 1)) in
      if decide (crc16_ccitt_false (take body_end bytes) ≠ expected) then Err FrameCrcMismatch
      else
        let? kind := FrameKind_from_byte (byte_at bytes 3) in
        let? node := NodeId_from_byte (byte_at bytes 6) in
        Frame_new kind (u16_from_le_bytes (byte_at bytes 4) (byte_at bytes 5)) node
          (byte_at bytes 7) (slice FRAME_HEADER_LEN body_end bytes).

(** ** COBS *)

(** [encoded[code_index] = code]. *)
Definition write_code (encoded : list Z) (code_index : nat) (code : Z) : Run (list Z) :=
  if decide (code_index < length encoded)%nat then Returns (<[code_index := code]> encoded)
  else Panics.

(** Close the block: store its code and open the next one. *)
Definition next_block (encoded : list Z) (code_index : nat) (code : Z)
  : Run (list Z * nat * Z) :=
  let! encoded := write_code encoded code_index code in
  Returns (try_extend STREAM_FRAME_CAPACITY [0] encoded, length encoded, 1).

(** The loop state is [(encoded, code_index, code)]. *)
Definition encode_stream_byte (st : list Z * nat * Z) (byte : Z) : Run (list Z * nat * Z) :=
  let '(encoded, code_index, code) := st in
  if decide (byte = 0) then next_block encoded code_index code
  else
    let encoded := try_extend STREAM_FRAME_CAPACITY [byte] encoded in
    let code := code + 1 in
    if decide (code = 0xff) then next_block encoded code_index code
    else Returns (encoded, code_index, code).

Fixpoint encode_stream_loop (source : list Z) (st : list Z * nat * Z) : Run (list Z * nat * Z) :=
  match source with
  | [] => Returns st
  | byte :: source => let! st := encode_stream_byte st byte in encode_stream_loop source st
  end.

Definition encode_stream (frame : Frame) : Run (list Z) :=
  let source := Frame_encode frame in
  let encoded := try_extend STREAM_FRAME_CAPACITY [0] [] in
  let! st := encode_stream_loop source (encoded, 0%nat, 1) in
  let '(encoded, code_index, code) := st in
  let! encoded := write_code encoded code_index code in
  Returns (try_extend STREAM_FRAME_CAPACITY [0] encoded).

(** [bytes.strip_suffix(&[0]).unwrap_or(bytes)]. *)
Definition strip_zero_suffix (bytes : list Z) : list Z :=
  if decide (head (reverse bytes) = Some 0) then take (length bytes - 1) bytes else bytes.

(** One round of the loop: the new index and the bytes decoded so far. *)
Definition decode_stream_step (encoded : list Z) (index : nat) (decoded : list Z)
  : Run (Result FrameError (nat * list Z)) :=
  let code := Z.to_nat (byte_at encoded index) in
  if decide (code = 0%nat ∨ (index + code > length encoded + 1)%nat)
  then Returns (Err MalformedCobs)
  else
    let index := (index + 1)%nat in
    let fin := (index + code - 1)%nat in
    if decide (fin > length encoded)%nat then Panics
    else
      let block := slice index fin encoded in
      if decide (length decoded + length block > FRAME_CAPACITY)%nat
      then Returns (Err PayloadTooLarge)
      else
        let decoded := decoded ++ block in
        if decide (code ≠ 255%nat ∧ (fin < length encoded)%nat) then
          match vec_push FRAME_CAPACITY 0 decoded with
          | None => Returns (Err PayloadTooLarge)
          | Some decoded => Returns (Ok (fin, decoded))
          end
        else Returns (Ok (fin, decoded)).

Fixpoint decode_stream_loop (fuel : nat) (encoded : list Z) (index : nat) (decoded : list Z)
  : Run (Result FrameError (list Z)) :=
  if decide (index < length encoded)%nat then
    match fuel with
    | O => OutOfFuel
    | S fuel =>
        let! r := decode_stream_step encoded index decoded in
        match r with
        | Err e => Returns (Err e)
        | Ok (index, decoded) => decode_stream_loop fuel encoded index decoded
        end
    end
  else Returns (Ok decoded).

(** The index grows by at least one each round, so the length of the input is fuel enough. *)
Definition decode_stream (bytes : list Z) : Run (Result FrameError Frame) :=
  let encoded := strip_zero_suffix bytes in
  let! decoded := decode_stream_loop (length encoded) encoded 0 [] in
  Returns (let? decoded := decoded in Frame_decode decoded).

(** ** The frame codec *)

Record frame_wf (f : Frame) : Prop := {
  fw_request : u16_ok (frame_request_id f);
  fw_flags : u8_ok (frame_flags f);
  fw_payload : bytes_ok (frame_payload f);
  fw_length : (length (frame_payload f) ≤ FRAME_PAYLOAD_CAPACITY)%nat
}.

Definition frame_body (f : Frame) : list Z :=
  MAGIC ++ [FRAME_VERSION; FrameKind_code (frame_kind f)] ++
  u16_to_le_bytes (frame_request_id f) ++ [NodeId_code (frame_node f); frame_flags f] ++
  u16_to_le_bytes (Z.of_nat (length (frame_payload f))) ++ frame_payload f.

Definition frame_bytes (f : Frame) : list Z :=
  frame_body f ++ u16_to_le_bytes (crc16_ccitt_false (frame_body f)).

Lemma length_frame_body f : length (frame_body f) = (10 + length (frame_payload f))%nat.
Proof. reflexivity. Qed.

Lemma length_frame_bytes f : length (frame_bytes f) = (12 + length (frame_payload f))%nat.
Proof. unfold frame_bytes. rewrite length_app, length_frame_body. cbn. lia. Qed.

Lemma try_extend_ok cap s v : (length v + length s ≤ cap)%nat → try_extend cap s v = v ++ s.
Proof. intros H. unfold try_extend. by rewrite decide_True. Qed.

Lemma Frame_encode_eq f : (length (frame_payload f) ≤ FRAME_PAYLOAD_CAPACITY)%nat →
  Frame_encode f = frame_bytes f.
Proof.
  unfold FRAME_PAYLOAD_CAPACITY. intros H. unfold Frame_encode.
  assert (as_u16 (Z.of_nat (length (frame_payload f))) = Z.of_nat (length (frame_payload f))) as ->
    by (unfold as_u16; apply Z.mod_small; lia).
  change FRAME_CAPACITY with 524%nat.
  repeat match goal with |- context [try_extend 524 ?s ?v] =>
    lazymatch v with context [try_extend] => fail | _ =>
      rewrite (try_extend_ok 524 s v)
        by (rewrite ?length_app; cbn [length app MAGIC u16_to_le_bytes]; lia) end end.
  reflexivity.
Qed.

Lemma FrameKind_roundtrip k : FrameKind_from_byte (FrameKind_code k) = Ok k.
Proof. by destruct k. Qed.
Lemma NodeId_roundtrip n : NodeId_from_byte (NodeId_code n) = Ok n.
Proof. by destruct n. Qed.

Lemma FrameKind_from_byte_inv b k : FrameKind_from_byte b = Ok k → b = FrameKind_code k.
Proof.
  unfold FrameKind_from_byte. intros H. repeat (case_match; try discriminate);
    by injection H as <-.
Qed.

Lemma NodeId_from_byte_inv b n : NodeId_from_byte b = Ok n → b = NodeId_code n.
Proof.
  unfold NodeId_from_byte. intros H. repeat (case_match; try discriminate);
    by injection H as <-.
Qed.

Lemma frame_body_ok f : frame_wf f → bytes_ok (frame_body f).
Proof.
  intros [Hr Hf Hp Hl]. unfold frame_body. rewrite !bytes_ok_app.
  repeat split; try apply u16_to_le_bytes_ok; try done; unfold bytes_ok; repeat constructor; try done.
  all: try (destruct (frame_kind f); done); try (destruct (frame_node f); done); apply Hf.
Qed.

Lemma Frame_decode_bytes f : frame_wf f → Frame_decode (frame_bytes f) = Ok f.
Proof.
  intros Hwf. pose proof (frame_body_ok f Hwf) as Hb. destruct Hwf as [Hr Hf Hp Hl].
  pose proof (length_frame_bytes f) as Hlen. pose proof (length_frame_body f) as Hlb.
  unfold FRAME_PAYLOAD_CAPACITY in Hl.
  unfold Frame_decode. rewrite Hlen. unfold FRAME_HEADER_LEN, FRAME_CRC_LEN, FRAME_PAYLOAD_CAPACITY.
  rewrite decide_False by lia.
  change (take 2 (frame_bytes f)) with MAGIC. rewrite decide_False by tauto.
  change (byte_at (frame_bytes f) 2) with FRAME_VERSION. rewrite decide_False by tauto.
  set (n := length (frame_payload f)) in *.
  assert (u16_from_le_bytes (byte_at (frame_bytes f) 8) (byte_at (frame_bytes f) 9) = Z.of_nat n) as ->
    by exact (u16_from_to_le (Z.of_nat n) ltac:(words)).
  rewrite Nat2Z.id. rewrite decide_False by lia. rewrite decide_False by lia.
  replace (12 + n - 2)%nat with (length (frame_body f)) by lia.
  rewrite decide_False.
  2: { intros H. apply H. unfold frame_bytes, byte_at. rewrite take_app_length.
    rewrite app_nth2, app_nth2 by lia. rewrite Nat.sub_diag.
    replace (length (frame_body f) + 1 - length (frame_body f))%nat with 1%nat by lia.
    symmetry. apply u16_from_to_le. auto with hid. }
  change (byte_at (frame_bytes f) 3) with (FrameKind_code (frame_kind f)).
  change (byte_at (frame_bytes f) 6) with (NodeId_code (frame_node f)).
  rewrite FrameKind_roundtrip, NodeId_roundtrip. cbn [result_bind].
  assert (u16_from_le_bytes (byte_at (frame_bytes f) 4) (byte_at (frame_bytes f) 5) =
    frame_request_id f) as -> by by apply u16_from_to_le.
  change (byte_at (frame_bytes f) 7) with (frame_flags f).
  assert (slice 10 (length (frame_body f)) (frame_bytes f) = frame_payload f) as ->.
  { unfold slice. rewrite Hlb. replace (10 + n - 10)%nat with n by lia.
    change (drop 10 (frame_bytes f)) with
      (frame_payload f ++ u16_to_le_bytes (crc16_ccitt_false (frame_body f))).
    apply take_app_length. }
  unfold Frame_new. rewrite decide_False by (unfold FRAME_PAYLOAD_CAPACITY; fold n; lia). by destruct f.
Qed.

Lemma split_last_two {A} (b : list A) n : length b = (n + 2)%nat →
  ∃ p x y, b = p ++ [x; y] ∧ length p = n.
Proof.
  intros H. exists (take n b).
  assert (length (drop n b) = 2%nat) as Hd by (rewrite length_drop; lia).
  destruct (drop n b) as [|x [|y []]] eqn:E; try discriminate.
  exists x, y. split; [by rewrite <- E, take_drop|]. rewrite length_take. lia.
Qed.

(** The header of an accepted image, field by field. *)
Lemma Frame_decode_fields b f : Frame_decode b = Ok f →
  ∃ len_lo len_hi id_lo id_hi payload crc_lo crc_hi,
    let head := MAGIC ++ [FRAME_VERSION; FrameKind_code (frame_kind f); id_lo; id_hi;
      NodeId_code (frame_node f); frame_flags f; len_lo; len_hi] in
    b = (head ++ payload) ++ [crc_lo; crc_hi] ∧
    Z.to_nat (u16_from_le_bytes len_lo len_hi) = length payload ∧
    (length payload ≤ FRAME_PAYLOAD_CAPACITY)%nat ∧
    frame_request_id f = u16_from_le_bytes id_lo id_hi ∧ frame_payload f = payload ∧
    crc16_ccitt_false (head ++ payload) = u16_from_le_bytes crc_lo crc_hi.
Proof.
  intros H. unfold Frame_decode in H.
  change FRAME_HEADER_LEN with 10%nat in H. change FRAME_CRC_LEN with 2%nat in H.
  destruct (decide (length b < 10 + 2)%nat) as [|Hl]; [discriminate H|].
  destruct b as [|m0 [|m1 [|ver [|kd [|i0 [|i1 [|nd [|fl [|l0 [|l1 b]]]]]]]]]]; try (cbn in Hl; lia).
  destruct (decide (take 2 _ ≠ MAGIC)) as [|HM]; [discriminate H|]. apply dec_stable in HM.
  injection HM as -> ->.
  destruct (decide (_ ≠ FRAME_VERSION)) as [|HV]; [discriminate H|]. apply dec_stable in HV.
  cbn [byte_at nth] in HV. unfold byte_at in HV. cbn [nth] in HV. subst.
  destruct (decide (_ > FRAME_PAYLOAD_CAPACITY)%nat) as [|Hcap]; [discriminate H|].
  destruct (decide (_ ≠ _)) as [|Hlen]; [discriminate H|]. apply dec_stable in Hlen.
  destruct (decide (_ ≠ _)) as [|Hcrc]; [discriminate H|]. apply dec_stable in Hcrc.
  inv_ok H. apply FrameKind_from_byte_inv in Ha. apply NodeId_from_byte_inv in Ha0.
  unfold byte_at in Ha, Ha0, Hcap, Hlen. cbn [nth] in Ha, Ha0, Hcap, Hlen. subst.
  cbn [length] in Hlen.
  destruct (split_last_two b (Z.to_nat (u16_from_le_bytes l0 l1))) as (p & x & y & -> & Hp); [lia|].
  rewrite <- Hp in *. clear Hlen.
  match type of Hcrc with context [take (length ?l - 2) ?l] =>
    change l with ((MAGIC ++ [FRAME_VERSION; FrameKind_code a; i0; i1; NodeId_code a0; fl; l0; l1]) ++
      (p ++ [x; y])) in Hcrc, H end.
  rewrite app_assoc in Hcrc, H.
  match type of Hcrc with context [?l ++ [x; y]] => set (body := l) in * end.
  rewrite length_app in Hcrc, H. cbn [length] in Hcrc, H.
  replace (length body + 2 - 2)%nat with (length body) in Hcrc, H by lia.
  rewrite take_app_length in Hcrc.
  assert (byte_at (body ++ [x; y]) (length body) = x) as Hx.
  { unfold byte_at. rewrite app_nth2 by lia. by rewrite Nat.sub_diag. }
  assert (byte_at (body ++ [x; y]) (length body + 1) = y) as Hy.
  { unfold byte_at. rewrite app_nth2_plus. done. }
  rewrite Hx, Hy in Hcrc.
  assert (slice 10 (length body) (body ++ [x; y]) = p) as Hs.
  { unfold slice. assert (length body - 10 = length p)%nat as ->.
    { unfold body. rewrite length_app. cbn [length app MAGIC]. lia. }
    unfold body. cbn [app MAGIC drop]. apply take_app_length. }
  rewrite Hs in H. unfold Frame_new in H.
  destruct (decide (_ > FRAME_PAYLOAD_CAPACITY)%nat) as [|_]; [discriminate H|].
  injection H as <-. cbn [frame_kind frame_node frame_flags frame_request_id frame_payload].
  exists l0, l1, i0, i1, p, x, y. split_and!; try done. lia.
Qed.

Lemma Frame_decode_inv b f : bytes_ok b → Frame_decode b = Ok f → frame_wf f ∧ frame_bytes f = b.
Proof.
  intros Hb H. destruct (Frame_decode_fields b f H) as
    (l0 & l1 & i0 & i1 & p & x & y & -> & Hlen & Hcap & Hid & Hp & Hcrc).
  apply bytes_ok_app in Hb as [Hbody Hxy]. pose proof Hbody as Hbody'.
  apply bytes_ok_app in Hbody' as [Hhead Hpay].
  unfold MAGIC in Hhead. cbn [app] in Hhead. unfold bytes_ok in Hhead, Hxy.
  repeat (apply List.Forall_cons_iff in Hhead as [? Hhead]).
  repeat (apply List.Forall_cons_iff in Hxy as [? Hxy]).
  assert (Z.of_nat (length p) = u16_from_le_bytes l0 l1) as Hn.
  { rewrite <- Hlen, Z2Nat.id; [done|]. unfold u16_from_le_bytes. words. }
  split.
  - split; rewrite ?Hid, ?Hp; auto with hid.
  - unfold frame_bytes.
    assert (frame_body f = (MAGIC ++ [FRAME_VERSION; FrameKind_code (frame_kind f); i0; i1;
      NodeId_code (frame_node f); frame_flags f; l0; l1]) ++ p) as ->.
    { unfold frame_body. rewrite Hp, Hid, Hn, !u16_to_from_le by done. reflexivity. }
    rewrite Hcrc, u16_to_from_le by done. done.
Qed.

Lemma bytes_ok_two x y : u8_ok x → u8_ok y → bytes_ok [x; y].
Proof. intros Hx Hy. by repeat apply List.Forall_cons. Qed.

Lemma frame_burst_rejected f pre x y x' y' suf f' : frame_wf f →
  frame_bytes f = pre ++ [x; y] ++ suf → (2 ≤ length suf)%nat → u8_ok x' → u8_ok y' →
  Frame_decode (pre ++ [x'; y'] ++ suf) = Ok f' → x' = x ∧ y' = y.
Proof.
  intros Hwf Hf Hsuf Hx' Hy' H.
  pose proof (frame_body_ok f Hwf) as Hbody.
  destruct (split_last_two suf (length suf - 2)) as (mid & c0 & c1 & -> & Hmid); [lia|].
  assert (frame_body f = pre ++ [x; y] ++ mid ∧
    u16_to_le_bytes (crc16_ccitt_false (frame_body f)) = [c0; c1]) as [Hb Hc].
  { apply app_inj_2; [done|]. rewrite <- !app_assoc. exact Hf. }
  rewrite Hb in Hbody, Hc. rewrite !bytes_ok_app in Hbody.
  destruct Hbody as (Hpre & Hxy & Hm). unfold bytes_ok in Hxy.
  repeat (apply List.Forall_cons_iff in Hxy as [? Hxy]).
  assert (bytes_ok (pre ++ [x'; y'] ++ mid)) as Hbody'.
  { rewrite !bytes_ok_app. split; [done|]. split; [by apply bytes_ok_two|done]. }
  assert (bytes_ok (pre ++ [x'; y'] ++ mid ++ [c0; c1])) as Hall.
  { replace (pre ++ [x'; y'] ++ mid ++ [c0; c1]) with ((pre ++ [x'; y'] ++ mid) ++ [c0; c1])
      by by rewrite <- !app_assoc.
    apply bytes_ok_app. split; [done|]. rewrite <- Hc. auto with hid. }
  destruct (Frame_decode_inv _ f' Hall H) as [_ Hf'].
  assert (frame_body f' = pre ++ [x'; y'] ++ mid ∧
    u16_to_le_bytes (crc16_ccitt_false (frame_body f')) = [c0; c1]) as [Hb' Hc'].
  { apply app_inj_2; [done|]. rewrite <- !app_assoc. exact Hf'. }
  rewrite Hb', <- Hc in Hc'.
  assert (crc16_ccitt_false (pre ++ [x'; y'] ++ mid) = crc16_ccitt_false (pre ++ [x; y] ++ mid)) as Heq.
  { assert (∀ a b, u16_ok a → u16_ok b → u16_to_le_bytes a = u16_to_le_bytes b → a = b) as Hinj.
    { intros a b Ha Hb0 E. rewrite <- (u16_from_to_le a), <- (u16_from_to_le b) by done.
      by injection E as -> ->. }
    apply Hinj; [by apply crc16_u16| |exact Hc']. apply crc16_u16. rewrite !bytes_ok_app.
    split; [done|]. split; [by apply bytes_ok_two|done]. }
  by apply (crc16_two_byte_burst pre x' y' x y mid) in Heq.
Qed.

(** The management frame codec is exact.  Every frame the type allows is encoded in at
    most 524 bytes and read back unchanged; bytes that decode are the encoding of the
    frame they give; and an encoded frame in which up to two adjacent bytes before the CRC
    field were changed is never accepted. *)
Theorem frame_codec :
  (∀ f, frame_wf f → (length (Frame_encode f) ≤ FRAME_CAPACITY)%nat ∧ bytes_ok (Frame_encode f) ∧
     Frame_decode (Frame_encode f) = Ok f) ∧
  (∀ b f, bytes_ok b → Frame_decode b = Ok f → frame_wf f ∧ Frame_encode f = b) ∧
  (∀ f pre x y x' y' suf f', frame_wf f → Frame_encode f = pre ++ [x; y] ++ suf →
     (2 ≤ length suf)%nat → u8_ok x' → u8_ok y' →
     Frame_decode (pre ++ [x'; y'] ++ suf) = Ok f' → x' = x ∧ y' = y).
Proof.
  split; [|split].
  - intros f Hf. rewrite Frame_encode_eq by apply Hf. split; [|split].
    + rewrite length_frame_bytes. pose proof (fw_length f Hf) as Hl.
      change FRAME_PAYLOAD_CAPACITY with 512%nat in Hl. change FRAME_CAPACITY with 524%nat. lia.
    + unfold frame_bytes. apply bytes_ok_app. split; [by apply frame_body_ok|auto with hid].
    + by apply Frame_decode_bytes.
  - intros b f Hb H. destruct (Frame_decode_inv b f Hb H) as [Hf He]. split; [done|].
    rewrite Frame_encode_eq by apply Hf. done.
  - intros f pre x y x' y' suf f' Hf He. rewrite Frame_encode_eq in He by apply Hf.
    by eapply frame_burst_rejected.
Qed.

Lemma frame_codec_witness :
  Frame_decode (Frame_encode (mkFrame FkResponse 0x4321 NodeDevice 3 [0; 1; 0; 2])) =
    Ok (mkFrame FkResponse 0x4321 NodeDevice 3 [0; 1; 0; 2]).
Proof.
  refine (proj2 (proj2 (proj1 frame_codec _ _))).
  split; try (apply (bool_decide_unpack _); vm_compute; exact I).
Defined.

(** ** The COBS code of a byte string

    [cobs run source] is the reference encoder: [run] is the block read so far. *)

Fixpoint cobs (run source : list Z) : list Z :=
  match source with
  | [] => Z.of_nat (Datatypes.S (length run)) :: run
  | b :: source =>
      if decide (b = 0) then Z.of_nat (Datatypes.S (length run)) :: run ++ cobs [] source
      else if decide (length run = 253)%nat then 255 :: (run ++ [b]) ++ cobs [] source
      else cobs (run ++ [b]) source
  end.

Lemma length_cobs_lower source : ∀ run, (1 + length run ≤ length (cobs run source))%nat.
Proof.
  induction source as [|b source IH]; intros run; cbn [cobs]; [cbn; lia|].
  repeat case_decide; cbn [length]; rewrite ?length_app; [lia|lia|].
  specialize (IH (run ++ [b])). rewrite length_app in IH. cbn in IH. lia.
Qed.

Lemma length_cobs_upper source : ∀ run,
  (254 * length (cobs run source) ≤
   254 * (1 + length run + length source) + (length run + length source))%nat.
Proof.
  induction source as [|b source IH]; intros run; cbn [cobs]; [cbn [length]; lia|].
  repeat case_decide; cbn [length]; rewrite ?length_app; cbn [length].
  - specialize (IH []). cbn [length] in IH. lia.
  - specialize (IH []). cbn [length] in IH. lia.
  - specialize (IH (run ++ [b])). rewrite length_app in IH. cbn [length] in IH. lia.
Qed.

Lemma cobs_no_zero source : ∀ run, Forall (λ b, b ≠ 0) run → Forall (λ b, b ≠ 0) (cobs run source).
Proof.
  induction source as [|b source IH]; intros run Hrun; cbn [cobs].
  - constructor; [lia|done].
  - repeat case_decide.
    + constructor; [lia|]. apply Forall_app. split; [done|]. by apply IH.
    + constructor; [lia|]. rewrite !Forall_app. split; [split; [done|by repeat constructor]|]. by apply IH.
    + apply IH. apply Forall_app. split; [done|by repeat constructor].
Qed.

Lemma write_code_at pre x code rest :
  write_code (pre ++ x :: rest) (length pre) code = Returns (pre ++ code :: rest).
Proof.
  unfold write_code. rewrite decide_True by (rewrite length_app; cbn; lia).
  f_equal. rewrite insert_app_r_alt, Nat.sub_diag by lia. done.
Qed.

(** The loop, from a state whose open block is [run], followed by the final store. *)
Lemma encode_stream_loop_cobs source : ∀ pre run,
  (length run ≤ 253)%nat → (length (pre ++ cobs run source) < STREAM_FRAME_CAPACITY)%nat →
  ∃ encoded code_index code,
    encode_stream_loop source (pre ++ 0 :: run, length pre, Z.of_nat (Datatypes.S (length run))) =
      Returns (encoded, code_index, code) ∧
    write_code encoded code_index code = Returns (pre ++ cobs run source).
Proof.
  induction source as [|b source IH]; intros pre run Hrun Hfit.
  { cbn [encode_stream_loop cobs]. do 3 eexists. split; [done|]. by rewrite write_code_at. }
  cbn [cobs] in Hfit. cbn [encode_stream_loop cobs encode_stream_byte].
  pose proof (length_cobs_lower source []) as Hlow0.
  pose proof (length_cobs_lower source (run ++ [b])) as Hlow1. rewrite length_app in Hlow1.
  cbn [length] in Hlow0, Hlow1.
  assert (∀ blk c, (length (pre ++ c :: blk ++ cobs [] source) < STREAM_FRAME_CAPACITY)%nat →
    ∃ encoded code_index code,
      (let! st := next_block (pre ++ 0 :: blk) (length pre) c in encode_stream_loop source st) =
        Returns (encoded, code_index, code) ∧
      write_code encoded code_index code = Returns (pre ++ c :: blk ++ cobs [] source)) as Hblock.
  { intros blk c Hf. unfold next_block. rewrite write_code_at. cbn [run_bind].
    rewrite length_app in Hf. cbn [length] in Hf. rewrite length_app in Hf.
    rewrite try_extend_ok by (rewrite length_app; cbn [length]; lia).
    destruct (IH (pre ++ c :: blk) []) as (enc & ci & code & He & Hw); [cbn; lia| |].
    { rewrite !length_app. cbn [length]. lia. }
    exists enc, ci, code. rewrite <- app_assoc in Hw. split; [exact He|exact Hw]. }
  destruct (decide (b = 0)) as [Hb|Hb]; [by apply Hblock|].
  assert (length pre + length run + 2 < STREAM_FRAME_CAPACITY)%nat as Hcap.
  { destruct (decide (length run = 253)%nat); rewrite !length_app in Hfit; cbn [length] in Hfit;
      rewrite ?length_app in Hfit; cbn [length] in Hfit; lia. }
  rewrite try_extend_ok by (rewrite length_app; cbn [length]; lia).
  rewrite <- app_assoc. cbn [app].
  destruct (decide (length run = 253)%nat) as [Hr|Hr].
  - rewrite decide_True by lia. rewrite Hr. apply Hblock. exact Hfit.
  - rewrite decide_False by lia. cbn [run_bind].
    replace (Z.of_nat (Datatypes.S (length run)) + 1) with (Z.of_nat (Datatypes.S (length (run ++ [b]))))
      by (rewrite length_app; cbn [length]; lia).
    apply IH; [rewrite length_app; cbn [length]; lia|done].
Qed.

Lemma encode_stream_eq f : (length (frame_payload f) ≤ FRAME_PAYLOAD_CAPACITY)%nat →
  encode_stream f = Returns (cobs [] (frame_bytes f) ++ [0]).
Proof.
  intros Hl. unfold encode_stream. rewrite Frame_encode_eq by done.
  change (try_extend STREAM_FRAME_CAPACITY [0] []) with ([] ++ 0 :: [] : list Z).
  pose proof (length_cobs_upper (frame_bytes f) []) as Hup.
  rewrite length_frame_bytes in Hup. cbn [length] in Hup.
  change FRAME_PAYLOAD_CAPACITY with 512%nat in Hl.
  assert (length (cobs [] (frame_bytes f)) < STREAM_FRAME_CAPACITY)%nat as Hfit.
  { change STREAM_FRAME_CAPACITY with 528%nat. lia. }
  destruct (encode_stream_loop_cobs (frame_bytes f) [] []) as (enc & ci & code & He & Hw);
    [cbn; lia|done|].
  cbn [length Z.of_nat app] in He. change (Z.of_nat 1) with 1 in He.
  cbn [app]. rewrite He. cbn [run_bind]. rewrite Hw. cbn [run_bind app].
  rewrite try_extend_ok by (cbn [length]; lia). done.
Qed.

(** A whole block: its bytes, and the zero it stands for unless it is full or the last. *)
Lemma decode_stream_step_block pre block rest decoded :
  (length block ≤ 254)%nat → (length decoded + length block + 1 ≤ FRAME_CAPACITY)%nat ∨
    (length decoded + length block ≤ FRAME_CAPACITY)%nat ∧ (rest = [] ∨ length block = 254%nat) →
  decode_stream_step (pre ++ Z.of_nat (Datatypes.S (length block)) :: block ++ rest) (length pre)
    decoded =
  Returns (Ok ((length pre + Datatypes.S (length block))%nat,
    decoded ++ block ++ if decide (rest = [] ∨ length block = 254%nat) then [] else [0])).
Proof.
  intros Hb Hcap. unfold decode_stream_step.
  assert (byte_at (pre ++ Z.of_nat (Datatypes.S (length block)) :: block ++ rest) (length pre) =
    Z.of_nat (Datatypes.S (length block))) as ->.
  { unfold byte_at. rewrite app_nth2 by lia. by rewrite Nat.sub_diag. }
  rewrite Nat2Z.id. rewrite !length_app. cbn [length]. rewrite length_app.
  rewrite decide_False by lia. rewrite decide_False by lia.
  assert (slice (length pre + 1) (length pre + 1 + Datatypes.S (length block) - 1)
    (pre ++ Z.of_nat (Datatypes.S (length block)) :: block ++ rest) = block) as ->.
  { replace (length pre + 1 + Datatypes.S (length block) - 1)%nat
      with (length pre + Datatypes.S (length block))%nat by lia.
    unfold slice. rewrite drop_app, drop_ge by lia.
    replace (length pre + 1 - length pre)%nat with 1%nat by lia.
    replace (length pre + Datatypes.S (length block) - (length pre + 1))%nat
      with (length block) by lia.
    cbn [app drop]. apply take_app_length. }
  rewrite decide_False by lia.
  replace (length pre + 1 + Datatypes.S (length block) - 1)%nat
    with (length pre + Datatypes.S (length block))%nat by lia.
  assert (rest = [] ↔ length rest = 0%nat) as Hrest by (destruct rest; cbn; split; (done || lia)).
  destruct (decide (rest = [] ∨ length block = 254%nat)) as [Hd|Hd];
    rewrite Hrest in Hd, Hcap.
  - rewrite decide_False by lia. by rewrite app_nil_r.
  - rewrite decide_True by lia. unfold vec_push. rewrite length_app, decide_True by lia.
    by rewrite <- app_assoc.
Qed.

Lemma decode_stream_loop_done fuel encoded index decoded : (length encoded ≤ index)%nat →
  decode_stream_loop fuel encoded index decoded = Returns (Ok decoded).
Proof. intros H. destruct fuel; cbn [decode_stream_loop]; by rewrite decide_False by lia. Qed.

Lemma cobs_nonempty run source : cobs run source ≠ [].
Proof. intros H. pose proof (length_cobs_lower source run) as Hl. rewrite H in Hl. cbn in Hl. lia. Qed.

Lemma decode_cobs source : ∀ pre run decoded fuel,
  (length run ≤ 253)%nat → (length (cobs run source) ≤ fuel)%nat →
  (length decoded + length run + length source ≤ FRAME_CAPACITY)%nat →
  decode_stream_loop fuel (pre ++ cobs run source) (length pre) decoded =
    Returns (Ok (decoded ++ run ++ source)).
Proof.
  assert (∀ pre block rest decoded fuel, (length block ≤ 254)%nat →
    (length (Z.of_nat (Datatypes.S (length block)) :: block ++ rest) ≤ fuel)%nat →
    (length decoded + length block + 1 ≤ FRAME_CAPACITY)%nat ∨
    (length decoded + length block ≤ FRAME_CAPACITY)%nat ∧ (rest = [] ∨ length block = 254%nat) →
    decode_stream_loop fuel (pre ++ Z.of_nat (Datatypes.S (length block)) :: block ++ rest)
      (length pre) decoded =
    decode_stream_loop (fuel - 1)
      ((pre ++ Z.of_nat (Datatypes.S (length block)) :: block) ++ rest)
      (length (pre ++ Z.of_nat (Datatypes.S (length block)) :: block))
      (decoded ++ block ++ if decide (rest = [] ∨ length block = 254%nat) then [] else [0])) as Hstep.
  { intros pre block rest decoded fuel Hb Hf Hcap. destruct fuel as [|fuel]; [cbn in Hf; lia|].
    cbn [decode_stream_loop]. rewrite decide_True by (rewrite length_app; cbn; lia).
    rewrite decode_stream_step_block by done. cbn [run_bind]. rewrite Nat.sub_1_r. cbn [Nat.pred].
    rewrite <- app_assoc. rewrite length_app. reflexivity. }
  induction source as [|b source IH]; intros pre run decoded fuel Hrun Hfuel Hcap; cbn [cobs] in *.
  - pose proof (Hstep pre run [] decoded fuel) as H. rewrite !app_nil_r in H.
    rewrite H by (try done; cbn [length] in *; lia || (right; split; [lia|by left])).
    rewrite decode_stream_loop_done by lia. by rewrite app_nil_r.
  - cbn [length] in Hcap. destruct (decide (b = 0)) as [->|Hb].
    + rewrite Hstep by (done || lia). rewrite IH.
      * rewrite decide_False by (intros [H|H]; [by eapply cobs_nonempty|lia]).
        by rewrite <- !app_assoc.
      * cbn. lia.
      * cbn [length] in Hfuel. rewrite length_app in Hfuel. lia.
      * rewrite decide_False by (intros [H|H]; [by eapply cobs_nonempty|lia]).
        rewrite !length_app. cbn [length]. lia.
    + destruct (decide (length run = 253)%nat) as [Hr|Hr].
      * assert (Datatypes.S (length (run ++ [b])) = 255)%nat as Hlen
          by (rewrite length_app; cbn [length]; lia).
        pose proof (Hstep pre (run ++ [b]) (cobs [] source) decoded fuel) as H. rewrite Hlen in H.
        change (Z.of_nat 255) with 255 in H.
        rewrite H; [|lia|exact Hfuel|right; split; [rewrite length_app; cbn [length]; lia|right; lia]].
        rewrite IH.
        -- rewrite decide_True by (right; lia). by rewrite <- !app_assoc.
        -- cbn. lia.
        -- cbn [length] in Hfuel. rewrite length_app in Hfuel. lia.
        -- rewrite decide_True by (right; lia). rewrite !length_app. cbn [length]. lia.
      * rewrite IH; [by rewrite <- app_assoc| | |].
        -- rewrite length_app. cbn [length]. lia.
        -- done.
        -- rewrite length_app. cbn [length]. lia.
Qed.

Lemma strip_zero_suffix_app l : strip_zero_suffix (l ++ [0]) = l.
Proof.
  unfold strip_zero_suffix. rewrite reverse_snoc, decide_True by done.
  rewrite length_app. cbn [length]. rewrite Nat.add_sub. apply take_app_length.
Qed.

Lemma strip_zero_suffix_no_zero l : Forall (λ b, b ≠ 0) l → strip_zero_suffix l = l.
Proof.
  intros H. unfold strip_zero_suffix. rewrite decide_False; [done|].
  destruct l as [|x l _] using rev_ind; [done|]. rewrite reverse_snoc.
  apply Forall_app in H as [_ H]. inversion_clear H. intros [= ->]. done.
Qed.

(** A management frame survives the byte stream.  [encode_stream] never panics and
    never drops a byte: what it returns fits its vector, ends in the zero delimiter and has
    no other zero, and [decode_stream] gives the frame back, with the delimiter or
    without it. *)
Theorem stream_roundtrip f : frame_wf f →
  ∃ code, encode_stream f = Returns (code ++ [0]) ∧
    (length (code ++ [0%Z]) ≤ STREAM_FRAME_CAPACITY)%nat ∧ Forall (λ b, b ≠ 0) code ∧
    decode_stream (code ++ [0]) = Returns (Ok f) ∧ decode_stream code = Returns (Ok f).
Proof.
  intros Hf. exists (cobs [] (frame_bytes f)). pose proof (fw_length f Hf) as Hl.
  split; [by apply encode_stream_eq|].
  pose proof (length_cobs_upper (frame_bytes f) []) as Hup. rewrite length_frame_bytes in Hup.
  change FRAME_PAYLOAD_CAPACITY with 512%nat in Hl. cbn [length] in Hup.
  assert (Forall (λ b, b ≠ 0) (cobs [] (frame_bytes f))) as Hnz by by apply cobs_no_zero.
  assert (decode_stream_loop (length (cobs [] (frame_bytes f))) (cobs [] (frame_bytes f)) 0 [] =
    Returns (Ok (frame_bytes f))) as Hd.
  { apply (decode_cobs (frame_bytes f) [] [] []); [cbn; lia|lia|].
    rewrite length_frame_bytes. cbn [length]. change FRAME_CAPACITY with 524%nat. lia. }
  split; [|split; [done|]].
  - rewrite length_app. cbn [length]. change STREAM_FRAME_CAPACITY with 528%nat. lia.
  - unfold decode_stream. rewrite strip_zero_suffix_app, strip_zero_suffix_no_zero by done.
    rewrite Hd. cbn [run_bind result_bind]. by rewrite Frame_decode_bytes.
Qed.

Lemma stream_roundtrip_witness :
  ∃ code, encode_stream (mkFrame FkEvent 0 NodeHost 0 [0; 1; 0; 2; 0]) = Returns (code ++ [0]) ∧
    decode_stream code = Returns (Ok (mkFrame FkEvent 0 NodeHost 0 [0; 1; 0; 2; 0])).
Proof.
  destruct (stream_roundtrip (mkFrame FkEvent 0 NodeHost 0 [0; 1; 0; 2; 0])) as (code & H & _ & _ & _ & H').
  - split; try (apply (bool_decide_unpack _); vm_compute; exact I).
  - exists code. split; [exact H|exact H'].
Defined.

(** ** Arbitrary input

    [blocks encoded i j]: from a block that starts at [i], whole blocks lead to [j]. *)

Inductive blocks (encoded : list Z) : nat → nat → Prop :=
| blocks_here i : blocks encoded i i
| blocks_next i j :
    (i < length encoded)%nat → Z.to_nat (byte_at encoded i) ≠ 0%nat →
    (i + Z.to_nat (byte_at encoded i) ≤ length encoded)%nat →
    blocks encoded (i + Z.to_nat (byte_at encoded i)) j → blocks encoded i j.

(** The block at [i] claims exactly one byte more than there is. *)
Definition one_short (encoded : list Z) (i : nat) : Prop :=
  (i < length encoded)%nat ∧ (i + Z.to_nat (byte_at encoded i) = length encoded + 1)%nat.

Lemma decode_stream_loop_outcome encoded : (length encoded ≤ FRAME_CAPACITY)%nat →
  ∀ fuel index decoded, (length encoded - index ≤ fuel)%nat →
  (index ≤ length encoded)%nat → (length decoded ≤ index)%nat →
  decode_stream_loop fuel encoded index decoded ≠ OutOfFuel ∧
  (decode_stream_loop fuel encoded index decoded = Panics ↔
   ∃ i, blocks encoded index i ∧ one_short encoded i).
Proof.
  intros Hcap fuel. induction fuel as [|fuel IH]; intros index decoded Hfuel Hle Hd.
  { rewrite decode_stream_loop_done by lia. split; [done|]. split; [done|].
    intros (i & Hb & Hi & _). exfalso. inversion Hb; subst; lia. }
  cbn [decode_stream_loop]. destruct (decide (index < length encoded)%nat) as [Hlt|Hge].
  2: { split; [done|]. split; [done|]. intros (i & Hb & Hi & _). exfalso. inversion Hb; subst; lia. }
  unfold decode_stream_step. remember (Z.to_nat (byte_at encoded index)) as code eqn:Hcode.
  destruct (decide (code = 0%nat ∨ _)) as [Hbad|Hok].
  { cbn [run_bind]. split; [done|]. split; [done|]. intros (i & Hb & Hi & Hs). exfalso.
    inversion Hb as [|? ? Hl Hc Hf]; subst; lia. }
  destruct (decide (_ > length encoded)%nat) as [Hp|Hin]; cbn [run_bind].
  { split; [done|]. split; [|done]. intros _. exists index. split; [constructor|].
    split; [done|]. lia. }
  assert (length (slice (index + 1) (index + 1 + code - 1) encoded) = code - 1)%nat as Hsl
    by (rewrite length_slice by lia; lia).
  rewrite Hsl. rewrite decide_False by lia.
  assert (∀ d, (length d ≤ index + code)%nat →
    let r := decode_stream_loop fuel encoded (index + 1 + code - 1) d in
    r ≠ OutOfFuel ∧ (r = Panics ↔ ∃ i, blocks encoded index i ∧ one_short encoded i)) as Hnext.
  { intros d Hdl. replace (index + 1 + code - 1)%nat with (index + code)%nat by lia.
    destruct (IH (index + code)%nat d) as [Hf Hi]; [lia..|]. split; [done|]. rewrite Hi.
    split; intros (i & Hb & Hs); exists i; (split; [|done]).
    - apply blocks_next; rewrite <- ?Hcode; [done|lia|lia|done].
    - inversion Hb as [|? ? Hl Hc Hf' Hr]; subst; [|done].
      destruct Hs as [_ Hs]. lia. }
  destruct (decide (code ≠ 255%nat ∧ _)) as [Hz|Hz].
  - unfold vec_push. rewrite decide_True by (rewrite length_app, Hsl; lia). cbn [run_bind].
    apply Hnext. rewrite !length_app, Hsl. cbn [length]. lia.
  - cbn [run_bind]. apply Hnext. rewrite length_app, Hsl. lia.
Qed.


