(* ===== verification/Settings.v ===== *)
(** * Settings schema ([src/src/settings.rs])

    The setting identifiers, the descriptor table the [settings_schema!] macro expands to,
    the schema hash (FNV-1a) and the packed keyboard shortcut. *)

From Stdlib Require Import Ascii String.
From S2P Require Import Prelude Input.

Definition SETTINGS_SCHEMA_VERSION : Z := 1.

Inductive SettingValueKind :=
| KindBool | KindInteger | KindChoice | KindHidUsage | KindKeyboardShortcut.
#[export] Instance SettingValueKind_eq_dec : EqDecision SettingValueKind.
Proof. solve_decision. Defined.

Definition SettingValueKind_code (k : SettingValueKind) : Z :=
  match k with
  | KindBool => 0 | KindInteger => 1 | KindChoice => 2 | KindHidUsage => 3
  | KindKeyboardShortcut => 4
  end.

Record KeyboardShortcut := mkShortcut { ks_modifiers : Z; ks_key : Z }.
#[export] Instance KeyboardShortcut_eq_dec : EqDecision KeyboardShortcut.
Proof. solve_decision. Defined.

Definition SHORTCUT_DISABLED : KeyboardShortcut := mkShortcut 0 0.

Definition KeyboardShortcut_new (modifiers key : Z) : option KeyboardShortcut :=
  if bool_decide (key = 0) || (bool_decide (0xe0 ≤ key) && bool_decide (key ≤ 0xe7)) then None
  else Some (mkShortcut modifiers key).

Definition shortcut_from_packed (value : Z) : option KeyboardShortcut :=
  let key := as_u8 value in
  if decide (key = 0) then Some SHORTCUT_DISABLED
  else KeyboardShortcut_new (as_u8 (Z.shiftr value 8)) key.

Definition shortcut_packed (self : KeyboardShortcut) : Z :=
  u16_from_le_bytes (ks_key self) (ks_modifiers self).

Definition shortcut_is_enabled (self : KeyboardShortcut) : bool := negb (ks_key self =? 0).

Inductive SettingScope := ScopeGlobal | ScopeInput.
#[export] Instance SettingScope_eq_dec : EqDecision SettingScope.
Proof. solve_decision. Defined.

Definition SettingScope_code (s : SettingScope) : Z :=
  match s with ScopeGlobal => 0 | ScopeInput => 1 end.

Record SettingChoice := mkChoice { choice_value : Z; choice_label : string }.

Local Open Scope string_scope.
Definition NO_CHOICES : list SettingChoice := [].
Definition TARGET_CHOICES : list SettingChoice :=
  [ mkChoice 0 "最後に使用した接続先"; mkChoice 1 "スロット 1"; mkChoice 2 "スロット 2";
    mkChoice 3 "スロット 3"; mkChoice 4 "スロット 4" ].
Definition BUTTON_ACTION_CHOICES : list SettingChoice :=
  [ mkChoice 0 "何もしない"; mkChoice 1 "次の接続先へ切り替え"; mkChoice 2 "ペアリングを開始";
    mkChoice 3 "現在の機器を登録解除" ].
Definition KEYBOARD_LAYOUT_CHOICES : list SettingChoice :=
  [ mkChoice 0 "変換しない"; mkChoice 1 "US配列向け"; mkChoice 2 "JIS配列向け" ].
Definition LOG_LEVEL_CHOICES : list SettingChoice :=
  [ mkChoice 0 "エラーのみ"; mkChoice 1 "警告以上"; mkChoice 2 "通常（推奨）" ].

Inductive SettingId :=
| BootTarget | RestoreLastTarget | AutoReconnect | SwitchReleaseDelayMs | ButtonShortAction
| ButtonLongAction | ButtonVeryLongAction | KeyboardLayout | RemapFromUsage | RemapToUsage
| MouseSensitivityPercent | ScrollMultiplierPercent | ConsumerFromUsage | ConsumerToUsage
| LogLevel | TargetSwitchShortcut.
#[export] Instance SettingId_eq_dec : EqDecision SettingId.
Proof. solve_decision. Defined.

(** [id as u16]. *)
Definition SettingId_code (id : SettingId) : Z :=
  match id with
  | BootTarget => 1 | RestoreLastTarget => 2 | AutoReconnect => 3 | SwitchReleaseDelayMs => 4
  | ButtonShortAction => 5 | ButtonLongAction => 6 | ButtonVeryLongAction => 7
  | KeyboardLayout => 8 | RemapFromUsage => 9 | RemapToUsage => 10
  | MouseSensitivityPercent => 11 | ScrollMultiplierPercent => 12 | ConsumerFromUsage => 13
  | ConsumerToUsage => 14 | LogLevel => 15 | TargetSwitchShortcut => 16
  end.

Record SettingDescriptor := mkDescriptor {
  sd_id : SettingId;
  sd_key : string;
  sd_label : string;
  sd_description : string;
  sd_kind : SettingValueKind;
  sd_scope : SettingScope;
  sd_default : Z;
  sd_min : Z;
  sd_max : Z;
  sd_step : Z;
  sd_unit : string;
  sd_choices : list SettingChoice;
  sd_restart_required : bool
}.

(** The first entry, which [setting_descriptor] falls back to. *)
Definition first_descriptor : SettingDescriptor :=
  mkDescriptor BootTarget "boot_target" "起動時の接続先" "0は最後の接続先、1〜4は固定スロットです"
    KindChoice ScopeGlobal 0 0 4 1 EmptyString TARGET_CHOICES false.

Definition SETTING_DESCRIPTORS : list SettingDescriptor :=
  [ first_descriptor;
    mkDescriptor RestoreLastTarget "restore_last_target" "最後の接続先を復元"
      "再起動時に最後に選択した接続先を復元します"
      KindBool ScopeGlobal 1 0 1 1 EmptyString NO_CHOICES false;
    mkDescriptor AutoReconnect "auto_reconnect" "自動再接続"
      "保存済み接続先からの接続を起動時から受け付けます"
      KindBool ScopeGlobal 1 0 1 1 EmptyString NO_CHOICES true;
    mkDescriptor SwitchReleaseDelayMs "switch_release_delay_ms" "切替時のキー解放待ち時間"
      "接続先切替前にrelease reportを処理する待ち時間です"
      KindInteger ScopeGlobal 20 0 1000 5 " ms" NO_CHOICES false;
    mkDescriptor ButtonShortAction "button_short_action" "短押し操作"
      "0:なし 1:次の接続先 2:ペアリング 3:bond削除"
      KindChoice ScopeGlobal 1 0 3 1 EmptyString BUTTON_ACTION_CHOICES false;
    mkDescriptor ButtonLongAction "button_long_action" "長押し操作"
      "0:なし 1:次の接続先 2:ペアリング 3:bond削除"
      KindChoice ScopeGlobal 2 0 3 1 EmptyString BUTTON_ACTION_CHOICES false;
    mkDescriptor ButtonVeryLongAction "button_very_long_action" "超長押し操作"
      "0:なし 1:次の接続先 2:ペアリング 3:bond削除"
      KindChoice ScopeGlobal 3 0 3 1 EmptyString BUTTON_ACTION_CHOICES false;
    mkDescriptor KeyboardLayout "keyboard_layout" "キーボード配列"
      "0:そのまま 1:US(Yen→Grave) 2:JIS(Grave→Yen)"
      KindChoice ScopeInput 0 0 2 1 EmptyString KEYBOARD_LAYOUT_CHOICES false;
    mkDescriptor RemapFromUsage "remap_from_usage" "変更元キー"
      "USB HID Usage ID。0でリマップ無効です"
      KindHidUsage ScopeInput 0 0 255 1 EmptyString NO_CHOICES false;
    mkDescriptor RemapToUsage "remap_to_usage" "変更先キー" "送信するUSB HID Usage IDです"
      KindHidUsage ScopeInput 0 0 255 1 EmptyString NO_CHOICES false;
    mkDescriptor MouseSensitivityPercent "mouse_sensitivity_percent" "マウス感度"
      "移動量の倍率を百分率で指定します"
      KindInteger ScopeInput 100 10 400 5 "%" NO_CHOICES false;
    mkDescriptor ScrollMultiplierPercent "scroll_multiplier_percent" "スクロール倍率"
      "ホイール移動量の倍率を百分率で指定します"
      KindInteger ScopeInput 100 10 400 5 "%" NO_CHOICES false;
    mkDescriptor ConsumerFromUsage "consumer_from_usage" "Consumer変更元"
      "Consumer Control Usage ID。0で無効です"
      KindHidUsage ScopeInput 0 0 1023 1 EmptyString NO_CHOICES false;
    mkDescriptor ConsumerToUsage "consumer_to_usage" "Consumer変更先"
      "送信するConsumer Control Usage IDです"
      KindHidUsage ScopeInput 0 0 1023 1 EmptyString NO_CHOICES false;
    mkDescriptor LogLevel "log_level" "ログレベル" "0:error 1:warn 2:info"
      KindChoice ScopeGlobal 2 0 2 1 EmptyString LOG_LEVEL_CHOICES false;
    mkDescriptor TargetSwitchShortcut "target_switch_shortcut" "接続先切替ショートカット"
      "物理キーボードごとに次の接続先へ切り替えます"
      KindKeyboardShortcut ScopeInput 0 0 65535 1 EmptyString NO_CHOICES false ].
Local Close Scope string_scope.

Definition SettingId_from_u16 (value : Z) : option SettingId :=
  match value with
  | 1 => Some BootTarget | 2 => Some RestoreLastTarget | 3 => Some AutoReconnect
  | 4 => Some SwitchReleaseDelayMs | 5 => Some ButtonShortAction | 6 => Some ButtonLongAction
  | 7 => Some ButtonVeryLongAction | 8 => Some KeyboardLayout | 9 => Some RemapFromUsage
  | 10 => Some RemapToUsage | 11 => Some MouseSensitivityPercent
  | 12 => Some ScrollMultiplierPercent | 13 => Some ConsumerFromUsage
  | 14 => Some ConsumerToUsage | 15 => Some LogLevel | 16 => Some TargetSwitchShortcut
  | _ => None
  end.

Definition SETTING_COUNT : nat := length SETTING_DESCRIPTORS.

(** ** Schema hash *)

(** [(hash ^ byte).wrapping_mul(0x0100_0193)]. *)
Definition hash_byte (hash byte : Z) : Z := as_u32 (Z.lxor hash byte * 0x01000193).
Definition hash_bytes (hash : Z) (bytes : list Z) : Z := fold_left hash_byte bytes hash.
Definition hash_u16 (hash value : Z) : Z := hash_bytes hash (u16_to_le_bytes value).
Definition hash_i32 (hash value : Z) : Z := hash_bytes hash (i32_to_le_bytes value).

(** [key.as_bytes()]. *)
Definition str_bytes (s : string) : list Z :=
  map (λ c, Z.of_N (N_of_ascii c)) (list_ascii_of_string s).

Definition hash_descriptor (hash : Z) (descriptor : SettingDescriptor) : Z :=
  let hash := hash_u16 hash (SettingId_code (sd_id descriptor)) in
  let hash := hash_bytes hash (str_bytes (sd_key descriptor)) in
  let hash := hash_byte hash 0 in
  let hash := hash_byte hash (SettingValueKind_code (sd_kind descriptor)) in
  let hash := hash_byte hash (SettingScope_code (sd_scope descriptor)) in
  let hash := hash_i32 hash (sd_default descriptor) in
  let hash := hash_i32 hash (sd_min descriptor) in
  let hash := hash_i32 hash (sd_max descriptor) in
  let hash := hash_u16 hash (sd_step descriptor) in
  let hash := hash_byte hash (Z.b2z (sd_restart_required descriptor)) in
  let hash := hash_u16 hash (as_u16 (Z.of_nat (length (sd_choices descriptor)))) in
  fold_left (λ hash choice, hash_i32 hash (choice_value choice)) (sd_choices descriptor) hash.

Definition settings_schema_hash (version : Z) (descriptors : list SettingDescriptor) : Z :=
  let hash := 0x811c9dc5 in
  let hash := hash_u16 hash version in
  let hash := hash_u16 hash (as_u16 (Z.of_nat (length descriptors))) in
  fold_left hash_descriptor descriptors hash.

Definition SETTINGS_SCHEMA_HASH : Z :=
  settings_schema_hash SETTINGS_SCHEMA_VERSION SETTING_DESCRIPTORS.

(** ** Lookup and validation *)

(** The [while] loop over the table, from the descriptors it has left. *)
Fixpoint descriptor_loop (descriptors : list SettingDescriptor) (id : SettingId)
  : SettingDescriptor :=
  match descriptors with
  | [] => first_descriptor
  | d :: descriptors =>
      if decide (SettingId_code (sd_id d) = SettingId_code id) then d
      else descriptor_loop descriptors id
  end.

Definition setting_descriptor (id : SettingId) : SettingDescriptor :=
  descriptor_loop SETTING_DESCRIPTORS id.

Definition setting_by_key (key : string) : option SettingDescriptor :=
  List.find (λ setting, String.eqb (sd_key setting) key) SETTING_DESCRIPTORS.

Definition validate_setting_value (id : SettingId) (value : Z) : bool :=
  let descriptor := setting_descriptor id in
  bool_decide (sd_min descriptor ≤ value) && bool_decide (value ≤ sd_max descriptor).

(** ** Stored settings *)

Record GlobalSettings := mkGlobalSettings {
  gs_boot_target : Z;
  gs_restore_last_target : bool;
  gs_auto_reconnect : bool;
  gs_switch_release_delay_ms : Z;
  gs_button_short_action : Z;
  gs_button_long_action : Z;
  gs_button_very_long_action : Z;
  gs_log_level : Z
}.
#[export] Instance GlobalSettings_eq_dec : EqDecision GlobalSettings.
Proof. solve_decision. Defined.

Definition GlobalSettings_DEFAULT : GlobalSettings := mkGlobalSettings 0 true true 20 1 2 3 2.

Record InputSettings := mkInputSettings {
  is_keyboard_layout : Z;
  is_remap_from_usage : Z;
  is_remap_to_usage : Z;
  is_mouse_sensitivity_percent : Z;
  is_scroll_multiplier_percent : Z;
  is_consumer_from_usage : Z;
  is_consumer_to_usage : Z;
  is_target_switch_shortcut : KeyboardShortcut
}.
#[export] Instance InputSettings_eq_dec : EqDecision InputSettings.
Proof. solve_decision. Defined.

Definition InputSettings_DEFAULT : InputSettings :=
  mkInputSettings 0 0 0 100 100 0 0 SHORTCUT_DISABLED.

(** [InputProfileId] is its number; [None] of [InputProfileId::new] is an invalid one
    ([domain/input_profile.rs]). *)
Definition INPUT_PROFILE_CAPACITY : nat := 8.
Definition InputProfileId_new (value : Z) : option Z :=
  if bool_decide (1 ≤ value) && bool_decide (value ≤ Z.of_nat INPUT_PROFILE_CAPACITY)
  then Some value else None.

Inductive SettingTarget := TargetGlobal | TargetInput (profile : Z).
#[export] Instance SettingTarget_eq_dec : EqDecision SettingTarget.
Proof. solve_decision. Defined.

(** ** The packed shortcut *)

(** A shortcut the code can hold: disabled, or made by [new] from bytes. *)
Definition shortcut_ok (s : KeyboardShortcut) : Prop :=
  s = SHORTCUT_DISABLED ∨
  u8_ok (ks_modifiers s) ∧ u8_ok (ks_key s) ∧ KeyboardShortcut_new (ks_modifiers s) (ks_key s) = Some s.

Lemma shortcut_from_packed_ok v s : u16_ok v → shortcut_from_packed v = Some s →
  shortcut_ok s ∧ (shortcut_is_enabled s = true → shortcut_packed s = v) ∧
  (shortcut_is_enabled s = false ↔ as_u8 v = 0).
Proof.
  intros Hv. unfold shortcut_from_packed. case_decide as Hk.
  - intros [= <-]. split; [by left|]. split; [done|]. split; done.
  - intros H. assert (u8_ok (as_u8 (Z.shiftr v 8))) as Hm by (unfold as_u8, u8_ok; apply Z.mod_pos_bound; lia).
    assert (u8_ok (as_u8 v)) as Hk8 by (unfold as_u8, u8_ok; apply Z.mod_pos_bound; lia).
    pose proof H as H'. unfold KeyboardShortcut_new in H. case_match; [done|]. injection H as <-.
    cbn [ks_modifiers ks_key]. split; [by right|]. unfold shortcut_is_enabled, shortcut_packed.
    cbn [ks_modifiers ks_key]. split; [|by rewrite (proj2 (Z.eqb_neq _ _) Hk)].
    intros _. rewrite Z.shiftr_div_pow2 by lia. unfold u16_from_le_bytes, as_u8 in *.
    unfold u16_ok in Hv. divmod.
Qed.

Lemma shortcut_packed_roundtrip s : shortcut_ok s →
  u16_ok (shortcut_packed s) ∧ shortcut_from_packed (shortcut_packed s) = Some s.
Proof.
  intros [->|(Hm & Hk & Hn)]; [split; [done|reflexivity]|].
  unfold shortcut_packed, shortcut_from_packed.
  assert (as_u8 (u16_from_le_bytes (ks_key s) (ks_modifiers s)) = ks_key s) as ->
    by (unfold as_u8, u16_from_le_bytes, u8_ok in *; divmod).
  assert (as_u8 (Z.shiftr (u16_from_le_bytes (ks_key s) (ks_modifiers s)) 8) = ks_modifiers s) as ->.
  { rewrite Z.shiftr_div_pow2 by lia. unfold as_u8, u16_from_le_bytes, u8_ok in *. divmod. }
  split; [by apply u16_from_le_ok|]. unfold KeyboardShortcut_new in *.
  destruct (bool_decide (ks_key s = 0) || _) eqn:E; [done|].
  apply orb_false_iff in E as [E _]. apply bool_decide_eq_false in E. by rewrite decide_False.
Qed.

(** The packed shortcut is exact.  Every shortcut the code can hold is a [u16] that
    unpacks to itself; every [u16] that unpacks gives such a shortcut, which packs back to
    it unless it is a disabled one (key 0), whose modifiers are dropped; and only the
    modifier usages 0xe0 to 0xe7 are refused. *)
Theorem shortcut_codec :
  (∀ s, shortcut_ok s →
     u16_ok (shortcut_packed s) ∧ shortcut_from_packed (shortcut_packed s) = Some s) ∧
  (∀ v s, u16_ok v → shortcut_from_packed v = Some s →
     shortcut_ok s ∧ (shortcut_is_enabled s = true → shortcut_packed s = v) ∧
     (shortcut_is_enabled s = false ↔ as_u8 v = 0)) ∧
  (∀ v, shortcut_from_packed v = None ↔ 0xe0 ≤ as_u8 v ≤ 0xe7).
Proof.
  split; [exact shortcut_packed_roundtrip|]. split; [exact shortcut_from_packed_ok|].
  intros v. unfold shortcut_from_packed, KeyboardShortcut_new. case_decide as H; [split; [done|lia]|].
  rewrite bool_decide_false by done. cbn [orb].
  repeat case_bool_decide; cbn [andb]; split; (done || lia).
Qed.

Lemma shortcut_codec_witness : shortcut_from_packed (shortcut_packed (mkShortcut 0x21 0x0e)) =
  Some (mkShortcut 0x21 0x0e).
Proof.
  apply (proj1 shortcut_codec). right.
  split; [|split; [|reflexivity]]; apply (bool_decide_unpack _); vm_compute; exact I.
Defined.

(** ** The schema *)

Lemma SettingId_code_inv v id : SettingId_from_u16 v = Some id → SettingId_code id = v.
Proof.
  unfold SettingId_from_u16. intros H. repeat (case_match; try discriminate);
    by injection H as <-.
Qed.

Lemma SettingId_roundtrip id : SettingId_from_u16 (SettingId_code id) = Some id.
Proof. by destruct id. Qed.

Lemma SettingId_code_ok id : u16_ok (SettingId_code id).
Proof. by destruct id. Qed.
#[export] Hint Resolve SettingId_code_ok : hid.

Definition setting_default (id : SettingId) : Z := sd_default (setting_descriptor id).

(** C21: the schema table is sound.  Identifiers and their wire numbers correspond one to one;
    every identifier has its own descriptor, found by number and by key; every default is
    valid and equal to the default of the stored settings; and for a choice setting the
    valid values are exactly the listed choices. *)
Theorem schema_sound :
  (∀ v id, SettingId_from_u16 v = Some id ↔ SettingId_code id = v) ∧
  (∀ id, sd_id (setting_descriptor id) = id ∧
     setting_by_key (sd_key (setting_descriptor id)) = Some (setting_descriptor id)) ∧
  (∀ id, validate_setting_value id (setting_default id) = true) ∧
  (∀ id v, sd_kind (setting_descriptor id) = KindChoice →
     validate_setting_value id v = true ↔ v ∈ map choice_value (sd_choices (setting_descriptor id))) ∧
  (GlobalSettings_DEFAULT = mkGlobalSettings (setting_default BootTarget)
     (setting_default RestoreLastTarget =? 1) (setting_default AutoReconnect =? 1)
     (setting_default SwitchReleaseDelayMs) (setting_default ButtonShortAction)
     (setting_default ButtonLongAction) (setting_default ButtonVeryLongAction)
     (setting_default LogLevel)) ∧
  Some InputSettings_DEFAULT =
    option_map (mkInputSettings (setting_default KeyboardLayout) (setting_default RemapFromUsage)
      (setting_default RemapToUsage) (setting_default MouseSensitivityPercent)
      (setting_default ScrollMultiplierPercent) (setting_default ConsumerFromUsage)
      (setting_default ConsumerToUsage))
      (shortcut_from_packed (setting_default TargetSwitchShortcut)).
Proof.
  split; [|split; [|split; [|split; [|split; reflexivity]]]].
  - intros v id. split; [apply SettingId_code_inv|]. intros <-. apply SettingId_roundtrip.
  - intros id. destruct id; split; reflexivity.
  - intros id. destruct id; reflexivity.
  - intros id v Hk. unfold validate_setting_value. rewrite andb_true_iff, !bool_decide_eq_true.
    destruct id; try discriminate Hk; cbn [setting_descriptor descriptor_loop];
      vm_compute sd_min; vm_compute sd_max; vm_compute map;
      rewrite list_elem_of_In; cbn [In]; lia.
Qed.

Lemma schema_sound_witness : validate_setting_value KeyboardLayout 2 = true.
Proof. apply (proj1 (proj2 (proj2 (proj2 schema_sound))) KeyboardLayout 2); [reflexivity|].
  vm_compute. right. right. left. Defined.

(** ** FNV-1a

    The step of a [k]-bit FNV hash is injective in the hash for a fixed byte and in the byte
    for a fixed hash, because the multiplier is odd; so one changed byte changes the hash. *)

Section Fnv.
Context (k prime inverse : Z) (Hk : 8 ≤ k) (Hinv : prime * inverse mod 2 ^ k = 1).

Definition fnv_step (hash byte : Z) : Z := Z.lxor hash byte * prime mod 2 ^ k.

Lemma fnv_mul_inj a b : 0 ≤ a < 2 ^ k → 0 ≤ b < 2 ^ k →
  a * prime mod 2 ^ k = b * prime mod 2 ^ k → a = b.
Proof.
  intros Ha Hb H. assert (0 < 2 ^ k) as Hp by (apply Z.pow_pos_nonneg; lia).
  apply (f_equal (λ x, x * inverse mod 2 ^ k)) in H.
  rewrite !Z.mul_mod_idemp_l in H by lia. rewrite <- !Z.mul_assoc in H.
  rewrite (Z.mul_mod a), (Z.mul_mod b), Hinv, !Z.mul_1_r, !Z.mod_mod in H by lia.
  by rewrite !Z.mod_small in H.
Qed.

Lemma lxor_bound a b : 0 ≤ a < 2 ^ k → 0 ≤ b < 2 ^ k → 0 ≤ Z.lxor a b < 2 ^ k.
Proof.
  intros Ha Hb. assert (0 ≤ Z.lxor a b) as Hn by (apply Z.lxor_nonneg; tauto).
  split; [done|]. destruct (decide (Z.lxor a b = 0)) as [->|Hne]; [apply Z.pow_pos_nonneg; lia|].
  apply Z.log2_lt_pow2; [lia|].
  apply Z.le_lt_trans with (Z.max (Z.log2 a) (Z.log2 b)); [apply Z.log2_lxor; lia|].
  apply Z.max_lub_lt; [destruct (decide (a = 0)) as [->|]|destruct (decide (b = 0)) as [->|]];
    try (simpl; lia); apply Z.log2_lt_pow2; lia.
Qed.

Lemma byte_bound x : u8_ok x → 0 ≤ x < 2 ^ k.
Proof.
  unfold u8_ok. intros H. assert (2 ^ 8 ≤ 2 ^ k) by (apply Z.pow_le_mono_r; lia). lia.
Qed.

Lemma fnv_step_ok h x : 0 ≤ fnv_step h x < 2 ^ k.
Proof. unfold fnv_step. apply Z.mod_pos_bound. apply Z.pow_pos_nonneg; lia. Qed.

Lemma fnv_fold_ok l h : 0 ≤ h < 2 ^ k → 0 ≤ fold_left fnv_step l h < 2 ^ k.
Proof.
  revert h. induction l as [|x l IH]; intros h Hh; [done|]. cbn [fold_left].
  apply IH, fnv_step_ok.
Qed.

Lemma fnv_fold_inj l a b : 0 ≤ a < 2 ^ k → 0 ≤ b < 2 ^ k → bytes_ok l →
  fold_left fnv_step l a = fold_left fnv_step l b → a = b.
Proof.
  intros Ha Hb Hl. revert a b Ha Hb. induction Hl as [|x l Hx Hl IH]; intros a b Ha Hb H; [done|].
  cbn [fold_left] in H. apply IH in H; [|apply fnv_step_ok..].
  apply fnv_mul_inj in H; [|apply lxor_bound; auto using byte_bound..].
  apply (f_equal (λ z, Z.lxor z x)) in H. by rewrite !Z.lxor_assoc, Z.lxor_nilpotent, !Z.lxor_0_r in H.
Qed.

Lemma fnv_one_byte pre x y post h : 0 ≤ h < 2 ^ k → bytes_ok post → u8_ok x → u8_ok y →
  fold_left fnv_step (pre ++ x :: post) h = fold_left fnv_step (pre ++ y :: post) h → x = y.
Proof.
  intros Hh Hpost Hx Hy H. rewrite !fold_left_app in H. cbn [fold_left] in H.
  pose proof (fnv_fold_ok pre h Hh) as Hc. set (c := fold_left fnv_step pre h) in *.
  apply fnv_fold_inj in H; [|apply fnv_step_ok..|done].
  apply fnv_mul_inj in H; [|apply lxor_bound; auto using byte_bound..].
  apply (f_equal (Z.lxor c)) in H. by rewrite <- !Z.lxor_assoc, Z.lxor_nilpotent, !Z.lxor_0_l in H.
Qed.
End Fnv.

Lemma hash_bytes_one_byte h pre x y post : u32_ok h → bytes_ok post → u8_ok x → u8_ok y →
  hash_bytes h (pre ++ x :: post) = hash_bytes h (pre ++ y :: post) → x = y.
Proof.
  apply (fnv_one_byte 32 0x01000193 899433627); [lia|reflexivity].
Qed.

(** The bytes the schema hash reads. *)
Definition descriptor_stream (d : SettingDescriptor) : list Z :=
  u16_to_le_bytes (SettingId_code (sd_id d)) ++ str_bytes (sd_key d) ++ [0] ++
  [SettingValueKind_code (sd_kind d)] ++ [SettingScope_code (sd_scope d)] ++
  i32_to_le_bytes (sd_default d) ++ i32_to_le_bytes (sd_min d) ++ i32_to_le_bytes (sd_max d) ++
  u16_to_le_bytes (sd_step d) ++ [Z.b2z (sd_restart_required d)] ++
  u16_to_le_bytes (as_u16 (Z.of_nat (length (sd_choices d)))) ++
  concat (map (λ c, i32_to_le_bytes (choice_value c)) (sd_choices d)).

Definition schema_stream (version : Z) (ds : list SettingDescriptor) : list Z :=
  u16_to_le_bytes version ++ u16_to_le_bytes (as_u16 (Z.of_nat (length ds))) ++
  concat (map descriptor_stream ds).

Lemma hash_bytes_app h a b : hash_bytes h (a ++ b) = hash_bytes (hash_bytes h a) b.
Proof. apply fold_left_app. Qed.

Lemma hash_bytes_concat {A} (f : A → list Z) l : ∀ h,
  fold_left (λ hash x, hash_bytes hash (f x)) l h = hash_bytes h (concat (map f l)).
Proof.
  induction l as [|x l IH]; intros h; [done|]. cbn [fold_left map concat].
  rewrite hash_bytes_app. apply IH.
Qed.

Lemma hash_byte_bytes h x : hash_byte h x = hash_bytes h [x].
Proof. reflexivity. Qed.

Lemma hash_descriptor_stream h d : hash_descriptor h d = hash_bytes h (descriptor_stream d).
Proof.
  unfold descriptor_stream. rewrite !hash_bytes_app, <- hash_bytes_concat.
  unfold hash_descriptor, hash_i32, hash_u16. by rewrite !hash_byte_bytes.
Qed.

Lemma fold_left_pointwise {A B} (f g : A → B → A) l : (∀ a b, f a b = g a b) → ∀ a,
  fold_left f l a = fold_left g l a.
Proof. intros H. induction l as [|x l IH]; intros a; [done|]. cbn [fold_left]. by rewrite H. Qed.

Lemma schema_hash_stream v ds :
  settings_schema_hash v ds = hash_bytes 0x811c9dc5 (schema_stream v ds).
Proof.
  unfold schema_stream. rewrite !hash_bytes_app, <- hash_bytes_concat.
  unfold settings_schema_hash, hash_u16. apply fold_left_pointwise, hash_descriptor_stream.
Qed.

(** The texts a descriptor shows to people. *)
Definition relabel (label description unit : string) (d : SettingDescriptor) : SettingDescriptor :=
  mkDescriptor (sd_id d) (sd_key d) label description (sd_kind d) (sd_scope d) (sd_default d)
    (sd_min d) (sd_max d) (sd_step d) unit (sd_choices d) (sd_restart_required d).

(** The schema hash covers what clients depend on and nothing else.  It is a function of
    the wire fields of the descriptors, so texts can be translated freely, and whenever the
    wire fields of two schemas differ in a single byte the hashes differ. *)
Theorem schema_hash_covers :
  (∀ v ds texts, length texts = length ds →
     settings_schema_hash v (zip_with (λ t d, relabel t.1.1 t.1.2 t.2 d) texts ds) =
     settings_schema_hash v ds) ∧
  (∀ v ds v' ds' pre x y post,
     schema_stream v ds = pre ++ x :: post → schema_stream v' ds' = pre ++ y :: post →
     bytes_ok (x :: y :: post) → x ≠ y →
     settings_schema_hash v ds ≠ settings_schema_hash v' ds').
Proof.
  split.
  - intros v ds texts Hl. rewrite !schema_hash_stream. f_equal. unfold schema_stream.
    rewrite length_zip_with_l by lia. rewrite Hl. do 3 f_equal.
    revert texts Hl. induction ds as [|d ds IH]; intros [|t texts] Hl; try done.
    cbn [zip_with map]. f_equal. apply IH. by injection Hl.
  - intros v ds v' ds' pre x y post H H' Hb Hne. rewrite !schema_hash_stream, H, H'.
    apply List.Forall_cons_iff in Hb as [Hx Hb]. apply List.Forall_cons_iff in Hb as [Hy Hb].
    intros Heq. apply Hne. by apply hash_bytes_one_byte in Heq.
Qed.

Lemma schema_hash_covers_witness :
  settings_schema_hash 1 [first_descriptor] ≠ settings_schema_hash 2 [first_descriptor].
Proof.
  apply (proj2 schema_hash_covers 1 [first_descriptor] 2 [first_descriptor] [] 1 2
    (drop 1 (schema_stream 1 [first_descriptor]))); [vm_compute; reflexivity|vm_compute; reflexivity| |discriminate].
  apply (bool_decide_unpack _). vm_compute. exact I.
Defined.
