(* ===== verification/InputProfile.v ===== *)
(** * Input profiles ([src/src/domain/input_profile.rs])

    What the bridge remembers of each USB input device: its identity, its settings, the
    remainders of its scaled mouse movement and whether its target-switch chord is armed.  The
    registry holds eight of them and replaces the least recently seen disconnected one.
    [InputProfileId] and its capacity are in [Settings.v]. *)

From S2P Require Import Prelude Input Settings Movement.

(** ** Identities *)

Record InputIdentity := mkIdentity {
  ident_vendor_id : Z;
  ident_product_id : Z;
  ident_instance_hash : Z
}.
#[export] Instance InputIdentity_eq_dec : EqDecision InputIdentity.
Proof. solve_decision. Defined.

Definition identity_hash_byte (hash byte : Z) : Z :=
  Z.lxor hash byte * 0x100000001b3 mod 2 ^ 64.

Definition identity_hash_start (kind : Z) : Z := identity_hash_byte 0xcbf29ce484222325 kind.

Definition identity_hash (kind : Z) (bytes : list Z) : Z :=
  fold_left identity_hash_byte bytes (identity_hash_start kind).

Definition from_serial (vendor product : Z) (serial : list Z) : option InputIdentity :=
  match serial with
  | [] => None
  | _ => Some (mkIdentity vendor product (identity_hash 0x53 serial))
  end.

Definition from_serial_utf16 (vendor product : Z) (serial : list Z) : option InputIdentity :=
  match serial with
  | [] => None
  | _ => Some (mkIdentity vendor product
           (fold_left (λ hash unit, fold_left identity_hash_byte (u16_to_le_bytes unit) hash)
              serial (identity_hash_start 0x53)))
  end.

Definition from_port_path (vendor product : Z) (port_path : list Z) : InputIdentity :=
  mkIdentity vendor product (identity_hash 0x50 port_path).

(** ** A profile *)

Record MouseScaleRemainders := mkRemainders {
  rem_x : Z; rem_y : Z; rem_wheel : Z; rem_pan : Z
}.
#[export] Instance MouseScaleRemainders_eq_dec : EqDecision MouseScaleRemainders.
Proof. solve_decision. Defined.
Definition MouseScaleRemainders_ZERO : MouseScaleRemainders := mkRemainders 0 0 0 0.

Record InputProfile := mkInputProfile {
  ip_id : Z;
  ip_identity : InputIdentity;
  ip_connected : bool;
  ip_last_seen : Z;
  ip_settings : InputSettings;
  ip_mouse_remainders : MouseScaleRemainders;
  ip_shortcut_armed : bool
}.
#[export] Instance eta_InputProfile : Eta InputProfile :=
  λ r, mkInputProfile (ip_id r) (ip_identity r) (ip_connected r) (ip_last_seen r) (ip_settings r)
         (ip_mouse_remainders r) (ip_shortcut_armed r).
#[export] Instance InputProfile_eq_dec : EqDecision InputProfile.
Proof. solve_decision. Defined.

Definition restored (id : Z) (identity : InputIdentity) (last_seen : Z) (settings : InputSettings)
  : InputProfile :=
  mkInputProfile id identity false last_seen settings MouseScaleRemainders_ZERO true.

(** [scale_i16_with_remainder] and [scale_i8_with_remainder] are the same computation with the
    bounds of their type: the output and the new remainder.  The product is an [i32]
    ([scaled_fits] below). *)
Definition scale_with_remainder (lo hi value percent remainder : Z) : Z * Z :=
  let scaled := value * percent + remainder in
  (clamp lo hi (Z.quot scaled 100), Z.rem scaled 100).
Definition scale_i16_with_remainder := scale_with_remainder I16_MIN I16_MAX.
Definition scale_i8_with_remainder := scale_with_remainder I8_MIN I8_MAX.

(** The usage a key is sent as: the layout exchange of 0x35 and 0x89, then the remap. *)
Definition mapped_key (settings : InputSettings) (key : Z) : Z :=
  let layout_key :=
    if (is_keyboard_layout settings =? 1) && (key =? 0x89) then 0x35
    else if (is_keyboard_layout settings =? 2) && (key =? 0x35) then 0x89
    else key in
  if negb (is_remap_from_usage settings =? 0) && (layout_key =? is_remap_from_usage settings)
  then is_remap_to_usage settings else layout_key.

Definition transform_keyboard (settings : InputSettings) (keyboard : KeyboardFrame) : KeyboardFrame :=
  fold_left (λ transformed key, fst (push_key transformed (mapped_key settings key)))
    (frame_keys keyboard) (KeyboardFrame_new (frame_modifiers keyboard)).

Definition transform_mouse (settings : InputSettings) (r : MouseScaleRemainders) (mouse : MouseFrame)
  : MouseScaleRemainders * MouseFrame :=
  let m := mouse_movement mouse in
  let (x, rx) := scale_i16_with_remainder (move_x m) (is_mouse_sensitivity_percent settings) (rem_x r) in
  let (y, ry) := scale_i16_with_remainder (move_y m) (is_mouse_sensitivity_percent settings) (rem_y r) in
  let (wheel, rwheel) :=
    scale_i8_with_remainder (move_wheel m) (is_scroll_multiplier_percent settings) (rem_wheel r) in
  let (pan, rpan) :=
    scale_i8_with_remainder (move_pan m) (is_scroll_multiplier_percent settings) (rem_pan r) in
  (mkRemainders rx ry rwheel rpan, mkMouseFrame (mouse_buttons mouse) (mkMouseMovement x y wheel pan)).

Definition transform_consumer (settings : InputSettings) (consumer : ConsumerFrame) : ConsumerFrame :=
  match cf_active consumer with
  | Some active =>
      if negb (is_consumer_from_usage settings =? 0) && (active =? is_consumer_from_usage settings)
      then mkConsumerFrame (Some (is_consumer_to_usage settings)) else consumer
  | None => consumer
  end.

Definition transform (self : InputProfile) (frame : StandardInputFrame)
  : InputProfile * StandardInputFrame :=
  let settings := ip_settings self in
  let keyboard := transform_keyboard settings <$> sif_keyboard frame in
  let consumer := transform_consumer settings <$> sif_consumer frame in
  match sif_mouse frame with
  | Some mouse =>
      let (remainders, mouse) := transform_mouse settings (ip_mouse_remainders self) mouse in
      (self <| ip_mouse_remainders := remainders |>,
       mkStandardInputFrame (sif_device_id frame) (sif_interface_id frame) keyboard (Some mouse) consumer)
  | None =>
      (self, mkStandardInputFrame (sif_device_id frame) (sif_interface_id frame) keyboard None consumer)
  end.

(** The chord is left out of the frame: its key and its modifiers. *)
Definition without_shortcut (shortcut : KeyboardShortcut) (keyboard : KeyboardFrame) : KeyboardFrame :=
  fold_left
    (λ filtered key, if bool_decide (key ≠ ks_key shortcut) then fst (push_key filtered key) else filtered)
    (frame_keys keyboard)
    (KeyboardFrame_new (Z.land (frame_modifiers keyboard) (u8_not (ks_modifiers shortcut)))).

Definition with_keyboard (frame : StandardInputFrame) (keyboard : KeyboardFrame) : StandardInputFrame :=
  mkStandardInputFrame (sif_device_id frame) (sif_interface_id frame) (Some keyboard)
    (sif_mouse frame) (sif_consumer frame).

Definition shortcut_key_down (shortcut : KeyboardShortcut) (keyboard : KeyboardFrame) : bool :=
  contains (frame_keys keyboard) (ks_key shortcut).

Definition components_released (shortcut : KeyboardShortcut) (keyboard : KeyboardFrame) : bool :=
  negb (shortcut_key_down shortcut keyboard) &&
  (Z.land (frame_modifiers keyboard) (ks_modifiers shortcut) =? 0).

Definition capture_target_switch_shortcut (self : InputProfile) (frame : StandardInputFrame)
  : InputProfile * StandardInputFrame * bool :=
  let shortcut := is_target_switch_shortcut (ip_settings self) in
  match sif_keyboard frame with
  | None => (self, frame, false)
  | Some keyboard =>
      if negb (shortcut_is_enabled shortcut) then (self <| ip_shortcut_armed := true |>, frame, false)
      else
        let armed := ip_shortcut_armed self || components_released shortcut keyboard in
        let triggered := armed && shortcut_key_down shortcut keyboard &&
          (frame_modifiers keyboard =? ks_modifiers shortcut) &&
          bool_decide (length (frame_keys keyboard) = 1%nat) in
        let armed := armed && negb triggered in
        (self <| ip_shortcut_armed := armed |>,
         (if triggered || negb armed then with_keyboard frame (without_shortcut shortcut keyboard)
          else frame),
         triggered)
  end.

Definition target_switch_shortcut_would_trigger (self : InputProfile) (frame : StandardInputFrame)
  : bool :=
  let shortcut := is_target_switch_shortcut (ip_settings self) in
  match sif_keyboard frame with
  | None => false
  | Some keyboard =>
      ip_shortcut_armed self && shortcut_is_enabled shortcut &&
      (frame_modifiers keyboard =? ks_modifiers shortcut) &&
      bool_decide (frame_keys keyboard = [ks_key shortcut])
  end.

Definition reset_transform_state (self : InputProfile) : InputProfile :=
  self <| ip_mouse_remainders := MouseScaleRemainders_ZERO |> <| ip_shortcut_armed := true |>.

(** ** The registry *)

Inductive InputProfileError :=
| RegistryFullWithConnectedProfiles | UnknownProfile | DuplicateProfileId | DuplicateIdentity.
#[export] Instance InputProfileError_eq_dec : EqDecision InputProfileError.
Proof. solve_decision. Defined.

Record InputProfileRegistry := mkRegistry {
  reg_profiles : list InputProfile;
  reg_next_sequence : Z
}.
#[export] Instance eta_InputProfileRegistry : Eta InputProfileRegistry :=
  λ r, mkRegistry (reg_profiles r) (reg_next_sequence r).
#[export] Instance InputProfileRegistry_eq_dec : EqDecision InputProfileRegistry.
Proof. solve_decision. Defined.

Definition InputProfileRegistry_new : InputProfileRegistry := mkRegistry [] 1.

Definition registry_restore (self : InputProfileRegistry) (profile : InputProfile)
  : InputProfileRegistry * Result InputProfileError unit :=
  if existsb (λ item, bool_decide (ip_id item = ip_id profile)) (reg_profiles self)
  then (self, Err DuplicateProfileId)
  else if existsb (λ item, bool_decide (ip_identity item = ip_identity profile)) (reg_profiles self)
  then (self, Err DuplicateIdentity)
  else
    let self := self <| reg_next_sequence ::=
                  λ next, Z.max next ((ip_last_seen profile + 1) mod 2 ^ 64) |> in
    match vec_push INPUT_PROFILE_CAPACITY profile (reg_profiles self) with
    | Some profiles => (self <| reg_profiles := profiles |>, Ok tt)
    | None => (self, Err RegistryFullWithConnectedProfiles)
    end.

Definition take_sequence (self : InputProfileRegistry) : Z * InputProfileRegistry :=
  (reg_next_sequence self, self <| reg_next_sequence ::= λ next, (next + 1) mod 2 ^ 64 |>).

(** [iter().enumerate().filter(!connected).min_by_key(last_seen)]: the first of the least. *)
Fixpoint oldest_disconnected (i : nat) (profiles : list InputProfile) (best : option (nat * Z))
  : option nat :=
  match profiles with
  | [] => fst <$> best
  | p :: profiles =>
      let best :=
        if ip_connected p then best
        else match best with
             | Some (_, seen) => if ip_last_seen p <? seen then Some (i, ip_last_seen p) else best
             | None => Some (i, ip_last_seen p)
             end in
      oldest_disconnected (i + 1) profiles best
  end.

(** [(1..=INPUT_PROFILE_CAPACITY).find_map(..)]: the first unused identifier. *)
Fixpoint first_free_id (candidates : list Z) (profiles : list InputProfile) : option Z :=
  match candidates with
  | [] => None
  | candidate :: candidates =>
      match InputProfileId_new candidate with
      | Some id =>
          if existsb (λ p, bool_decide (ip_id p = id)) profiles
          then first_free_id candidates profiles else Some id
      | None => first_free_id candidates profiles
      end
  end.

Definition profile_ids : list Z := map Z.of_nat (seq 1 INPUT_PROFILE_CAPACITY).

Definition fresh_profile (id : Z) (identity : InputIdentity) (sequence : Z) : InputProfile :=
  restored id identity sequence InputSettings_DEFAULT <| ip_connected := true |>.

Definition observe (self : InputProfileRegistry) (identity : InputIdentity)
  : InputProfileRegistry * Result InputProfileError Z :=
  let (sequence, self) := take_sequence self in
  let profiles := reg_profiles self in
  match position (λ item, bool_decide (ip_identity item = identity)) profiles with
  | Some index =>
      match profiles !! index with
      | Some profile =>
          (self <| reg_profiles := <[index := profile <| ip_connected := true |>
                                                <| ip_last_seen := sequence |>]> profiles |>,
           Ok (ip_id profile))
      | None => (self, Err UnknownProfile) (* unreachable: position is in range *)
      end
  | None =>
      if bool_decide (length profiles = INPUT_PROFILE_CAPACITY) then
        match oldest_disconnected 0 profiles None with
        | None => (self, Err RegistryFullWithConnectedProfiles)
        | Some removable =>
            match profiles !! removable with
            | Some old =>
                (self <| reg_profiles := <[removable := fresh_profile (ip_id old) identity sequence]> profiles |>,
                 Ok (ip_id old))
            | None => (self, Err UnknownProfile) (* unreachable *)
            end
        end
      else
        match first_free_id profile_ids profiles with
        | None => (self, Err RegistryFullWithConnectedProfiles)
        | Some id =>
            match vec_push INPUT_PROFILE_CAPACITY (fresh_profile id identity sequence) profiles with
            | Some profiles => (self <| reg_profiles := profiles |>, Ok id)
            | None => (self, Err RegistryFullWithConnectedProfiles)
            end
        end
  end.

Definition registry_get (self : InputProfileRegistry) (id : Z) : option InputProfile :=
  List.find (λ profile, bool_decide (ip_id profile = id)) (reg_profiles self).

(** [get_mut] with what the caller does to the profile and the answer it takes from it. *)
Definition registry_get_mut {A} (self : InputProfileRegistry) (id : Z)
  (f : InputProfile → InputProfile * A) : InputProfileRegistry * option A :=
  match position (λ profile, bool_decide (ip_id profile = id)) (reg_profiles self) with
  | Some index =>
      match reg_profiles self !! index with
      | Some profile =>
          let (profile, a) := f profile in
          (self <| reg_profiles ::= λ profiles, <[index := profile]> profiles |>, Some a)
      | None => (self, None)
      end
  | None => (self, None)
  end.

Definition disconnect (self : InputProfileRegistry) (id : Z)
  : InputProfileRegistry * Result InputProfileError unit :=
  let (sequence, self) := take_sequence self in
  let (self, found) := registry_get_mut self id
    (λ profile, (reset_transform_state
                   (profile <| ip_connected := false |> <| ip_last_seen := sequence |>), tt)) in
  (self, match found with Some _ => Ok tt | None => Err UnknownProfile end).

(** ** Scaled movement

    The remainder of each axis is the part of a unit that has not been sent; nothing else is
    dropped unless an output is clamped to its type. *)

Lemma scaled_fits value percent remainder : i16_ok value → u16_ok percent → Z.abs remainder < 100 →
  i32_ok (value * percent + remainder).
Proof. unfold i16_ok, u16_ok, i32_ok. intros. nia. Qed.

Lemma scale_exact lo hi value percent remainder output remainder' :
  scale_with_remainder lo hi value percent remainder = (output, remainder') →
  Z.abs remainder < 100 → lo ≤ 0 ≤ hi → 100 * lo ≤ value * percent ≤ 100 * hi →
  100 * output + remainder' = value * percent + remainder ∧ Z.abs remainder' < 100.
Proof.
  unfold scale_with_remainder, clamp. intros H Hr Hb Hv. apply pair_eq in H as [<- <-].
  pose proof (Z.quot_rem' (value * percent + remainder) 100).
  pose proof (Z.rem_bound_abs (value * percent + remainder) 100 ltac:(lia)). 
  assert (lo ≤ Z.quot (value * percent + remainder) 100 ≤ hi) by divmod.
  lia.
Qed.

Definition remainder_along (a : Axis) (r : MouseScaleRemainders) : Z :=
  match a with
  | AxisX => rem_x r | AxisY => rem_y r | AxisWheel => rem_wheel r | AxisPan => rem_pan r
  end.

Definition percent_along (a : Axis) (settings : InputSettings) : Z :=
  match a with
  | AxisX | AxisY => is_mouse_sensitivity_percent settings
  | AxisWheel | AxisPan => is_scroll_multiplier_percent settings
  end.

Definition axis_bounds (a : Axis) : Z * Z :=
  match a with
  | AxisX | AxisY => (I16_MIN, I16_MAX)
  | AxisWheel | AxisPan => (I8_MIN, I8_MAX)
  end.

Definition frame_motion (a : Axis) (frame : StandardInputFrame) : Z :=
  match sif_mouse frame with Some mouse => along a (mouse_movement mouse) | None => 0 end.

(** The scaled movement of the frame fits its axis, so that nothing is clamped. *)
Definition motion_fits (settings : InputSettings) (a : Axis) (frame : StandardInputFrame) : Prop :=
  100 * (axis_bounds a).1 ≤ frame_motion a frame * percent_along a settings ≤ 100 * (axis_bounds a).2.

Definition remainders_ok (p : InputProfile) : Prop :=
  ∀ a, Z.abs (remainder_along a (ip_mouse_remainders p)) < 100.

(** The frames one profile transforms, in order. *)
Fixpoint transform_all (self : InputProfile) (frames : list StandardInputFrame)
  : InputProfile * list StandardInputFrame :=
  match frames with
  | [] => (self, [])
  | frame :: frames =>
      let (self, out) := transform self frame in
      let (self, outs) := transform_all self frames in (self, out :: outs)
  end.

Lemma transform_axis self frame self' out a : transform self frame = (self', out) →
  remainders_ok self → motion_fits (ip_settings self) a frame →
  100 * frame_motion a out + remainder_along a (ip_mouse_remainders self') =
  frame_motion a frame * percent_along a (ip_settings self) +
    remainder_along a (ip_mouse_remainders self) ∧
  Z.abs (remainder_along a (ip_mouse_remainders self')) < 100 ∧
  ip_settings self' = ip_settings self.
Proof.
  unfold transform, motion_fits, frame_motion. intros H Hr Hf. specialize (Hr a).
  destruct (sif_mouse frame) as [mouse|].
  2: { apply pair_eq in H as [<- <-]. cbn [sif_mouse]. split; [lia|done]. }
  unfold transform_mouse in H.
  destruct (scale_i16_with_remainder (move_x _) _ _) as [x rx] eqn:Hx.
  destruct (scale_i16_with_remainder (move_y _) _ _) as [y ry] eqn:Hy.
  destruct (scale_i8_with_remainder (move_wheel _) _ _) as [wheel rw] eqn:Hw.
  destruct (scale_i8_with_remainder (move_pan _) _ _) as [pan rp] eqn:Hp.
  apply pair_eq in H as [<- <-]. unfold upd, eta_InputProfile. cbn.
  match goal with |- ?P ∧ ?Q ∧ _ => enough (P ∧ Q) as [? ?] by done end.
  destruct a; cbn in *; (eapply scale_exact; [eassumption|done|words|lia]).
Qed.

Lemma transform_bounded self frame self' out a : transform self frame = (self', out) →
  remainders_ok self → Z.abs (remainder_along a (ip_mouse_remainders self')) < 100.
Proof.
  unfold transform. intros H Hr. specialize (Hr a).
  destruct (sif_mouse frame) as [mouse|]; [|by apply pair_eq in H as [<- _]].
  unfold transform_mouse, scale_i16_with_remainder, scale_i8_with_remainder, scale_with_remainder in H.
  apply pair_eq in H as [<- _]. unfold upd. cbn.
  destruct a; cbn; (pose proof (Z.rem_bound_abs) as Hb; match goal with
    |- Z.abs (Z.rem ?x 100) < 100 => specialize (Hb x 100 ltac:(lia)); lia end).
Qed.

Lemma transform_all_settings self frames self' outs : transform_all self frames = (self', outs) →
  ip_settings self' = ip_settings self.
Proof.
  revert self outs. induction frames as [|frame frames IH]; intros self outs H; cbn [transform_all] in H.
  { by apply pair_eq in H as [<- _]. }
  destruct (transform self frame) as [self1 out] eqn:Ht.
  destruct (transform_all self1 frames) as [self2 outs'] eqn:Ha. apply pair_eq in H as [<- _].
  rewrite (IH _ _ Ha). unfold transform in Ht.
  destruct (sif_mouse frame); [destruct (transform_mouse _ _ _)|]; by apply pair_eq in Ht as [<- _].
Qed.

(** Scaled movement is exact up to the remainder.  Over any frames a profile transforms whose
    scaled movement fits the report's type (always so at 100 percent or less), a hundred times the
    movement sent on an axis plus the remainder left is the movement received times the
    percentage plus the remainder before; the remainders stay under one unit, so from a reset the
    movement sent is less than one unit off however many frames there were. *)
Theorem scaling_exact self frames self' outs a : transform_all self frames = (self', outs) →
  remainders_ok self → Forall (motion_fits (ip_settings self) a) frames →
  100 * zsum (map (frame_motion a) outs) + remainder_along a (ip_mouse_remainders self') =
  percent_along a (ip_settings self) * zsum (map (frame_motion a) frames) +
    remainder_along a (ip_mouse_remainders self) ∧
  remainders_ok self' ∧
  (ip_mouse_remainders self = MouseScaleRemainders_ZERO →
   Z.abs (100 * zsum (map (frame_motion a) outs) -
          percent_along a (ip_settings self) * zsum (map (frame_motion a) frames)) < 100).
Proof.
  intros H Hr Hf. assert (∀ P Q R : Prop, P → Q → (P → Q → R) → P ∧ Q ∧ R) as Hsplit by tauto.
  apply Hsplit.
  - clear Hsplit. revert self outs H Hr Hf.
    induction frames as [|frame frames IH]; intros self outs H Hr Hf; cbn [transform_all] in H.
    { apply pair_eq in H as [<- <-]. cbn [map]. change (zsum []) with 0. lia. }
    destruct (transform self frame) as [self1 out] eqn:Ht.
    destruct (transform_all self1 frames) as [self2 outs'] eqn:Ha. apply pair_eq in H as [<- <-].
    apply List.Forall_cons_iff in Hf as [Hf Hfs].
    pose proof (transform_axis _ _ _ _ a Ht Hr Hf) as (Hsum & _ & Hs).
    rewrite <- Hs in Hfs. assert (remainders_ok self1) as Hr1 by (intros b; by eapply transform_bounded).
    specialize (IH _ _ Ha Hr1 Hfs). rewrite Hs in IH. cbn [map]. rewrite !zsum_cons. lia.
  - clear Hsplit Hf. revert self outs H Hr.
    induction frames as [|frame frames IH]; intros self outs H Hr; cbn [transform_all] in H.
    { by apply pair_eq in H as [<- _]. }
    destruct (transform self frame) as [self1 out] eqn:Ht.
    destruct (transform_all self1 frames) as [self2 outs'] eqn:Ha. apply pair_eq in H as [<- _].
    eapply IH; [done|]. intros b. by eapply transform_bounded.
  - intros Hsum Hb Hz. specialize (Hb a). rewrite Hz in Hsum.
    assert (remainder_along a MouseScaleRemainders_ZERO = 0) as H0 by (by destruct a).
    rewrite H0 in Hsum. lia.
Qed.

Definition half_speed : InputProfile :=
  restored 1 (from_port_path 1 2 [3]) 0 (mkInputSettings 0 0 0 50 100 0 0 SHORTCUT_DISABLED).
Definition nudge (x : Z) : StandardInputFrame :=
  mkStandardInputFrame 1 1 None (Some (mkMouseFrame 0 (mkMouseMovement x (- x) 0 0))) None.

Lemma scaling_exact_witness :
  Z.abs (100 * zsum (map (frame_motion AxisX) (transform_all half_speed [nudge 1; nudge 1; nudge 3]).2) -
         50 * zsum (map (frame_motion AxisX) [nudge 1; nudge 1; nudge 3])) < 100.
Proof.
  apply (scaling_exact half_speed [nudge 1; nudge 1; nudge 3]
           (transform_all half_speed [nudge 1; nudge 1; nudge 3]).1).
  - by destruct (transform_all half_speed [nudge 1; nudge 1; nudge 3]).
  - intros []; vm_compute; done.
  - repeat constructor; vm_compute; discriminate.
  - reflexivity.
Defined.

(** ** The target-switch chord *)

Fixpoint capture_all (self : InputProfile) (frames : list StandardInputFrame)
  : InputProfile * list (StandardInputFrame * bool) :=
  match frames with
  | [] => (self, [])
  | frame :: frames =>
      let '(self, out, triggered) := capture_target_switch_shortcut self frame in
      let (self, outs) := capture_all self frames in (self, (out, triggered) :: outs)
  end.

(** The frame holds exactly the chord. *)
Definition chord (shortcut : KeyboardShortcut) (frame : StandardInputFrame) : Prop :=
  ∃ keyboard, sif_keyboard frame = Some keyboard ∧ frame_modifiers keyboard = ks_modifiers shortcut ∧
    frame_keys keyboard = [ks_key shortcut].

Definition releases (shortcut : KeyboardShortcut) (frame : StandardInputFrame) : Prop :=
  ∃ keyboard, sif_keyboard frame = Some keyboard ∧ components_released shortcut keyboard = true.

(** The frame as it is passed on while the chord is held: the chord's key and modifiers are gone,
    everything else is as it was. *)
Definition hides (shortcut : KeyboardShortcut) (frame out : StandardInputFrame) : Prop :=
  match sif_keyboard frame with
  | None => out = frame
  | Some keyboard =>
      out = with_keyboard frame
        (mkKeyboardFrame (Z.land (frame_modifiers keyboard) (u8_not (ks_modifiers shortcut)))
                         (filter (.≠ ks_key shortcut) (frame_keys keyboard)))
  end.

Definition keyboard_frame_ok (frame : StandardInputFrame) : Prop :=
  match sif_keyboard frame with Some keyboard => frame_ok keyboard | None => True end.

Lemma push_filtered (key : Z) keys filtered :
  NoDup (frame_keys filtered ++ keys) →
  (length (frame_keys filtered ++ keys) ≤ PHYSICAL_KEYBOARD_KEY_CAPACITY)%nat →
  fold_left (λ filtered k, if bool_decide (k ≠ key) then fst (push_key filtered k) else filtered)
    keys filtered =
  mkKeyboardFrame (frame_modifiers filtered) (frame_keys filtered ++ filter (.≠ key) keys).
Proof.
  revert filtered. induction keys as [|k keys IH]; intros f Hn Hl; cbn [fold_left].
  { rewrite filter_nil, app_nil_r. by destruct f. }
  assert (NoDup (frame_keys f ++ keys)) as Hn'.
  { rewrite cons_middle, app_assoc in Hn. apply list.NoDup_app in Hn as (H1 & H2 & H3).
    apply list.NoDup_app in H1 as (H1 & _ & _). apply list.NoDup_app. split; [done|]. split; [|done].
    intros x Hx. apply H2, elem_of_app. by left. }
  rewrite length_app in Hl. simpl in Hl. case_bool_decide as Hk.
  - rewrite filter_cons_True by done. unfold push_key, contains. rewrite bool_decide_false.
    2: { intros Hin. apply list.NoDup_app in Hn as (_ & H2 & _). apply (H2 k Hin), list_elem_of_here. }
    unfold vec_push. rewrite decide_True by lia. cbn [fst]. rewrite IH; cbn [frame_keys frame_modifiers].
    + by rewrite <- app_assoc.
    + by rewrite <- app_assoc.
    + rewrite !length_app. simpl. lia.
  - rewrite filter_cons_False by tauto. apply IH; [done|]. rewrite length_app. lia.
Qed.

Lemma without_shortcut_spec shortcut keyboard : frame_ok keyboard →
  without_shortcut shortcut keyboard =
  mkKeyboardFrame (Z.land (frame_modifiers keyboard) (u8_not (ks_modifiers shortcut)))
                  (filter (.≠ ks_key shortcut) (frame_keys keyboard)).
Proof.
  intros [_ _ Hn Hl]. unfold without_shortcut. by rewrite push_filtered.
Qed.

(** What one frame does, for an enabled chord. *)
Lemma capture_step self frame shortcut : is_target_switch_shortcut (ip_settings self) = shortcut →
  shortcut_is_enabled shortcut = true → keyboard_frame_ok frame →
  let '(self', out, triggered) := capture_target_switch_shortcut self frame in
  let ready := ip_shortcut_armed self = true ∨ releases shortcut frame in
  ip_settings self' = ip_settings self ∧
  (triggered = true ↔ ready ∧ chord shortcut frame) ∧
  (ip_shortcut_armed self' = true ↔ ready ∧ ¬ chord shortcut frame) ∧
  (ip_shortcut_armed self' = true → out = frame) ∧
  (ip_shortcut_armed self' = false → hides shortcut frame out).
Proof.
  intros Hs He Hok. unfold capture_target_switch_shortcut, hides, keyboard_frame_ok in *. rewrite Hs.
  destruct (sif_keyboard frame) as [keyboard|] eqn:Hk.
  2: { cbn zeta. assert (¬ releases shortcut frame) by (intros (? & ? & _); congruence).
       assert (¬ chord shortcut frame) by (intros (? & ? & _); congruence).
       repeat split; intros; naive_solver. }
  rewrite He. cbn [negb]. cbn zeta. unfold upd, eta_InputProfile. cbn [ip_settings ip_shortcut_armed].
  assert (releases shortcut frame ↔ components_released shortcut keyboard = true) as Hrel.
  { split; [intros (kb & Hkb & H); rewrite Hk in Hkb; by injection Hkb as ->|by exists keyboard]. }
  assert (chord shortcut frame ↔ shortcut_key_down shortcut keyboard &&
    (frame_modifiers keyboard =? ks_modifiers shortcut) && bool_decide (length (frame_keys keyboard) = 1%nat)
    = true) as Hch.
  { rewrite !andb_true_iff, Z.eqb_eq, bool_decide_eq_true. unfold shortcut_key_down, contains.
    rewrite bool_decide_eq_true. split.
    - intros (kb & Hkb & H1 & H2). rewrite Hk in Hkb. injection Hkb as <-. rewrite H1, H2.
      repeat split. apply list_elem_of_here.
    - intros [[H1 H2] H3]. exists keyboard. split; [done|]. split; [done|].
      destruct (frame_keys keyboard) as [|k [|]]; try discriminate. 
      apply list_elem_of_singleton in H1. by subst. }
  rewrite Hrel, Hch. rewrite <- !andb_assoc.
  rewrite <- andb_assoc in Hch.
  set (c := shortcut_key_down _ _ && _) in *. set (r := components_released _ _) in *.
  rewrite without_shortcut_spec by done.
  destruct (ip_shortcut_armed self), r, c; cbn; naive_solver.
Qed.

(** The chord hidden in every frame while it is held, and the next trigger only after a release. *)
Lemma capture_all_length self frames : length (capture_all self frames).2 = length frames.
Proof.
  revert self. induction frames as [|frame frames IH]; intros self; cbn [capture_all]; [done|].
  destruct (capture_target_switch_shortcut self frame) as [[self1 out] t].
  specialize (IH self1). destruct (capture_all self1 frames). cbn in *. by rewrite IH.
Qed.

(** Until it is armed again by a release, the profile hides the chord and does not trigger. *)
Lemma disarmed_hides self frames shortcut j frame out t :
  is_target_switch_shortcut (ip_settings self) = shortcut → shortcut_is_enabled shortcut = true →
  Forall keyboard_frame_ok frames → ip_shortcut_armed self = false →
  frames !! j = Some frame → (capture_all self frames).2 !! j = Some (out, t) →
  (∀ k fk, (k ≤ j)%nat → frames !! k = Some fk → ¬ releases shortcut fk) →
  t = false ∧ hides shortcut frame out.
Proof.
  revert self j. induction frames as [|f frames IH]; intros self j Hs He Hf Ha Hj Ho Hn; [done|].
  apply List.Forall_cons_iff in Hf as [Hok Hf]. cbn [capture_all] in Ho.
  pose proof (capture_step self f shortcut Hs He Hok) as Hst.
  destruct (capture_target_switch_shortcut self f) as [[self1 o1] t1].
  destruct (capture_all self1 frames) as [self2 outs] eqn:Hc. cbn zeta in Hst.
  destruct Hst as (Hset & Ht & Har & _ & Hh).
  assert (¬ releases shortcut f) by (apply (Hn 0%nat f); [lia|done]).
  assert (ip_shortcut_armed self1 = false) as Ha1.
  { destruct (ip_shortcut_armed self1); [|done]. destruct Har as [Har _].
    destruct (Har eq_refl) as [[?|?] _]; congruence. }
  destruct j as [|j]; cbn in Hj, Ho.
  - injection Hj as ->. injection Ho as -> ->. split; [|by apply Hh].
    destruct t; [|done]. destruct Ht as [Ht _]. destruct (Ht eq_refl) as [[?|?] _]; congruence.
  - eapply (IH self1 j); try done; [by rewrite Hset|by rewrite Hc|].
    intros k fk Hk. apply (Hn (S k) fk). lia.
Qed.

Lemma capture_all_split self pre frame post :
  ∃ self1, (capture_all self (pre ++ frame :: post)).2 =
    (capture_all self pre).2 ++ (capture_all self1 (frame :: post)).2 ∧
    ip_settings self1 = ip_settings (capture_all self pre).1 ∧ self1 = (capture_all self pre).1.
Proof.
  revert self. induction pre as [|f pre IH]; intros self.
  { by exists self. }
  cbn [app capture_all]. destruct (capture_target_switch_shortcut self f) as [[self1 o1] t1].
  destruct (IH self1) as (s1 & H1 & H2 & H3). exists s1.
  destruct (capture_all self1 (pre ++ frame :: post)) as [a b], (capture_all self1 pre) as [c d].
  cbn in *. split; [|done]. by rewrite H1.
Qed.

Lemma capture_all_settings self frames shortcut : is_target_switch_shortcut (ip_settings self) = shortcut →
  shortcut_is_enabled shortcut = true → Forall keyboard_frame_ok frames →
  ip_settings (capture_all self frames).1 = ip_settings self.
Proof.
  revert self. induction frames as [|f frames IH]; intros self Hs He Hf; [done|].
  apply List.Forall_cons_iff in Hf as [Hok Hf]. cbn [capture_all].
  pose proof (capture_step self f shortcut Hs He Hok) as Hst.
  destruct (capture_target_switch_shortcut self f) as [[self1 o1] t1]. destruct Hst as (Hset & _).
  specialize (IH self1 ltac:(by rewrite Hset) He Hf).
  destruct (capture_all self1 frames) as [s2 outs]. cbn in *. congruence.
Qed.

(** The state in which the [i]-th frame is captured. *)
Lemma capture_at self frames shortcut i frame out t :
  is_target_switch_shortcut (ip_settings self) = shortcut → shortcut_is_enabled shortcut = true →
  Forall keyboard_frame_ok frames →
  frames !! i = Some frame → (capture_all self frames).2 !! i = Some (out, t) →
  ∃ before after, capture_target_switch_shortcut before frame = (after, out, t) ∧
    is_target_switch_shortcut (ip_settings before) = shortcut ∧
    is_target_switch_shortcut (ip_settings after) = shortcut ∧ keyboard_frame_ok frame ∧
    ∀ j, (capture_all self frames).2 !! (i + 1 + j)%nat =
         (capture_all after (drop (i + 1) frames)).2 !! j.
Proof.
  revert self i. induction frames as [|f frames IH]; intros self i Hs He Hf Hi Ho; [done|].
  apply List.Forall_cons_iff in Hf as [Hok Hf]. cbn [capture_all] in *.
  pose proof (capture_step self f shortcut Hs He Hok) as Hst.
  destruct (capture_target_switch_shortcut self f) as [[self1 o1] t1] eqn:Hc. destruct Hst as (Hset & _).
  destruct (capture_all self1 frames) as [self2 outs] eqn:Ha.
  destruct i as [|i]; cbn in Hi, Ho.
  - injection Hi as ->. injection Ho as -> ->. exists self, self1. rewrite Hset.
    repeat split; try done. intros j. cbn. by rewrite drop_0, Ha.
  - destruct (IH self1 i) as (b & a & H1 & H2 & H3 & H4 & H5); try done; [by rewrite Hset|by rewrite Ha|].
    exists b, a. repeat split; try done. intros j. rewrite <- H5, Ha. done.
Qed.

(** C31: the target-switch chord.  Whatever frames a profile with an enabled chord captures: it
    triggers only on exactly the chord; between two triggers there is a frame in which the chord
    is fully released; and from the trigger until such a release, every frame is passed on
    without the chord's key and modifiers and otherwise unchanged, and does not trigger again. *)
Theorem chord_once_per_press self frames shortcut i frame out :
  is_target_switch_shortcut (ip_settings self) = shortcut → shortcut_is_enabled shortcut = true →
  Forall keyboard_frame_ok frames →
  frames !! i = Some frame → (capture_all self frames).2 !! i = Some (out, true) →
  chord shortcut frame ∧ hides shortcut frame out ∧
  ∀ j fj oj tj, (i < j)%nat → frames !! j = Some fj → (capture_all self frames).2 !! j = Some (oj, tj) →
    (∀ k fk, (i < k ≤ j)%nat → frames !! k = Some fk → ¬ releases shortcut fk) →
    tj = false ∧ hides shortcut fj oj.
Proof.
  intros Hs He Hf Hi Ho.
  destruct (capture_at self frames shortcut i frame out true) as (b & a & Hc & Hb & Ha & Hok & Hnext);
    [done..|].
  pose proof (capture_step b frame shortcut Hb He Hok) as Hst. rewrite Hc in Hst. cbn zeta in Hst.
  destruct Hst as (_ & [Ht _] & [Har _] & _ & Hh). destruct (Ht eq_refl) as [_ Hch].
  assert (ip_shortcut_armed a = false) as Hoff.
  { destruct (ip_shortcut_armed a); [|done]. by destruct (Har eq_refl). }
  split; [done|]. split; [by apply Hh|].
  intros j fj oj tj Hj Hfj Hoj Hn. replace j with (i + 1 + (j - i - 1))%nat in Hfj, Hoj by lia.
  rewrite Hnext in Hoj. eapply (disarmed_hides a (drop (i + 1) frames)); try done.
  - by apply Forall_drop.
  - by rewrite lookup_drop.
  - intros k fk Hk Hfk. rewrite lookup_drop in Hfk. apply (Hn (i + 1 + k)%nat fk); [lia|done].
Qed.

Definition chord_profile : InputProfile :=
  restored 1 (from_port_path 1 2 [3]) 0 (mkInputSettings 0 0 0 100 100 0 0 (mkShortcut 1 0x0e)).
Definition key_frame (modifiers : Z) (keys : list Z) : StandardInputFrame :=
  mkStandardInputFrame 1 1 (Some (mkKeyboardFrame modifiers keys)) None None.

Lemma chord_once_per_press_witness :
  hides (mkShortcut 1 0x0e) (key_frame 1 [0x0e; 4]) (key_frame 0 [4]).
Proof.
  set (frames := [key_frame 1 [0x0e]; key_frame 1 [0x0e; 4]]).
  assert (chord (mkShortcut 1 0x0e) (key_frame 1 [0x0e]) ∧
    hides (mkShortcut 1 0x0e) (key_frame 1 [0x0e]) (key_frame 0 []) ∧
    ∀ j fj oj tj, (0 < j)%nat → frames !! j = Some fj →
      (capture_all chord_profile frames).2 !! j = Some (oj, tj) →
      (∀ k fk, (0 < k ≤ j)%nat → frames !! k = Some fk → ¬ releases (mkShortcut 1 0x0e) fk) →
      tj = false ∧ hides (mkShortcut 1 0x0e) fj oj) as (_ & _ & H).
  { apply (chord_once_per_press chord_profile frames); [reflexivity..| |reflexivity|reflexivity].
    repeat constructor; cbn; first [solve [words]|lia|by apply (bool_decide_unpack _)]. }
  apply (H 1%nat _ _ false); [lia|reflexivity|reflexivity|].
  intros k fk Hk Hfk. assert (k = 1%nat) as -> by lia. injection Hfk as <-.
  intros (kb & Hkb & Hr). injection Hkb as <-. discriminate Hr.
Defined.

(** The chord and a release exclude each other. *)
Lemma chord_not_released shortcut frame : chord shortcut frame → ¬ releases shortcut frame.
Proof.
  intros (kb & Hk & _ & Hkeys) (kb' & Hk' & Hr). rewrite Hk in Hk'. injection Hk' as <-.
  unfold components_released, shortcut_key_down, contains in Hr. rewrite Hkeys in Hr.
  rewrite bool_decide_true in Hr by apply list_elem_of_here. discriminate Hr.
Qed.

(** The query agrees with what capturing the frame would do. *)
Lemma would_trigger_spec self frame : keyboard_frame_ok frame →
  target_switch_shortcut_would_trigger self frame = (capture_target_switch_shortcut self frame).2.
Proof.
  intros Hok. unfold target_switch_shortcut_would_trigger.
  destruct (shortcut_is_enabled (is_target_switch_shortcut (ip_settings self))) eqn:He.
  - pose proof (capture_step self frame _ eq_refl He Hok) as Hst.
    destruct (capture_target_switch_shortcut self frame) as [[self1 out] t]. cbn zeta in Hst.
    destruct Hst as (_ & Ht & _). cbn [snd]. apply eq_true_iff_eq. rewrite Ht.
    pose proof (chord_not_released (is_target_switch_shortcut (ip_settings self)) frame) as Hx.
    unfold chord in *. destruct (sif_keyboard frame) as [kb|]; [|naive_solver].
    rewrite !andb_true_iff, Z.eqb_eq, bool_decide_eq_true.
    split; [naive_solver|]. intros [[Ha|Hr] Hc]; [naive_solver|]. by apply Hx in Hc.
  - unfold capture_target_switch_shortcut. destruct (sif_keyboard frame); [|done].
    by rewrite He, andb_false_r.
Qed.

(** ** The registry *)

(** The operations on a registry: the entry points, and what [get_mut] is used for. *)
Inductive RegistryOp :=
| OpRestore (profile : InputProfile)
| OpObserve (identity : InputIdentity)
| OpDisconnect (id : Z)
| OpSettings (id : Z) (settings : InputSettings)
| OpTransform (id : Z) (frame : StandardInputFrame)
| OpCapture (id : Z) (frame : StandardInputFrame).

Definition registry_op (self : InputProfileRegistry) (op : RegistryOp) : InputProfileRegistry :=
  match op with
  | OpRestore profile => fst (registry_restore self profile)
  | OpObserve identity => fst (observe self identity)
  | OpDisconnect id => fst (disconnect self id)
  | OpSettings id settings => fst (registry_get_mut self id (λ p, (p <| ip_settings := settings |>, tt)))
  | OpTransform id frame => fst (registry_get_mut self id (λ p, transform p frame))
  | OpCapture id frame =>
      fst (registry_get_mut self id (λ p, fst (capture_target_switch_shortcut p frame)))
  end.

Definition registry_run (ops : list RegistryOp) : InputProfileRegistry :=
  fold_left registry_op ops InputProfileRegistry_new.

(** A restored profile comes from storage: its identifier is valid and it is disconnected. *)
Definition registry_op_ok (op : RegistryOp) : Prop :=
  match op with
  | OpRestore profile => is_Some (InputProfileId_new (ip_id profile))
  | _ => True
  end.

Record reg_inv (r : InputProfileRegistry) : Prop := {
  reg_ids : NoDup (map ip_id (reg_profiles r));
  reg_identities : NoDup (map ip_identity (reg_profiles r));
  reg_valid : Forall (λ p, InputProfileId_new (ip_id p) = Some (ip_id p)) (reg_profiles r);
  reg_len : (length (reg_profiles r) ≤ INPUT_PROFILE_CAPACITY)%nat
}.

Lemma InputProfileId_new_spec v i : InputProfileId_new v = Some i ↔ i = v ∧ 1 ≤ v ≤ 8.
Proof.
  unfold InputProfileId_new, INPUT_PROFILE_CAPACITY. change (Z.of_nat 8) with 8.
  destruct (bool_decide (1 ≤ v)) eqn:H1, (bool_decide (v ≤ 8)) eqn:H2; cbn;
    try apply bool_decide_eq_true in H1; try apply bool_decide_eq_false in H1;
    try apply bool_decide_eq_true in H2; try apply bool_decide_eq_false in H2;
    split; try (intros [= <-]); try (intros [-> ?]); (done || lia).
Qed.

Lemma profile_id_is_listed i : InputProfileId_new i = Some i ↔ i ∈ profile_ids.
Proof.
  rewrite InputProfileId_new_spec. unfold profile_ids, INPUT_PROFILE_CAPACITY. cbn [seq map].
  rewrite !elem_of_cons. rewrite elem_of_nil. cbn. lia.
Qed.

Lemma existsb_elem {A} `{EqDecision B} (f : A → B) (x : B) l :
  existsb (λ item, bool_decide (f item = x)) l = true ↔ x ∈ map f l.
Proof.
  rewrite existsb_exists. split.
  - intros (y & Hy & H). apply bool_decide_eq_true in H as <-.
    apply list_elem_of_fmap. exists y. split; [done|by apply list_elem_of_In].
  - intros (y & -> & Hy)%list_elem_of_fmap. exists y. split; [by apply list_elem_of_In|].
    by apply bool_decide_eq_true.
Qed.

Lemma existsb_not_elem {A} `{EqDecision B} (f : A → B) (x : B) l :
  existsb (λ item, bool_decide (f item = x)) l = false ↔ x ∉ map f l.
Proof. rewrite <- existsb_elem. by destruct (existsb _ l). Qed.

Lemma first_free_id_spec candidates profiles :
  match first_free_id candidates profiles with
  | Some id => InputProfileId_new id = Some id ∧ id ∉ map ip_id profiles
  | None => ∀ c, c ∈ candidates → InputProfileId_new c = Some c → c ∈ map ip_id profiles
  end.
Proof.
  induction candidates as [|c cs IH]; cbn [first_free_id]; [by intros c Hc%elem_of_nil|].
  destruct (InputProfileId_new c) as [id|] eqn:Hc.
  - apply InputProfileId_new_spec in Hc as Hid. destruct Hid as [-> _].
    destruct (existsb _ _) eqn:He.
    + apply existsb_elem in He. destruct (first_free_id cs profiles); [done|].
      intros x [->|Hx]%elem_of_cons ?; [done|by apply IH].
    + apply existsb_not_elem in He. done.
  - destruct (first_free_id cs profiles); [done|].
    intros x [->|Hx]%elem_of_cons ?; [congruence|by apply IH].
Qed.

Lemma first_free_id_room r : reg_inv r → (length (reg_profiles r) < INPUT_PROFILE_CAPACITY)%nat →
  is_Some (first_free_id profile_ids (reg_profiles r)).
Proof.
  intros [Hn _ _ _] Hl. pose proof (first_free_id_spec profile_ids (reg_profiles r)) as H.
  destruct (first_free_id _ _); [by eexists|]. exfalso.
  assert (profile_ids ⊆+ map ip_id (reg_profiles r)) as Hsub.
  { apply NoDup_submseteq; [by apply (bool_decide_unpack _); vm_compute|].
    intros x Hx. apply H; [done|]. by apply profile_id_is_listed. }
  apply submseteq_length in Hsub. rewrite length_map in Hsub. cbn in Hsub.
  unfold INPUT_PROFILE_CAPACITY in *. lia.
Qed.

(** [oldest_disconnected] is the least recently seen of the disconnected profiles. *)
Lemma oldest_disconnected_spec all i profiles best : drop i all = profiles →
  match best with
  | None => ∀ k q, (k < i)%nat → all !! k = Some q → ip_connected q = true
  | Some (b, seen) => (∃ p, all !! b = Some p ∧ ip_connected p = false ∧ ip_last_seen p = seen) ∧
      ∀ k q, (k < i)%nat → all !! k = Some q → ip_connected q = false → seen ≤ ip_last_seen q
  end →
  match oldest_disconnected i profiles best with
  | None => Forall (λ q, ip_connected q = true) all
  | Some b => ∃ p, all !! b = Some p ∧ ip_connected p = false ∧
      ∀ k q, all !! k = Some q → ip_connected q = false → ip_last_seen p ≤ ip_last_seen q
  end.
Proof.
  revert i best. induction profiles as [|p profiles IH]; intros i best Hd Hb; cbn [oldest_disconnected].
  { assert (length all ≤ i)%nat by (apply (f_equal length) in Hd; rewrite length_drop in Hd; cbn in Hd; lia).
    destruct best as [[b seen]|]; cbn.
    - destruct Hb as [(p & Hp & Hc & <-) Hle]. exists p. repeat split; try done.
      intros k q Hq. apply (Hle k); [|done]. apply lookup_lt_Some in Hq. lia.
    - apply Forall_lookup_2. intros k q Hq. apply (Hb k q); [|done]. apply lookup_lt_Some in Hq. lia. }
  assert (all !! i = Some p) as Hi.
  { rewrite <- (Nat.add_0_r i), <- lookup_drop, Hd. done. }
  assert (drop (i + 1) all = profiles) as Hd' by (rewrite <- drop_drop, Hd; done).
  assert (∀ k q, (k < i + 1)%nat → all !! k = Some q → (k < i)%nat ∨ q = p) as Hcase.
  { intros k q Hk Hq. destruct (decide (k = i)) as [->|]; [right; congruence|left; lia]. }
  apply IH; [done|]. destruct (ip_connected p) eqn:Hcp.
  - destruct best as [[b seen]|].
    + destruct Hb as [Hb Hle]. split; [done|]. intros k q Hk Hq Hc.
      destruct (Hcase k q Hk Hq) as [?| ->]; [by apply (Hle k)|congruence].
    + intros k q Hk Hq. destruct (Hcase k q Hk Hq) as [?| ->]; [by apply (Hb k)|done].
  - destruct best as [[b seen]|]; [destruct (ip_last_seen p <? seen) eqn:Hlt|].
    + apply Z.ltb_lt in Hlt. destruct Hb as [_ Hle]. split; [by exists p|]. intros k q Hk Hq Hc.
      destruct (Hcase k q Hk Hq) as [?| ->]; [|done]. specialize (Hle k q ltac:(done) Hq Hc). lia.
    + apply Z.ltb_ge in Hlt. destruct Hb as [Hb Hle]. split; [done|]. intros k q Hk Hq Hc.
      destruct (Hcase k q Hk Hq) as [?| ->]; [by apply (Hle k)|done].
    + split; [by exists p|]. intros k q Hk Hq Hc.
      destruct (Hcase k q Hk Hq) as [?| ->]; [|done]. specialize (Hb k q ltac:(done) Hq). congruence.
Qed.

Lemma NoDup_insert_fresh {A} i (x : A) l : NoDup l → x ∉ l → NoDup (<[i:=x]> l).
Proof.
  intros Hn Hx. apply NoDup_alt. intros a b y Ha Hb.
  apply list_lookup_insert_Some in Ha as [(-> & <- & Hl)|[Hai Ha]];
    apply list_lookup_insert_Some in Hb as [(Hab & Hy & Hl')|[Hbi Hb]]; try congruence.
  - destruct Hx. by eapply list_elem_of_lookup_2.
  - subst. destruct Hx. by eapply list_elem_of_lookup_2.
  - by eapply (proj1 (NoDup_alt l) Hn).
Qed.

Definition set_profile (r : InputProfileRegistry) (i : nat) (p : InputProfile) : InputProfileRegistry :=
  r <| reg_profiles ::= λ profiles, <[i := p]> profiles |>.

Lemma set_profile_inv r i p q : reg_inv r → reg_profiles r !! i = Some p → ip_id q = ip_id p →
  ip_identity q = ip_identity p ∨ ip_identity q ∉ map ip_identity (reg_profiles r) →
  reg_inv (set_profile r i q).
Proof.
  intros [H1 H2 H3 H4] Hi Hid Hident. unfold set_profile, upd. cbn.
  assert (∀ A (f : InputProfile → A), f q = f p → map f (<[i:=q]> (reg_profiles r)) = map f (reg_profiles r))
    as Hsame.
  { intros A f Hf. change (map f) with (fmap (M:=list) f). rewrite list_fmap_insert. apply list_insert_id.
    rewrite list_lookup_fmap, Hi. cbn. by rewrite Hf. }
  split; cbn [reg_profiles].
  - by rewrite Hsame.
  - destruct Hident as [He|Hne]; [by rewrite Hsame|].
    change (map ip_identity) with (fmap (M:=list) ip_identity) in *. rewrite list_fmap_insert.
    by apply NoDup_insert_fresh.
  - apply Forall_insert; [done|]. rewrite Hid. by eapply (Forall_lookup_1 _ _ _ _ H3 Hi).
  - by rewrite length_insert.
Qed.

Lemma push_profile_inv r p : reg_inv r → (length (reg_profiles r) < INPUT_PROFILE_CAPACITY)%nat →
  InputProfileId_new (ip_id p) = Some (ip_id p) →
  ip_id p ∉ map ip_id (reg_profiles r) → ip_identity p ∉ map ip_identity (reg_profiles r) →
  reg_inv (r <| reg_profiles ::= λ profiles, profiles ++ [p] |>).
Proof.
  intros [H1 H2 H3 H4] Hl Hid Hi Hident. unfold upd. cbn. split; cbn [reg_profiles].
  - rewrite map_app. apply list.NoDup_app. split; [done|]. split; [|apply NoDup_singleton].
    intros x Hx Hx'%list_elem_of_singleton. by subst.
  - rewrite map_app. apply list.NoDup_app. split; [done|]. split; [|apply NoDup_singleton].
    intros x Hx Hx'%list_elem_of_singleton. by subst.
  - apply Forall_app. split; [done|]. by repeat constructor.
  - rewrite length_app. cbn. lia.
Qed.

Lemma reg_inv_sequence r f : reg_inv r → reg_inv (r <| reg_next_sequence ::= f |>).
Proof. by intros [H1 H2 H3 H4]. Qed.

Lemma position_elem {A} `{EqDecision B} (f : A → B) (x : B) l :
  match position (λ item, bool_decide (f item = x)) l with
  | Some i => ∃ p, l !! i = Some p ∧ f p = x
  | None => x ∉ map f l
  end.
Proof.
  destruct (position _ l) as [i|] eqn:Hp.
  - apply position_Some in Hp as (p & Hp & Hx). apply bool_decide_eq_true in Hx. by exists p.
  - intros (y & -> & Hy)%list_elem_of_fmap. apply list_elem_of_lookup in Hy as [k Hk].
    pose proof (position_None _ _ k y Hp Hk) as H. by apply bool_decide_eq_false in H.
Qed.

Lemma get_mut_inv {A} r id (f : InputProfile → InputProfile * A) : reg_inv r →
  (∀ p, ip_id (f p).1 = ip_id p ∧ ip_identity (f p).1 = ip_identity p) →
  reg_inv (fst (registry_get_mut r id f)).
Proof.
  intros Hr Hf. unfold registry_get_mut.
  pose proof (position_elem ip_id id (reg_profiles r)) as Hp.
  destruct (position _ _) as [i|]; [|done]. destruct Hp as (p & Hp & _). rewrite Hp.
  specialize (Hf p). destruct (f p) as [q a]. cbn in *.
  apply (set_profile_inv r i p q); try done; [by apply Hf|left; by apply Hf].
Qed.

(** What [observe] does, on every branch. *)
Lemma observe_cases r identity : reg_inv r →
  let sequence := reg_next_sequence r in
  let r1 := r <| reg_next_sequence ::= λ next, (next + 1) mod 2 ^ 64 |> in
  match observe r identity with
  | (r', Ok id) =>
      (∃ i p, reg_profiles r !! i = Some p ∧ ip_identity p = identity ∧ id = ip_id p ∧
         r' = set_profile r1 i (p <| ip_connected := true |> <| ip_last_seen := sequence |>)) ∨
      identity ∉ map ip_identity (reg_profiles r) ∧
      ((∃ i p, length (reg_profiles r) = INPUT_PROFILE_CAPACITY ∧ reg_profiles r !! i = Some p ∧
          ip_connected p = false ∧ id = ip_id p ∧
          (∀ q, q ∈ reg_profiles r → ip_connected q = false → ip_last_seen p ≤ ip_last_seen q) ∧
          r' = set_profile r1 i (fresh_profile id identity sequence)) ∨
       (length (reg_profiles r) < INPUT_PROFILE_CAPACITY)%nat ∧ InputProfileId_new id = Some id ∧
          id ∉ map ip_id (reg_profiles r) ∧
          r' = r1 <| reg_profiles ::= λ profiles, profiles ++ [fresh_profile id identity sequence] |>)
  | (r', Err e) =>
      r' = r1 ∧ e = RegistryFullWithConnectedProfiles ∧
      length (reg_profiles r) = INPUT_PROFILE_CAPACITY ∧
      Forall (λ q, ip_connected q = true) (reg_profiles r) ∧ identity ∉ map ip_identity (reg_profiles r)
  end.
Proof.
  intros Hr. cbn zeta. unfold observe, take_sequence.
  set (r1 := r <| reg_next_sequence ::= _ |>).
  change (reg_profiles r1) with (reg_profiles r).
  pose proof (position_elem ip_identity identity (reg_profiles r)) as Hp.
  destruct (position _ _) as [i|].
  { destruct Hp as (p & Hp & Hident). rewrite Hp. left. exists i, p. repeat split; try done. }
  case_bool_decide as Hfull.
  - pose proof (oldest_disconnected_spec (reg_profiles r) 0 (reg_profiles r) None eq_refl
      ltac:(cbn; intros; lia)) as Ho.
    destruct (oldest_disconnected _ _ _) as [i|]; [|done].
    destruct Ho as (p & Hi & Hc & Hle). rewrite Hi. right. split; [done|]. left. exists i, p.
    repeat split; try done. intros q Hq. apply list_elem_of_lookup in Hq as [k Hk]. by apply (Hle k).
  - assert (length (reg_profiles r) < INPUT_PROFILE_CAPACITY)%nat as Hl by (destruct Hr; lia).
    destruct (first_free_id_room r Hr Hl) as [id Hid]. rewrite Hid.
    pose proof (first_free_id_spec profile_ids (reg_profiles r)) as Hs. rewrite Hid in Hs.
    unfold vec_push. rewrite decide_True by done. right. split; [done|]. right. naive_solver.
Qed.

Lemma registry_op_inv r op : reg_inv r → registry_op_ok op → reg_inv (registry_op r op).
Proof.
  intros Hr Hok. destruct op as [p|identity|id|id settings|id frame|id frame]; cbn [registry_op].
  - unfold registry_restore. destruct (existsb _ _) eqn:H1; [done|].
    destruct (existsb (λ item, bool_decide (ip_identity item = _)) _) eqn:H2; [done|].
    apply existsb_not_elem in H1, H2.
    set (r1 := r <| reg_next_sequence ::= _ |>).
    destruct (vec_push _ _ _) as [ps|] eqn:Hv; cbn [fst]; [|by apply reg_inv_sequence].
    apply vec_push_Some in Hv as [Hl ->]. destruct Hok as [v Hv].
    apply InputProfileId_new_spec in Hv as Hv'. destruct Hv' as [-> _].
    by apply (push_profile_inv r1 p); [apply reg_inv_sequence|..].
  - pose proof (observe_cases r identity Hr) as Hc. destruct (observe r identity) as [r' [id|e]]; cbn zeta in Hc.
    + destruct Hc as [(i & p & Hi & Hident & -> & ->)|(Hne & [(i & p & _ & Hi & _ & -> & _ & ->)|(Hl & Hv & Hn & ->)])].
      * apply (set_profile_inv _ i p); [by apply reg_inv_sequence|done|done|by left].
      * apply (set_profile_inv _ i p); [by apply reg_inv_sequence|done|done|by right].
      * by apply push_profile_inv; [apply reg_inv_sequence|..].
    + destruct Hc as [-> _]. by apply reg_inv_sequence.
  - unfold disconnect, take_sequence. destruct (registry_get_mut _ _ _) as [r1 found] eqn:Hg. cbn [fst].
    match type of Hg with registry_get_mut ?a ?b ?c = _ =>
      pose proof (get_mut_inv a b c (reg_inv_sequence _ _ Hr)) as H end.
    rewrite Hg in H. by apply H.
  - by apply get_mut_inv.
  - apply get_mut_inv; [done|]. intros p. unfold transform.
    destruct (sif_mouse frame); [destruct (transform_mouse _ _ _)|]; done.
  - apply get_mut_inv; [done|]. intros p. unfold capture_target_switch_shortcut.
    destruct (sif_keyboard frame); [|done]. by case_match.
Qed.

Lemma registry_run_inv ops : Forall registry_op_ok ops → reg_inv (registry_run ops).
Proof.
  unfold registry_run. assert (reg_inv InputProfileRegistry_new) as H0.
  { split; cbn; [apply NoDup_nil_2|apply NoDup_nil_2|constructor|unfold INPUT_PROFILE_CAPACITY; lia]. }
  revert H0. generalize InputProfileRegistry_new. induction ops as [|op ops IH]; intros r Hr Hf; [done|].
  apply List.Forall_cons_iff in Hf as [Hok Hf]. cbn [fold_left]. apply IH; [|done].
  by apply registry_op_inv.
Qed.

Lemma registry_get_spec r id p : reg_inv r →
  registry_get r id = Some p ↔ p ∈ reg_profiles r ∧ ip_id p = id.
Proof.
  intros [Hn _ _ _]. unfold registry_get. split.
  - intros H. apply find_some in H as [Hin H]. apply bool_decide_eq_true in H.
    split; [by apply list_elem_of_In|done].
  - intros [Hin Hid]. destruct (List.find _ _) as [q|] eqn:Hf.
    + apply find_some in Hf as [Hq Hqid]. apply bool_decide_eq_true in Hqid.
      apply list_elem_of_In, list_elem_of_lookup in Hq as [a Ha].
      apply list_elem_of_lookup in Hin as [b Hb].
      assert (a = b) as ->; [|congruence].
      apply (proj1 (NoDup_alt _) Hn a b id).
      * change (map ip_id) with (fmap (M:=list) ip_id). rewrite list_lookup_fmap, Ha. cbn. by rewrite Hqid.
      * change (map ip_id) with (fmap (M:=list) ip_id). rewrite list_lookup_fmap, Hb. cbn. by rewrite Hid.
    + apply list_elem_of_In in Hin. pose proof (find_none _ _ Hf p Hin) as H.
      by apply bool_decide_eq_false in H.
Qed.

(** Two registries that hold the same profiles but for one identifier. *)
Lemma registry_get_ext r r' id : reg_inv r → reg_inv r' →
  (∀ p, ip_id p = id → p ∈ reg_profiles r ↔ p ∈ reg_profiles r') →
  registry_get r id = registry_get r' id.
Proof.
  intros Hr Hr' H. apply option_eq. intros p. rewrite !registry_get_spec by done. naive_solver.
Qed.

Lemma set_profile_elem r i p q x : reg_profiles r !! i = Some p → ip_id q = ip_id p → ip_id x ≠ ip_id p →
  x ∈ reg_profiles r ↔ x ∈ reg_profiles (set_profile r i q).
Proof.
  intros Hi Hq Hx. unfold set_profile, upd. cbn. rewrite !list_elem_of_lookup. split; intros [k Hk].
  - exists k. rewrite list_lookup_insert_ne; [done|]. intros ->. congruence.
  - apply list_lookup_insert_Some in Hk as [(-> & <- & _)|[_ Hk]]; [congruence|by exists k].
Qed.

Lemma set_profile_here r i p q : reg_profiles r !! i = Some p → q ∈ reg_profiles (set_profile r i q).
Proof.
  intros Hi. unfold set_profile, upd. cbn. apply list_elem_of_lookup. exists i.
  apply list_lookup_insert_eq. by eapply lookup_lt_Some.
Qed.

Definition seen_at (r : InputProfileRegistry) (q : InputProfile) : InputProfile :=
  q <| ip_connected := true |> <| ip_last_seen := reg_next_sequence r |>.

(** The registry of input devices.  However it was built up, its identifiers and identities
    are distinct and valid.  Observing a device connects the profile that has its identity, with
    its settings and transform state kept; a device not known gets a fresh profile in a free slot,
    or, when all eight are taken, in the slot of the least recently seen disconnected profile;
    every other profile keeps its slot and content; and it is refused, the profiles unchanged, only
    when all eight belong to other, connected devices. *)
Theorem registry_observe ops identity : Forall registry_op_ok ops →
  let r := registry_run ops in
  reg_inv r ∧
  match observe r identity with
  | (r', Ok id) =>
      (∀ id', id' ≠ id → registry_get r' id' = registry_get r id') ∧
      match registry_get r id with
      | Some q =>
          if decide (ip_identity q = identity) then registry_get r' id = Some (seen_at r q)
          else
            registry_get r' id = Some (fresh_profile id identity (reg_next_sequence r)) ∧
            identity ∉ map ip_identity (reg_profiles r) ∧
            length (reg_profiles r) = INPUT_PROFILE_CAPACITY ∧ ip_connected q = false ∧
            ∀ q', q' ∈ reg_profiles r → ip_connected q' = false → ip_last_seen q ≤ ip_last_seen q'
      | None =>
          registry_get r' id = Some (fresh_profile id identity (reg_next_sequence r)) ∧
          identity ∉ map ip_identity (reg_profiles r) ∧ InputProfileId_new id = Some id
      end
  | (r', Err e) =>
      e = RegistryFullWithConnectedProfiles ∧ reg_profiles r' = reg_profiles r ∧
      length (reg_profiles r) = INPUT_PROFILE_CAPACITY ∧
      Forall (λ q, ip_connected q = true) (reg_profiles r) ∧ identity ∉ map ip_identity (reg_profiles r)
  end.
Proof.
  intros Hops r. assert (reg_inv r) as Hr by by apply registry_run_inv. split; [done|].
  pose proof (registry_op_inv r (OpObserve identity) Hr I) as Hr'. cbn [registry_op] in Hr'.
  pose proof (observe_cases r identity Hr) as Hc. destruct (observe r identity) as [r' [id|e]]; cbn zeta in Hc.
  2: { destruct Hc as (-> & -> & ?). done. }
  cbn [fst] in Hr'. set (r1 := r <| reg_next_sequence ::= _ |>) in Hc.
  destruct Hc as [(i & p & Hi & Hident & -> & ->)|(Hne & [(i & p & Hl & Hi & Hcp & -> & Hle & ->)|(Hl & Hv & Hn & ->)])].
  - assert (registry_get r (ip_id p) = Some p) as -> by
      (apply registry_get_spec; [done|split; [by eapply list_elem_of_lookup_2|done]]).
    rewrite decide_True by done. split.
    + intros id' Hne. apply registry_get_ext; [done..|]. intros x Hx. symmetry.
      apply (set_profile_elem r1 i p); [done|done|congruence].
    + apply registry_get_spec; [done|]. split; [by apply (set_profile_here r1 i p)|done].
  - assert (registry_get r (ip_id p) = Some p) as -> by
      (apply registry_get_spec; [done|split; [by eapply list_elem_of_lookup_2|done]]).
    rewrite decide_False.
    2: { intros <-. apply Hne, list_elem_of_fmap. exists p. split; [done|]. by eapply list_elem_of_lookup_2. }
    split.
    + intros id' Hne'. apply registry_get_ext; [done..|]. intros x Hx. symmetry.
      apply (set_profile_elem r1 i p); [done|done|congruence].
    + split; [|done]. apply registry_get_spec; [done|]. split; [by apply (set_profile_here r1 i p)|done].
  - destruct (registry_get r id) as [q|] eqn:Hq.
    { apply registry_get_spec in Hq as [Hq Hid]; [|done]. destruct Hn. apply list_elem_of_fmap. by exists q. }
    split.
    + intros id' Hne'. apply registry_get_ext; [done..|]. intros x Hx. unfold upd. cbn.
      rewrite elem_of_app, list_elem_of_singleton. split; [|tauto]. intros [?| ->]; [done|by destruct Hne'].
    + split; [|done]. apply registry_get_spec; [done|]. split; [|done]. unfold upd. cbn.
      apply elem_of_app. right. by apply list_elem_of_singleton.
Qed.

Definition device (n : Z) : InputIdentity := from_port_path n n [n].
Definition sample_ops : list RegistryOp :=
  map OpObserve (map device [1; 2; 3; 4; 5; 6; 7; 8]) ++ [OpDisconnect 5; OpDisconnect 3].

Lemma registry_observe_witness :
  registry_get (registry_run sample_ops) 5 ≠ None ∧
  (observe (registry_run sample_ops) (device 9)).2 = Ok 5 ∧
  match observe (registry_run sample_ops) (device 9) with
  | (r', Ok id) => ∀ id', id' ≠ id → registry_get r' id' = registry_get (registry_run sample_ops) id'
  | _ => False
  end.
Proof.
  split; [by vm_compute|]. split; [by vm_compute|].
  assert (Forall registry_op_ok sample_ops) as Hok by by repeat constructor.
  assert ((observe (registry_run sample_ops) (device 9)).2 = Ok 5) as He by by vm_compute.
  pose proof (registry_observe sample_ops (device 9) Hok) as H. cbn zeta in H. destruct H as [_ H].
  revert H He. generalize (registry_run sample_ops). intros r.
  destruct (observe r (device 9)) as [r' [id|e]]; [|intros _ He; discriminate He].
  intros [H _] _. exact H.
Defined.
