(* ===== verification/OutputTarget.v ===== *)
(** * Output targets ([src/src/output_target.rs])

    Which computer the reports go to: the wired one or one of four BLE hosts, the order in
    which they are cycled, the selection state, and what identifies a mirrored device. *)

From stdpp Require Import relations.
From S2P Require Import Prelude Input.

Definition MIRROR_PORT_PATH_MAX_LEN : nat := 8.

Inductive OutputTarget := TargetWired | TargetBle (host : Z).
#[export] Instance OutputTarget_eq_dec : EqDecision OutputTarget.
Proof. solve_decision. Defined.

Inductive OutputTargetError := InvalidBleHost.

Definition validate_target (self : OutputTarget) : Result OutputTargetError OutputTarget :=
  match self with
  | TargetWired => Ok self
  | TargetBle host =>
      if bool_decide (1 ≤ host) && bool_decide (host ≤ Z.of_nat HOST_SLOT_COUNT) then Ok self
      else Err InvalidBleHost
  end.

Definition ble_host_ready (ready_ble_mask host : Z) : bool :=
  bool_decide (1 ≤ host) && bool_decide (host ≤ Z.of_nat HOST_SLOT_COUNT) &&
  negb (Z.land ready_ble_mask (Z.shiftl 1 (host - 1)) =? 0).

Definition computer_index (target : OutputTarget) (wired_ble_host : option Z) : nat :=
  match target with
  | TargetWired => 0
  | TargetBle host =>
      if decide (Some host = wired_ble_host) then 0%nat
      else Z.to_nat (Z.min host (Z.of_nat HOST_SLOT_COUNT))
  end.

(** One round of the [for offset in 1..=HOST_SLOT_COUNT] loop: the target it returns, if
    it does. *)
Definition target_at (index : nat) (wired_ready : bool) (ready_ble_mask : Z)
  (wired_ble_host : option Z) : option OutputTarget :=
  if decide (index = 0%nat) then
    if wired_ready then Some TargetWired
    else
      match wired_ble_host with
      | Some host => if ble_host_ready ready_ble_mask host then Some (TargetBle host) else None
      | None => None
      end
  else
    let host := Z.of_nat index in
    if negb (bool_decide (Some host = wired_ble_host)) && ble_host_ready ready_ble_mask host
    then Some (TargetBle host) else None.

Fixpoint next_ready_loop (offsets : list nat) (selected_index : nat) (wired_ready : bool)
  (ready_ble_mask : Z) (wired_ble_host : option Z) : option OutputTarget :=
  match offsets with
  | [] => None
  | offset :: offsets =>
      let index := ((selected_index + offset) mod (HOST_SLOT_COUNT + 1))%nat in
      match target_at index wired_ready ready_ble_mask wired_ble_host with
      | Some target => Some target
      | None => next_ready_loop offsets selected_index wired_ready ready_ble_mask wired_ble_host
      end
  end.

Definition next_ready_computer_target (selected : OutputTarget) (wired_ready : bool)
  (ready_ble_mask : Z) (wired_ble_host : option Z) : option OutputTarget :=
  next_ready_loop (seq 1 HOST_SLOT_COUNT) (computer_index selected wired_ble_host) wired_ready
    ready_ble_mask wired_ble_host.

Inductive OutputTargetAvailability := AvailReady | AvailConnectedNotReady | AvailUnavailable.
#[export] Instance OutputTargetAvailability_eq_dec : EqDecision OutputTargetAvailability.
Proof. solve_decision. Defined.

Inductive BleTargetReadinessPolicy := KeyboardRequired | AllStandardReports | AnyReport.

Definition policy_is_ready (self : BleTargetReadinessPolicy) (keyboard mouse consumer : bool) : bool :=
  match self with
  | KeyboardRequired => keyboard
  | AllStandardReports => keyboard && mouse && consumer
  | AnyReport => keyboard || mouse || consumer
  end.

Definition BLE_TARGET_READINESS_POLICY : BleTargetReadinessPolicy := KeyboardRequired.

Record OutputTargetState := mkOutputTargetState {
  ots_selected : OutputTarget;
  ots_active : option OutputTarget;
  ots_availability : OutputTargetAvailability;
  ots_transition_operation_id : Z
}.
#[export] Instance eta_OutputTargetState : Eta OutputTargetState := λ r,
  mkOutputTargetState (ots_selected r) (ots_active r) (ots_availability r)
    (ots_transition_operation_id r).

Definition OutputTargetState_new : OutputTargetState :=
  mkOutputTargetState TargetWired None AvailUnavailable 0.

Definition select_target (self : OutputTargetState) (target : OutputTarget)
  : OutputTargetState * Result OutputTargetError Z :=
  match validate_target target with
  | Err e => (self, Err e)
  | Ok _ =>
      let self := self <| ots_selected := target |> <| ots_active := None |>
        <| ots_availability := AvailUnavailable |>
        <| ots_transition_operation_id ::= λ n, as_u32 (n + 1) |> in
      (self, Ok (ots_transition_operation_id self))
  end.

Definition set_availability (self : OutputTargetState) (availability : OutputTargetAvailability)
  : OutputTargetState :=
  let self := self <| ots_availability := availability |> in
  self <| ots_active :=
    match availability with
    | AvailReady => Some (ots_selected self)
    | AvailConnectedNotReady | AvailUnavailable => None
    end |>.

Definition begin_transition (self : OutputTargetState) : OutputTargetState * Z :=
  let self := self <| ots_active := None |> <| ots_availability := AvailConnectedNotReady |>
    <| ots_transition_operation_id ::= λ n, as_u32 (n + 1) |> in
  (self, ots_transition_operation_id self).

Inductive MirrorConfiguration := MirrorDisabled | MirrorSelected (candidate : Z).
Inductive UsbPresentation := PresentFallback | PresentMirror (candidate : Z).
#[export] Instance UsbPresentation_eq_dec : EqDecision UsbPresentation.
Proof. solve_decision. Defined.

Definition effective_presentation (output_target : OutputTarget) (mirror : MirrorConfiguration)
  (mirror_available : bool) : UsbPresentation :=
  match output_target, mirror, mirror_available with
  | TargetWired, MirrorSelected candidate, true => PresentMirror candidate
  | _, _, _ => PresentFallback
  end.

Inductive StoredOutputTarget := StoredWired | StoredBle (slot : Z).
#[export] Instance StoredOutputTarget_eq_dec : EqDecision StoredOutputTarget.
Proof. solve_decision. Defined.

Definition as_output_target (self : StoredOutputTarget) : OutputTarget :=
  match self with StoredWired => TargetWired | StoredBle slot => TargetBle slot end.

Record MirrorStableId := mkMirrorStableId {
  ms_vendor_id : Z;
  ms_product_id : Z;
  ms_serial_hash : option Z;
  ms_descriptor_hash : Z;
  ms_port_path_len : Z;
  ms_port_path : list Z
}.
#[export] Instance MirrorStableId_eq_dec : EqDecision MirrorStableId.
Proof. solve_decision. Defined.

Inductive MirrorStableIdError := MissingPhysicalLocation | PortPathTooLong.

Definition MirrorStableId_new (vendor_id product_id : Z) (serial_hash : option Z)
  (descriptor_hash : Z) (port_path : list Z) : Result MirrorStableIdError MirrorStableId :=
  if decide (length port_path > MIRROR_PORT_PATH_MAX_LEN)%nat then Err PortPathTooLong
  else if decide (serial_hash = None ∧ port_path = []) then Err MissingPhysicalLocation
  else Ok (mkMirrorStableId vendor_id product_id serial_hash descriptor_hash
             (as_u8 (Z.of_nat (length port_path)))
             (blit 0 port_path (zeros MIRROR_PORT_PATH_MAX_LEN))).

Definition MirrorStableId_synthetic (descriptor_hash : Z) : MirrorStableId :=
  mkMirrorStableId 0xcafe 0 (Some descriptor_hash) descriptor_hash 0
    (zeros MIRROR_PORT_PATH_MAX_LEN).

Definition ms_path (self : MirrorStableId) : list Z :=
  take (Z.to_nat (ms_port_path_len self)) (ms_port_path self).

(** [StoredMirrorTarget] is its [MirrorStableId]. *)
Record StoredPresentationConfig := mkPresentationConfig {
  spc_output_target : StoredOutputTarget;
  spc_wired_ble_host : option Z;
  spc_mirror_target : option MirrorStableId
}.
#[export] Instance StoredPresentationConfig_eq_dec : EqDecision StoredPresentationConfig.
Proof. solve_decision. Defined.

Definition StoredPresentationConfig_DEFAULT : StoredPresentationConfig :=
  mkPresentationConfig StoredWired None None.

(** ** Cycling *)

(** A host slot, as [HostSlot] guarantees. *)
Definition slot_ok (host : Z) : Prop := 1 ≤ host ≤ 4.
Definition target_ok (t : OutputTarget) : Prop := validate_target t = Ok t.
Definition link_ok (linked : option Z) : Prop := ∀ h, linked = Some h → slot_ok h.

(** What it means for the computer at an index to be reachable now. *)
Definition computer_ready (index : nat) (wired_ready : bool) (mask : Z) (linked : option Z) : Prop :=
  match index with
  | O => wired_ready = true ∨ ∃ h, linked = Some h ∧ Z.testbit mask (h - 1) = true
  | _ => (index ≤ 4)%nat ∧ Some (Z.of_nat index) ≠ linked ∧ Z.testbit mask (Z.of_nat index - 1) = true
  end.

Lemma ble_host_ready_spec mask host : ble_host_ready mask host = true ↔
  slot_ok host ∧ Z.testbit mask (host - 1) = true.
Proof.
  unfold ble_host_ready, slot_ok. change (Z.of_nat HOST_SLOT_COUNT) with 4.
  rewrite !andb_true_iff, !bool_decide_eq_true, negb_true_iff, Z.eqb_neq.
  split; [intros [[H1 H2] H3]|intros [[H1 H2] H3]]; (split; [lia|]).
  - destruct (Z.testbit mask (host - 1)) eqn:E; [done|]. exfalso. apply H3.
    rewrite Z.shiftl_1_l. apply Z.bits_inj'. intros n Hn.
    rewrite Z.land_spec, Z.pow2_bits_eqb, Z.bits_0 by lia.
    destruct (Z.eqb_spec (host - 1) n) as [<-|]; [by rewrite E|apply andb_false_r].
  - intros H. rewrite Z.shiftl_1_l in H.
    assert (Z.testbit (Z.land mask (2 ^ (host - 1))) (host - 1) = true) as Hb.
    { rewrite Z.land_spec, H3, Z.pow2_bits_true by lia. done. }
    by rewrite H, Z.bits_0 in Hb.
Qed.

Lemma target_at_spec index wired mask linked : link_ok linked →
  (∀ t, target_at index wired mask linked = Some t →
     computer_ready index wired mask linked ∧ target_ok t ∧ computer_index t linked = index ∧
     (t = TargetWired → wired = true) ∧
     (∀ h, t = TargetBle h → Z.testbit mask (h - 1) = true ∧ (index = 0%nat → wired = false))) ∧
  (target_at index wired mask linked = None → ¬ computer_ready index wired mask linked).
Proof.
  intros Hlink. unfold target_at. destruct (decide (index = 0%nat)) as [->|Hi].
  - destruct wired.
    + split; [|done]. intros t [= <-]. split; [by left|]. done.
    + destruct linked as [h|].
      * destruct (ble_host_ready mask h) eqn:Hr.
        -- apply ble_host_ready_spec in Hr as [Hs Hb]. split; [|done]. intros t [= <-].
           split; [right; by exists h|]. split.
           { unfold target_ok, validate_target. change (Z.of_nat HOST_SLOT_COUNT) with 4.
             unfold slot_ok in Hs. by rewrite !bool_decide_true by lia. }
           split; [cbn; by rewrite decide_True|]. split; [done|]. by intros h' [= <-].
        -- split; [done|]. intros _ [Hw|(h' & [= <-] & Hb)]; [done|].
           assert (ble_host_ready mask h = true) as Hr'
             by (apply ble_host_ready_spec; split; [by apply Hlink|done]).
           congruence.
      * split; [done|]. intros _ [Hw|(h & [=] & _)]. done.
  - destruct index as [|index]; [done|]. set (i := Datatypes.S index) in *.
    destruct (bool_decide (Some (Z.of_nat i) = linked)) eqn:Hl; cbn [negb andb].
    + apply bool_decide_eq_true in Hl. split; [done|]. intros _ (_ & Hn & _). done.
    + apply bool_decide_eq_false in Hl. destruct (ble_host_ready mask (Z.of_nat i)) eqn:Hr.
      * apply ble_host_ready_spec in Hr as [Hs Hb]. unfold slot_ok in Hs.
        split; [|done]. intros t [= <-]. split; [split; [lia|done]|]. split.
        { unfold target_ok, validate_target. change (Z.of_nat HOST_SLOT_COUNT) with 4.
          by rewrite !bool_decide_true by lia. }
        split; [|split; [done|by intros h' [= <-]]].
        unfold computer_index. rewrite decide_False by done.
        change (Z.of_nat HOST_SLOT_COUNT) with 4. lia.
      * split; [done|]. intros _ (Hle & _ & Hb).
        assert (ble_host_ready mask (Z.of_nat i) = true) as Hr'
          by (apply ble_host_ready_spec; split; [unfold slot_ok; lia|done]).
        congruence.
Qed.

Lemma computer_index_le t linked : target_ok t → (computer_index t linked ≤ 4)%nat.
Proof.
  intros _. destruct t as [|h]; cbn [computer_index]; [lia|]. case_decide; [lia|].
  change (Z.of_nat HOST_SLOT_COUNT) with 4. lia.
Qed.

Lemma next_ready_loop_spec sel wired mask linked offsets : link_ok linked →
  match next_ready_loop offsets sel wired mask linked with
  | Some t => ∃ before offset after, offsets = before ++ offset :: after ∧
      target_at ((sel + offset) mod 5) wired mask linked = Some t ∧
      ∀ o, o ∈ before → ¬ computer_ready ((sel + o) mod 5) wired mask linked
  | None => ∀ o, o ∈ offsets → ¬ computer_ready ((sel + o) mod 5) wired mask linked
  end.
Proof.
  intros Hlink. induction offsets as [|o offsets IH]; cbn [next_ready_loop].
  { intros o Ho. by apply list_elem_of_In in Ho. }
  change (HOST_SLOT_COUNT + 1)%nat with 5%nat.
  destruct (target_at ((sel + o) mod 5) wired mask linked) as [t|] eqn:E.
  - exists [], o, offsets. split; [done|]. split; [done|]. intros o' Ho. by apply list_elem_of_In in Ho.
  - pose proof (proj2 (target_at_spec ((sel + o) mod 5) wired mask linked Hlink) E) as Hn.
    destruct (next_ready_loop offsets sel wired mask linked) as [t|].
    + destruct IH as (before & offset & after & -> & Ht & Hb).
      exists (o :: before), offset, after. split; [done|]. split; [done|].
      intros o' Ho. apply elem_of_cons in Ho as [->|Ho]; [done|by apply Hb].
    + intros o' Ho. apply elem_of_cons in Ho as [->|Ho]; [done|by apply IH].
Qed.

(** Steps from one computer to another around the cycle of five. *)
Definition cycle_distance (a b : nat) : nat := (b + 5 - a) mod 5.

Lemma computer_ready_le i wired mask linked : computer_ready i wired mask linked → (i ≤ 4)%nat.
Proof. destruct i; cbn; [lia|]. by intros (? & _). Qed.

Lemma split_1234 before offset after : [1; 2; 3; 4]%nat = before ++ offset :: after →
  (1 ≤ offset ≤ 4)%nat ∧ ∀ o, (1 ≤ o < offset)%nat → o ∈ before.
Proof.
  intros H.
  destruct before as [|a [|b [|c [|d before]]]]; cbn in H; simplify_eq; cbn;
    try (destruct before; discriminate);
    (split; [lia|]); intros o Ho; apply list_elem_of_In; cbn; lia.
Qed.

Lemma cycle_distance_offset sel i : (sel ≤ 4)%nat → (i ≤ 4)%nat →
  ((sel + cycle_distance sel i) mod 5)%nat = i.
Proof. intros Hs Hi. unfold cycle_distance. divmod. Qed.

Lemma next_ready_spec selected wired mask linked : target_ok selected → link_ok linked →
  let sel := computer_index selected linked in
  match next_ready_computer_target selected wired mask linked with
  | Some t => target_ok t ∧ computer_index t linked ≠ sel ∧
      computer_ready (computer_index t linked) wired mask linked ∧
      (t = TargetWired → wired = true) ∧
      (∀ h, t = TargetBle h → Z.testbit mask (h - 1) = true ∧ (linked = Some h → wired = false)) ∧
      (∀ i, computer_ready i wired mask linked → i ≠ sel →
         (cycle_distance sel (computer_index t linked) ≤ cycle_distance sel i)%nat)
  | None => ∀ i, computer_ready i wired mask linked → i = sel
  end.
Proof.
  intros Hsel Hlink sel. pose proof (computer_index_le selected linked Hsel) as Hle. fold sel in Hle.
  unfold next_ready_computer_target. fold sel.
  pose proof (next_ready_loop_spec sel wired mask linked (seq 1 HOST_SLOT_COUNT) Hlink) as H.
  change (seq 1 HOST_SLOT_COUNT) with [1; 2; 3; 4]%nat in *.
  destruct (next_ready_loop _ _ _ _ _) as [t|].
  - destruct H as (before & offset & after & Hs & Ht & Hb).
    apply split_1234 in Hs as [Hoff Hbefore].
    destruct (proj1 (target_at_spec _ wired mask linked Hlink) t Ht) as (Hr & Hok & Hidx & Hw & Hble).
    rewrite Hidx. split; [done|]. split; [clear - Hle Hoff; divmod|]. split; [done|].
    split; [done|]. split.
    { intros h ->. destruct (Hble h eq_refl) as [Hbit Hz]. split; [done|]. intros ->. apply Hz.
      cbn [computer_index] in Hidx. by rewrite decide_True in Hidx. }
    intros i Hi Hne. pose proof (computer_ready_le _ _ _ _ Hi) as Hi4.
    destruct (decide (cycle_distance sel ((sel + offset) mod 5) ≤ cycle_distance sel i)%nat); [done|].
    exfalso. apply (Hb (cycle_distance sel i)).
    + apply Hbefore. unfold cycle_distance in *. clear - Hle Hoff Hi4 Hne n. divmod.
    + by rewrite cycle_distance_offset.
  - intros i Hi. pose proof (computer_ready_le _ _ _ _ Hi) as Hi4.
    destruct (decide (i = sel)) as [|Hne]; [done|]. exfalso. apply (H (cycle_distance sel i)).
    + assert (1 ≤ cycle_distance sel i ≤ 4)%nat as Hd by (clear - Hle Hi4 Hne; unfold cycle_distance; divmod).
      apply list_elem_of_In. cbn [In]. lia.
    + by rewrite cycle_distance_offset.
Qed.

(** Pressing the button [n] times while readiness does not change. *)
Fixpoint cycle_targets (n : nat) (wired : bool) (mask : Z) (linked : option Z) (t : OutputTarget)
  : OutputTarget :=
  match n with
  | O => t
  | S n =>
      match next_ready_computer_target t wired mask linked with
      | Some t => cycle_targets n wired mask linked t
      | None => t
      end
  end.

Lemma cycle_reaches wired mask linked i : link_ok linked → computer_ready i wired mask linked →
  ∀ n t, target_ok t → (cycle_distance (computer_index t linked) i ≤ n)%nat →
  ∃ k, (k ≤ n)%nat ∧ computer_index (cycle_targets k wired mask linked t) linked = i.
Proof.
  intros Hlink Hi n. pose proof (computer_ready_le _ _ _ _ Hi) as Hi4.
  induction n as [|n IH]; intros t Ht Hd; pose proof (computer_index_le t linked Ht) as Hle.
  { exists 0%nat. split; [lia|]. cbn. unfold cycle_distance in Hd. clear Hi Hlink Ht. divmod. }
  destruct (decide (computer_index t linked = i)) as [Heq|Hne]; [exists 0%nat; split; [lia|done]|].
  pose proof (next_ready_spec t wired mask linked Ht Hlink) as H. cbn zeta in H.
  destruct (next_ready_computer_target t wired mask linked) as [t'|] eqn:E.
  - destruct H as (Ht' & Hdiff & _ & _ & _ & Hmin).
    pose proof (computer_index_le t' linked Ht') as Hle'.
    specialize (Hmin i Hi ltac:(done)).
    destruct (IH t' Ht') as (k & Hk & Hc).
    { unfold cycle_distance in *. clear - Hd Hle Hle' Hi4 Hmin Hdiff Hne. divmod. }
    exists (Datatypes.S k). split; [lia|]. cbn [cycle_targets]. by rewrite E.
  - exfalso. apply Hne. symmetry. by apply H.
Qed.

(** C19: target cycling.  The next target is a valid, ready target of another computer, the
    nearest one in the cyclic order wired, slot 1, ..., slot 4; the wired route and its
    linked BLE host are one computer, wired preferred; no target is returned only when no
    other computer is ready; and pressing on reaches every ready computer within four
    presses. *)
Theorem target_cycling selected wired mask linked : target_ok selected → link_ok linked →
  let sel := computer_index selected linked in
  match next_ready_computer_target selected wired mask linked with
  | Some t => target_ok t ∧ computer_index t linked ≠ sel ∧
      computer_ready (computer_index t linked) wired mask linked ∧
      (t = TargetWired → wired = true) ∧
      (∀ h, t = TargetBle h → Z.testbit mask (h - 1) = true ∧ (linked = Some h → wired = false)) ∧
      (∀ i, computer_ready i wired mask linked → i ≠ sel →
         (cycle_distance sel (computer_index t linked) ≤ cycle_distance sel i)%nat)
  | None => ∀ i, computer_ready i wired mask linked → i = sel
  end ∧
  ∀ i, computer_ready i wired mask linked →
    ∃ k, (k ≤ 4)%nat ∧ computer_index (cycle_targets k wired mask linked selected) linked = i.
Proof.
  intros Hsel Hlink sel. split; [by apply next_ready_spec|]. intros i Hi.
  apply cycle_reaches; [done..|]. unfold cycle_distance.
  pose proof (Nat.mod_upper_bound (i + 5 - computer_index selected linked) 5). lia.
Qed.

Lemma target_cycling_witness :
  ∃ k, (k ≤ 4)%nat ∧
    computer_index (cycle_targets k true 0xb (Some 2) (TargetBle 2)) (Some 2) = 4%nat.
Proof.
  refine (proj2 (target_cycling (TargetBle 2) true 0xb (Some 2) _ _) 4%nat _).
  - reflexivity.
  - intros h Hh. injection Hh as <-. split; discriminate.
  - split; [apply Nat.le_refl|]. split; [discriminate|reflexivity].
Defined.

(** ** The selection state *)

Inductive OutputStep : OutputTargetState → OutputTargetState → Prop :=
| step_select s t : OutputStep s (select_target s t).1
| step_availability s a : OutputStep s (set_availability s a)
| step_transition s : OutputStep s (begin_transition s).1.

(** The active target is the selected one, and there is one exactly when it is ready. *)
Record output_inv (s : OutputTargetState) : Prop := {
  oi_selected : target_ok (ots_selected s);
  oi_active : ots_active s = if decide (ots_availability s = AvailReady)
                             then Some (ots_selected s) else None;
  oi_operation : u32_ok (ots_transition_operation_id s)
}.

Lemma output_step_inv s s' : output_inv s → OutputStep s s' → output_inv s'.
Proof.
  intros [Hs Ha Ho] Hstep. destruct Hstep as [s t|s a|s].
  - unfold select_target. destruct (validate_target t) as [t'|e] eqn:E; cbn [fst]; [|done].
    assert (t' = t) as ->.
    { destruct t as [|h]; cbn in E; [by injection E as <-|]. case_match; [by injection E as <-|done]. }
    split; cbn; [exact E|by rewrite decide_False|apply as_u32_ok].
  - split; cbn; [done| |done]. destruct a; by case_decide.
  - split; cbn; [done|by rewrite decide_False|apply as_u32_ok].
Qed.


