(* ===== verification/Control.v ===== *)
(** * Small controllers ([target_control.rs], [remote_wakeup.rs], [routing.rs], [mirror/control.rs], [mirror/candidate.rs])

    The debounced button and what its presses ask for, the recovery button at boot, remote wake-up, the
    router over host slots, the single control request under way to the device chip, and the registry
    of devices that can be mirrored. *)

From S2P Require Import Prelude Message OutputTarget.

(** ** The button *)

Inductive ButtonIntent := NextConnectedTarget | EnterPairingMode | ClearActiveHostBond.
Inductive DebouncedButtonEvent := ButtonPressed | ButtonReleased.
#[export] Instance DebouncedButtonEvent_eq_dec : EqDecision DebouncedButtonEvent.
Proof. solve_decision. Defined.

Record DebouncedButton := mkDebouncedButton {
  db_debounce_ms : Z;
  db_stable_pressed : bool;
  db_candidate_pressed : bool;
  db_candidate_since_ms : Z;
  db_press_reported : bool
}.
#[export] Instance eta_DebouncedButton : Eta DebouncedButton :=
  λ r, mkDebouncedButton (db_debounce_ms r) (db_stable_pressed r) (db_candidate_pressed r) (db_candidate_since_ms r)
         (db_press_reported r).

Definition DebouncedButton_new (debounce_ms : Z) : DebouncedButton := mkDebouncedButton debounce_ms false false 0 false.

Definition button_update (self : DebouncedButton) (pressed : bool) (now_ms : Z)
  : DebouncedButton * option DebouncedButtonEvent :=
  if negb (Bool.eqb pressed (db_candidate_pressed self)) then
    (self <| db_candidate_pressed := pressed |> <| db_candidate_since_ms := now_ms |>, None)
  else if Bool.eqb pressed (db_stable_pressed self) then (self, None)
  else if saturating_sub now_ms (db_candidate_since_ms self) <? db_debounce_ms self then (self, None)
  else
    let self := self <| db_stable_pressed := pressed |> in
    if pressed then
      if db_press_reported self then (self, None)
      else (self <| db_press_reported := true |>, Some ButtonPressed)
    else (self <| db_press_reported := false |>, Some ButtonReleased).

Record TargetSwitchControl := mkTargetSwitchControl {
  tsc_button : DebouncedButton;
  tsc_long_press_ms : Z;
  tsc_very_long_press_ms : Z;
  tsc_pressed_since_ms : option Z
}.

Definition DEFAULT_DEBOUNCE_MS : Z := 30.
Definition DEFAULT_LONG_PRESS_MS : Z := 3000.
Definition DEFAULT_VERY_LONG_PRESS_MS : Z := 8000.

Definition TargetSwitchControl_with_timings (debounce_ms long_press_ms very_long_press_ms : Z) : TargetSwitchControl :=
  mkTargetSwitchControl (DebouncedButton_new debounce_ms) long_press_ms very_long_press_ms None.
Definition TargetSwitchControl_with_debounce_ms (debounce_ms : Z) : TargetSwitchControl :=
  TargetSwitchControl_with_timings debounce_ms DEFAULT_LONG_PRESS_MS DEFAULT_VERY_LONG_PRESS_MS.
Definition TargetSwitchControl_new : TargetSwitchControl :=
  TargetSwitchControl_with_timings DEFAULT_DEBOUNCE_MS DEFAULT_LONG_PRESS_MS DEFAULT_VERY_LONG_PRESS_MS.

Definition press_intent (self : TargetSwitchControl) (held_ms : Z) : ButtonIntent :=
  if tsc_very_long_press_ms self <=? held_ms then ClearActiveHostBond
  else if tsc_long_press_ms self <=? held_ms then EnterPairingMode
  else NextConnectedTarget.

Definition target_button_sample (self : TargetSwitchControl) (pressed : bool) (now_ms : Z)
  : TargetSwitchControl * option ButtonIntent :=
  let (button, event) := button_update (tsc_button self) pressed now_ms in
  let with_since since := mkTargetSwitchControl button (tsc_long_press_ms self) (tsc_very_long_press_ms self) since in
  match event with
  | Some ButtonPressed => (with_since (Some now_ms), None)
  | Some ButtonReleased =>
      match tsc_pressed_since_ms self with
      | None => (with_since None, None)
      | Some since => (with_since None, Some (press_intent self (saturating_sub now_ms since)))
      end
  | None => (with_since (tsc_pressed_since_ms self), None)
  end.

Inductive BootRecoveryAction := BootNormal | BootSuppress | BootFactoryReset.
#[export] Instance BootRecoveryAction_eq_dec : EqDecision BootRecoveryAction.
Proof. solve_decision. Defined.

Record BootRecoveryControl := mkBootRecovery { brc_arm_until_ms : Z; brc_pressed_since_ms : option Z; brc_hold_ms : Z }.

Definition BootRecoveryControl_new (now_ms arm_window_ms hold_ms : Z) : BootRecoveryControl :=
  mkBootRecovery (u64_saturating_add now_ms arm_window_ms) None hold_ms.

Definition boot_sample (self : BootRecoveryControl) (pressed : bool) (now_ms : Z) : BootRecoveryControl * BootRecoveryAction :=
  match brc_pressed_since_ms self with
  | Some since =>
      if pressed then (self, BootSuppress)
      else (mkBootRecovery (brc_arm_until_ms self) None (brc_hold_ms self),
            if brc_hold_ms self <=? saturating_sub now_ms since then BootFactoryReset else BootSuppress)
  | None =>
      if pressed && (now_ms <=? brc_arm_until_ms self)
      then (mkBootRecovery (brc_arm_until_ms self) (Some now_ms) (brc_hold_ms self), BootSuppress)
      else (self, BootNormal)
  end.

(** ** Remote wake-up *)

Definition REMOTE_WAKEUP_SIGNAL_MS : Z := 10.

Inductive RemoteWakeupAction := AssertSignal | ClearSignal.
#[export] Instance RemoteWakeupAction_eq_dec : EqDecision RemoteWakeupAction.
Proof. solve_decision. Defined.

Record RemoteWakeupController := mkRemoteWakeup { rwc_signal_started_ms : option Z; rwc_attempted_in_suspend : bool }.

Definition RemoteWakeupController_new : RemoteWakeupController := mkRemoteWakeup None false.

Definition on_activity (self : RemoteWakeupController) (now_ms : Z) (suspended host_enabled : bool)
  : RemoteWakeupController * option RemoteWakeupAction :=
  if negb suspended || negb host_enabled || rwc_attempted_in_suspend self || bool_decide (rwc_signal_started_ms self ≠ None)
  then (self, None)
  else (mkRemoteWakeup (Some now_ms) true, Some AssertSignal).

Definition wakeup_poll (self : RemoteWakeupController) (now_ms : Z) (suspended : bool)
  : RemoteWakeupController * option RemoteWakeupAction :=
  let due := match rwc_signal_started_ms self with
    | Some started => REMOTE_WAKEUP_SIGNAL_MS <=? saturating_sub now_ms started
    | None => false
    end in
  if due then (mkRemoteWakeup None (rwc_attempted_in_suspend self), Some ClearSignal)
  else if negb suspended && bool_decide (rwc_signal_started_ms self = None)
  then (mkRemoteWakeup (rwc_signal_started_ms self) false, None)
  else (self, None).

Definition signal_asserted (self : RemoteWakeupController) : bool := bool_decide (rwc_signal_started_ms self ≠ None).

(** ** Host slots *)

Inductive ActiveTargetError := CapacityZero | SlotOutOfRange | RouterHostNotFound.
#[export] Instance ActiveTargetError_eq_dec : EqDecision ActiveTargetError.
Proof. solve_decision. Defined.

(** [N] is the length of [hr_hosts]. *)
Record HostRouter := mkHostRouter { hr_active_index : nat; hr_hosts : list (option Z) }.

Definition HostRouter_new (n : nat) : HostRouter := mkHostRouter 0 (replicate n None).

Definition router_active (self : HostRouter) : option Z := nth (hr_active_index self) (hr_hosts self) None.
Definition router_active_slot (self : HostRouter) : option nat :=
  if decide (length (hr_hosts self) = 0)%nat then None else Some (hr_active_index self).

Definition router_host (self : HostRouter) (slot : nat) : Result ActiveTargetError (option Z) :=
  match hr_hosts self !! slot with None => Err SlotOutOfRange | Some host => Ok host end.

Definition router_put (self : HostRouter) (slot : nat) (host : option Z) : HostRouter * Result ActiveTargetError unit :=
  if decide (length (hr_hosts self) ≤ slot)%nat then (self, Err SlotOutOfRange)
  else (mkHostRouter (hr_active_index self) (<[slot := host]> (hr_hosts self)), Ok tt).
Definition router_set_host (self : HostRouter) (slot : nat) (host : Z) := router_put self slot (Some host).
Definition router_clear_host (self : HostRouter) (slot : nat) := router_put self slot None.

Definition set_active_slot (self : HostRouter) (slot : nat) : HostRouter * Result ActiveTargetError unit :=
  if decide (length (hr_hosts self) = 0)%nat then (self, Err CapacityZero)
  else if decide (length (hr_hosts self) ≤ slot)%nat then (self, Err SlotOutOfRange)
  else (mkHostRouter slot (hr_hosts self), Ok tt).

Definition slot_for_host (self : HostRouter) (host : Z) : option nat :=
  position (λ candidate, bool_decide (candidate = Some host)) (hr_hosts self).

Definition set_active_host (self : HostRouter) (host : Z) : HostRouter * Result ActiveTargetError nat :=
  if decide (length (hr_hosts self) = 0)%nat then (self, Err CapacityZero)
  else match slot_for_host self host with
       | None => (self, Err RouterHostNotFound)
       | Some slot => (mkHostRouter slot (hr_hosts self), Ok slot)
       end.

Definition next_slot (self : HostRouter) : HostRouter * Result ActiveTargetError nat :=
  let n := length (hr_hosts self) in
  if decide (n = 0)%nat then (self, Err CapacityZero)
  else let slot := (S (hr_active_index self) mod n)%nat in (mkHostRouter slot (hr_hosts self), Ok slot).

(** The loop over the offsets of [next_populated_slot]. *)
Fixpoint find_populated (self : HostRouter) (offsets : list nat) : option nat :=
  match offsets with
  | [] => None
  | offset :: offsets =>
      let slot := ((hr_active_index self + offset) mod length (hr_hosts self))%nat in
      if decide (nth slot (hr_hosts self) None = None) then find_populated self offsets else Some slot
  end.

Definition next_populated_slot (self : HostRouter) : HostRouter * Result ActiveTargetError (option nat) :=
  let n := length (hr_hosts self) in
  if decide (n = 0)%nat then (self, Err CapacityZero)
  else if forallb (λ host, bool_decide (host = None)) (hr_hosts self) then (self, Ok None)
  else match find_populated self (seq 1 n) with
       | Some slot => (mkHostRouter slot (hr_hosts self), Ok (Some slot))
       | None => (self, Ok None)
       end.

(** ** The control request under way *)

Definition MIRROR_CONTROL_TIMEOUT_MS : Z := 250.

Inductive MirrorControlForwarderError := ForwarderBusy | ForwarderInvalidMessage | StaleResponse.
#[export] Instance MirrorControlForwarderError_eq_dec : EqDecision MirrorControlForwarderError.
Proof. solve_decision. Defined.

Record PendingMirrorControl := mkPendingControl { pmc_request_id : Z; pmc_deadline_ms : Z }.
Record MirrorControlForwarder := mkForwarder { mcf_next_request_id : Z; mcf_pending : option PendingMirrorControl }.

Definition MirrorControlForwarder_new : MirrorControlForwarder := mkForwarder 1 None.

Definition next_nonzero (value : Z) : Z := if (value =? U32_MAX) || (value =? 0) then 1 else value + 1.

Definition forwarder_begin (self : MirrorControlForwarder) (setup_packet data : list Z) (now_ms : Z)
  : MirrorControlForwarder * Result MirrorControlForwarderError MirrorControlRequest :=
  match mcf_pending self with
  | Some _ => (self, Err ForwarderBusy)
  | None =>
      let request_id := mcf_next_request_id self in
      let next := next_nonzero (mcf_next_request_id self) in
      match MirrorControlRequest_new request_id setup_packet data with
      | Err _ => (mkForwarder next None, Err ForwarderInvalidMessage)
      | Ok request =>
          (mkForwarder next (Some (mkPendingControl request_id (u64_saturating_add now_ms MIRROR_CONTROL_TIMEOUT_MS))), Ok request)
      end
  end.

Definition forwarder_complete (self : MirrorControlForwarder) (response : MirrorControlResponse) (now_ms : Z)
  : MirrorControlForwarder * Result MirrorControlForwarderError MirrorControlResponse :=
  match mcf_pending self with
  | None => (self, Err StaleResponse)
  | Some pending =>
      if negb (pmc_request_id pending =? cres_request_id response) || (pmc_deadline_ms pending <=? now_ms)
      then (self, Err StaleResponse)
      else (mkForwarder (mcf_next_request_id self) None, Ok response)
  end.

Definition forwarder_expire (self : MirrorControlForwarder) (now_ms : Z)
  : MirrorControlForwarder * option MirrorControlResponse :=
  match mcf_pending self with
  | None => (self, None)
  | Some pending =>
      if pmc_deadline_ms pending <=? now_ms
      then (mkForwarder (mcf_next_request_id self) None,
            result_ok (MirrorControlResponse_new (pmc_request_id pending) ControlTimeout []))
      else (self, None)
  end.

Definition forwarder_cancel (self : MirrorControlForwarder) : MirrorControlForwarder * option Z :=
  (mkForwarder (mcf_next_request_id self) None, pmc_request_id <$> mcf_pending self).

(** ** Devices that can be mirrored *)

Record MirrorCandidateMetadata := mkCandidate {
  mcm_candidate : Z;
  mcm_stable_id : MirrorStableId;
  mcm_profile_hash : Z;
  mcm_synthetic : bool;
  mcm_source_device : option Z
}.

Inductive MirrorCandidateRegistryError := CandidateOutOfRange | AmbiguousIdentity.
#[export] Instance MirrorCandidateRegistryError_eq_dec : EqDecision MirrorCandidateRegistryError.
Proof. solve_decision. Defined.

(** The entries, as many as the capacity. *)
Definition MirrorCandidateRegistry : Type := list (option MirrorCandidateMetadata).
Definition MirrorCandidateRegistry_new (n : nat) : MirrorCandidateRegistry := replicate n None.

Definition candidate_put (self : MirrorCandidateRegistry) (candidate : Z) (entry : option MirrorCandidateMetadata)
  : MirrorCandidateRegistry * Result MirrorCandidateRegistryError unit :=
  if decide (length self ≤ Z.to_nat candidate)%nat then (self, Err CandidateOutOfRange)
  else (<[Z.to_nat candidate := entry]> self, Ok tt).
Definition candidate_register (self : MirrorCandidateRegistry) (metadata : MirrorCandidateMetadata) :=
  candidate_put self (mcm_candidate metadata) (Some metadata).
Definition candidate_clear (self : MirrorCandidateRegistry) (candidate : Z) := candidate_put self candidate None.

Definition clear_source (self : MirrorCandidateRegistry) (device_id : Z) : MirrorCandidateRegistry :=
  map (λ entry,
    match entry with
    | Some metadata => if decide (mcm_source_device metadata = Some device_id) then None else entry
    | None => None
    end) self.

Definition candidate_get (self : MirrorCandidateRegistry) (candidate : Z) : option MirrorCandidateMetadata :=
  nth (Z.to_nat candidate) self None.

(** The loop of [resolve] over the entries left. *)
Fixpoint resolve_loop (entries : MirrorCandidateRegistry) (stable_id : MirrorStableId) (resolved : option Z)
  : Result MirrorCandidateRegistryError (option Z) :=
  match entries with
  | [] => Ok resolved
  | None :: entries => resolve_loop entries stable_id resolved
  | Some metadata :: entries =>
      if decide (mcm_stable_id metadata ≠ stable_id) then resolve_loop entries stable_id resolved
      else match resolved with
           | Some _ => Err AmbiguousIdentity
           | None => resolve_loop entries stable_id (Some (mcm_candidate metadata))
           end
  end.

Definition candidate_resolve (self : MirrorCandidateRegistry) (stable_id : MirrorStableId)
  : Result MirrorCandidateRegistryError (option Z) := resolve_loop self stable_id None.

(** ** One control request at a time *)

Inductive ForwarderOp :=
  | FwdBegin (setup data : list Z) (now_ms : Z)
  | FwdComplete (response : MirrorControlResponse) (now_ms : Z)
  | FwdExpire (now_ms : Z)
  | FwdCancel.

(** The forwarder, and the identifier and start of the request that has no answer yet. *)
Definition forwarder_step (st : MirrorControlForwarder * option (Z * Z)) (op : ForwarderOp)
  : MirrorControlForwarder * option (Z * Z) :=
  let (f, opened) := st in
  match op with
  | FwdBegin setup data now =>
      match forwarder_begin f setup data now with
      | (f', Ok request) => (f', Some (creq_request_id request, now))
      | (f', Err _) => (f', opened)
      end
  | FwdComplete response now =>
      match forwarder_complete f response now with (f', Ok _) => (f', None) | (f', Err _) => (f', opened) end
  | FwdExpire now => match forwarder_expire f now with (f', Some _) => (f', None) | (f', None) => (f', opened) end
  | FwdCancel => match forwarder_cancel f with (f', Some _) => (f', None) | (f', None) => (f', opened) end
  end.

Definition control_deadline (started : Z) : Z := u64_saturating_add started MIRROR_CONTROL_TIMEOUT_MS.

Definition forwarder_inv (st : MirrorControlForwarder * option (Z * Z)) : Prop :=
  1 ≤ mcf_next_request_id st.1 ≤ U32_MAX ∧
  match st.2 with
  | None => mcf_pending st.1 = None
  | Some (id, t) => mcf_pending st.1 = Some (mkPendingControl id (control_deadline t)) ∧ 1 ≤ id ≤ U32_MAX ∧
      id ≠ mcf_next_request_id st.1
  end.

Lemma next_nonzero_ok value : 1 ≤ value ≤ U32_MAX → 1 ≤ next_nonzero value ≤ U32_MAX ∧ next_nonzero value ≠ value.
Proof.
  intros H. unfold next_nonzero, U32_MAX in *. destruct (_ || _) eqn:Hc; [|apply orb_false_iff in Hc as [Hc%Z.eqb_neq _]; lia].
  apply orb_true_iff in Hc as [Hc%Z.eqb_eq|Hc%Z.eqb_eq]; lia.
Qed.

Lemma control_request_id id setup data request : MirrorControlRequest_new id setup data = Ok request →
  creq_request_id request = id.
Proof. unfold MirrorControlRequest_new. case_decide; [done|]. by intros [= <-]. Qed.

Lemma forwarder_step_inv st op : forwarder_inv st → forwarder_inv (forwarder_step st op).
Proof.
  destruct st as [[next pending] opened]. intros [Hn Hp]. cbn [fst snd mcf_next_request_id mcf_pending] in *.
  destruct (next_nonzero_ok next Hn) as [Hn' Hne].
  destruct op as [setup data now|response now|now|]; cbn [forwarder_step].
  - unfold forwarder_begin. cbn [mcf_pending mcf_next_request_id]. destruct opened as [[id t]|].
    + destruct Hp as [-> Hid]. split; [done|]. done.
    + subst pending. destruct (MirrorControlRequest_new next setup data) as [request|e] eqn:Hr; [|done].
      apply control_request_id in Hr. rewrite Hr. split; [done|]. cbn. done.
  - unfold forwarder_complete. cbn [mcf_pending mcf_next_request_id]. destruct opened as [[id t]|].
    + destruct Hp as [-> Hid]. destruct (_ || _); [by split|]. by split.
    + subst pending. by split.
  - unfold forwarder_expire. cbn [mcf_pending mcf_next_request_id]. destruct opened as [[id t]|].
    + destruct Hp as [-> Hid]. cbn [pmc_deadline_ms]. destruct (_ <=? _); [|by split]. cbn. by split.
    + subst pending. by split.
  - unfold forwarder_cancel. cbn [mcf_pending mcf_next_request_id]. destruct opened as [[id t]|].
    + destruct Hp as [-> Hid]. by split.
    + subst pending. by split.
Qed.


(** ** Candidates and slots *)

Definition matching (stable_id : MirrorStableId) (entries : MirrorCandidateRegistry) : list Z :=
  omap (λ entry, match entry with
    | Some m => if decide (mcm_stable_id m = stable_id) then Some (mcm_candidate m) else None
    | None => None
    end) entries.

(** A stable identity resolves to the one candidate that has it, to none, or is refused as ambiguous. *)
Theorem resolve_unique self stable_id : candidate_resolve self stable_id =
  match matching stable_id self with
  | [] => Ok None
  | [candidate] => Ok (Some candidate)
  | _ => Err AmbiguousIdentity
  end.
Proof.
  unfold candidate_resolve.
  assert (∀ entries resolved, resolve_loop entries stable_id resolved =
    match resolved, matching stable_id entries with
    | None, [] => Ok None
    | None, [c] => Ok (Some c)
    | Some c, [] => Ok (Some c)
    | _, _ => Err AmbiguousIdentity
    end) as H; [|exact (H self None)].
  induction entries as [|[m|] entries IH]; intros resolved; cbn [resolve_loop].
  - by destruct resolved.
  - unfold matching. cbn [omap list_omap]. fold (matching stable_id entries).
    destruct (decide (mcm_stable_id m = stable_id)) as [He|He].
    + rewrite decide_False by (intros H; by apply H). destruct resolved as [c|]; [done|]. rewrite IH.
      by destruct (matching stable_id entries) as [|? []].
    + rewrite decide_True by done. apply IH.
  - apply IH.
Qed.

(** The next populated slot is the nearest one after the active slot, cyclically, the active one last. *)
Theorem nearest_populated_slot self : (hr_active_index self < length (hr_hosts self))%nat →
  match next_populated_slot self with
  | (self', Ok (Some slot)) => self' = mkHostRouter slot (hr_hosts self) ∧
      ∃ offset, (1 ≤ offset ≤ length (hr_hosts self))%nat ∧
        slot = ((hr_active_index self + offset) mod length (hr_hosts self))%nat ∧ nth slot (hr_hosts self) None ≠ None ∧
        ∀ o, (1 ≤ o < offset)%nat →
          nth ((hr_active_index self + o) mod length (hr_hosts self))%nat (hr_hosts self) None = None
  | (self', Ok None) => self' = self ∧ ∀ slot, nth slot (hr_hosts self) None = None
  | (_, Err _) => False
  end.
Proof.
  intros Hi. unfold next_populated_slot. rewrite decide_False by lia.
  set (n := length (hr_hosts self)) in *.
  assert (∀ k lo, match find_populated self (seq lo k) with
    | Some slot => ∃ offset, (lo ≤ offset < lo + k)%nat ∧ slot = ((hr_active_index self + offset) mod n)%nat ∧
        nth slot (hr_hosts self) None ≠ None ∧
        ∀ o, (lo ≤ o < offset)%nat → nth ((hr_active_index self + o) mod n)%nat (hr_hosts self) None = None
    | None => ∀ o, (lo ≤ o < lo + k)%nat → nth ((hr_active_index self + o) mod n)%nat (hr_hosts self) None = None
    end) as Hfind.
  { induction k as [|k IH]; intros lo; cbn [seq find_populated]; [intros o Ho; lia|]. fold n.
    case_decide as Hc; [|exists lo; split; [lia|]; split; [done|]; split; [done|intros o Ho; lia]].
    specialize (IH (S lo)). destruct (find_populated self (seq (S lo) k)) as [slot|].
    - destruct IH as (offset & Ho & Hs & Hp & Hno). exists offset. split; [lia|]. split; [done|]. split; [done|].
      intros o Hlo. destruct (decide (o = lo)) as [->|Hne]; [done|]. apply Hno. lia.
    - intros o Ho. destruct (decide (o = lo)) as [->|Hne]; [done|]. apply IH. lia. }
  destruct (forallb _ (hr_hosts self)) eqn:Hall.
  - split; [done|]. intros slot. rewrite forallb_forall in Hall.
    destruct (decide (slot < n)%nat) as [Hs|Hs]; [|apply nth_overflow; lia].
    specialize (Hall (nth slot (hr_hosts self) None) (nth_In _ _ Hs)). by apply bool_decide_eq_true in Hall.
  - specialize (Hfind n 1%nat). destruct (find_populated self (seq 1 n)) as [slot|].
    + split; [done|]. destruct Hfind as (offset & Ho & Hrest). exists offset. split; [lia|done].
    + exfalso. enough (forallb (λ host, bool_decide (host = None)) (hr_hosts self) = true) by congruence.
      apply forallb_forall. intros host Hh. apply (In_nth _ _ None) in Hh as (slot & Hs & <-). apply bool_decide_eq_true.
      fold n in Hs.
      assert (∃ o, (1 ≤ o < 1 + n)%nat ∧ ((hr_active_index self + o) mod n = slot)%nat) as (o & Ho & Hslot).
      { destruct (decide (slot ≤ hr_active_index self)%nat).
        - exists (slot + n - hr_active_index self)%nat. split; [lia|].
          replace (hr_active_index self + (slot + n - hr_active_index self))%nat with (slot + 1 * n)%nat by lia.
          rewrite Nat.Div0.mod_add. by apply Nat.mod_small.
        - exists (slot - hr_active_index self)%nat. split; [lia|].
          replace (hr_active_index self + (slot - hr_active_index self))%nat with slot by lia. by apply Nat.mod_small. }
      rewrite <- Hslot. by apply Hfind.
Qed.

(** ** Button presses *)

Definition control_inv (c : TargetSwitchControl) : Prop :=
  db_press_reported (tsc_button c) = db_stable_pressed (tsc_button c) ∧
  (tsc_pressed_since_ms c ≠ None ↔ db_stable_pressed (tsc_button c) = true).

Definition run_samples (c : TargetSwitchControl) (samples : list (bool * Z)) : TargetSwitchControl :=
  fold_left (λ c s, (target_button_sample c s.1 s.2).1) samples c.

(** One sample: what changes, and when a press or a release counts. *)
Lemma sample_step c pressed now : control_inv c →
  let b := tsc_button c in
  let (c', intent) := target_button_sample c pressed now in
  control_inv c' ∧
  if decide (pressed = db_candidate_pressed b ∧ pressed ≠ db_stable_pressed b ∧
             db_debounce_ms b ≤ saturating_sub now (db_candidate_since_ms b))
  then if pressed then tsc_pressed_since_ms c' = Some now ∧ intent = None
       else ∃ since, tsc_pressed_since_ms c = Some since ∧ tsc_pressed_since_ms c' = None ∧
         intent = Some (press_intent c (saturating_sub now since))
  else tsc_pressed_since_ms c' = tsc_pressed_since_ms c ∧ intent = None.
Proof.
  destruct c as [[d sp cp cs pr] l vl since]. unfold control_inv. cbn [tsc_button tsc_pressed_since_ms db_press_reported db_stable_pressed].
  intros [-> Hs]. unfold target_button_sample, button_update.
  cbn [tsc_button db_candidate_pressed db_stable_pressed db_candidate_since_ms db_debounce_ms db_press_reported].
  cbv zeta. destruct (decide (pressed = cp ∧ pressed ≠ sp ∧ d ≤ saturating_sub now cs)) as [(-> & Hne & Hd)|Hc].
  - rewrite (proj2 (Z.ltb_ge _ _)) by done. destruct cp, sp; try done; cbn.
    destruct since as [t|]; cbn; [|by destruct (proj2 Hs eq_refl)]. split; [done|]. by exists t.
  - destruct (Z.ltb_spec (saturating_sub now cs) d) as [Hd|Hd]; destruct pressed, cp, sp; cbn; try done;
      destruct Hc; by split_and!.
Qed.

(** Every press that lasts through the debounce time asks for exactly one thing when it is released as
    long, which one by the time it was held: no release is ignored and none counts twice. *)
Theorem every_press_counts debounce long very_long samples pressed now :
  let c := run_samples (TargetSwitchControl_with_timings debounce long very_long) samples in
  let b := tsc_button c in
  (target_button_sample c pressed now).2 =
    match tsc_pressed_since_ms c with
    | Some since =>
        if negb pressed && negb (db_candidate_pressed b) && (debounce <=? saturating_sub now (db_candidate_since_ms b))
        then Some (press_intent c (saturating_sub now since)) else None
    | None => None
    end ∧
  ((target_button_sample c pressed now).2 ≠ None → tsc_pressed_since_ms (target_button_sample c pressed now).1 = None).
Proof.
  intros c b.
  assert (control_inv c ∧ db_debounce_ms (tsc_button c) = debounce) as [Hi Hdb].
  { subst b. unfold c, run_samples. clear c. assert (∀ c, control_inv c ∧ db_debounce_ms (tsc_button c) = debounce →
      control_inv (fold_left (λ c s, (target_button_sample c s.1 s.2).1) samples c) ∧
      db_debounce_ms (tsc_button (fold_left (λ c s, (target_button_sample c s.1 s.2).1) samples c)) = debounce) as H.
    { induction samples as [|[p t] samples IH]; intros c Hc; cbn [fold_left]; [done|]. apply IH. destruct Hc as [Hc Hd].
      pose proof (sample_step c p t Hc) as Hstep. cbn [fst snd].
      assert (db_debounce_ms (tsc_button (target_button_sample c p t).1) = db_debounce_ms (tsc_button c)) as Hsame.
      { unfold target_button_sample, button_update. repeat case_match; simplify_eq; done. }
      destruct (target_button_sample c p t) as [c' i]. cbn [fst] in *. split; [apply Hstep|congruence]. }
    apply H. split; [|done]. split; [done|]. cbn. done. }
  pose proof (sample_step c pressed now Hi) as Hstep. destruct (target_button_sample c pressed now) as [c' intent].
  cbn [fst snd]. fold b in Hstep. destruct Hstep as [Hi' Hstep]. rewrite <- Hdb. fold b.
  destruct Hi as [_ Hst]. fold b in Hst.
  case_decide as Hc.
  - destruct Hc as (H1 & H2 & H3). destruct pressed.
    + destruct Hstep as [_ ->]. split; [|done]. by destruct (tsc_pressed_since_ms c).
    + destruct Hstep as (since & -> & -> & ->). split; [|done]. rewrite <- H1. cbn [negb andb]. by rewrite (proj2 (Z.leb_le _ _)).
  - destruct Hstep as [Hsince ->]. split; [|done]. destruct (tsc_pressed_since_ms c) as [since|] eqn:Hs; [|done].
    destruct (negb pressed && _ && _) eqn:Hall; [|done]. exfalso. apply Hc.
    apply andb_true_iff in Hall as [[Hp%negb_true_iff Hcand%negb_true_iff]%andb_true_iff Hle%Z.leb_le].
    assert (db_stable_pressed b = true) as Hstable by (by apply Hst). split; [congruence|]. split; [congruence|done].
Qed.

(** ** Wake-up *)

(** The signal is asserted at most once until the bus has been seen awake with the signal cleared, and
    a signal that is on is cleared by the first poll ten milliseconds later. *)
Theorem wakeup_once self now suspended enabled :
  match on_activity self now suspended enabled with
  | (self', Some action) => action = AssertSignal ∧ suspended = true ∧ enabled = true ∧
      signal_asserted self = false ∧ signal_asserted self' = true ∧
      (∀ now' s e, on_activity self' now' s e = (self', None)) ∧
      (∀ now', now + 10 ≤ now' → 0 ≤ now → wakeup_poll self' now' suspended = (mkRemoteWakeup None true, Some ClearSignal)) ∧
      (∀ now' s e, on_activity (mkRemoteWakeup None true) now' s e = (mkRemoteWakeup None true, None)) ∧
      (∀ now', (wakeup_poll (mkRemoteWakeup None true) now' true).1 = mkRemoteWakeup None true)
  | (self', None) => self' = self
  end.
Proof.
  unfold on_activity. destruct suspended, enabled, self as [[t|] []]; cbn [negb orb rwc_attempted_in_suspend rwc_signal_started_ms];
    try (rewrite bool_decide_true by done; done); try done.
  rewrite bool_decide_false by (intros H; by apply H). cbn [orb].
  split; [done|]. split; [done|]. split; [done|]. split; [done|]. split; [done|].
  assert (∀ s e, negb s || negb e || true = true) as Ht by (by intros [] []).
  split; [intros now' s e; by rewrite Ht|]. split; [|split; [intros now' s e; by rewrite Ht|done]].
  intros now' H1 H2. unfold wakeup_poll. cbn [rwc_signal_started_ms]. unfold saturating_sub, REMOTE_WAKEUP_SIGNAL_MS.
  by rewrite (proj2 (Z.leb_le _ _)) by lia.
Qed.
