(* ===== verification/StorageImage.v ===== *)
(** * The storage image ([src/src/storage.rs], codec)

    What the bridge keeps across restarts, the bonded hosts, the selected target, the global
    settings and the input profiles, and its 1024-byte image.  A function that writes into a
    sub-slice takes the sub-slice and gives it back; [in_slice] is the call. *)

From S2P Require Import Prelude Checksum Input Settings Movement InputProfile OutputTarget.

(** ** Data *)

Definition MAX_HOST_NAME_LEN : nat := 32.
Definition STORED_HOSTS_MAX : nat := HOST_SLOT_COUNT.
Definition STORAGE_MAGIC : list Z := [69; 51; 50; 66]. (* E32B *)
Definition STORAGE_SCHEMA_VERSION : Z := 1.
Definition STORAGE_IMAGE_LEN : nat := 1024.
Definition STORAGE_HEADER_LEN : nat := 16.
Definition STORAGE_BODY_PREFIX_LEN : nat := 352.
Definition STORED_INPUT_PROFILE_LEN : nat := 36.
Definition STORED_HOST_RECORD_LEN : nat := 88.
Definition STORED_BOND_LEN : nat := 48.

Inductive StoredAddressKind := AddressPublic | AddressRandom.
#[export] Instance StoredAddressKind_eq_dec : EqDecision StoredAddressKind.
Proof. solve_decision. Defined.
Definition StoredAddressKind_code (k : StoredAddressKind) : Z :=
  match k with AddressPublic => 0 | AddressRandom => 1 end.

Inductive StoredSecurityLevel := NoEncryption | Encrypted | EncryptedAuthenticated.
#[export] Instance StoredSecurityLevel_eq_dec : EqDecision StoredSecurityLevel.
Proof. solve_decision. Defined.
Definition StoredSecurityLevel_code (l : StoredSecurityLevel) : Z :=
  match l with NoEncryption => 0 | Encrypted => 1 | EncryptedAuthenticated => 2 end.

Record StoredBond := mkStoredBond {
  sb_peer_address : list Z;
  sb_peer_address_kind : StoredAddressKind;
  sb_peer_irk : option (list Z);
  sb_ltk : list Z;
  sb_is_bonded : bool;
  sb_security_level : StoredSecurityLevel
}.
#[export] Instance StoredBond_eq_dec : EqDecision StoredBond.
Proof. solve_decision. Defined.

Record FixedName := mkFixedName { fn_len : Z; fn_bytes : list Z }.
#[export] Instance FixedName_eq_dec : EqDecision FixedName.
Proof. solve_decision. Defined.

Definition FixedName_empty : FixedName := mkFixedName 0 (zeros MAX_HOST_NAME_LEN).
Definition FixedName_from_ascii (name : list Z) : option FixedName :=
  if bool_decide (length name > MAX_HOST_NAME_LEN)%nat || negb (forallb (λ b, b <? 128) name) then None
  else Some (mkFixedName (as_u8 (Z.of_nat (length name))) (blit 0 name (zeros MAX_HOST_NAME_LEN))).
Definition FixedName_as_bytes (self : FixedName) : list Z := take (Z.to_nat (fn_len self)) (fn_bytes self).

Record StoredHostProfile := mkStoredHost {
  sh_host_id : Z;
  sh_bonded : bool;
  sh_keyboard_cccd_enabled : bool;
  sh_mouse_cccd_enabled : bool;
  sh_consumer_cccd_enabled : bool;
  sh_keyboard_output_cccd_enabled : bool;
  sh_name : FixedName;
  sh_bond : option StoredBond
}.
#[export] Instance StoredHostProfile_eq_dec : EqDecision StoredHostProfile.
Proof. solve_decision. Defined.

Record StorageState := mkStorageState {
  ss_generation : Z;
  ss_last_active_host : option Z;
  ss_global_settings : GlobalSettings;
  ss_input_profiles : InputProfileRegistry;
  ss_presentation : StoredPresentationConfig;
  ss_hosts : list StoredHostProfile
}.
#[export] Instance eta_StorageState : Eta StorageState :=
  λ r, mkStorageState (ss_generation r) (ss_last_active_host r) (ss_global_settings r)
         (ss_input_profiles r) (ss_presentation r) (ss_hosts r).
#[export] Instance StorageState_eq_dec : EqDecision StorageState.
Proof. solve_decision. Defined.

Definition StorageState_new (generation : Z) : StorageState :=
  mkStorageState generation None GlobalSettings_DEFAULT InputProfileRegistry_new
    StoredPresentationConfig_DEFAULT [].

Inductive StorageError :=
| StorageHostCapacity | StorageInvalidHostId | StorageInvalidOutputTarget | StorageDuplicateHostId
| StorageActiveHostMissing | StorageImageTooShort | StorageInvalidMagic | StorageUnsupportedVersion
| StorageInvalidLength | StorageCrcMismatch | StorageHostCountTooLarge | StorageInvalidName
| StorageFlashLayout | StorageFlashRead | StorageFlashErase | StorageFlashWrite | StorageFlashVerify
| StorageUnavailable.
#[export] Instance StorageError_eq_dec : EqDecision StorageError.
Proof. solve_decision. Defined.

Definition push_host (self : StorageState) (host : StoredHostProfile)
  : StorageState * Result StorageError unit :=
  match vec_push STORED_HOSTS_MAX host (ss_hosts self) with
  | Some hosts => (self <| ss_hosts := hosts |>, Ok tt)
  | None => (self, Err StorageHostCapacity)
  end.

(** The loop of [validate] over the hosts, with its [seen] array. *)
Fixpoint validate_hosts (hosts : list StoredHostProfile) (seen : list bool) : Result StorageError unit :=
  match hosts with
  | [] => Ok tt
  | host :: hosts =>
      if bool_decide (sh_host_id host = 0) then Err StorageInvalidHostId
      else
        let index := Z.to_nat (sh_host_id host - 1) in
        match seen !! index with
        | None => Err StorageInvalidHostId
        | Some true => Err StorageDuplicateHostId
        | Some false => validate_hosts hosts (<[index := true]> seen)
        end
  end.

Definition validate_state (self : StorageState) : Result StorageError unit :=
  let? _ := validate_hosts (ss_hosts self) (replicate STORED_HOSTS_MAX false) in
  match ss_last_active_host self with
  | Some active =>
      if existsb (λ host, bool_decide (sh_host_id host = active)) (ss_hosts self) then Ok tt
      else Err StorageActiveHostMissing
  | None => Ok tt
  end.

(** ** Bytes *)

Definition in_slice (lo hi : nat) (f : list Z → list Z) (image : list Z) : list Z :=
  blit lo (f (slice lo hi image)) image.

Definition bool_byte (value : bool) : Z := if value then 1 else 0.

Definition u64_to_le_bytes (x : Z) : list Z :=
  u32_to_le_bytes (x mod 2 ^ 32) ++ u32_to_le_bytes (x / 2 ^ 32).
Definition read_u64 (bytes : list Z) : Z :=
  read_u32 (slice 0 4 bytes) + 2 ^ 32 * read_u32 (slice 4 8 bytes).

Definition storage_body_len (host_count : nat) : nat :=
  (STORAGE_BODY_PREFIX_LEN + host_count * STORED_HOST_RECORD_LEN)%nat.

Definition body_len_is_valid (body_len : nat) : bool :=
  bool_decide (STORAGE_BODY_PREFIX_LEN ≤ body_len)%nat &&
  bool_decide (body_len ≤ storage_body_len STORED_HOSTS_MAX)%nat &&
  bool_decide (STORAGE_HEADER_LEN + body_len ≤ STORAGE_IMAGE_LEN)%nat.

(** One round of the loop: the bytes of the CRC field are skipped. *)
Definition header_crc_byte (crc : Z) (indexed : nat * Z) : Z :=
  let (index, byte) := indexed in
  if decide (12 ≤ index < 16)%nat then crc else crc32_byte crc byte.

Definition crc32_without_header_crc (image : list Z) : Z :=
  Z.lxor (fold_left header_crc_byte (combine (seq 0 (length image)) image) 0xffffffff) 0xffffffff.

(** ** Fields *)

Definition encode_bond (bond : option StoredBond) (out : list Z) : list Z :=
  let out := zeros (length out) in
  match bond with
  | None => out
  | Some bond =>
      let out := <[0%nat := 1]> out in
      let out := blit 1 (sb_peer_address bond) out in
      let out := <[7%nat := bool_byte (is_some (sb_peer_irk bond))]> out in
      let out := match sb_peer_irk bond with Some irk => blit 8 irk out | None => out end in
      let out := blit 24 (sb_ltk bond) out in
      let out := <[40%nat := bool_byte (sb_is_bonded bond)]> out in
      let out := <[41%nat := StoredSecurityLevel_code (sb_security_level bond)]> out in
      <[42%nat := StoredAddressKind_code (sb_peer_address_kind bond)]> out
  end.

Definition decode_bond (record : list Z) : Result StorageError (option StoredBond) :=
  if bool_decide (default 0 (head record) = 0) then Ok None
  else
    let? security_level := match byte_at record 41 with
      | 0 => Ok NoEncryption | 1 => Ok Encrypted | 2 => Ok EncryptedAuthenticated
      | _ => Err StorageInvalidLength
      end in
    let? peer_address_kind := match byte_at record 42 with
      | 0 => Ok AddressPublic | 1 => Ok AddressRandom | _ => Err StorageInvalidLength
      end in
    let peer_address := slice 1 7 record in
    let peer_irk := if bool_decide (byte_at record 7 = 0) then None else Some (slice 8 24 record) in
    let ltk := slice 24 40 record in
    Ok (Some (mkStoredBond peer_address peer_address_kind peer_irk ltk
                (negb (byte_at record 40 =? 0)) security_level)).

Definition encode_host_record (host : StoredHostProfile) (out : list Z) : list Z :=
  let out := <[0%nat := sh_host_id host]> out in
  let out := <[1%nat := bool_byte (sh_bonded host)]> out in
  let out := <[2%nat := bool_byte (sh_keyboard_cccd_enabled host)]> out in
  let out := <[3%nat := bool_byte (sh_mouse_cccd_enabled host)]> out in
  let out := <[4%nat := bool_byte (sh_consumer_cccd_enabled host)]> out in
  let out := <[5%nat := bool_byte (sh_keyboard_output_cccd_enabled host)]> out in
  let out := <[6%nat := fn_len (sh_name host)]> out in
  let out := <[7%nat := 0]> out in
  let out := blit 8 (fn_bytes (sh_name host)) out in
  in_slice 40 (40 + STORED_BOND_LEN) (encode_bond (sh_bond host)) out.

Definition decode_host_record (record : list Z) : Result StorageError StoredHostProfile :=
  let name_len := byte_at record 6 in
  if decide (Z.of_nat MAX_HOST_NAME_LEN < name_len) then Err StorageInvalidName
  else
    let name := mkFixedName name_len (slice 8 (8 + MAX_HOST_NAME_LEN) record) in
    let? bond := decode_bond (slice 40 (40 + STORED_BOND_LEN) record) in
    Ok (mkStoredHost (byte_at record 0) (negb (byte_at record 1 =? 0)) (negb (byte_at record 2 =? 0))
          (negb (byte_at record 3 =? 0)) (negb (byte_at record 4 =? 0)) (negb (byte_at record 5 =? 0))
          name bond).

Definition encode_global_settings (settings : GlobalSettings) (out : list Z) : list Z :=
  let out := zeros (length out) in
  let out := <[0%nat := gs_boot_target settings]> out in
  let out := <[1%nat := bool_byte (gs_restore_last_target settings)]> out in
  let out := <[2%nat := bool_byte (gs_auto_reconnect settings)]> out in
  let out := blit 3 (u16_to_le_bytes (gs_switch_release_delay_ms settings)) out in
  let out := <[5%nat := gs_button_short_action settings]> out in
  let out := <[6%nat := gs_button_long_action settings]> out in
  let out := <[7%nat := gs_button_very_long_action settings]> out in
  <[8%nat := gs_log_level settings]> out.

Definition decode_global_settings (bytes : list Z) : Result StorageError GlobalSettings :=
  let settings := mkGlobalSettings (byte_at bytes 0) (negb (byte_at bytes 1 =? 0))
    (negb (byte_at bytes 2 =? 0)) (read_u16 (slice 3 5 bytes)) (byte_at bytes 5) (byte_at bytes 6)
    (byte_at bytes 7) (byte_at bytes 8) in
  if decide (gs_boot_target settings > 4 ∨ gs_switch_release_delay_ms settings > 1000 ∨
    gs_button_short_action settings > 3 ∨ gs_button_long_action settings > 3 ∨
    gs_button_very_long_action settings > 3 ∨ gs_log_level settings > 4)
  then Err StorageInvalidLength else Ok settings.

Definition encode_input_settings (settings : InputSettings) (out : list Z) : list Z :=
  let out := zeros (length out) in
  let out := <[0%nat := is_keyboard_layout settings]> out in
  let out := <[1%nat := is_remap_from_usage settings]> out in
  let out := <[2%nat := is_remap_to_usage settings]> out in
  let out := blit 4 (u16_to_le_bytes (is_mouse_sensitivity_percent settings)) out in
  let out := blit 6 (u16_to_le_bytes (is_scroll_multiplier_percent settings)) out in
  let out := blit 8 (u16_to_le_bytes (is_consumer_from_usage settings)) out in
  blit 10 (u16_to_le_bytes (is_consumer_to_usage settings)) out.

Definition decode_input_settings (bytes : list Z) : Result StorageError InputSettings :=
  let settings := mkInputSettings (byte_at bytes 0) (byte_at bytes 1) (byte_at bytes 2)
    (read_u16 (slice 4 6 bytes)) (read_u16 (slice 6 8 bytes)) (read_u16 (slice 8 10 bytes))
    (read_u16 (slice 10 12 bytes)) SHORTCUT_DISABLED in
  if decide (is_keyboard_layout settings > 2 ∨ ¬ 10 ≤ is_mouse_sensitivity_percent settings ≤ 400 ∨
    ¬ 10 ≤ is_scroll_multiplier_percent settings ≤ 400 ∨ is_consumer_from_usage settings > 1023 ∨
    is_consumer_to_usage settings > 1023)
  then Err StorageInvalidLength else Ok settings.

Definition with_shortcut (settings : InputSettings) (shortcut : KeyboardShortcut) : InputSettings :=
  mkInputSettings (is_keyboard_layout settings) (is_remap_from_usage settings) (is_remap_to_usage settings)
    (is_mouse_sensitivity_percent settings) (is_scroll_multiplier_percent settings)
    (is_consumer_from_usage settings) (is_consumer_to_usage settings) shortcut.

Definition encode_input_profile (profile : InputProfile) (out : list Z) : list Z :=
  let out := zeros (length out) in
  let out := <[0%nat := ip_id profile]> out in
  let out := blit 2 (u16_to_le_bytes (ident_vendor_id (ip_identity profile))) out in
  let out := blit 4 (u16_to_le_bytes (ident_product_id (ip_identity profile))) out in
  let out := blit 6 (u64_to_le_bytes (ident_instance_hash (ip_identity profile))) out in
  let out := blit 14 (u64_to_le_bytes (ip_last_seen profile)) out in
  let out := blit 22 (u16_to_le_bytes (shortcut_packed (is_target_switch_shortcut (ip_settings profile)))) out in
  in_slice 24 36 (encode_input_settings (ip_settings profile)) out.

Definition decode_input_profile (bytes : list Z) : Result StorageError InputProfile :=
  let? id := match InputProfileId_new (byte_at bytes 0) with
    | Some id => Ok id | None => Err StorageInvalidLength end in
  let? settings := decode_input_settings (slice 24 36 bytes) in
  let? shortcut := match shortcut_from_packed (read_u16 (slice 22 24 bytes)) with
    | Some shortcut => Ok shortcut | None => Err StorageInvalidLength end in
  Ok (restored id
        (mkIdentity (read_u16 (slice 2 4 bytes)) (read_u16 (slice 4 6 bytes)) (read_u64 (slice 6 14 bytes)))
        (read_u64 (slice 14 22 bytes)) (with_shortcut settings shortcut)).

Definition encode_output_target (target : StoredOutputTarget) (out : list Z) : list Z :=
  <[0%nat := match target with StoredWired => 0 | StoredBle slot => slot end]> out.

Definition decode_output_target (bytes : list Z) : Result StorageError StoredOutputTarget :=
  let slot := byte_at bytes 0 in
  if decide (slot = 0) then Ok StoredWired
  else if decide (1 ≤ slot ≤ 4) then
    let? slot := map_err (λ _, StorageInvalidOutputTarget) (HostSlot_try_from slot) in Ok (StoredBle slot)
  else Err StorageInvalidOutputTarget.

Definition encode_wired_ble_host (host : option Z) (out : list Z) : list Z :=
  <[0%nat := default 0 host]> out.

Definition decode_wired_ble_host (bytes : list Z) : Result StorageError (option Z) :=
  let slot := byte_at bytes 0 in
  if decide (slot = 0) then Ok None
  else if decide (1 ≤ slot ≤ 4) then
    let? slot := map_err (λ _, StorageInvalidOutputTarget) (HostSlot_try_from slot) in Ok (Some slot)
  else Err StorageInvalidOutputTarget.

Definition encode_mirror_target (target : option MirrorStableId) (out : list Z) : list Z :=
  let out := zeros (length out) in
  match target with
  | None => out
  | Some identity =>
      let out := <[0%nat := Z.lor 1 (Z.shiftl (bool_byte (is_some (ms_serial_hash identity))) 1)]> out in
      let out := <[1%nat := ms_port_path_len identity]> out in
      let out := blit 2 (u16_to_le_bytes (ms_vendor_id identity)) out in
      let out := blit 4 (u16_to_le_bytes (ms_product_id identity)) out in
      let out := blit 6 (u32_to_le_bytes (default 0 (ms_serial_hash identity))) out in
      let out := blit 10 (u32_to_le_bytes (ms_descriptor_hash identity)) out in
      blit 14 (ms_port_path identity) out
  end.

Definition decode_mirror_target (bytes : list Z) : Result StorageError (option MirrorStableId) :=
  if decide (Z.land (byte_at bytes 0) 1 = 0) then Ok None
  else
    let path_len := Z.to_nat (byte_at bytes 1) in
    if decide (path_len > MIRROR_PORT_PATH_MAX_LEN)%nat then Err StorageInvalidOutputTarget
    else
      let serial_hash :=
        if bool_decide (Z.land (byte_at bytes 0) 2 ≠ 0) then Some (read_u32 (slice 6 10 bytes)) else None in
      let? identity := map_err (λ _, StorageInvalidOutputTarget)
        (MirrorStableId_new (read_u16 (slice 2 4 bytes)) (read_u16 (slice 4 6 bytes)) serial_hash
           (read_u32 (slice 10 14 bytes)) (slice 14 (14 + path_len) bytes)) in
      Ok (Some identity).

(** ** The image *)

Definition profile_offset_of (index : nat) : nat := (64 + index * STORED_INPUT_PROFILE_LEN)%nat.
Definition host_offset_of (index : nat) : nat :=
  (STORAGE_HEADER_LEN + STORAGE_BODY_PREFIX_LEN + index * STORED_HOST_RECORD_LEN)%nat.

(** [for (index, item) in items.iter().enumerate() { encode(item, &mut image[offset..offset + len]) }]. *)
Fixpoint encode_each {A} (encode : A → list Z → list Z) (offset_of : nat → nat) (len : nat)
  (index : nat) (items : list A) (image : list Z) : list Z :=
  match items with
  | [] => image
  | item :: items =>
      let offset := offset_of index in
      encode_each encode offset_of len (index + 1) items (in_slice offset (offset + len) (encode item) image)
  end.

Definition encode_storage_image (state : StorageState) : Result StorageError (list Z) :=
  let? _ := validate_state state in
  let image := zeros STORAGE_IMAGE_LEN in
  let image := blit 0 STORAGE_MAGIC image in
  let image := blit 4 (u16_to_le_bytes STORAGE_SCHEMA_VERSION) image in
  let body_len := storage_body_len (length (ss_hosts state)) in
  let image := blit 6 (u16_to_le_bytes (as_u16 (Z.of_nat body_len))) image in
  let image := blit 8 (u32_to_le_bytes (ss_generation state)) image in
  let image := <[16%nat := as_u8 (Z.of_nat (length (ss_hosts state)))]> image in
  let image := <[17%nat := default 0xff (ss_last_active_host state)]> image in
  let image := in_slice 18 30 (encode_global_settings (ss_global_settings state)) image in
  let profiles := reg_profiles (ss_input_profiles state) in
  let image := <[30%nat := as_u8 (Z.of_nat (length profiles))]> image in
  let presentation := ss_presentation state in
  let image := in_slice 32 33 (encode_output_target (spc_output_target presentation)) image in
  let image := in_slice 33 34 (encode_wired_ble_host (spc_wired_ble_host presentation)) image in
  let image := in_slice 40 64 (encode_mirror_target (spc_mirror_target presentation)) image in
  let image := encode_each encode_input_profile profile_offset_of STORED_INPUT_PROFILE_LEN 0 profiles image in
  let image := encode_each encode_host_record host_offset_of STORED_HOST_RECORD_LEN 0 (ss_hosts state) image in
  let crc32 := crc32_without_header_crc (slice 0 (STORAGE_HEADER_LEN + body_len) image) in
  Ok (blit 12 (u32_to_le_bytes crc32) image).

Fixpoint decode_profiles (image : list Z) (indexes : list nat) (registry : InputProfileRegistry)
  : Result StorageError InputProfileRegistry :=
  match indexes with
  | [] => Ok registry
  | index :: indexes =>
      let offset := profile_offset_of index in
      let? profile := decode_input_profile (slice offset (offset + STORED_INPUT_PROFILE_LEN) image) in
      match registry_restore registry profile with
      | (registry, Ok _) => decode_profiles image indexes registry
      | (_, Err _) => Err StorageInvalidLength
      end
  end.

Fixpoint decode_hosts (image : list Z) (indexes : list nat) (state : StorageState)
  : Result StorageError StorageState :=
  match indexes with
  | [] => Ok state
  | index :: indexes =>
      let offset := host_offset_of index in
      let? host := decode_host_record (slice offset (offset + STORED_HOST_RECORD_LEN) image) in
      match push_host state host with
      | (state, Ok _) => decode_hosts image indexes state
      | (_, Err e) => Err e
      end
  end.

Definition decode_storage_image (image : list Z) : Result StorageError StorageState :=
  if decide (length image < STORAGE_IMAGE_LEN)%nat then Err StorageImageTooShort
  else if decide (slice 0 4 image ≠ STORAGE_MAGIC) then Err StorageInvalidMagic
  else if decide (read_u16 (slice 4 6 image) ≠ STORAGE_SCHEMA_VERSION) then Err StorageUnsupportedVersion
  else
    let body_len := Z.to_nat (read_u16 (slice 6 8 image)) in
    if negb (body_len_is_valid body_len) then Err StorageInvalidLength
    else
      let total_len := (STORAGE_HEADER_LEN + body_len)%nat in
      if decide (read_u32 (slice 12 16 image) ≠ crc32_without_header_crc (slice 0 total_len image))
      then Err StorageCrcMismatch
      else
        let host_count := Z.to_nat (byte_at image 16) in
        if decide (host_count > STORED_HOSTS_MAX)%nat then Err StorageHostCountTooLarge
        else if decide (storage_body_len host_count ≠ body_len) then Err StorageInvalidLength
        else
          let state := StorageState_new (read_u32 (slice 8 12 image)) in
          let state := state <| ss_last_active_host :=
            if decide (byte_at image 17 = 0xff) then None else Some (byte_at image 17) |> in
          let? global := decode_global_settings (slice 18 30 image) in
          let state := state <| ss_global_settings := global |> in
          let input_profile_count := Z.to_nat (byte_at image 30) in
          if decide (input_profile_count > INPUT_PROFILE_CAPACITY)%nat then Err StorageInvalidLength
          else
            let? output_target := decode_output_target (slice 32 33 image) in
            let? wired_ble_host := decode_wired_ble_host (slice 33 34 image) in
            let? mirror_target := decode_mirror_target (slice 40 64 image) in
            let state := state <| ss_presentation :=
              mkPresentationConfig output_target wired_ble_host mirror_target |> in
            let? profiles := decode_profiles image (seq 0 input_profile_count) (ss_input_profiles state) in
            let state := state <| ss_input_profiles := profiles |> in
            let? state := decode_hosts image (seq 0 host_count) state in
            let? _ := validate_state state in
            Ok state.

(** ** Writes into an image

    A sequence of writes to disjoint ranges leaves each range as it was written. *)

Definition write_to (image : list Z) (w : nat * list Z) : list Z := blit w.1 w.2 image.
Definition write_all (writes : list (nat * list Z)) (image : list Z) : list Z :=
  fold_left write_to writes image.

Definition interval (w : nat * list Z) : nat * nat := (w.1, length w.2).
Definition apart (a b : nat * nat) : bool :=
  bool_decide (a.1 + a.2 ≤ b.1)%nat || bool_decide (b.1 + b.2 ≤ a.1)%nat.
Fixpoint all_apart (ranges : list (nat * nat)) : bool :=
  match ranges with
  | [] => true
  | r :: ranges => forallb (apart r) ranges && all_apart ranges
  end.
Definition within (len : nat) (r : nat * nat) : bool := bool_decide (r.1 + r.2 ≤ len)%nat.

Lemma slice_blit_out {A} lo hi off (s d : list A) : (lo ≤ hi)%nat → (off + length s ≤ length d)%nat →
  (hi ≤ off ∨ off + length s ≤ lo)%nat → slice lo hi (blit off s d) = slice lo hi d.
Proof.
  intros Hlh Hl Hd. unfold slice, blit. apply list_eq. intros i.
  destruct (decide (i < hi - lo)%nat) as [Hi|Hi]; [|by rewrite !lookup_take_ge by lia].
  rewrite !lookup_take_lt, !lookup_drop by done. destruct Hd as [Hd|Hd].
  - rewrite lookup_app_l by (rewrite length_take; lia). by rewrite lookup_take_lt by lia.
  - rewrite lookup_app_r by (rewrite length_take; lia). rewrite length_take, Nat.min_l by lia.
    rewrite lookup_app_r by lia. rewrite lookup_drop. f_equal. lia.
Qed.

Lemma slice_blit_in {A} off (s d : list A) : (off + length s ≤ length d)%nat →
  slice off (off + length s) (blit off s d) = s.
Proof.
  intros Hl. unfold slice, blit. rewrite drop_app, length_take, Nat.min_l by lia.
  rewrite drop_ge by (rewrite length_take; lia). rewrite Nat.sub_diag. cbn [app].
  rewrite drop_0, Nat.add_comm, Nat.add_sub. apply take_app_length.
Qed.

Lemma length_write_all writes image :
  forallb (within (length image)) (map interval writes) = true →
  length (write_all writes image) = length image.
Proof.
  revert image. induction writes as [|w ws IH]; intros image H; [done|].
  cbn [map forallb] in H. apply andb_true_iff in H as [Hw Hws]. apply bool_decide_eq_true in Hw.
  cbn [write_all fold_left]. assert (length (write_to image w) = length image) as Hl
    by (unfold write_to; apply length_blit; exact Hw).
  unfold write_all in IH. by rewrite IH; rewrite Hl.
Qed.

Lemma slice_write_all_out lo hi writes image : (lo ≤ hi)%nat →
  forallb (within (length image)) (map interval writes) = true →
  forallb (apart (lo, (hi - lo)%nat)) (map interval writes) = true →
  slice lo hi (write_all writes image) = slice lo hi image.
Proof.
  intros Hlh. revert image. induction writes as [|w ws IH]; intros image H Ha; [done|].
  cbn [map forallb] in H, Ha. apply andb_true_iff in H as [Hw Hws], Ha as [Haw Haws].
  apply bool_decide_eq_true in Hw. cbn in Hw.
  assert (length (write_to image w) = length image) as Hl by (unfold write_to; apply length_blit; exact Hw).
  change (write_all (w :: ws) image) with (write_all ws (write_to image w)).
  rewrite IH by (rewrite ?Hl; done). unfold write_to. apply slice_blit_out; [done|exact Hw|].
  unfold apart in Haw. apply orb_true_iff in Haw. rewrite !bool_decide_eq_true in Haw. cbn in Haw. lia.
Qed.

Lemma slice_write_all writes image off s :
  forallb (within (length image)) (map interval writes) = true →
  all_apart (map interval writes) = true → (off, s) ∈ writes →
  slice off (off + length s) (write_all writes image) = s.
Proof.
  revert image. induction writes as [|w ws IH]; intros image H Ha Hin; [by apply elem_of_nil in Hin|].
  cbn [map forallb all_apart] in H, Ha. apply andb_true_iff in H as [Hw Hws], Ha as [Haw Haws].
  apply bool_decide_eq_true in Hw. cbn in Hw.
  assert (length (write_to image w) = length image) as Hl by (unfold write_to; apply length_blit; exact Hw).
  change (write_all (w :: ws) image) with (write_all ws (write_to image w)).
  apply elem_of_cons in Hin as [<-|Hin]; [|apply IH; rewrite ?Hl; done].
  cbn in Haw, Hw. rewrite slice_write_all_out; [by apply slice_blit_in|lia|by rewrite Hl|].
  by rewrite Nat.add_comm, Nat.add_sub.
Qed.

Lemma insert_blit {A} i (x : A) l : (i < length l)%nat → <[i := x]> l = blit i [x] l.
Proof. intros H. rewrite insert_take_drop by done. unfold blit. cbn [length app]. by rewrite Nat.add_1_r. Qed.

Lemma in_slice_write lo hi f w image : (lo ≤ hi)%nat → (hi ≤ length image)%nat →
  (∀ out, length out = (hi - lo)%nat → f out = w) → in_slice lo hi f image = write_to image (lo, w).
Proof.
  intros Hlh Hl Hf. unfold in_slice, write_to. cbn. rewrite Hf; [done|]. by apply length_slice.
Qed.

Lemma byte_at_slice l i : (i < length l)%nat → slice i (i + 1) l = [byte_at l i].
Proof.
  intros H. unfold slice. replace (i + 1 - i)%nat with 1%nat by lia.
  destruct (drop i l) as [|x r] eqn:Hd.
  { apply (f_equal length) in Hd. rewrite length_drop in Hd. cbn in Hd. lia. }
  cbn [take]. unfold byte_at. apply (f_equal (λ l', nth 0 l' 0)) in Hd.
  rewrite nth_skipn in Hd. cbn in Hd. by rewrite Nat.add_0_r in Hd; subst.
Qed.

(** ** What the image can hold *)

Definition array_ok (n : nat) (l : list Z) : Prop := length l = n ∧ bytes_ok l.

Record bond_ok (b : StoredBond) : Prop := {
  bond_address : array_ok 6 (sb_peer_address b);
  bond_irk : ∀ irk, sb_peer_irk b = Some irk → array_ok 16 irk;
  bond_ltk : array_ok 16 (sb_ltk b)
}.

Definition name_ok (n : FixedName) : Prop := 0 ≤ fn_len n ≤ 32 ∧ array_ok MAX_HOST_NAME_LEN (fn_bytes n).

Record host_ok (h : StoredHostProfile) : Prop := {
  host_id_u8 : u8_ok (sh_host_id h);
  host_name : name_ok (sh_name h);
  host_bond : ∀ b, sh_bond h = Some b → bond_ok b
}.

Record global_ok (s : GlobalSettings) : Prop := {
  global_boot : 0 ≤ gs_boot_target s ≤ 4;
  global_delay : 0 ≤ gs_switch_release_delay_ms s ≤ 1000;
  global_short : 0 ≤ gs_button_short_action s ≤ 3;
  global_long : 0 ≤ gs_button_long_action s ≤ 3;
  global_very_long : 0 ≤ gs_button_very_long_action s ≤ 3;
  global_log : 0 ≤ gs_log_level s ≤ 4
}.

Record input_settings_ok (s : InputSettings) : Prop := {
  input_layout : 0 ≤ is_keyboard_layout s ≤ 2;
  input_from : u8_ok (is_remap_from_usage s);
  input_to : u8_ok (is_remap_to_usage s);
  input_mouse : 10 ≤ is_mouse_sensitivity_percent s ≤ 400;
  input_scroll : 10 ≤ is_scroll_multiplier_percent s ≤ 400;
  input_consumer_from : 0 ≤ is_consumer_from_usage s ≤ 1023;
  input_consumer_to : 0 ≤ is_consumer_to_usage s ≤ 1023;
  input_shortcut : shortcut_ok (is_target_switch_shortcut s)
}.

Record profile_ok (p : InputProfile) : Prop := {
  profile_id : InputProfileId_new (ip_id p) = Some (ip_id p);
  profile_vendor : u16_ok (ident_vendor_id (ip_identity p));
  profile_product : u16_ok (ident_product_id (ip_identity p));
  profile_hash : u64_ok (ident_instance_hash (ip_identity p));
  profile_seen : u64_ok (ip_last_seen p);
  profile_settings : input_settings_ok (ip_settings p)
}.

Record mirror_id_ok (m : MirrorStableId) : Prop := {
  mirror_vendor : u16_ok (ms_vendor_id m);
  mirror_product : u16_ok (ms_product_id m);
  mirror_serial : ∀ h, ms_serial_hash m = Some h → u32_ok h;
  mirror_hash : u32_ok (ms_descriptor_hash m);
  mirror_len : 0 ≤ ms_port_path_len m;
  mirror_path : bytes_ok (ms_port_path m);
  mirror_made : MirrorStableId_new (ms_vendor_id m) (ms_product_id m) (ms_serial_hash m)
                  (ms_descriptor_hash m) (ms_path m) = Ok m
}.

Record presentation_ok (c : StoredPresentationConfig) : Prop := {
  presentation_target : ∀ slot, spc_output_target c = StoredBle slot → slot_ok slot;
  presentation_link : ∀ slot, spc_wired_ble_host c = Some slot → slot_ok slot;
  presentation_mirror : ∀ m, spc_mirror_target c = Some m → mirror_id_ok m
}.

Record state_ok (s : StorageState) : Prop := {
  state_valid : validate_state s = Ok tt;
  state_generation : u32_ok (ss_generation s);
  state_global : global_ok (ss_global_settings s);
  state_registry : reg_inv (ss_input_profiles s);
  state_profiles : Forall profile_ok (reg_profiles (ss_input_profiles s));
  state_presentation : presentation_ok (ss_presentation s);
  state_hosts : Forall host_ok (ss_hosts s);
  state_host_count : (length (ss_hosts s) ≤ STORED_HOSTS_MAX)%nat
}.

(** ** The field codecs *)

Definition bond_wire (bond : option StoredBond) : list Z :=
  match bond with
  | None => zeros 48
  | Some b =>
      [1] ++ sb_peer_address b ++ [bool_byte (is_some (sb_peer_irk b))] ++
      default (zeros 16) (sb_peer_irk b) ++ sb_ltk b ++
      [bool_byte (sb_is_bonded b); StoredSecurityLevel_code (sb_security_level b);
       StoredAddressKind_code (sb_peer_address_kind b); 0; 0; 0; 0; 0]
  end.

Definition host_wire (h : StoredHostProfile) : list Z :=
  [sh_host_id h; bool_byte (sh_bonded h); bool_byte (sh_keyboard_cccd_enabled h);
   bool_byte (sh_mouse_cccd_enabled h); bool_byte (sh_consumer_cccd_enabled h);
   bool_byte (sh_keyboard_output_cccd_enabled h); fn_len (sh_name h); 0] ++
  fn_bytes (sh_name h) ++ bond_wire (sh_bond h).

Definition global_wire (s : GlobalSettings) : list Z :=
  [gs_boot_target s; bool_byte (gs_restore_last_target s); bool_byte (gs_auto_reconnect s)] ++
  u16_to_le_bytes (gs_switch_release_delay_ms s) ++
  [gs_button_short_action s; gs_button_long_action s; gs_button_very_long_action s; gs_log_level s; 0; 0; 0].

Definition input_settings_wire (s : InputSettings) : list Z :=
  [is_keyboard_layout s; is_remap_from_usage s; is_remap_to_usage s; 0] ++
  u16_to_le_bytes (is_mouse_sensitivity_percent s) ++ u16_to_le_bytes (is_scroll_multiplier_percent s) ++
  u16_to_le_bytes (is_consumer_from_usage s) ++ u16_to_le_bytes (is_consumer_to_usage s).

Definition profile_wire (p : InputProfile) : list Z :=
  [ip_id p; 0] ++ u16_to_le_bytes (ident_vendor_id (ip_identity p)) ++
  u16_to_le_bytes (ident_product_id (ip_identity p)) ++
  u64_to_le_bytes (ident_instance_hash (ip_identity p)) ++ u64_to_le_bytes (ip_last_seen p) ++
  u16_to_le_bytes (shortcut_packed (is_target_switch_shortcut (ip_settings p))) ++
  input_settings_wire (ip_settings p).

Definition mirror_wire (target : option MirrorStableId) : list Z :=
  match target with
  | None => zeros 24
  | Some m =>
      [Z.lor 1 (Z.shiftl (bool_byte (is_some (ms_serial_hash m))) 1); ms_port_path_len m] ++
      u16_to_le_bytes (ms_vendor_id m) ++ u16_to_le_bytes (ms_product_id m) ++
      u32_to_le_bytes (default 0 (ms_serial_hash m)) ++ u32_to_le_bytes (ms_descriptor_hash m) ++
      ms_port_path m ++ [0; 0]
  end.

Lemma bool_byte_back b : negb (bool_byte b =? 0) = b.
Proof. by destruct b. Qed.

Lemma bool_byte_ok b : u8_ok (bool_byte b).
Proof. by destruct b. Qed.

Lemma array_explode {n l} : array_ok n l → length l = n.
Proof. by intros []. Qed.

Lemma encode_bond_wire bond out : length out = STORED_BOND_LEN → (∀ b, bond = Some b → bond_ok b) →
  encode_bond bond out = bond_wire bond.
Proof.
  intros Hl Hok. unfold encode_bond, bond_wire. rewrite Hl. destruct bond as [b|]; [|done].
  destruct (Hok b eq_refl) as [Ha Hi Hk]. destruct b as [addr kind irk ltk bonded level].
  cbn [sb_peer_address sb_peer_irk sb_ltk sb_is_bonded sb_security_level sb_peer_address_kind] in *.
  apply array_explode in Ha, Hk. explode addr Ha. explode ltk Hk.
  destruct irk as [irk|]; [|done]. specialize (Hi irk eq_refl). apply array_explode in Hi.
  by explode irk Hi.
Qed.

Lemma decode_bond_wire bond : (∀ b, bond = Some b → bond_ok b) → decode_bond (bond_wire bond) = Ok bond.
Proof.
  intros Hok. destruct bond as [b|]; [|done].
  destruct (Hok b eq_refl) as [Ha Hi Hk]. destruct b as [addr kind irk ltk bonded level].
  cbn [sb_peer_address sb_peer_irk sb_ltk sb_is_bonded sb_security_level sb_peer_address_kind] in *.
  apply array_explode in Ha, Hk. explode addr Ha. explode ltk Hk.
  destruct irk as [irk|].
  - specialize (Hi irk eq_refl). apply array_explode in Hi. explode irk Hi.
    by destruct kind, level, bonded.
  - by destruct kind, level, bonded.
Qed.

Lemma length_bond_wire bond : (∀ b, bond = Some b → bond_ok b) → length (bond_wire bond) = STORED_BOND_LEN.
Proof.
  intros Hok. destruct bond as [b|]; [|done]. destruct (Hok b eq_refl) as [[Ha _] Hi [Hk _]].
  unfold bond_wire. rewrite !length_app, Ha, Hk.
  assert (length (default (zeros 16) (sb_peer_irk b)) = 16%nat) as ->; [|done].
  destruct (sb_peer_irk b) as [irk|]; [|done]. by destruct (Hi irk eq_refl).
Qed.

Lemma encode_host_wire h out : length out = STORED_HOST_RECORD_LEN → host_ok h →
  encode_host_record h out = host_wire h.
Proof.
  intros Hl [_ [_ [Hn _]] Hb]. unfold encode_host_record, host_wire.
  do 8 (destruct out as [|? out]; [discriminate Hl|]).
  assert (length out = 80%nat) as Hr by (cbn in Hl; unfold STORED_HOST_RECORD_LEN in Hl; lia).
  pose (fields := [sh_host_id h; bool_byte (sh_bonded h); bool_byte (sh_keyboard_cccd_enabled h);
     bool_byte (sh_mouse_cccd_enabled h); bool_byte (sh_consumer_cccd_enabled h);
     bool_byte (sh_keyboard_output_cccd_enabled h); fn_len (sh_name h); 0]).
  change (in_slice 40 (40 + STORED_BOND_LEN) (encode_bond (sh_bond h))
    (blit 8 (fn_bytes (sh_name h)) (fields ++ out)) = fields ++ fn_bytes (sh_name h) ++ bond_wire (sh_bond h)).
  assert (length fields = 8%nat) as Hf by done. clearbody fields. rewrite blit_app by done.
  unfold MAX_HOST_NAME_LEN in Hn. unfold blit at 1. rewrite take_0, Hn. cbn [app].
  set (tail := drop _ out). assert (length tail = 48%nat) as Ht by (unfold tail; rewrite length_drop; lia).
  rewrite !app_assoc. set (head := fields ++ fn_bytes (sh_name h)).
  assert (length head = 40%nat) as Hh by (unfold head; rewrite length_app, Hn, Hf; done).
  rewrite (in_slice_write _ _ _ (bond_wire (sh_bond h))).
  2: { unfold STORED_BOND_LEN. lia. }
  2: { rewrite length_app, Hh, Ht. done. }
  2: { intros o Ho. by apply encode_bond_wire. }
  unfold write_to. cbn [fst snd]. rewrite <- Hh at 1. rewrite blit_app by done.
  rewrite blit_all; [done|].
  rewrite Ht. by apply length_bond_wire.
Qed.

Lemma u16_back x : u16_ok x → read_u16 (u16_to_le_bytes x) = x.
Proof. apply u16_from_to_le. Qed.

Lemma u32_back x : u32_ok x → read_u32 (u32_to_le_bytes x) = x.
Proof. apply u32_from_to_le. Qed.

Lemma u64_back x : u64_ok x → read_u64 (u64_to_le_bytes x) = x.
Proof.
  unfold u64_ok. intros H. unfold read_u64, u64_to_le_bytes.
  change (slice 0 4 (u32_to_le_bytes (x mod 2 ^ 32) ++ u32_to_le_bytes (x / 2 ^ 32)))
    with (u32_to_le_bytes (x mod 2 ^ 32)).
  change (slice 4 8 (u32_to_le_bytes (x mod 2 ^ 32) ++ u32_to_le_bytes (x / 2 ^ 32)))
    with (u32_to_le_bytes (x / 2 ^ 32)).
  rewrite !u32_back; unfold u32_ok; [pose proof (Z.div_mod x (2 ^ 32)); lia|..].
  - split; [apply Z.div_pos; lia|]. apply Z.div_lt_upper_bound; lia.
  - apply Z.mod_pos_bound. lia.
Qed.

Lemma decode_host_wire h : host_ok h → decode_host_record (host_wire h) = Ok h.
Proof.
  intros [_ [Hlen [Hn _]] Hb]. unfold decode_host_record, host_wire. unfold MAX_HOST_NAME_LEN in Hn.
  set (fields := [_; _; _; _; _; _; _; 0]).
  assert (slice 8 (8 + MAX_HOST_NAME_LEN) (fields ++ fn_bytes (sh_name h) ++ bond_wire (sh_bond h)) =
          fn_bytes (sh_name h)) as -> by (apply slice_app_mid; [done|by rewrite Hn]).
  assert (slice 40 (40 + STORED_BOND_LEN) (fields ++ fn_bytes (sh_name h) ++ bond_wire (sh_bond h)) =
          bond_wire (sh_bond h)) as ->.
  { rewrite app_assoc, <- (app_nil_r (bond_wire _)) at 1.
    apply slice_app_mid; rewrite length_app, Hn; [done|]. by rewrite length_bond_wire. }
  rewrite decode_bond_wire by done. cbn [result_bind]. unfold fields, byte_at. cbn [app nth].
  rewrite decide_False by (change (Z.of_nat MAX_HOST_NAME_LEN) with 32; lia). rewrite !bool_byte_back.
  by destruct h as [? ? ? ? ? ? [] ?].
Qed.

Lemma length_host_wire h : host_ok h → length (host_wire h) = STORED_HOST_RECORD_LEN.
Proof.
  intros [_ [_ [Hn _]] Hb]. unfold host_wire. rewrite !length_app, Hn, length_bond_wire by done. done.
Qed.

Lemma encode_global_wire s out : length out = 12%nat → encode_global_settings s out = global_wire s.
Proof. intros Hl. unfold encode_global_settings. by rewrite Hl. Qed.

Lemma decode_global_wire s : global_ok s → decode_global_settings (global_wire s) = Ok s.
Proof.
  intros [H1 H2 H3 H4 H5 H6]. unfold decode_global_settings, global_wire.
  change (slice 3 5 _) with (u16_to_le_bytes (gs_switch_release_delay_ms s)).
  rewrite u16_back by words. unfold byte_at. cbn -[u16_to_le_bytes]. cbn. rewrite !bool_byte_back.
  rewrite decide_False by (cbn; lia). by destruct s.
Qed.

Lemma encode_input_settings_wire s out : length out = 12%nat →
  encode_input_settings s out = input_settings_wire s.
Proof. intros Hl. unfold encode_input_settings. by rewrite Hl. Qed.

Lemma decode_input_settings_wire s : input_settings_ok s →
  decode_input_settings (input_settings_wire s) = Ok (with_shortcut s SHORTCUT_DISABLED).
Proof.
  intros [H1 H2 H3 H4 H5 H6 H7 H8]. unfold decode_input_settings, input_settings_wire.
  change (slice 4 6 _) with (u16_to_le_bytes (is_mouse_sensitivity_percent s)).
  change (slice 6 8 _) with (u16_to_le_bytes (is_scroll_multiplier_percent s)).
  change (slice 8 10 _) with (u16_to_le_bytes (is_consumer_from_usage s)).
  change (slice 10 12 _) with (u16_to_le_bytes (is_consumer_to_usage s)).
  rewrite !u16_back by words. unfold byte_at. cbn.
  rewrite decide_False; [done|]. lia.
Qed.

Lemma encode_profile_wire p out : length out = STORED_INPUT_PROFILE_LEN →
  encode_input_profile p out = profile_wire p.
Proof.
  intros Hl. unfold encode_input_profile. rewrite Hl. unfold in_slice.
  rewrite encode_input_settings_wire by reflexivity. reflexivity.
Qed.

Definition restored_profile (p : InputProfile) : InputProfile :=
  restored (ip_id p) (ip_identity p) (ip_last_seen p) (ip_settings p).

Lemma decode_profile_wire p : profile_ok p → decode_input_profile (profile_wire p) = Ok (restored_profile p).
Proof.
  intros [H1 H2 H3 H4 H5 H6]. unfold decode_input_profile, profile_wire.
  change (byte_at _ 0) with (ip_id p). rewrite H1. cbn [result_bind].
  change (slice 24 36 _) with (input_settings_wire (ip_settings p)).
  rewrite decode_input_settings_wire by done. cbn [result_bind].
  change (slice 22 24 _) with (u16_to_le_bytes (shortcut_packed (is_target_switch_shortcut (ip_settings p)))).
  destruct (shortcut_packed_roundtrip (is_target_switch_shortcut (ip_settings p))) as [Hs Hsr];
    [by destruct H6|].
  rewrite u16_back, Hsr by done. cbn [result_bind].
  change (slice 2 4 _) with (u16_to_le_bytes (ident_vendor_id (ip_identity p))).
  change (slice 4 6 _) with (u16_to_le_bytes (ident_product_id (ip_identity p))).
  change (slice 6 14 _) with (u64_to_le_bytes (ident_instance_hash (ip_identity p))).
  change (slice 14 22 _) with (u64_to_le_bytes (ip_last_seen p)).
  rewrite !u16_back, !u64_back by done. unfold restored_profile. by destruct p as [? [] ? ? [] ? ?].
Qed.

Lemma mirror_id_shape m : mirror_id_ok m →
  0 ≤ ms_port_path_len m ≤ 8 ∧ length (ms_port_path m) = 8%nat ∧
  ms_path m = slice 0 (Z.to_nat (ms_port_path_len m)) (ms_port_path m).
Proof.
  intros [_ _ _ _ Hl _ Hm]. unfold MirrorStableId_new in Hm.
  case_decide as H1; [done|]. case_decide as H2; [done|]. injection Hm as Hm.
  unfold MIRROR_PORT_PATH_MAX_LEN in *.
  assert (ms_port_path_len m = as_u8 (Z.of_nat (length (ms_path m)))) as He by (rewrite <- Hm at 1; done).
  assert (length (ms_port_path m) = 8%nat) as Hp.
  { rewrite <- Hm. cbn [ms_port_path]. rewrite length_blit by (rewrite length_zeros; lia). apply length_zeros. }
  split; [|split; [done|by rewrite slice_0]].
  rewrite He. unfold as_u8. rewrite Z.mod_small by (change (2 ^ 8) with 256; lia). lia.
Qed.

Lemma encode_mirror_wire target out : length out = 24%nat → (∀ m, target = Some m → mirror_id_ok m) →
  encode_mirror_target target out = mirror_wire target.
Proof.
  intros Hl Hok. unfold encode_mirror_target, mirror_wire. rewrite Hl. destruct target as [m|]; [|done].
  destruct (mirror_id_shape m (Hok m eq_refl)) as (_ & Hp & _).
  destruct (ms_port_path m) as [|x0 path]; [done|]. cbn in Hp. injection Hp as Hp. by explode path Hp.
Qed.

Lemma decode_mirror_wire target : (∀ m, target = Some m → mirror_id_ok m) →
  decode_mirror_target (mirror_wire target) = Ok target.
Proof.
  intros Hok. destruct target as [m|]; [|done]. specialize (Hok m eq_refl).
  destruct (mirror_id_shape m Hok) as (Hlen & Hp & Hpath). destruct Hok as [H1 H2 H3 H4 _ _ Hm].
  unfold decode_mirror_target, mirror_wire.
  set (flags := Z.lor _ _).
  change (byte_at _ 0) with flags. change (byte_at _ 1) with (ms_port_path_len m).
  change (slice 2 4 _) with (u16_to_le_bytes (ms_vendor_id m)).
  change (slice 4 6 _) with (u16_to_le_bytes (ms_product_id m)).
  change (slice 6 10 _) with (u32_to_le_bytes (default 0 (ms_serial_hash m))).
  change (slice 10 14 _) with (u32_to_le_bytes (ms_descriptor_hash m)).
  assert (Z.land flags 1 ≠ 0 ∧ bool_decide (Z.land flags 2 ≠ 0) = is_some (ms_serial_hash m)) as [Hf1 ->]
    by (unfold flags; by destruct (ms_serial_hash m)).
  rewrite decide_False by done. rewrite decide_False by (unfold MIRROR_PORT_PATH_MAX_LEN; lia).
  assert (u32_ok (default 0 (ms_serial_hash m))) as Hs.
  { destruct (ms_serial_hash m) as [h|]; [by apply H3|done]. }
  rewrite !u16_back, !u32_back by done.
  assert ((if is_some (ms_serial_hash m) then Some (default 0 (ms_serial_hash m)) else None)
    = ms_serial_hash m) as -> by by destruct (ms_serial_hash m).
  assert (slice 14 (14 + Z.to_nat (ms_port_path_len m)) ([flags; ms_port_path_len m] ++
    u16_to_le_bytes (ms_vendor_id m) ++ u16_to_le_bytes (ms_product_id m) ++
    u32_to_le_bytes (default 0 (ms_serial_hash m)) ++ u32_to_le_bytes (ms_descriptor_hash m) ++
    ms_port_path m ++ [0; 0]) = ms_path m) as ->.
  { rewrite Hpath. unfold slice. rewrite !Nat.sub_0_r.
    replace (14 + Z.to_nat (ms_port_path_len m) - 14)%nat with (Z.to_nat (ms_port_path_len m)) by lia.
    change (drop 14 _) with (ms_port_path m ++ [0; 0]). rewrite drop_0. apply take_app_le. lia. }
  rewrite Hm. done.
Qed.

(** ** The image as disjoint writes *)

Definition image_writes (s : StorageState) (crc : Z) : list (nat * list Z) :=
  [(0%nat, STORAGE_MAGIC); (4%nat, u16_to_le_bytes 1);
   (6%nat, u16_to_le_bytes (Z.of_nat (storage_body_len (length (ss_hosts s)))));
   (8%nat, u32_to_le_bytes (ss_generation s)); (16%nat, [Z.of_nat (length (ss_hosts s))]);
   (17%nat, [default 0xff (ss_last_active_host s)]); (18%nat, global_wire (ss_global_settings s));
   (30%nat, [Z.of_nat (length (reg_profiles (ss_input_profiles s)))]);
   (32%nat, [match spc_output_target (ss_presentation s) with StoredWired => 0 | StoredBle slot => slot end]);
   (33%nat, [default 0 (spc_wired_ble_host (ss_presentation s))]);
   (40%nat, mirror_wire (spc_mirror_target (ss_presentation s)))] ++
  imap (λ i p, (profile_offset_of i, profile_wire p)) (reg_profiles (ss_input_profiles s)) ++
  imap (λ i h, (host_offset_of i, host_wire h)) (ss_hosts s) ++
  [(12%nat, u32_to_le_bytes crc)].

Definition image_ranges (profiles hosts : nat) : list (nat * nat) :=
  [(0, 4); (4, 2); (6, 2); (8, 4); (16, 1); (17, 1); (18, 12); (30, 1); (32, 1); (33, 1); (40, 24)]%nat ++
  imap (λ i _, (profile_offset_of i, STORED_INPUT_PROFILE_LEN)) (replicate profiles tt) ++
  imap (λ i _, (host_offset_of i, STORED_HOST_RECORD_LEN)) (replicate hosts tt) ++
  [(12, 4)%nat].

Lemma image_ranges_apart profiles hosts : (profiles ≤ INPUT_PROFILE_CAPACITY)%nat →
  (hosts ≤ STORED_HOSTS_MAX)%nat →
  all_apart (image_ranges profiles hosts) = true ∧
  forallb (within STORAGE_IMAGE_LEN) (image_ranges profiles hosts) = true.
Proof.
  change INPUT_PROFILE_CAPACITY with 8%nat. change STORED_HOSTS_MAX with 4%nat. intros Hp Hh.
  assert (forallb (λ p, forallb (λ h, all_apart (image_ranges p h) &&
    forallb (within STORAGE_IMAGE_LEN) (image_ranges p h)) (seq 0 5)) (seq 0 9) = true) as H by by vm_compute.
  rewrite forallb_forall in H. specialize (H profiles ltac:(apply in_seq; lia)).
  rewrite forallb_forall in H. specialize (H hosts ltac:(apply in_seq; lia)).
  by apply andb_true_iff in H.
Qed.

Lemma imap_const {A B} (f : nat → B) (l : list A) :
  imap (λ i _, f i) l = imap (λ i _, f i) (replicate (length l) tt).
Proof.
  apply list_eq. intros i. rewrite !list_lookup_imap.
  destruct (decide (i < length l)%nat) as [Hi|Hi].
  - destruct (lookup_lt_is_Some_2 l i Hi) as [x ->]. by rewrite lookup_replicate_2.
  - by rewrite !lookup_ge_None_2 by (rewrite ?length_replicate; lia).
Qed.

Lemma map_imap {A B C} (f : B → C) (g : nat → A → B) l : map f (imap g l) = imap (λ i x, f (g i x)) l.
Proof. change (map f) with (fmap (M:=list) f). apply fmap_imap. Qed.

Lemma imap_forall {A B} (P : A → Prop) (f g : nat → A → B) l : Forall P l → (∀ i x, P x → f i x = g i x) →
  imap f l = imap g l.
Proof.
  intros Hl Hfg. apply list_eq. intros i. rewrite !list_lookup_imap.
  destruct (l !! i) as [x|] eqn:Hx; [|done]. cbn. f_equal. apply Hfg. by apply (Forall_lookup_1 _ _ _ _ Hl Hx).
Qed.

Lemma length_mirror_wire t : (∀ m, t = Some m → mirror_id_ok m) → length (mirror_wire t) = 24%nat.
Proof.
  intros H. destruct t as [m|]; [|done]. unfold mirror_wire. rewrite !length_app.
  destruct (mirror_id_shape m (H m eq_refl)) as (_ & -> & _). done.
Qed.

Lemma image_writes_ranges s crc : state_ok s →
  map interval (image_writes s crc) =
  image_ranges (length (reg_profiles (ss_input_profiles s))) (length (ss_hosts s)).
Proof.
  intros Hok. destruct Hok as [_ _ _ _ _ [_ _ Hm] Hh _]. unfold image_writes, image_ranges.
  rewrite !map_app, !map_imap. cbn [map app]. unfold interval. cbn [fst snd].
  rewrite length_mirror_wire by done. do 11 f_equal. f_equal; [|f_equal].
  - rewrite (imap_forall (λ _, True) _ (λ i _, (profile_offset_of i, STORED_INPUT_PROFILE_LEN))).
    + apply imap_const.
    + by apply Forall_true.
    + done.
  - rewrite (imap_forall host_ok _ (λ i _, (host_offset_of i, STORED_HOST_RECORD_LEN))).
    + apply imap_const.
    + done.
    + intros i x Hx. by rewrite length_host_wire.
Qed.

Lemma write_len w image : length image = STORAGE_IMAGE_LEN → within STORAGE_IMAGE_LEN (interval w) = true →
  length (write_to image w) = STORAGE_IMAGE_LEN.
Proof.
  intros Hl Hw. apply bool_decide_eq_true in Hw. unfold write_to. rewrite length_blit; [done|]. by rewrite Hl.
Qed.

Lemma encode_each_writes {A} (P : A → Prop) (encode : A → list Z → list Z) (wire : A → list Z)
  offset_of len items index image : Forall P items →
  (∀ x out, P x → length out = len → encode x out = wire x) → (∀ x, P x → length (wire x) = len) →
  (∀ i, (i < length items)%nat → offset_of (index + i) + len ≤ length image)%nat →
  encode_each encode offset_of len index items image =
  write_all (imap (λ i x, (offset_of (index + i)%nat, wire x)) items) image.
Proof.
  intros Hp He Hw. revert index image Hp. induction items as [|x items IH]; intros index image Hp Hb; [done|].
  apply List.Forall_cons_iff in Hp as [Hx Hp]. cbn [encode_each].
  pose proof (Hb 0%nat ltac:(cbn; lia)) as H0. rewrite Nat.add_0_r in H0.
  rewrite (in_slice_write _ _ _ (wire x)).
  2: lia.
  2: done.
  2: { intros out Ho. apply He; [done|]. lia. }
  assert (length (write_to image (offset_of index, wire x)) = length image) as Hl.
  { unfold write_to. apply length_blit. cbn. by rewrite Hw. }
  rewrite IH; [|done|].
  - rewrite imap_cons, Nat.add_0_r. cbn [write_all fold_left]. unfold write_all. f_equal.
    apply imap_forall with (P := λ _, True); [by apply Forall_true|]. intros i y _. cbn. do 2 f_equal. lia.
  - intros i Hi. rewrite Hl. specialize (Hb (S i) ltac:(cbn; lia)).
    by replace (index + 1 + i)%nat with (index + S i)%nat by lia.
Qed.

Lemma slot_of_target t : (∀ slot, t = StoredBle slot → slot_ok slot) →
  0 ≤ match t with StoredWired => 0 | StoredBle slot => slot end ≤ 4.
Proof. intros H. destruct t as [|slot]; [lia|]. destruct (H slot eq_refl). lia. Qed.

(** The steps of the encoder, one write each. *)
Lemma insert_step i x image : length image = STORAGE_IMAGE_LEN → (i < STORAGE_IMAGE_LEN)%nat →
  <[i := x]> image = write_to image (i, [x]).
Proof. intros Hl Hi. apply insert_blit. by rewrite Hl. Qed.

Lemma in_slice_step lo hi f w image : length image = STORAGE_IMAGE_LEN →
  (lo ≤ hi)%nat → (hi ≤ STORAGE_IMAGE_LEN)%nat →
  (∀ out, length out = (hi - lo)%nat → f out = w) → in_slice lo hi f image = write_to image (lo, w).
Proof. intros Hl Hlh Hh Hf. apply in_slice_write; [done|by rewrite Hl|done]. Qed.

Lemma one_byte_step (f : list Z → list Z) x : (∀ out, f out = <[0%nat := x]> out) →
  ∀ out, length out = 1%nat → f out = [x].
Proof. intros Hf out Ho. rewrite Hf. destruct out as [|y [|]]; done. Qed.

(** [as_write] turns the innermost step into a write, [name_write] names the image after it. *)
Ltac as_write :=
  match goal with
  | |- context [blit ?o ?x ?i] => is_var i; change (blit o x i) with (write_to i (o, x))
  | |- context [insert ?k ?x ?i] =>
      is_var i; rewrite (insert_step k x i) by (done || (unfold STORAGE_IMAGE_LEN; lia))
  end.
Ltac name_write :=
  match goal with
  | |- context [write_to ?i ?w] =>
      let H := fresh "Hlen" in let j := fresh "image" in let E := fresh "E" in
      assert (length (write_to i w) = STORAGE_IMAGE_LEN) as H by
        (apply write_len; [assumption|first [reflexivity|
           unfold interval; cbn [fst snd]; rewrite length_mirror_wire by done; reflexivity]]);
      remember (write_to i w) as j eqn:E
  end.
Ltac slice_write lo hi w tac :=
  match goal with |- context [in_slice lo hi _ ?i] => is_var i;
    rewrite (in_slice_step lo hi _ w i) by (done || (unfold STORAGE_IMAGE_LEN; lia) || tac) end;
  name_write.

Lemma encode_image_writes s : state_ok s → ∃ crc,
  encode_storage_image s = Ok (write_all (image_writes s crc) (zeros STORAGE_IMAGE_LEN)) ∧
  crc = crc32_without_header_crc (slice 0 (STORAGE_HEADER_LEN + storage_body_len (length (ss_hosts s)))
          (write_all (removelast (image_writes s crc)) (zeros STORAGE_IMAGE_LEN))).
Proof.
  intros Hok. destruct Hok as [Hv Hg Hgl Hr Hp [Ht Hlk Hm] Hh Hc]. pose proof (reg_len _ Hr) as Hpl.
  change INPUT_PROFILE_CAPACITY with 8%nat in Hpl. change STORED_HOSTS_MAX with 4%nat in Hc.
  unfold encode_storage_image. rewrite Hv. cbn [result_bind].
  assert (0 ≤ Z.of_nat (storage_body_len (length (ss_hosts s))) < 1000) as Hbody.
  { unfold storage_body_len, STORAGE_BODY_PREFIX_LEN, STORED_HOST_RECORD_LEN. lia. }
  assert (as_u16 (Z.of_nat (storage_body_len (length (ss_hosts s)))) =
    Z.of_nat (storage_body_len (length (ss_hosts s)))) as -> by (unfold as_u16; apply Z.mod_small; lia).
  assert (as_u8 (Z.of_nat (length (ss_hosts s))) = Z.of_nat (length (ss_hosts s))) as ->
    by (unfold as_u8; apply Z.mod_small; lia).
  assert (as_u8 (Z.of_nat (length (reg_profiles (ss_input_profiles s)))) =
    Z.of_nat (length (reg_profiles (ss_input_profiles s)))) as ->
    by (unfold as_u8; apply Z.mod_small; lia).
  pose proof (length_zeros STORAGE_IMAGE_LEN) as H0. remember (zeros STORAGE_IMAGE_LEN) as image eqn:E0.
  do 6 (as_write; name_write).
  slice_write 18%nat 30%nat (global_wire (ss_global_settings s)) ltac:(intros; by apply encode_global_wire).
  as_write. name_write.
  slice_write 32%nat 33%nat
    [match spc_output_target (ss_presentation s) with StoredWired => 0 | StoredBle slot => slot end]
    ltac:(apply one_byte_step; reflexivity).
  slice_write 33%nat 34%nat [default 0 (spc_wired_ble_host (ss_presentation s))]
    ltac:(apply one_byte_step; reflexivity).
  slice_write 40%nat 64%nat (mirror_wire (spc_mirror_target (ss_presentation s)))
    ltac:(intros; by apply encode_mirror_wire).
  rename Hlen9 into H11.
  rename image10 into i11.
  rewrite (encode_each_writes (λ _, True) encode_input_profile profile_wire); [|by apply Forall_true| | |].
  2: { intros x out _ Ho. by apply encode_profile_wire. }
  2: { done. }
  2: { intros i Hi. rewrite H11. unfold profile_offset_of, STORED_INPUT_PROFILE_LEN, STORAGE_IMAGE_LEN. lia. }
  assert (length (write_all (imap (λ i x, (profile_offset_of (0 + i)%nat, profile_wire x))
     (reg_profiles (ss_input_profiles s))) i11) = STORAGE_IMAGE_LEN) as H12.
  { rewrite length_write_all; [done|]. rewrite H11, map_imap. apply forallb_forall. intros r Hr'.
    apply list_elem_of_In, elem_of_lookup_imap in Hr' as (i & p & -> & Hi). apply lookup_lt_Some in Hi.
    apply bool_decide_eq_true. cbn. unfold profile_offset_of, STORED_INPUT_PROFILE_LEN, STORAGE_IMAGE_LEN. lia. }
  remember (write_all _ i11) as i12 eqn:E12.
  rewrite (encode_each_writes host_ok encode_host_record host_wire); [|done| | |].
  2: { intros x out Hx Ho. by apply encode_host_wire. }
  2: { intros x Hx. by apply length_host_wire. }
  2: { intros i Hi. rewrite H12.
       unfold host_offset_of, STORAGE_HEADER_LEN, STORAGE_BODY_PREFIX_LEN, STORED_HOST_RECORD_LEN, STORAGE_IMAGE_LEN. lia. }
  remember (write_all _ i12) as i13 eqn:E13. eexists. split.
  - f_equal. subst. unfold image_writes, write_all. rewrite !fold_left_app. reflexivity.
  - f_equal. f_equal. subst. unfold image_writes. rewrite !app_assoc, removelast_last.
    unfold write_all. rewrite !fold_left_app. reflexivity.
Qed.

(** ** The CRC does not cover its own field *)

Lemma header_crc_eq a c b : length a = 12%nat → length c = 4%nat →
  crc32_without_header_crc (a ++ c ++ b) = crc32_ieee (a ++ b).
Proof.
  intros Ha Hc. unfold crc32_without_header_crc. rewrite !fold_indexed_app.
  rewrite (fold_indexed_ext header_crc_byte crc32_byte a), (fold_indexed_ext header_crc_byte crc32_byte b).
  - rewrite crc32_ieee_eq, fold_left_app. do 2 f_equal. rewrite Ha. by explode c Hc.
  - intros i x acc Hi. unfold header_crc_byte. by rewrite decide_False by lia.
  - intros i x acc Hi. unfold header_crc_byte. by rewrite decide_False by lia.
Qed.

Lemma header_crc_blit image c total : length c = 4%nat → (16 ≤ total ≤ length image)%nat →
  crc32_without_header_crc (slice 0 total (blit 12 c image)) =
  crc32_without_header_crc (slice 0 total image).
Proof.
  intros Hc Ht. assert (length (blit 12 c image) = length image) as Hl by (apply length_blit; lia).
  rewrite <- (slice_split 0 12 total (blit 12 c image)), <- (slice_split 12 16 total (blit 12 c image)) by lia.
  rewrite <- (slice_split 0 12 total image), <- (slice_split 12 16 total image) by lia.
  rewrite !header_crc_eq by (rewrite length_slice; lia).
  by rewrite (slice_blit_out 0 12), (slice_blit_out 16 total) by lia.
Qed.

Lemma header_crc_u32 image : bytes_ok image → u32_ok (crc32_without_header_crc image).
Proof.
  intros H. unfold crc32_without_header_crc.
  assert (∀ l k acc, u32_ok acc → bytes_ok l →
    u32_ok (fold_left header_crc_byte (combine (seq k (length l)) l) acc)) as Hf.
  { induction l as [|x l IH]; intros k acc Ha Hl; [done|]. apply List.Forall_cons_iff in Hl as [Hx Hl].
    cbn [length seq combine]. rewrite fold_left_cons_eq. apply IH; [|done]. unfold header_crc_byte.
    case_decide; [done|]. apply (crc32_fold_ok [x]); [done|]. by constructor. }
  apply lxor_u32; [by apply Hf|done].
Qed.

(** ** Reading the image back *)

(** What a restart keeps of the registry: profiles disconnected, transform state reset, and the
    sequence one past the newest profile. *)
Definition durable_registry (profiles : list InputProfile) : InputProfileRegistry :=
  mkRegistry (map restored_profile profiles)
    (fold_left (λ next p, Z.max next ((ip_last_seen p + 1) mod 2 ^ 64)) profiles 1).

Definition durable (s : StorageState) : StorageState :=
  s <| ss_input_profiles := durable_registry (reg_profiles (ss_input_profiles s)) |>.

Lemma map_restored_ids ps : map ip_id (map restored_profile ps) = map ip_id ps.
Proof. rewrite map_map. by apply map_ext. Qed.
Lemma map_restored_identities ps : map ip_identity (map restored_profile ps) = map ip_identity ps.
Proof. rewrite map_map. by apply map_ext. Qed.

Lemma restore_next pre p : NoDup (map ip_id (pre ++ [p])) → NoDup (map ip_identity (pre ++ [p])) →
  (length pre < INPUT_PROFILE_CAPACITY)%nat →
  registry_restore (durable_registry pre) (restored_profile p) = (durable_registry (pre ++ [p]), Ok tt).
Proof.
  intros Hid Hident Hl. unfold registry_restore.
  rewrite map_app in Hid, Hident. apply list.NoDup_app in Hid as (_ & Hid & _), Hident as (_ & Hident & _).
  assert (existsb (λ item, bool_decide (ip_id item = ip_id (restored_profile p)))
    (reg_profiles (durable_registry pre)) = false) as ->.
  { apply existsb_not_elem. cbn [durable_registry reg_profiles]. rewrite map_restored_ids.
    intros Hin. apply (Hid _ Hin). apply list_elem_of_here. }
  assert (existsb (λ item, bool_decide (ip_identity item = ip_identity (restored_profile p)))
    (reg_profiles (durable_registry pre)) = false) as ->.
  { apply existsb_not_elem. cbn [durable_registry reg_profiles]. rewrite map_restored_identities.
    intros Hin. apply (Hident _ Hin). apply list_elem_of_here. }
  unfold upd, vec_push. cbn [reg_profiles reg_next_sequence durable_registry].
  rewrite length_map. rewrite decide_True by done. unfold durable_registry.
  by rewrite map_app, fold_left_app.
Qed.

Lemma decode_profiles_wire image pre rest : Forall profile_ok rest →
  NoDup (map ip_id (pre ++ rest)) → NoDup (map ip_identity (pre ++ rest)) →
  (length (pre ++ rest) ≤ INPUT_PROFILE_CAPACITY)%nat →
  (∀ i p, rest !! i = Some p → slice (profile_offset_of (length pre + i))
     (profile_offset_of (length pre + i) + STORED_INPUT_PROFILE_LEN) image = profile_wire p) →
  decode_profiles image (seq (length pre) (length rest)) (durable_registry pre) =
  Ok (durable_registry (pre ++ rest)).
Proof.
  revert pre. induction rest as [|p rest IH]; intros pre Hp Hid Hident Hl Hs; cbn [length seq decode_profiles].
  { by rewrite app_nil_r. }
  apply List.Forall_cons_iff in Hp as [Hp1 Hp].
  pose proof (Hs 0%nat p eq_refl) as H0. rewrite Nat.add_0_r in H0. rewrite H0, decode_profile_wire by done.
  cbn [result_bind]. rewrite cons_middle, app_assoc in Hid, Hident, Hl.
  rewrite restore_next.
  - replace (S (length pre)) with (length (pre ++ [p])) by (rewrite length_app; cbn; lia).
    rewrite IH; [by rewrite <- app_assoc|done..|].
    intros i q Hq. rewrite length_app. cbn [length]. specialize (Hs (S i) q Hq).
    by replace (length pre + 1 + i)%nat with (length pre + S i)%nat by lia.
  - rewrite map_app in Hid. by apply list.NoDup_app in Hid as (Hid & _ & _).
  - rewrite map_app in Hident. by apply list.NoDup_app in Hident as (Hident & _ & _).
  - rewrite !length_app in Hl. cbn in Hl. lia.
Qed.

Lemma decode_hosts_wire image state rest : Forall host_ok rest →
  (length (ss_hosts state ++ rest) ≤ STORED_HOSTS_MAX)%nat →
  (∀ i h, rest !! i = Some h → slice (host_offset_of (length (ss_hosts state) + i))
     (host_offset_of (length (ss_hosts state) + i) + STORED_HOST_RECORD_LEN) image = host_wire h) →
  decode_hosts image (seq (length (ss_hosts state)) (length rest)) state =
  Ok (state <| ss_hosts ::= λ hosts, hosts ++ rest |>).
Proof.
  revert state. induction rest as [|h rest IH]; intros state Hh Hl Hs; cbn [length seq decode_hosts].
  { destruct state. unfold upd, eta_StorageState. cbn. by rewrite app_nil_r. }
  apply List.Forall_cons_iff in Hh as [Hh1 Hh].
  pose proof (Hs 0%nat h eq_refl) as H0. rewrite Nat.add_0_r in H0. rewrite H0, decode_host_wire by done.
  cbn [result_bind]. unfold push_host, vec_push. rewrite length_app in Hl. cbn in Hl. rewrite decide_True by lia.
  set (next := state <| ss_hosts := _ |>).
  assert (ss_hosts next = ss_hosts state ++ [h]) as Hn by done.
  replace (S (length (ss_hosts state))) with (length (ss_hosts next)) by (rewrite Hn, length_app; cbn; lia).
  rewrite IH; [|done|rewrite Hn, !length_app; cbn; lia|].
  - f_equal. unfold next, upd, eta_StorageState. cbn. by rewrite <- app_assoc.
  - intros i q Hq. rewrite Hn, length_app. cbn [length]. specialize (Hs (S i) q Hq).
    by replace (length (ss_hosts state) + 1 + i)%nat with (length (ss_hosts state) + S i)%nat by lia.
Qed.

Lemma u64_to_le_bytes_ok x : bytes_ok (u64_to_le_bytes x).
Proof. apply bytes_ok_app. split; apply u32_to_le_bytes_ok. Qed.

Lemma bond_wire_ok bond : (∀ b, bond = Some b → bond_ok b) → bytes_ok (bond_wire bond).
Proof.
  intros Hok. destruct bond as [b|]; [|apply bytes_ok_zeros]. destruct (Hok b eq_refl) as [[_ Ha] Hi [_ Hk]].
  unfold bond_wire. rewrite !bytes_ok_app. split; [by repeat constructor|]. split; [done|].
  split; [constructor; [apply bool_byte_ok|constructor]|].
  split; [destruct (sb_peer_irk b) as [irk|]; [by destruct (Hi irk eq_refl)|apply bytes_ok_zeros]|].
  split; [done|]. destruct b as [? kind ? ? bonded level]; destruct kind, level, bonded; by repeat constructor.
Qed.

Lemma host_wire_ok h : host_ok h → bytes_ok (host_wire h).
Proof.
  intros [Hid [Hlen [_ Hn]] Hb]. unfold host_wire. rewrite !bytes_ok_app.
  split; [|by split; [|apply bond_wire_ok]].
  repeat constructor; try apply bool_byte_ok; try done; words.
Qed.

Lemma global_wire_ok s : global_ok s → bytes_ok (global_wire s).
Proof.
  intros [H1 H2 H3 H4 H5 H6]. unfold global_wire. rewrite !bytes_ok_app.
  split; [|split; [apply u16_to_le_bytes_ok|]]; repeat constructor; try apply bool_byte_ok; words.
Qed.

Lemma profile_wire_ok p : profile_ok p → bytes_ok (profile_wire p).
Proof.
  intros [H1 _ _ _ _ [H2 H3 H4 _ _ _ _ _]]. apply InputProfileId_new_spec in H1 as [_ H1].
  unfold profile_wire, input_settings_wire. rewrite !bytes_ok_app.
  repeat match goal with |- _ ∧ _ => split | |- bytes_ok (u16_to_le_bytes _) => apply u16_to_le_bytes_ok
    | |- bytes_ok (u64_to_le_bytes _) => apply u64_to_le_bytes_ok end; repeat constructor; words.
Qed.

Lemma mirror_wire_ok t : (∀ m, t = Some m → mirror_id_ok m) → bytes_ok (mirror_wire t).
Proof.
  intros Hok. destruct t as [m|]; [|apply bytes_ok_zeros].
  destruct (mirror_id_shape m (Hok m eq_refl)) as (Hl & _ & _). destruct (Hok m eq_refl) as [_ _ _ _ _ Hp _].
  unfold mirror_wire. rewrite !bytes_ok_app. split.
  - destruct (ms_serial_hash m); (constructor; [by vm_compute|]); repeat constructor; words.
  - repeat split; try apply u16_to_le_bytes_ok; try apply u32_to_le_bytes_ok; [done|].
    repeat constructor; words.
Qed.

Lemma write_all_ok writes image : Forall (λ w, bytes_ok w.2) writes → bytes_ok image →
  bytes_ok (write_all writes image).
Proof.
  revert image. induction writes as [|w ws IH]; intros image Hw Hi; [done|].
  apply List.Forall_cons_iff in Hw as [Hw Hws]. apply IH; [done|]. by apply bytes_ok_blit.
Qed.

Lemma Forall_imap {A B} (P : B → Prop) (f : nat → A → B) l :
  (∀ i x, l !! i = Some x → P (f i x)) → Forall P (imap f l).
Proof.
  intros H. apply Forall_lookup_2. intros i y Hy. rewrite list_lookup_imap in Hy.
  destruct (l !! i) as [x|] eqn:Hx; [|done]. injection Hy as <-. by apply H.
Qed.

Definition image_of (s : StorageState) (crc : Z) : list Z :=
  write_all (image_writes s crc) (zeros STORAGE_IMAGE_LEN).

Lemma image_in_bounds s crc : state_ok s →
  forallb (within (length (zeros STORAGE_IMAGE_LEN))) (map interval (image_writes s crc)) = true ∧
  all_apart (map interval (image_writes s crc)) = true.
Proof.
  intros Hok. rewrite image_writes_ranges, length_zeros by done.
  destruct (image_ranges_apart (length (reg_profiles (ss_input_profiles s))) (length (ss_hosts s))).
  - apply Hok.
  - apply Hok.
  - done.
Qed.

Lemma image_length s crc : state_ok s → length (image_of s crc) = STORAGE_IMAGE_LEN.
Proof.
  intros Hok. destruct (image_in_bounds s crc Hok) as [Hb _].
  unfold image_of. rewrite length_write_all by done. apply length_zeros.
Qed.

Lemma image_slice s crc off hi w : state_ok s → (off, w) ∈ image_writes s crc → hi = (off + length w)%nat →
  slice off hi (image_of s crc) = w.
Proof.
  intros Hok Hin ->. destruct (image_in_bounds s crc Hok) as [Hb Ha]. by apply slice_write_all.
Qed.

Lemma image_byte s crc off x : state_ok s → (off, [x]) ∈ image_writes s crc → byte_at (image_of s crc) off = x.
Proof.
  intros Hok Hin. pose proof (image_slice s crc off (off + 1) [x] Hok Hin eq_refl) as H.
  destruct (decide (off < STORAGE_IMAGE_LEN)%nat) as [Hl|Hl].
  - rewrite byte_at_slice in H by (by rewrite image_length). by injection H.
  - apply (f_equal length) in H. unfold slice in H. rewrite length_take, length_drop, image_length in H by done.
    cbn [length] in H. lia.
Qed.

(** Everything written but the CRC is bytes. *)
Lemma image_writes_bytes s : state_ok s →
  Forall (λ w, bytes_ok w.2) (removelast (image_writes s 0)).
Proof.
  intros [Hv Hg Hgl Hr Hp [Ht Hlk Hm] Hh Hc].
  pose proof (reg_len _ Hr) as Hpl. change INPUT_PROFILE_CAPACITY with 8%nat in Hpl.
  change STORED_HOSTS_MAX with 4%nat in Hc.
  unfold image_writes. rewrite !app_assoc, removelast_last, !Forall_app. split; [split|].
  - repeat match goal with |- Forall _ ((_, _) :: _) => apply List.Forall_cons; cbn [snd] end;
      try apply u16_to_le_bytes_ok; try apply u32_to_le_bytes_ok; [..|constructor].
    + by repeat constructor.
    + repeat constructor; words.
    + constructor; [|constructor]. destruct (ss_last_active_host s) as [a|] eqn:Ha; [|by cbn].
      unfold validate_state in Hv. destruct (validate_hosts _ _); [|done]. cbn [result_bind] in Hv.
      rewrite Ha in Hv. destruct (existsb _ _) eqn:He; [|done]. apply existsb_exists in He as (h & Hin & Hid).
      apply bool_decide_eq_true in Hid. cbn.
      rewrite <- Hid. by apply (proj1 (List.Forall_forall _ _) Hh).
    + by apply global_wire_ok.
    + repeat constructor; words.
    + constructor; [|constructor]. pose proof (slot_of_target _ Ht). words.
    + constructor; [|constructor]. destruct (spc_wired_ble_host _) as [x|]; [|by cbn].
      specialize (Hlk x eq_refl). unfold slot_ok in Hlk. cbn. words.
    + by apply mirror_wire_ok.
  - apply Forall_imap. intros i p Hi. cbn. apply profile_wire_ok. by apply (Forall_lookup_1 _ _ _ _ Hp Hi).
  - apply Forall_imap. intros i p Hi. cbn. apply host_wire_ok. by apply (Forall_lookup_1 _ _ _ _ Hh Hi).
Qed.

Lemma image_writes_split s crc : image_writes s crc =
  removelast (image_writes s 0) ++ [(12%nat, u32_to_le_bytes crc)].
Proof. unfold image_writes. by rewrite !app_assoc, removelast_last. Qed.

Lemma image_before_crc s : state_ok s →
  bytes_ok (write_all (removelast (image_writes s 0)) (zeros STORAGE_IMAGE_LEN)) ∧
  length (write_all (removelast (image_writes s 0)) (zeros STORAGE_IMAGE_LEN)) = STORAGE_IMAGE_LEN.
Proof.
  intros Hok. split; [apply write_all_ok; [by apply image_writes_bytes|apply bytes_ok_zeros]|].
  destruct (image_in_bounds s 0 Hok) as [Hb _]. rewrite image_writes_split, map_app, forallb_app in Hb.
  apply andb_true_iff in Hb as [Hb _]. rewrite length_write_all by done. apply length_zeros.
Qed.

Lemma image_of_crc s crc : image_of s crc =
  blit 12 (u32_to_le_bytes crc) (write_all (removelast (image_writes s 0)) (zeros STORAGE_IMAGE_LEN)).
Proof. unfold image_of. rewrite image_writes_split. unfold write_all. by rewrite fold_left_app. Qed.

Lemma image_profile s crc i p : state_ok s → reg_profiles (ss_input_profiles s) !! i = Some p →
  slice (profile_offset_of i) (profile_offset_of i + STORED_INPUT_PROFILE_LEN) (image_of s crc) = profile_wire p.
Proof.
  intros Hok Hi. apply image_slice; [done| |done]. unfold image_writes.
  apply elem_of_app. right. apply elem_of_app. left. apply elem_of_lookup_imap. by exists i, p.
Qed.

Lemma image_host s crc i h : state_ok s → ss_hosts s !! i = Some h →
  slice (host_offset_of i) (host_offset_of i + STORED_HOST_RECORD_LEN) (image_of s crc) = host_wire h.
Proof.
  intros Hok Hi. apply image_slice; [done| |].
  - unfold image_writes. apply elem_of_app. right. apply elem_of_app. right. apply elem_of_app. left.
    apply elem_of_lookup_imap. by exists i, h.
  - rewrite length_host_wire; [done|]. by apply (Forall_lookup_1 _ _ _ _ (state_hosts _ Hok) Hi).
Qed.

(** One of the fixed fields. *)
Ltac fixed_field := unfold image_writes; apply elem_of_app; left;
  repeat first [apply list_elem_of_here|apply list_elem_of_further].

Lemma slot_decoded slot : slot_ok slot → HostSlot_try_from slot = Ok slot.
Proof. unfold slot_ok, HostSlot_try_from. intros H. by rewrite decide_True by (unfold HOST_SLOT_MIN, HOST_SLOT_MAX; lia). Qed.

Lemma decode_target_field t : (∀ slot, t = StoredBle slot → slot_ok slot) →
  decode_output_target [match t with StoredWired => 0 | StoredBle slot => slot end] = Ok t.
Proof.
  intros H. unfold decode_output_target. change (byte_at [?x] 0) with x.
  destruct t as [|slot]; [done|]. pose proof (H slot eq_refl) as Hs. unfold slot_ok in Hs.
  change (byte_at [slot] 0) with slot.
  rewrite decide_False by lia. rewrite decide_True by lia. by rewrite slot_decoded.
Qed.

Lemma decode_link_field host : (∀ slot, host = Some slot → slot_ok slot) →
  decode_wired_ble_host [default 0 host] = Ok host.
Proof.
  intros H. unfold decode_wired_ble_host. destruct host as [slot|]; [|done].
  pose proof (H slot eq_refl) as Hs. unfold slot_ok in Hs. change (byte_at [default 0 (Some slot)] 0) with slot.
  rewrite decide_False by lia. rewrite decide_True by lia. by rewrite slot_decoded.
Qed.

Lemma validate_durable s : validate_state (durable s) = validate_state s.
Proof. done. Qed.

(** An active host is one of the hosts, so its number is not the marker 0xff. *)
Lemma validate_hosts_ids hosts seen : validate_hosts hosts seen = Ok tt →
  Forall (λ h, sh_host_id h ≠ 0 ∧ (Z.to_nat (sh_host_id h - 1) < length seen)%nat) hosts.
Proof.
  revert seen. induction hosts as [|h hosts IH]; intros seen H; [constructor|]. cbn [validate_hosts] in H.
  case_bool_decide as H0; [done|]. destruct (seen !! _) as [b|] eqn:Hs; [|done]. destruct b; [done|].
  apply lookup_lt_Some in Hs as Hl. specialize (IH _ H). rewrite length_insert in IH.
  constructor; [done|exact IH].
Qed.

Lemma active_decoded s : validate_state s = Ok tt →
  (if decide (default 0xff (ss_last_active_host s) = 0xff) then None
   else Some (default 0xff (ss_last_active_host s))) = ss_last_active_host s.
Proof.
  unfold validate_state. intros H. destruct (validate_hosts _ _) as [[]|] eqn:Hv; [|done].
  cbn [result_bind] in H. destruct (ss_last_active_host s) as [a|]; [|done]. cbn [default from_option id].
  rewrite decide_False; [done|]. intros ->. destruct (existsb _ _) eqn:He; [|done].
  apply existsb_exists in He as (h & Hin & Hid). apply bool_decide_eq_true in Hid.
  apply validate_hosts_ids in Hv. apply (proj1 (List.Forall_forall _ _) Hv) in Hin as [_ Hl].
  rewrite Hid in Hl. change (length (replicate STORED_HOSTS_MAX false)) with 4%nat in Hl. lia.
Qed.

Lemma decode_image_of s crc : state_ok s → u32_ok crc →
  crc = crc32_without_header_crc (slice 0 (STORAGE_HEADER_LEN + storage_body_len (length (ss_hosts s))) (image_of s crc)) →
  decode_storage_image (image_of s crc) = Ok (durable s).
Proof.
  intros Hok Hcrc Hc. pose proof Hok as [Hv Hg Hgl Hr Hp [Ht Hlk Hm] Hh Hhc].
  pose proof (reg_len _ Hr) as Hpl. change INPUT_PROFILE_CAPACITY with 8%nat in Hpl.
  assert (length (ss_hosts s) ≤ 4)%nat as Hh4 by (change STORED_HOSTS_MAX with 4%nat in Hhc; done).
  unfold decode_storage_image. rewrite decide_False by (rewrite image_length by done; lia).
  rewrite (image_slice s crc 0 4 STORAGE_MAGIC) by (done || fixed_field).
  rewrite decide_False by tauto.
  rewrite (image_slice s crc 4 6 (u16_to_le_bytes 1)) by (done || fixed_field).
  rewrite decide_False by (intros H; by apply H).
  rewrite (image_slice s crc 6 8 (u16_to_le_bytes (Z.of_nat (storage_body_len (length (ss_hosts s))))))
    by (done || fixed_field).
  assert (0 ≤ Z.of_nat (storage_body_len (length (ss_hosts s))) < 1000 ∧
    body_len_is_valid (storage_body_len (length (ss_hosts s))) = true) as [Hbody Hvalid].
  { unfold body_len_is_valid. rewrite !andb_true_iff, !bool_decide_eq_true. change STORED_HOSTS_MAX with 4%nat.
    unfold storage_body_len, STORAGE_BODY_PREFIX_LEN, STORED_HOST_RECORD_LEN, STORAGE_IMAGE_LEN, STORAGE_HEADER_LEN.
    lia. }
  rewrite u16_back by words. rewrite Nat2Z.id, Hvalid. cbn [negb].
  rewrite (image_slice s crc 12 16 (u32_to_le_bytes crc)) by
    (done || (unfold image_writes; rewrite !elem_of_app; right; right; right; by apply list_elem_of_singleton)).
  rewrite u32_back by done. rewrite <- Hc. rewrite decide_False by tauto.
  rewrite (image_byte s crc 16 (Z.of_nat (length (ss_hosts s)))) by (done || fixed_field).
  rewrite Nat2Z.id. rewrite decide_False by lia. rewrite decide_False by tauto.
  rewrite (image_slice s crc 8 12 (u32_to_le_bytes (ss_generation s))) by (done || fixed_field).
  rewrite u32_back by done.
  rewrite (image_byte s crc 17 (default 0xff (ss_last_active_host s))) by (done || fixed_field).
  rewrite active_decoded by done.
  rewrite (image_slice s crc 18 30 (global_wire (ss_global_settings s))) by (done || fixed_field).
  rewrite decode_global_wire by done. cbn [result_bind].
  rewrite (image_byte s crc 30 (Z.of_nat (length (reg_profiles (ss_input_profiles s))))) by (done || fixed_field).
  rewrite Nat2Z.id. rewrite decide_False by (unfold INPUT_PROFILE_CAPACITY; lia).
  rewrite (image_slice s crc 32 33 [match spc_output_target (ss_presentation s) with
    StoredWired => 0 | StoredBle slot => slot end]) by (done || fixed_field).
  rewrite decode_target_field by done. cbn [result_bind].
  rewrite (image_slice s crc 33 34 [default 0 (spc_wired_ble_host (ss_presentation s))]) by (done || fixed_field).
  rewrite decode_link_field by done. cbn [result_bind].
  rewrite (image_slice s crc 40 64 (mirror_wire (spc_mirror_target (ss_presentation s))))
    by (done || fixed_field || by rewrite length_mirror_wire).
  rewrite decode_mirror_wire by done. cbn [result_bind].
  match goal with |- context [decode_profiles _ _ ?r] => change r with (durable_registry []) end.
  rewrite (decode_profiles_wire _ [] (reg_profiles (ss_input_profiles s))); [|done|by destruct Hr..|].
  2: { intros i p Hi. by apply image_profile. }
  cbn [result_bind app].
  match goal with |- context [decode_hosts _ _ ?st] =>
    pose proof (decode_hosts_wire (image_of s crc) st (ss_hosts s) Hh Hhc
      ltac:(intros i h Hi; by apply image_host)) as Hd end.
  cbn [length] in Hd. etransitivity; [apply (f_equal (λ m, result_bind m _)), Hd|]. cbn [result_bind].
  destruct s as [g a gs [ps n] [t l m] hs]. unfold upd, eta_StorageState. cbn -[validate_state].
  cbn in Hv. unfold durable, upd. cbn -[validate_state].
  assert (validate_state (mkStorageState g a gs (durable_registry ps) (mkPresentationConfig t l m) hs) = Ok tt)
    as -> by (rewrite <- Hv; done). done.
Qed.

(** ** What the decoder accepts *)

Lemma slice_array_ok lo hi n record : bytes_ok record → (hi ≤ length record)%nat → n = (hi - lo)%nat →
  array_ok n (slice lo hi record).
Proof. intros Hb Hl ->. split; [by apply length_slice|by apply bytes_ok_slice]. Qed.

Lemma read_u16_ok l : bytes_ok l → u16_ok (read_u16 l).
Proof. intros H. apply u16_from_le_ok; by apply byte_at_ok. Qed.
Lemma read_u32_ok l : bytes_ok l → u32_ok (read_u32 l).
Proof. intros H. apply u32_from_le_ok; by apply byte_at_ok. Qed.
Lemma read_u64_ok l : bytes_ok l → u64_ok (read_u64 l).
Proof.
  intros H. pose proof (read_u32_ok (slice 0 4 l) ltac:(by apply bytes_ok_slice)) as H1.
  pose proof (read_u32_ok (slice 4 8 l) ltac:(by apply bytes_ok_slice)) as H2.
  unfold read_u64, u64_ok, u32_ok in *. lia.
Qed.
#[local] Hint Resolve read_u16_ok read_u32_ok read_u64_ok slice_array_ok : hid.

Lemma decode_bond_inv record bond : bytes_ok record → length record = STORED_BOND_LEN →
  decode_bond record = Ok bond → ∀ b, bond = Some b → bond_ok b.
Proof.
  intros Hb Hl H b ->. unfold decode_bond in H. destruct (bool_decide _); [done|].
  inv_ok H. subst b. unfold STORED_BOND_LEN in Hl. split; cbn [sb_peer_address sb_peer_irk sb_ltk].
  - apply slice_array_ok; [done|lia|done].
  - intros irk. destruct (bool_decide _); [done|]. intros [= <-]. apply slice_array_ok; [done|lia|done].
  - apply slice_array_ok; [done|lia|done].
Qed.

Lemma decode_host_inv record h : bytes_ok record → length record = STORED_HOST_RECORD_LEN →
  decode_host_record record = Ok h → host_ok h.
Proof.
  intros Hb Hl H. unfold decode_host_record in H. unfold STORED_HOST_RECORD_LEN in Hl.
  destruct (decide (Z.of_nat MAX_HOST_NAME_LEN < byte_at record 6)) as [|Hn]; [done|].
  destruct (decode_bond _) as [bond|] eqn:Hd; [|done]. cbn [result_bind] in H. injection H as <-.
  change (Z.of_nat MAX_HOST_NAME_LEN) with 32 in Hn.
  pose proof (byte_at_ok record 6 Hb) as H6. split; cbn [sh_host_id sh_name sh_bond].
  - by apply byte_at_ok.
  - split; [cbn; words|]. apply slice_array_ok; [done| |done]. unfold MAX_HOST_NAME_LEN. lia.
  - eapply decode_bond_inv; [| |exact Hd]; [by apply bytes_ok_slice|].
    unfold STORED_BOND_LEN. rewrite length_slice; lia.
Qed.

Lemma decode_global_inv bytes s : bytes_ok bytes → decode_global_settings bytes = Ok s → global_ok s.
Proof.
  intros Hb H. unfold decode_global_settings in H.
  pose proof (byte_at_ok bytes) as Hat. pose proof (read_u16_ok (slice 3 5 bytes) ltac:(by apply bytes_ok_slice)).
  generalize dependent (read_u16 (slice 3 5 bytes)). intros delay H Hdelay.
  case_decide as Hd; [done|]. injection H as <-. cbn in Hd.
  pose proof (Hat 0%nat Hb). pose proof (Hat 5%nat Hb). pose proof (Hat 6%nat Hb). pose proof (Hat 7%nat Hb).
  pose proof (Hat 8%nat Hb). unfold u8_ok, u16_ok in *. split; cbn; lia.
Qed.

Lemma shortcut_unpacked_ok v s : u16_ok v → shortcut_from_packed v = Some s → shortcut_ok s.
Proof. intros Hv H. by destruct (shortcut_from_packed_ok v s Hv H). Qed.

Lemma decode_profile_inv bytes p : bytes_ok bytes → decode_input_profile bytes = Ok p →
  profile_ok p ∧ p = restored_profile p.
Proof.
  intros Hb H. unfold decode_input_profile in H.
  destruct (InputProfileId_new (byte_at bytes 0)) as [i|] eqn:Hid; [|done]. cbn [result_bind] in H.
  destruct (decode_input_settings _) as [s|] eqn:Hs; [|done]. cbn [result_bind] in H.
  destruct (shortcut_from_packed _) as [k|] eqn:Hk; [|done]. cbn [result_bind] in H. injection H as <-.
  split; [|done]. apply shortcut_unpacked_ok in Hk; [|apply read_u16_ok; by apply bytes_ok_slice].
  assert (i = byte_at bytes 0) as Hi by (by apply InputProfileId_new_spec in Hid as [-> _]).
  unfold decode_input_settings in Hs. set (b := slice 24 36 bytes) in *.
  assert (bytes_ok b) as Hbb by by apply bytes_ok_slice.
  pose proof (read_u16_ok (slice 8 10 b) ltac:(by apply bytes_ok_slice)) as H8.
  pose proof (read_u16_ok (slice 10 12 b) ltac:(by apply bytes_ok_slice)) as H10.
  clearbody b. revert Hs H8 H10. generalize (read_u16 (slice 8 10 b)), (read_u16 (slice 10 12 b)),
    (read_u16 (slice 6 8 b)), (read_u16 (slice 4 6 b)). intros from to scroll mouse Hs H8 H10.
  case_decide as Hd; [done|]. injection Hs as <-. cbn in Hd. split; cbn [ip_id restored ip_identity ident_vendor_id ident_product_id ident_instance_hash ip_last_seen ip_settings].
  - by rewrite Hi in *.
  - apply read_u16_ok; by apply bytes_ok_slice.
  - apply read_u16_ok; by apply bytes_ok_slice.
  - apply read_u64_ok; by apply bytes_ok_slice.
  - apply read_u64_ok; by apply bytes_ok_slice.
  - pose proof (byte_at_ok b 0 Hbb) as H0.
    unfold u8_ok, u16_ok in H0, H8, H10. unfold byte_at in *. cbn in H0, Hd. split; cbn; [lia|by apply byte_at_ok|by apply byte_at_ok|lia..|done].
Qed.

Lemma decode_mirror_inv bytes t : bytes_ok bytes → decode_mirror_target bytes = Ok t →
  ∀ m, t = Some m → mirror_id_ok m.
Proof.
  intros Hb H m ->. unfold decode_mirror_target in H. case_decide; [done|]. case_decide as Hl; [done|].
  set (serial := if bool_decide _ then _ else _) in *.
  assert (∀ h, serial = Some h → u32_ok h) as Hserial.
  { unfold serial. destruct (bool_decide _); [|done]. intros h [= <-]. apply read_u32_ok. by apply bytes_ok_slice. }
  clearbody serial. set (path := slice 14 _ bytes) in *.
  assert (bytes_ok path) as Hpath by by apply bytes_ok_slice. clearbody path.
  destruct (MirrorStableId_new _ _ _ _ path) as [id|] eqn:Hn; [|done]. cbn in H. injection H as ->.
  pose proof Hn as Hn'. unfold MirrorStableId_new in Hn'. case_decide as H1; [done|]. case_decide as H2; [done|].
  injection Hn' as <-. unfold MIRROR_PORT_PATH_MAX_LEN in H1.
  assert (as_u8 (Z.of_nat (length path)) = Z.of_nat (length path)) as Hlen
    by (unfold as_u8; apply Z.mod_small; change (2 ^ 8) with 256; lia).
  split; cbn [ms_vendor_id ms_product_id ms_serial_hash ms_descriptor_hash ms_port_path_len ms_port_path].
  - apply read_u16_ok; by apply bytes_ok_slice.
  - apply read_u16_ok; by apply bytes_ok_slice.
  - done.
  - apply read_u32_ok; by apply bytes_ok_slice.
  - rewrite Hlen. lia.
  - apply bytes_ok_blit; [done|apply bytes_ok_zeros].
  - unfold ms_path. cbn [ms_port_path_len ms_port_path]. rewrite Hlen, Nat2Z.id, take_blit by done. by rewrite Hlen in Hn.
Qed.

Lemma decode_profiles_inv image indexes r r' : bytes_ok image →
  reg_inv r → Forall profile_ok (reg_profiles r) → durable_registry (reg_profiles r) = r →
  decode_profiles image indexes r = Ok r' →
  reg_inv r' ∧ Forall profile_ok (reg_profiles r') ∧ durable_registry (reg_profiles r') = r'.
Proof.
  intros Hb. revert r. induction indexes as [|i indexes IH]; intros r Hr Hp Hd H; cbn [decode_profiles] in H.
  { by injection H as <-. }
  destruct (decode_input_profile _) as [p|] eqn:Hpd; [|done]. cbn [result_bind] in H.
  apply decode_profile_inv in Hpd as [Hpok Hpr]; [|by apply bytes_ok_slice].
  pose proof (registry_op_inv r (OpRestore p) Hr ltac:(by eexists; apply Hpok)) as Hr1. cbn [registry_op] in Hr1.
  destruct (registry_restore r p) as [r1 [[]|]] eqn:Hre; [|done]. cbn [fst] in Hr1.
  apply (IH r1); try done.
  - unfold registry_restore in Hre. destruct (existsb _ _); [done|]. destruct (existsb _ _); [done|].
    destruct (vec_push _ _ _) eqn:Hv; [|done]. apply vec_push_Some in Hv as [_ ->]. apply pair_eq in Hre as [<- _].
    unfold upd. cbn. apply Forall_app. split; [done|by constructor].
  - unfold registry_restore in Hre. destruct (existsb _ _); [done|]. destruct (existsb _ _); [done|].
    destruct (vec_push _ _ _) eqn:Hv; [|done]. apply vec_push_Some in Hv as [_ ->]. apply pair_eq in Hre as [<- _].
    unfold upd. cbn. unfold durable_registry in *. rewrite map_app, fold_left_app. destruct r as [ps n]. cbn in *.
    injection Hd as Hd1 Hd2. rewrite Hd1, Hd2. cbn. by rewrite <- Hpr.
Qed.

Lemma decode_hosts_inv image indexes s s' : bytes_ok image →
  (∀ i, i ∈ indexes → host_offset_of i + STORED_HOST_RECORD_LEN ≤ length image)%nat →
  Forall host_ok (ss_hosts s) → (length (ss_hosts s) ≤ STORED_HOSTS_MAX)%nat →
  decode_hosts image indexes s = Ok s' →
  ∃ hosts, s' = s <| ss_hosts := hosts |> ∧ Forall host_ok hosts ∧ (length hosts ≤ STORED_HOSTS_MAX)%nat.
Proof.
  intros Hb. revert s. induction indexes as [|i indexes IH]; intros s Hi Hh Hl H; cbn [decode_hosts] in H.
  { injection H as <-. exists (ss_hosts s). by destruct s. }
  destruct (decode_host_record _) as [h|] eqn:Hd; [|done]. cbn [result_bind] in H.
  apply decode_host_inv in Hd; [|by apply bytes_ok_slice|].
  2: { pose proof (Hi i ltac:(apply list_elem_of_here)). rewrite length_slice by done. lia. }
  unfold push_host in H. destruct (vec_push _ _ _) as [hosts|] eqn:Hv; [|done].
  apply vec_push_Some in Hv as [Hlt ->].
  apply IH in H.
  - destruct H as (hosts & -> & H1 & H2). by exists hosts.
  - intros j Hj. apply Hi. by apply list_elem_of_further.
  - unfold upd. cbn. apply Forall_app. split; [done|by constructor].
  - unfold upd. cbn. rewrite length_app. cbn. lia.
Qed.

Lemma decode_target_inv bytes t : decode_output_target bytes = Ok t → ∀ slot, t = StoredBle slot → slot_ok slot.
Proof.
  unfold decode_output_target, HostSlot_try_from. intros H slot ->. case_decide; [done|].
  case_decide as Hs; [|done]. case_decide; [|done]. cbn in H. injection H as <-. done.
Qed.

Lemma decode_link_inv bytes t : decode_wired_ble_host bytes = Ok t → ∀ slot, t = Some slot → slot_ok slot.
Proof.
  unfold decode_wired_ble_host, HostSlot_try_from. intros H slot ->. case_decide; [done|].
  case_decide as Hs; [|done]. case_decide; [|done]. cbn in H. injection H as <-. done.
Qed.

Lemma decode_storage_inv image s : bytes_ok image → decode_storage_image image = Ok s →
  state_ok s ∧ durable s = s.
Proof.
  intros Hb H. unfold decode_storage_image in H. case_decide as Hl; [done|]. repeat (case_decide; [done|]).
  destruct (body_len_is_valid _); [|done]. cbn [negb] in H. case_decide; [done|].
  case_decide as Hcount; [done|]. case_decide; [done|].
  apply bind_ok in H as (global & Hglobal & H). case_decide as Hp; [done|].
  apply bind_ok in H as (target & Htarget & H). apply bind_ok in H as (link & Hlink & H).
  apply bind_ok in H as (mirror & Hmirror & H). apply bind_ok in H as (profiles & Hprofiles & H).
  apply bind_ok in H as (state & Hhosts & H). apply bind_ok in H as ([] & Hv & H). injection H as <-.
  apply decode_profiles_inv in Hprofiles as (Hr & Hps & Hd); [|done| |by constructor|done].
  2: { split; cbn; [apply NoDup_nil_2|apply NoDup_nil_2|constructor|unfold INPUT_PROFILE_CAPACITY; lia]. }
  apply decode_hosts_inv in Hhosts as (hosts & -> & Hhs & Hhl); [|done| |by constructor|cbn; lia].
  2: { intros i Hi. apply list_elem_of_In, in_seq in Hi. change STORED_HOSTS_MAX with 4%nat in Hcount.
       unfold host_offset_of, STORAGE_HEADER_LEN, STORAGE_BODY_PREFIX_LEN, STORED_HOST_RECORD_LEN, STORAGE_IMAGE_LEN in *.
       lia. }
  split.
  - split; [done|..]; unfold upd; cbn.
    + exact (read_u32_ok _ (bytes_ok_slice 8 12 image Hb)).
    + exact (decode_global_inv _ _ (bytes_ok_slice 18 30 image Hb) Hglobal).
    + done.
    + done.
    + split; cbn; [by eapply decode_target_inv|by eapply decode_link_inv|].
      exact (decode_mirror_inv _ _ (bytes_ok_slice 40 64 image Hb) Hmirror).
    + done.
    + done.
  - unfold durable, upd. cbn. by rewrite Hd.
Qed.

Lemma encode_decodes s : state_ok s → ∃ image, encode_storage_image s = Ok image ∧
  length image = STORAGE_IMAGE_LEN ∧ bytes_ok image ∧ decode_storage_image image = Ok (durable s).
Proof.
  intros Hok. destruct (encode_image_writes s Hok) as (crc & He & Hc).
  replace (removelast (image_writes s crc)) with (removelast (image_writes s 0)) in Hc
    by (by rewrite (image_writes_split s crc), removelast_last).
  destruct (image_before_crc s Hok) as [Hb Hl].
  exists (image_of s crc). split; [done|]. split; [by apply image_length|].
  assert (u32_ok crc) as Hcrc by (rewrite Hc; by apply header_crc_u32, bytes_ok_slice).
  split; [rewrite image_of_crc; apply bytes_ok_blit; [apply u32_to_le_bytes_ok|done]|].
  apply decode_image_of; [done..|]. rewrite image_of_crc, header_crc_blit; [exact Hc|done|].
  rewrite Hl. pose proof (state_host_count _ Hok) as Hc4. change STORED_HOSTS_MAX with 4%nat in Hc4.
  unfold storage_body_len, STORAGE_HEADER_LEN, STORAGE_BODY_PREFIX_LEN, STORED_HOST_RECORD_LEN, STORAGE_IMAGE_LEN.
  lia.
Qed.

(** C32: the storage image.  Every state the bridge can hold is encoded into 1024 bytes that decode
    to it, with the input profiles disconnected and their transform state reset; and whatever the
    decoder accepts, from any bytes, is such a state with nothing more to reset, so that storing
    it again loses nothing. *)
Theorem storage_image_codec :
  (∀ s, state_ok s → ∃ image, encode_storage_image s = Ok image ∧ length image = STORAGE_IMAGE_LEN ∧
     bytes_ok image ∧ decode_storage_image image = Ok (durable s)) ∧
  (∀ image s, bytes_ok image → decode_storage_image image = Ok s → state_ok s ∧ durable s = s).
Proof.
  split.
  - (* every state *) intros s Hok. destruct (encode_decodes s Hok) as (image & He & Hl & Hb & Hd). by exists image.
  - (* every image *) intros image s Hb Hd. by apply (decode_storage_inv image).
Qed.

Definition sample_bond : StoredBond :=
  mkStoredBond [1; 2; 3; 4; 5; 6] AddressRandom None (replicate 16 7) true Encrypted.
Definition sample_hosts : list StoredHostProfile :=
  [mkStoredHost 2 true true true false false (mkFixedName 2 ([72; 105] ++ zeros 30)) (Some sample_bond);
   mkStoredHost 1 false false false false false FixedName_empty None].
Definition sample_registry : InputProfileRegistry :=
  Eval vm_compute in registry_run (map OpObserve (map device [1; 2])).
Definition sample_state : StorageState :=
  mkStorageState 7 (Some 2) GlobalSettings_DEFAULT sample_registry
    (mkPresentationConfig (StoredBle 2) (Some 1) (Some (MirrorStableId_synthetic 99))) sample_hosts.

Lemma sample_state_ok : state_ok sample_state.
Proof.
  split; cbn [sample_state ss_generation ss_global_settings ss_input_profiles ss_presentation ss_hosts].
  - by vm_compute.
  - words.
  - split; by cbn.
  - assert (sample_registry = registry_run (map OpObserve (map device [1; 2]))) as -> by by vm_compute.
    apply registry_run_inv. by repeat constructor.
  - assert (∀ p, InputProfileId_new (ip_id p) = Some (ip_id p) → u16_ok (ident_vendor_id (ip_identity p)) →
      u16_ok (ident_product_id (ip_identity p)) → u64_ok (ident_instance_hash (ip_identity p)) →
      u64_ok (ip_last_seen p) → ip_settings p = InputSettings_DEFAULT → profile_ok p) as Hp.
    { intros p H1 H2 H3 H4 H5 H6. split; try done. rewrite H6. split; cbn; try words. by left. }
    repeat (apply List.Forall_cons; [apply Hp; apply (bool_decide_unpack _); by vm_compute|]); constructor.
  - split; cbn; [intros ? [= <-]; by unfold slot_ok|intros ? [= <-]; by unfold slot_ok|].
    intros m [= <-]. split; cbn; try words; [by intros ? [= <-]|exact (bytes_ok_zeros 8)|done].
  - assert (∀ l, bool_decide (length l = MAX_HOST_NAME_LEN ∧ Forall u8_ok l) = true → array_ok MAX_HOST_NAME_LEN l)
      as Hn by (intros l H; by apply bool_decide_eq_true in H).
    apply List.Forall_cons; [|apply List.Forall_cons; [|constructor]]; split; cbn; try words.
    + split; [cbn; lia|]. apply Hn. by vm_compute.
    + intros b [= <-]. split; [split; [done|by repeat constructor]|done|split; [done|by repeat constructor]].
    + split; [cbn; lia|]. apply Hn. by vm_compute.
    + done.
  - cbn. change STORED_HOSTS_MAX with 4%nat. lia.
Qed.

Lemma storage_image_codec_witness :
  ∃ image, encode_storage_image sample_state = Ok image ∧ length image = STORAGE_IMAGE_LEN ∧
    bytes_ok image ∧ decode_storage_image image = Ok (durable sample_state).
Proof. exact (proj1 storage_image_codec sample_state sample_state_ok). Defined.
