(* ===== verification/StorageFlash.v ===== *)
(** * Storage in flash ([src/src/storage.rs], slots and flash backend)

    Two slots of four records each hold the storage images; the newest valid one counts, and a new
    image goes to the other slot.  The backend scans the flash at boot and appends records, erasing a
    slot when it is full.  The flash is a parameter ([NorFlash]); the one below can lose its supply at
    any byte of a write, while a sector erase happens or does not. *)

From S2P Require Import Prelude FlashModel Settings InputProfile OutputTarget StorageImage.

Definition STORAGE_FLASH_SLOT_SIZE : Z := 4096.
Definition STORAGE_FLASH_SLOT_COUNT : Z := 2.
Definition STORAGE_FLASH_LEN : Z := STORAGE_FLASH_SLOT_SIZE * STORAGE_FLASH_SLOT_COUNT.
Definition STORAGE_PARTITION_REQUIRED_LEN : Z := STORAGE_FLASH_LEN.
(** [STORAGE_IMAGE_LEN as u32] *)
Definition IMAGE_LEN : Z := Z.of_nat STORAGE_IMAGE_LEN.
Definition STORAGE_FLASH_RECORDS_PER_SLOT : Z := STORAGE_FLASH_SLOT_SIZE / IMAGE_LEN.

(** ** Slots *)

Inductive StorageSlotIndex := StorageA | StorageB.
#[export] Instance StorageSlotIndex_eq_dec : EqDecision StorageSlotIndex.
Proof. solve_decision. Defined.

Definition storage_slot_other (self : StorageSlotIndex) : StorageSlotIndex :=
  match self with StorageA => StorageB | StorageB => StorageA end.

Definition storage_slot_number (index : StorageSlotIndex) : nat :=
  match index with StorageA => 0 | StorageB => 1 end.

Class StorageSlotBackend (B : Type) := {
  sb_slot : B → StorageSlotIndex → list Z;
  sb_write_slot : StorageSlotIndex → list Z → B → B * Result StorageError unit
}.

Record StorageSlot := mkStorageSlot {
  slot_index : StorageSlotIndex; slot_image : list Z; slot_state : StorageState
}.

(** [left.wrapping_sub(right) < 0x8000_0000] *)
Definition storage_generation_is_newer_or_equal (left right : Z) : bool := as_u32 (left - right) <? 0x80000000.

Definition select_newest_valid_storage_image (slot_a slot_b : list Z) : option StorageSlot :=
  match result_ok (decode_storage_image slot_a), result_ok (decode_storage_image slot_b) with
  | Some a, Some b =>
      if storage_generation_is_newer_or_equal (ss_generation a) (ss_generation b)
      then Some (mkStorageSlot StorageA slot_a a) else Some (mkStorageSlot StorageB slot_b b)
  | Some state, None => Some (mkStorageSlot StorageA slot_a state)
  | None, Some state => Some (mkStorageSlot StorageB slot_b state)
  | None, None => None
  end.

Record StorageWriteResult := mkWriteResult {
  swr_index : StorageSlotIndex; swr_state : StorageState; swr_image : list Z
}.

Section Backend.
Context {B : Type} `{!StorageSlotBackend B}.

Definition restore_latest_storage_state (backend : B) : option StorageState :=
  slot_state <$> select_newest_valid_storage_image (sb_slot backend StorageA) (sb_slot backend StorageB).

Definition persist_storage_state (backend : B) (state : StorageState)
  : B * Result StorageError StorageWriteResult :=
  match validate_state state with
  | Err e => (backend, Err e)
  | Ok _ =>
      let target :=
        match select_newest_valid_storage_image (sb_slot backend StorageA) (sb_slot backend StorageB) with
        | Some slot => storage_slot_other (slot_index slot)
        | None => StorageA
        end in
      match encode_storage_image state with
      | Err e => (backend, Err e)
      | Ok image =>
          match sb_write_slot target image backend with
          | (backend, Err e) => (backend, Err e)
          | (backend, Ok _) =>
              let verified := sb_slot backend target in
              if bool_decide (verified ≠ image) || negb (is_ok (decode_storage_image verified))
              then (backend, Err StorageFlashVerify)
              else (backend, Ok (mkWriteResult target state image))
          end
      end
  end.
End Backend.

(** ** The flash backend *)

(** [embedded_storage::nor_flash::NorFlash]: [None] and [false] are the driver's errors. *)
Class NorFlash (F : Type) := {
  nf_capacity : F → Z;
  nf_erase_size : Z;
  nf_write_size : Z;
  nf_read_size : Z;
  nf_read : Z → nat → F → F * option (list Z);
  nf_erase : Z → Z → F → F * bool;
  nf_write : Z → list Z → F → F * bool
}.

(** [StorageFlashLayout]; the name is that of an error here. *)
Record FlashLayout := mkFlashLayout { fll_base_offset : Z; fll_slot_size : Z }.
#[export] Instance FlashLayout_eq_dec : EqDecision FlashLayout.
Proof. solve_decision. Defined.

Definition FlashLayout_new (base_offset : Z) : FlashLayout :=
  mkFlashLayout base_offset STORAGE_FLASH_SLOT_SIZE.
Definition layout_len (self : FlashLayout) : Z := as_u32 (fll_slot_size self * STORAGE_FLASH_SLOT_COUNT).
Definition layout_is_empty (self : FlashLayout) : bool := layout_len self =? 0.
Definition records_per_slot (self : FlashLayout) : Z := fll_slot_size self / IMAGE_LEN.
Definition slot_offset (self : FlashLayout) (index : StorageSlotIndex) : Z :=
  as_u32 (fll_base_offset self + match index with StorageA => 0 | StorageB => fll_slot_size self end).
Definition record_offset (self : FlashLayout) (index : StorageSlotIndex) (record_index : Z) : Z :=
  as_u32 (slot_offset self index + record_index * IMAGE_LEN).

Definition is_aligned (value align : Z) : bool := negb (align =? 0) && (value mod align =? 0).

Section Nor.
Context {F : Type} `{!NorFlash F}.

Definition validate_for_flash (self : FlashLayout) (flash : F) : Result StorageError unit :=
  let capacity := as_u32 (nf_capacity flash) in
  if (fll_slot_size self <? IMAGE_LEN) ||
     (U32_MAX <? fll_base_offset self + layout_len self) ||
     (capacity <? fll_base_offset self + layout_len self) ||
     negb (is_aligned (fll_base_offset self) nf_erase_size) ||
     negb (is_aligned (fll_slot_size self) nf_erase_size) ||
     negb (fll_slot_size self mod IMAGE_LEN =? 0) ||
     negb (is_aligned (fll_base_offset self) nf_write_size) ||
     negb (is_aligned IMAGE_LEN nf_write_size) ||
     negb (is_aligned (fll_base_offset self) nf_read_size) ||
     negb (is_aligned IMAGE_LEN nf_read_size)
  then Err StorageFlashLayout else Ok tt.

Definition image_is_erased (image : list Z) : bool := forallb (λ byte, byte =? 0xff) image.

(** The loop of [scan_flash_slot] over the record numbers left. *)
Fixpoint scan_records (layout : FlashLayout) (index : StorageSlotIndex) (records : list nat)
  (latest_image : list Z) (next_record : Z) (flash : F) : F * Result StorageError (list Z * Z) :=
  match records with
  | [] => (flash, Ok (latest_image, next_record))
  | record_index :: records =>
      match nf_read (record_offset layout index (Z.of_nat record_index)) STORAGE_IMAGE_LEN flash with
      | (flash, None) => (flash, Err StorageFlashRead)
      | (flash, Some image) =>
          if image_is_erased image then (flash, Ok (latest_image, Z.of_nat record_index))
          else if is_ok (decode_storage_image image)
          then scan_records layout index records image (Z.of_nat record_index + 1) flash
          else (flash, Ok (latest_image, records_per_slot layout))
      end
  end.

Definition erased_image : list Z := replicate STORAGE_IMAGE_LEN 0xff.

Definition scan_flash_slot (layout : FlashLayout) (index : StorageSlotIndex) (flash : F)
  : F * Result StorageError (list Z * Z) :=
  scan_records layout index (seq 0 (Z.to_nat (records_per_slot layout))) erased_image 0 flash.

Record NorFlashStorageBackend := mkNorBackend {
  nb_flash : F;
  nb_layout : FlashLayout;
  nb_slots : list (list Z);
  nb_next_record : list Z
}.

Definition NorFlashStorageBackend_new (flash : F) (layout : FlashLayout)
  : Result StorageError NorFlashStorageBackend :=
  let? _ := validate_for_flash layout flash in
  let (flash, a) := scan_flash_slot layout StorageA flash in
  let? (slot_a, next_a) := a in
  let (flash, b) := scan_flash_slot layout StorageB flash in
  let? (slot_b, next_b) := b in
  Ok (mkNorBackend flash layout [slot_a; slot_b] [next_a; next_b]).

Definition backend_release (self : NorFlashStorageBackend) : F := nb_flash self.

Definition erase_all (self : NorFlashStorageBackend) : NorFlashStorageBackend * Result StorageError unit :=
  let base := fll_base_offset (nb_layout self) in
  match nf_erase base (as_u32 (base + layout_len (nb_layout self))) (nb_flash self) with
  | (flash, false) => (mkNorBackend flash (nb_layout self) (nb_slots self) (nb_next_record self), Err StorageFlashErase)
  | (flash, true) => (mkNorBackend flash (nb_layout self) [erased_image; erased_image] [0; 0], Ok tt)
  end.

Definition backend_slot (self : NorFlashStorageBackend) (index : StorageSlotIndex) : list Z :=
  nth (storage_slot_number index) (nb_slots self) [].

(** [write_slot] once the record is chosen: write, read back, remember.  The record is used up
    whatever happens. *)
Definition write_record (self : NorFlashStorageBackend) (flash : F) (index : StorageSlotIndex)
  (record_index : Z) (image : list Z) : NorFlashStorageBackend * Result StorageError unit :=
  let slot_number := storage_slot_number index in
  let offset := as_u32 (slot_offset (nb_layout self) index + record_index * IMAGE_LEN) in
  let next := <[slot_number := record_index + 1]> (nb_next_record self) in
  match nf_write offset image flash with
  | (flash, false) => (mkNorBackend flash (nb_layout self) (nb_slots self) next, Err StorageFlashWrite)
  | (flash, true) =>
      match nf_read offset STORAGE_IMAGE_LEN flash with
      | (flash, None) => (mkNorBackend flash (nb_layout self) (nb_slots self) next, Err StorageFlashRead)
      | (flash, Some verified) =>
          if bool_decide (verified ≠ image) || negb (is_ok (decode_storage_image verified))
          then (mkNorBackend flash (nb_layout self) (nb_slots self) next, Err StorageFlashVerify)
          else (mkNorBackend flash (nb_layout self) (<[slot_number := image]> (nb_slots self)) next, Ok tt)
      end
  end.

Definition backend_write_slot (index : StorageSlotIndex) (image : list Z) (self : NorFlashStorageBackend)
  : NorFlashStorageBackend * Result StorageError unit :=
  let record_index := nth (storage_slot_number index) (nb_next_record self) 0 in
  let offset := slot_offset (nb_layout self) index in
  if records_per_slot (nb_layout self) <=? record_index then
    match nf_erase offset (as_u32 (offset + fll_slot_size (nb_layout self))) (nb_flash self) with
    | (flash, false) =>
        (mkNorBackend flash (nb_layout self) (nb_slots self) (nb_next_record self), Err StorageFlashErase)
    | (flash, true) => write_record self flash index 0 image
    end
  else write_record self (nb_flash self) index record_index image.

#[export] Instance nor_backend : StorageSlotBackend NorFlashStorageBackend := {|
  sb_slot := backend_slot;
  sb_write_slot := backend_write_slot
|}.
End Nor.
Arguments NorFlashStorageBackend F : clear implicits.

(** ** A flash whose supply fails *)

#[export] Instance supplied_flash : NorFlash Flash := {|
  nf_capacity _ := 0x400000;
  nf_erase_size := 4096;
  nf_write_size := 4;
  nf_read_size := 4;
  nf_read off n b := (b, Some (flash_read (fl_mem b) off n));
  nf_erase lo hi b :=
    if decide (0 < fl_power b) then (mkFlash (erased (fl_mem b) lo (hi - lo)) (fl_power b - 1), true)
    else (b, false);
  nf_write off data b :=
    let n := Z.min (usize_len data) (Z.max 0 (fl_power b)) in
    (mkFlash (programmed (fl_mem b) off data n) (fl_power b - n), bool_decide (n = usize_len data))
|}.

(** ** Slots as sequences of records *)

Definition holds_image (image : list Z) : bool := is_ok (decode_storage_image image).

Section Layout.
Context (base : Z) (Hbase : 0 ≤ base) (Haligned : base mod 4096 = 0) (Hfits : base + STORAGE_FLASH_LEN ≤ 0x400000).

Let L : FlashLayout := FlashLayout_new base.

Definition slot_start (x : StorageSlotIndex) : Z := base + match x with StorageA => 0 | StorageB => 4096 end.
Definition record_start (x : StorageSlotIndex) (r : nat) : Z := slot_start x + Z.of_nat r * 1024.
Definition record_at (m : Z → Z) (x : StorageSlotIndex) (r : nat) : list Z :=
  flash_read m (record_start x r) STORAGE_IMAGE_LEN.

Lemma slot_offset_eq x : slot_offset L x = slot_start x.
Proof.
  unfold STORAGE_FLASH_LEN, STORAGE_FLASH_SLOT_SIZE, STORAGE_FLASH_SLOT_COUNT in Hfits.
  unfold slot_offset, slot_start, L, FlashLayout_new, as_u32. cbn [fll_base_offset fll_slot_size].
  unfold STORAGE_FLASH_SLOT_SIZE. rewrite Z.mod_small; [done|]. destruct x; lia.
Qed.

Lemma slot_end_eq x : as_u32 (slot_start x + 4096) = slot_start x + 4096.
Proof.
  unfold STORAGE_FLASH_LEN, STORAGE_FLASH_SLOT_SIZE, STORAGE_FLASH_SLOT_COUNT in Hfits.
  unfold slot_start, as_u32. rewrite Z.mod_small; [done|]. destruct x; lia.
Qed.

Lemma record_offset_eq x r : (r < 4)%nat →
  as_u32 (slot_offset L x + Z.of_nat r * IMAGE_LEN) = record_start x r.
Proof.
  intros Hr. rewrite slot_offset_eq. unfold record_start. change IMAGE_LEN with 1024. unfold as_u32.
  unfold STORAGE_FLASH_LEN, STORAGE_FLASH_SLOT_SIZE, STORAGE_FLASH_SLOT_COUNT in Hfits.
  rewrite Z.mod_small; [done|]. unfold slot_start. destruct x; lia.
Qed.

Lemma layout_valid b : validate_for_flash L b = Ok tt.
Proof.
  unfold STORAGE_FLASH_LEN, STORAGE_FLASH_SLOT_SIZE, STORAGE_FLASH_SLOT_COUNT in Hfits.
  unfold validate_for_flash. change (layout_len L) with 8192. change (fll_slot_size L) with 4096.
  change (fll_base_offset L) with base. change IMAGE_LEN with 1024. change (as_u32 (nf_capacity b)) with 0x400000.
  assert (base mod 4 = 0) as H4 by divmod.
  unfold is_aligned. cbn [nf_erase_size nf_write_size nf_read_size supplied_flash]. rewrite Haligned, H4.
  rewrite (proj2 (Z.ltb_ge U32_MAX _)) by (unfold U32_MAX; lia). by rewrite (proj2 (Z.ltb_ge 0x400000 _)) by lia.
Qed.

(** A slot holds [n] images, then nothing, or, when [torn], a record that is neither erased nor an
    image. *)
Record slot_shape (m : Z → Z) (x : StorageSlotIndex) (n : nat) (torn : bool) : Prop := {
  sh_count : (n ≤ 4)%nat;
  sh_images : ∀ r, (r < n)%nat → holds_image (record_at m x r) = true ∧ image_is_erased (record_at m x r) = false;
  sh_rest : if torn
    then (n < 4)%nat ∧ holds_image (record_at m x n) = false ∧ image_is_erased (record_at m x n) = false
    else ∀ a, record_start x n ≤ a < slot_start x + 4096 → m a = 0xff
}.

Definition latest (m : Z → Z) (x : StorageSlotIndex) (n : nat) : list Z :=
  match n with O => erased_image | S k => record_at m x k end.

Definition next_of (n : nat) (torn : bool) : Z := if torn then 4 else Z.of_nat n.

Lemma erased_record m x r : (∀ a, record_start x r ≤ a < record_start x r + 1024 → m a = 0xff) →
  record_at m x r = erased_image.
Proof.
  intros H. apply byte_at_ext; [unfold record_at; by rewrite length_flash_read|].
  intros i Hi. unfold record_at in *. rewrite length_flash_read in Hi. rewrite flash_read_at by done.
  change STORAGE_IMAGE_LEN with 1024%nat in *. rewrite H by lia. unfold byte_at, erased_image.
  rewrite nth_lookup, lookup_replicate_2; [done|]. change STORAGE_IMAGE_LEN with 1024%nat. lia.
Qed.

Lemma erased_image_erased : image_is_erased erased_image = true.
Proof. by vm_compute. Qed.

Lemma erased_image_invalid : holds_image erased_image = false.
Proof. by vm_compute. Qed.

Lemma scan_shape m x n torn p : slot_shape m x n torn →
  scan_flash_slot L x (mkFlash m p) = (mkFlash m p, Ok (latest m x n, next_of n torn)).
Proof.
  intros [Hn Hi Hr]. unfold scan_flash_slot. change (Z.to_nat (records_per_slot L)) with 4%nat.
  assert (∀ j k, (k + j = n)%nat → scan_records L x (seq k (4 - k)) (latest m x k) (Z.of_nat k) (mkFlash m p) =
    (mkFlash m p, Ok (latest m x n, next_of n torn))) as H; [|exact (H n 0%nat eq_refl)].
  induction j as [|j IH]; intros k Hk.
  - rewrite Nat.add_0_r in Hk. subst k. destruct torn.
    + destruct Hr as (Hlt & Hv & He). replace (4 - n)%nat with (S (3 - n)) by lia. cbn [seq scan_records].
      unfold record_offset. rewrite record_offset_eq by done. cbn [nf_read supplied_flash fl_mem].
      fold (record_at m x n). rewrite He. unfold holds_image in Hv. by rewrite Hv.
    + destruct (decide (n = 4)%nat) as [->|Hne]; [done|].
      replace (4 - n)%nat with (S (3 - n)) by lia. cbn [seq scan_records].
      unfold record_offset. rewrite record_offset_eq by lia. cbn [nf_read supplied_flash fl_mem].
      fold (record_at m x n). rewrite (erased_record m x n); [by rewrite erased_image_erased|].
      intros a Ha. apply Hr. unfold record_start in *. lia.
  - replace (4 - k)%nat with (S (3 - k)) by lia. cbn [seq scan_records].
    unfold record_offset. rewrite record_offset_eq by lia. cbn [nf_read supplied_flash fl_mem].
    fold (record_at m x k). destruct (Hi k ltac:(lia)) as [Hv He]. rewrite He. unfold holds_image in Hv. rewrite Hv.
    specialize (IH (S k) ltac:(lia)). replace (4 - S k)%nat with (3 - k)%nat in IH by lia.
    cbn [latest] in IH. replace (Z.of_nat k + 1) with (Z.of_nat (S k)) by lia. exact IH.
Qed.

(** What is written elsewhere changes nothing of a slot. *)
Lemma record_same m m' x r : (r < 4)%nat → same_on (slot_start x) 4096 m m' → record_at m' x r = record_at m x r.
Proof.
  intros Hr H. apply flash_read_same. eapply same_on_sub; [..|exact H]; unfold record_start;
    change STORAGE_IMAGE_LEN with 1024%nat; lia.
Qed.

Lemma shape_same m m' x n torn : slot_shape m x n torn → same_on (slot_start x) 4096 m m' →
  slot_shape m' x n torn ∧ latest m' x n = latest m x n.
Proof.
  intros [Hn Hi Hr] Hs. split; [split; [done| |]|].
  - intros r Hlt. rewrite (record_same m m') by (done || lia). by apply Hi.
  - destruct torn.
    + destruct Hr as (Hlt & ?). by rewrite (record_same m m').
    + intros a Ha. rewrite Hs; [by apply Hr|]. unfold record_start in Ha. lia.
  - destruct n; [done|]. apply record_same; [lia|done].
Qed.

Lemma shape_erase m x : slot_shape (erased m (slot_start x) 4096) x 0 false.
Proof.
  split; [lia|intros r Hr; lia|]. intros a Ha. unfold erased. rewrite decide_True; [done|].
  unfold record_start in Ha. lia.
Qed.

(** The record a write of [k] bytes leaves. *)
Definition torn_image (image : list Z) (k : nat) : list Z := take k image ++ replicate (STORAGE_IMAGE_LEN - k) 0xff.

Lemma programmed_prefix m off data k : bytes_ok data → (k ≤ length data)%nat →
  (∀ i, (i < length data)%nat → m (off + Z.of_nat i) = 0xff) →
  flash_read (programmed m off data (Z.of_nat k)) off (length data) = take k data ++ replicate (length data - k) 0xff.
Proof.
  intros Hd Hk Hm. apply byte_at_ext.
  { rewrite length_flash_read, length_app, length_take, length_replicate. lia. }
  intros i Hi. rewrite length_flash_read in Hi. rewrite flash_read_at by done. unfold programmed.
  unfold byte_at at 2. case_decide as Hc.
  - rewrite Hm by done. replace (Z.to_nat (off + Z.of_nat i - off)) with i by lia.
    rewrite land_ff by by apply byte_at_ok. rewrite app_nth1 by (rewrite length_take; lia).
    unfold byte_at. rewrite !nth_lookup. by rewrite lookup_take_lt by lia.
  - rewrite Hm by done. rewrite app_nth2 by (rewrite length_take; lia). rewrite length_take.
    rewrite nth_lookup, lookup_replicate_2; [done|]. lia.
Qed.

(** ** The backend over shaped slots *)

Definition booted (m : Z → Z) (p : Z) (s : StorageSlotIndex → nat * bool) : NorFlashStorageBackend Flash :=
  mkNorBackend (mkFlash m p) L [latest m StorageA (s StorageA).1; latest m StorageB (s StorageB).1]
    [next_of (s StorageA).1 (s StorageA).2; next_of (s StorageB).1 (s StorageB).2].

Definition shaped (m : Z → Z) (s : StorageSlotIndex → nat * bool) : Prop := ∀ x, slot_shape m x (s x).1 (s x).2.

Lemma boot m p s : shaped m s → NorFlashStorageBackend_new (mkFlash m p) L = Ok (booted m p s).
Proof.
  intros H. unfold NorFlashStorageBackend_new. rewrite layout_valid. cbn [result_bind].
  rewrite (scan_shape m StorageA _ _ p (H StorageA)). cbn [result_bind].
  by rewrite (scan_shape m StorageB _ _ p (H StorageB)).
Qed.

Lemma booted_slot m p s x : backend_slot (booted m p s) x = latest m x (s x).1.
Proof. by destruct x. Qed.

Lemma booted_next m p s x : nth (storage_slot_number x) (nb_next_record (booted m p s)) 0 = next_of (s x).1 (s x).2.
Proof. by destruct x. Qed.

Lemma image_magic image : holds_image image = true → ∃ rest, image = 69 :: rest.
Proof.
  unfold holds_image, decode_storage_image. case_decide as H1; [done|]. case_decide as H2; [done|].
  intros _. destruct image as [|b image]; [done|]. exists image.
  unfold slice in H2. by injection H2 as ->.
Qed.

Lemma magic_not_erased rest : image_is_erased (69 :: rest) = false.
Proof. done. Qed.

(** What a write of [p] bytes, or of one less when a sector is erased first, leaves is either refused
    by the decoder or decodes as the whole image does. *)
Definition torn_detected (image : list Z) (p : Z) : Prop :=
  ∀ k, p - 1 ≤ Z.of_nat k ≤ p → (0 < k < STORAGE_IMAGE_LEN)%nat → holds_image (torn_image image k) = true →
    decode_storage_image (torn_image image k) = decode_storage_image image.

Definition set_shape (x : StorageSlotIndex) (v : nat * bool) (s : StorageSlotIndex → nat * bool)
  : StorageSlotIndex → nat * bool := λ y, if decide (y = x) then v else s y.

Lemma slot_apart x y off n : x ≠ y → slot_start x ≤ off → 0 ≤ n → off + n ≤ slot_start x + 4096 →
  slot_start y + 4096 ≤ off ∨ off + n ≤ slot_start y.
Proof. intros Hn. unfold slot_start. destruct x, y; try done; lia. Qed.

Lemma record_programmed m x r k image :
  (∀ a, record_start x r ≤ a < record_start x r + 1024 → m a = 0xff) → length image = STORAGE_IMAGE_LEN →
  bytes_ok image → (k ≤ STORAGE_IMAGE_LEN)%nat →
  record_at (programmed m (record_start x r) image (Z.of_nat k)) x r = torn_image image k.
Proof.
  intros Hm Hlen Hb Hk. unfold record_at, torn_image. rewrite <- Hlen. apply programmed_prefix; [done|lia|].
  intros i Hin. apply Hm. rewrite Hlen in Hin. change STORAGE_IMAGE_LEN with 1024%nat in Hin. lia.
Qed.

Lemma record_kept m x q r k image : (q < r)%nat →
  record_at (programmed m (record_start x r) image k) x q = record_at m x q.
Proof.
  intros Hq. apply flash_read_same, programmed_other. left. unfold record_start.
  change STORAGE_IMAGE_LEN with 1024%nat. lia.
Qed.

Lemma shape_free m x r : slot_shape m x r false → (r < 4)%nat →
  ∀ a, record_start x r ≤ a < record_start x r + 1024 → m a = 0xff.
Proof. intros [_ _ Hr] Hlt a Ha. apply Hr. unfold record_start in *. lia. Qed.

Lemma others_kept m x r k image : (r < 4)%nat → (k ≤ 1024)%nat →
  ∀ y n t, y ≠ x → slot_shape m y n t →
    let m' := programmed m (record_start x r) image (Z.of_nat k) in slot_shape m' y n t ∧ latest m' y n = latest m y n.
Proof.
  intros Hlt Hk y n t Hy Hs. apply shape_same; [done|]. apply programmed_other.
  destruct (slot_apart x y (record_start x r) (Z.of_nat k)) as [H|H];
    [by intros ->|unfold record_start; lia..|by left|by right].
Qed.

(** Writing a record leaves one more image, or a torn record, or nothing; the other slot keeps what
    it has. *)
Lemma record_written m x r k image : slot_shape m x r false → (r < 4)%nat → length image = STORAGE_IMAGE_LEN →
  bytes_ok image → holds_image image = true → (k ≤ STORAGE_IMAGE_LEN)%nat →
  let m' := programmed m (record_start x r) image (Z.of_nat k) in
  record_at m' x r = torn_image image k ∧
  (∀ y n t, y ≠ x → slot_shape m y n t → slot_shape m' y n t ∧ latest m' y n = latest m y n) ∧
  slot_shape m' x (if decide (k = 0)%nat then r else if holds_image (torn_image image k) then S r else r)
    (if decide (k = 0)%nat then false else negb (holds_image (torn_image image k))) ∧
  latest m' x r = latest m x r.
Proof.
  intros Hs Hlt Hlen Hb Hv Hk m'.
  assert (record_at m' x r = torn_image image k) as Hrec by (apply record_programmed; [by apply shape_free|done..]).
  assert (∀ q, (q < r)%nat → record_at m' x q = record_at m x q) as Hold by (intros q Hq; by apply record_kept).
  destruct Hs as [Hn Hi Hr].
  assert (latest m' x r = latest m x r) as Hlat by (destruct r; [done|]; apply Hold; lia).
  change STORAGE_IMAGE_LEN with 1024%nat in Hk.
  split; [done|]. split; [|split; [|done]].
  - by apply others_kept.
  - case_decide as H0.
    + subst k. split; [done|intros q Hq; rewrite Hold by done; by apply Hi|].
      intros a Ha. unfold m', programmed. rewrite decide_False by lia. by apply Hr.
    + assert (image_is_erased (torn_image image k) = false) as Hne.
      { destruct (image_magic image Hv) as [rest ->]. unfold torn_image. destruct k; [done|]. apply magic_not_erased. }
      destruct (holds_image (torn_image image k)) eqn:Ht; cbn [negb].
      * split; [lia| |].
        -- intros q Hq. destruct (decide (q = r)) as [->|Hne']; [by rewrite Hrec|]. rewrite Hold by lia. apply Hi. lia.
        -- intros a Ha. unfold m', programmed. unfold record_start in *. rewrite decide_False by lia. apply Hr.
           unfold record_start. lia.
      * split; [done|intros q Hq; rewrite Hold by done; by apply Hi|]. by rewrite Hrec.
Qed.

Lemma torn_whole image : length image = STORAGE_IMAGE_LEN → torn_image image STORAGE_IMAGE_LEN = image.
Proof. intros H. unfold torn_image. rewrite Nat.sub_diag, app_nil_r. apply take_ge. by rewrite H. Qed.

(** The bytes a write of one image programs. *)
Definition supplied (p : Z) : nat := Z.to_nat (Z.min 1024 (Z.max 0 p)).

Lemma write_record_spec f slots next m p x r image :
  (∀ a, record_start x r ≤ a < record_start x r + 1024 → m a = 0xff) → (r < 4)%nat →
  length image = STORAGE_IMAGE_LEN → bytes_ok image → holds_image image = true →
  write_record (mkNorBackend f L slots next) (mkFlash m p) x (Z.of_nat r) image =
    (mkNorBackend (mkFlash (programmed m (record_start x r) image (Z.of_nat (supplied p))) (p - Z.of_nat (supplied p))) L
       (if decide (supplied p = STORAGE_IMAGE_LEN) then <[storage_slot_number x := image]> slots else slots)
       (<[storage_slot_number x := Z.of_nat (S r)]> next),
     if decide (supplied p = STORAGE_IMAGE_LEN) then Ok tt else Err StorageFlashWrite).
Proof.
  intros Hs Hlt Hlen Hb Hv. unfold write_record. cbn [nb_layout nb_next_record nb_slots nf_write supplied_flash fl_mem fl_power].
  rewrite record_offset_eq by done. replace (Z.of_nat r + 1) with (Z.of_nat (S r)) by lia.
  unfold usize_len. rewrite Hlen. change (Z.of_nat STORAGE_IMAGE_LEN) with 1024.
  assert (Z.min 1024 (Z.max 0 p) = Z.of_nat (supplied p)) as -> by (unfold supplied; lia).
  pose proof (record_programmed m x r (supplied p) image Hs Hlen Hb
    ltac:(unfold supplied; change STORAGE_IMAGE_LEN with 1024%nat; lia)) as Hrec.
  destruct (decide (supplied p = STORAGE_IMAGE_LEN)) as [Hk|Hk].
  - rewrite bool_decide_true by (rewrite Hk; done). cbn [nf_read supplied_flash fl_mem].
    unfold record_at in Hrec. rewrite Hrec, Hk, torn_whole by done.
    rewrite bool_decide_false by (intros H; by apply H). unfold holds_image in Hv. by rewrite Hv.
  - rewrite bool_decide_false; [done|]. change STORAGE_IMAGE_LEN with 1024%nat in Hk. lia.
Qed.

(** What a slot may hold after a failed write: what it held, nothing, or the image itself. *)
Definition after_failure (old new image : list Z) : Prop :=
  result_ok (decode_storage_image new) = result_ok (decode_storage_image old) ∨
  result_ok (decode_storage_image new) = None ∨
  result_ok (decode_storage_image new) = result_ok (decode_storage_image image).

Definition slot_written (x : StorageSlotIndex) (image : list Z) (m : Z → Z) (s : StorageSlotIndex → nat * bool)
  (b : NorFlashStorageBackend Flash) (res : Result StorageError unit) : Prop :=
  ∃ m' p' s', nb_flash b = mkFlash m' p' ∧ shaped m' s' ∧
    latest m' (storage_slot_other x) (s' (storage_slot_other x)).1 =
      latest m (storage_slot_other x) (s (storage_slot_other x)).1 ∧
    match res with
    | Ok _ => b = booted m' p' s' ∧ latest m' x (s' x).1 = image
    | Err _ => after_failure (latest m x (s x).1) (latest m' x (s' x).1) image
    end.

Lemma set_shape_same x v s : set_shape x v s x = v.
Proof. unfold set_shape. by rewrite decide_True. Qed.

Lemma set_shape_other x y v s : y ≠ x → set_shape x v s y = s y.
Proof. intros H. unfold set_shape. by rewrite decide_False. Qed.

Lemma set_shape_shaped m m' x v s : shaped m s → slot_shape m' x v.1 v.2 →
  (∀ y n t, y ≠ x → slot_shape m y n t → slot_shape m' y n t ∧ latest m' y n = latest m y n) →
  shaped m' (set_shape x v s) ∧ (set_shape x v s x).1 = v.1 ∧
  latest m' (storage_slot_other x) (set_shape x v s (storage_slot_other x)).1 =
    latest m (storage_slot_other x) (s (storage_slot_other x)).1.
Proof.
  intros Hs Hx Hy. split; [|split].
  - intros y. unfold set_shape. case_decide as Hc; [by subst y|]. by apply Hy.
  - unfold set_shape. by rewrite decide_True.
  - unfold set_shape. rewrite decide_False by (by destruct x). apply (Hy _ _ (s (storage_slot_other x)).2); [by destruct x|apply Hs].
Qed.

(** A record in the free part of a slot. *)
Lemma record_step m p s f slots next x r image b' res : shaped m s → slot_shape m x r false → (r < 4)%nat →
  length image = STORAGE_IMAGE_LEN → bytes_ok image → holds_image image = true →
  ((0 < supplied p < STORAGE_IMAGE_LEN)%nat → holds_image (torn_image image (supplied p)) = true →
     decode_storage_image (torn_image image (supplied p)) = decode_storage_image image) →
  (∀ y, y ≠ x → nth (storage_slot_number y) slots [] = latest m y (s y).1 ∧
     nth (storage_slot_number y) next 0 = next_of (s y).1 (s y).2) →
  length slots = 2%nat → length next = 2%nat →
  write_record (mkNorBackend f L slots next) (mkFlash m p) x (Z.of_nat r) image = (b', res) →
  ∃ m' p' s', nb_flash b' = mkFlash m' p' ∧ shaped m' s' ∧
    latest m' (storage_slot_other x) (s' (storage_slot_other x)).1 =
      latest m (storage_slot_other x) (s (storage_slot_other x)).1 ∧
    match res with
    | Ok _ => b' = booted m' p' s' ∧ latest m' x (s' x).1 = image
    | Err _ => after_failure (latest m x r) (latest m' x (s' x).1) image
    end ∧ (1024 ≤ p → is_ok res = true).
Proof.
  intros Hs Hx Hlt Hlen Hb Hv Ht Hother Hl1 Hl2 Hw. rewrite write_record_spec in Hw by (done || by apply shape_free). injection Hw as <- <-.
  destruct (record_written m x r (supplied p) image) as (Hrec & Hoth & Hsh & Hlat);
    [done..|unfold supplied; change STORAGE_IMAGE_LEN with 1024%nat; lia|].
  set (m' := programmed m (record_start x r) image (Z.of_nat (supplied p))) in *.
  destruct (set_shape_shaped m m' x (_, _) s Hs Hsh Hoth) as (Hs' & Hsx & Hso). cbn [fst] in Hsx.
  eexists m', _, _. split; [done|]. split; [exact Hs'|]. split; [exact Hso|]. rewrite Hsx.
  destruct (decide (supplied p = STORAGE_IMAGE_LEN)) as [Hk|Hk].
  - split; [|done]. assert (torn_image image (supplied p) = image) as Ht' by (rewrite Hk; by apply torn_whole).
    rewrite Ht', Hv, decide_False in * by (rewrite Hk; done). split; [|by cbn [latest]; rewrite Hrec].
    destruct next as [|n1 [|n2 [|? ?]]], slots as [|i1 [|i2 [|? ?]]]; try done.
    pose proof (Hother (storage_slot_other x)) as Hn.
    rewrite set_shape_other in Hso by (by destruct x).
    unfold booted. destruct x; cbn [storage_slot_other storage_slot_number nth] in *;
      destruct Hn as [-> ->]; try done; rewrite !set_shape_same, !set_shape_other by done; cbn [fst snd insert list_insert latest]; rewrite Hso, Hrec; by rewrite decide_False by (by rewrite Hk).
  - split; [|unfold supplied in Hk; change STORAGE_IMAGE_LEN with 1024%nat in Hk; lia].
    case_decide as H0; [left; by rewrite Hlat|].
    destruct (holds_image (torn_image image (supplied p))) eqn:Hh; [|left; by rewrite Hlat].
    right; right. cbn [latest]. rewrite Hrec, Ht; [done| |done].
    unfold supplied in *. change STORAGE_IMAGE_LEN with 1024%nat in *. lia.
Qed.

(** What [write_slot] leaves, on the flash and in the backend. *)
Lemma backend_write_slot_spec m p s x image b' res : shaped m s → length image = STORAGE_IMAGE_LEN → bytes_ok image →
  holds_image image = true → torn_detected image p →
  backend_write_slot x image (booted m p s) = (b', res) →
  ∃ m' p' s', nb_flash b' = mkFlash m' p' ∧ shaped m' s' ∧
    latest m' (storage_slot_other x) (s' (storage_slot_other x)).1 =
      latest m (storage_slot_other x) (s (storage_slot_other x)).1 ∧
    match res with
    | Ok _ => b' = booted m' p' s' ∧ latest m' x (s' x).1 = image
    | Err _ => after_failure (latest m x (s x).1) (latest m' x (s' x).1) image
    end ∧ (1025 ≤ p → is_ok res = true).
Proof.
  intros Hs Hlen Hb Hv Ht. unfold backend_write_slot. rewrite booted_next.
  change (records_per_slot (nb_layout (booted m p s))) with 4.
  change (nb_layout (booted m p s)) with L. rewrite slot_offset_eq. change (fll_slot_size L) with 4096.
  change (nb_flash (booted m p s)) with (mkFlash m p).
  assert (∀ q, p - 1 ≤ q ≤ p → (0 < supplied q < STORAGE_IMAGE_LEN)%nat →
    holds_image (torn_image image (supplied q)) = true →
    decode_storage_image (torn_image image (supplied q)) = decode_storage_image image) as Htorn.
  { intros q Hq Hk Hh. apply Ht; [|done..]. unfold supplied in *. change STORAGE_IMAGE_LEN with 1024%nat in Hk. lia. }
  pose proof (Hs x) as Hx. destruct (decide (4 ≤ next_of (s x).1 (s x).2)) as [Hfull|Hfree].
  - rewrite (proj2 (Z.leb_le _ _)) by done. cbn [nf_erase supplied_flash fl_power fl_mem].
    rewrite slot_end_eq.
    replace (slot_start x + 4096 - slot_start x) with 4096 by lia.
    case_decide as Hp.
    + set (m1 := erased m (slot_start x) 4096). intros Hw.
      assert (∀ y n t, y ≠ x → slot_shape m y n t → slot_shape m1 y n t ∧ latest m1 y n = latest m y n) as Hoth.
      { intros y n t Hy Hsh. apply shape_same; [done|]. apply erased_other.
        apply (slot_apart x y); [by intros ->|lia..]. }
      destruct (set_shape_shaped m m1 x (0%nat, false) s Hs (shape_erase m x) Hoth) as (Hs1 & Hsx & Hso).
      destruct (record_step m1 (p - 1) (set_shape x (0%nat, false) s) (mkFlash m p)
        (nb_slots (booted m p s)) (nb_next_record (booted m p s)) x 0 image b' res) as (m' & p' & s' & H1 & H2 & H3 & H4 & H5);
        [exact Hs1|apply shape_erase|lia|done|done|done|apply Htorn; lia| |done|done|exact Hw|].
      { intros y Hy. rewrite set_shape_other by done. destruct (Hoth y (s y).1 (s y).2 Hy (Hs y)) as [_ Hl].
        rewrite Hl. split; [apply (booted_slot m p s y)|apply booted_next]. }
      exists m', p', s'. split; [done|]. split; [done|]. split; [by rewrite H3|]. split; [|intros ?; apply H5; lia].
      destruct res as [u|e]; [done|]. destruct H4 as [H4|[H4|H4]]; [right; left|right; by left|right; by right].
      rewrite H4. cbn [latest]. pose proof erased_image_invalid as He. unfold holds_image in He.
      by destruct (decode_storage_image erased_image).
    + intros [= <- <-]. exists m, p, s. split; [done|]. split; [done|]. split; [done|]. split; [by left|lia].
  - rewrite (proj2 (Z.leb_gt _ _)) by lia. unfold next_of in *. destruct (s x) as [n t] eqn:Hsx. cbn [fst snd] in *.
    destruct t; [lia|]. intros Hw.
    destruct (record_step m p s (mkFlash m p)
      (nb_slots (booted m p s)) (nb_next_record (booted m p s)) x n image b' res) as (m' & p' & s' & H1 & H2 & H3 & H4 & H5);
      [done|done|lia|done|done|done|apply Htorn; lia| |done|done|exact Hw|].
    { intros y Hy. split; [apply (booted_slot m p s y)|apply booted_next]. }
    exists m', p', s'. split; [done|]. split; [done|]. split; [done|]. split; [|intros ?; apply H5; lia]. done.
Qed.

(** ** Which slot counts *)

Definition newest_state (a b : option StorageState) : option StorageState :=
  match a, b with
  | Some a, Some b => if storage_generation_is_newer_or_equal (ss_generation a) (ss_generation b) then Some a else Some b
  | Some a, None => Some a
  | None, b => b
  end.

(** Slot [x] holds [ox], the other one [oy]. *)
Definition pick (x : StorageSlotIndex) (ox oy : option StorageState) : option StorageState :=
  match x with StorageA => newest_state ox oy | StorageB => newest_state oy ox end.

Definition decoded (m : Z → Z) (s : StorageSlotIndex → nat * bool) (x : StorageSlotIndex) : option StorageState :=
  result_ok (decode_storage_image (latest m x (s x).1)).

Definition target_of (b : NorFlashStorageBackend Flash) : StorageSlotIndex :=
  match select_newest_valid_storage_image (backend_slot b StorageA) (backend_slot b StorageB) with
  | Some slot => storage_slot_other (slot_index slot)
  | None => StorageA
  end.

Lemma restore_backend (b : NorFlashStorageBackend Flash) x : restore_latest_storage_state b =
  pick x (result_ok (decode_storage_image (backend_slot b x)))
    (result_ok (decode_storage_image (backend_slot b (storage_slot_other x)))).
Proof.
  unfold restore_latest_storage_state, select_newest_valid_storage_image, pick, newest_state. cbn [sb_slot nor_backend].
  destruct x; cbn [storage_slot_other]; destruct (result_ok (decode_storage_image (backend_slot b StorageA)));
    destruct (result_ok (decode_storage_image (backend_slot b StorageB))); try done; by case_match.
Qed.

Lemma restore_booted m p s x :
  restore_latest_storage_state (booted m p s) = pick x (decoded m s x) (decoded m s (storage_slot_other x)).
Proof. rewrite (restore_backend _ x), !booted_slot. done. Qed.

(** A state [st] newer than the one restored. *)
Definition supersedes (st : StorageState) (current : option StorageState) : Prop :=
  match current with
  | Some current => 0 < as_u32 (ss_generation st - ss_generation current) < 0x80000000
  | None => True
  end.

Lemma newer_generation a b : 0 < as_u32 (a - b) < 0x80000000 →
  storage_generation_is_newer_or_equal a b = true ∧ storage_generation_is_newer_or_equal b a = false.
Proof.
  unfold storage_generation_is_newer_or_equal, as_u32. intros H. split; [apply Z.ltb_lt; lia|].
  apply Z.ltb_ge. change (2 ^ 32) with 4294967296 in *. divmod.
Qed.

Lemma pick_target m p s x : target_of (booted m p s) = x →
  restore_latest_storage_state (booted m p s) = decoded m s (storage_slot_other x).
Proof.
  intros <-. rewrite (restore_booted m p s (target_of (booted m p s))).
  unfold target_of, select_newest_valid_storage_image. rewrite !booted_slot.
  fold (decoded m s StorageA) (decoded m s StorageB).
  destruct (decoded m s StorageA) as [a|] eqn:Ha, (decoded m s StorageB) as [b|] eqn:Hb;
    [destruct (storage_generation_is_newer_or_equal (ss_generation a) (ss_generation b)) eqn:Hn|..]; cbn [slot_index storage_slot_other pick]; rewrite ?Ha, ?Hb; unfold newest_state; by rewrite ?Hn.
Qed.

Lemma pick_none x o : pick x None o = o.
Proof. by destruct x, o. Qed.

Lemma pick_newer x st o : supersedes st o → pick x (Some st) o = Some st.
Proof.
  intros H. destruct x, o as [cur|]; try done; cbn in *; destruct (newer_generation _ _ H) as [H1 H2]; by rewrite ?H1, ?H2.
Qed.

Lemma supersedes_durable st o : supersedes st o → supersedes (durable st) o.
Proof. by destruct o. Qed.

(** ** Backends in use

    The region starts erased; states are stored, the supply may fail and come back, the firmware may
    start again, and a factory reset erases both slots. *)

(** A state the runtime hands over: well formed, newer than the stored one, its torn prefixes
    detected. *)
Record persistable (b : NorFlashStorageBackend Flash) (st : StorageState) : Prop := {
  pe_ok : state_ok st;
  pe_newer : supersedes st (restore_latest_storage_state b);
  pe_torn : ∀ image, encode_storage_image st = Ok image → torn_detected image (fl_power (nb_flash b))
}.

Definition restarted (b : NorFlashStorageBackend Flash) (p : Z) : Result StorageError (NorFlashStorageBackend Flash) :=
  NorFlashStorageBackend_new (mkFlash (fl_mem (backend_release b)) p) L.

Inductive storage_reached : NorFlashStorageBackend Flash → Prop :=
  | reached_blank m p b : (∀ a, base ≤ a < base + 8192 → m a = 0xff) →
      NorFlashStorageBackend_new (mkFlash m p) L = Ok b → storage_reached b
  | reached_stored b st b' r : storage_reached b → persistable b st → persist_storage_state b st = (b', Ok r) →
      storage_reached b'
  | reached_cut b st b' e p b'' : storage_reached b → persistable b st → persist_storage_state b st = (b', Err e) →
      restarted b' p = Ok b'' → storage_reached b''
  | reached_restart b p b' : storage_reached b → restarted b p = Ok b' → storage_reached b'
  | reached_erased b b' : storage_reached b → erase_all b = (b', Ok tt) → storage_reached b'.

Lemma restarted_booted m p s q b : shaped m s → nb_flash b = mkFlash m q → restarted b p = Ok (booted m p s).
Proof. intros Hs Hf. unfold restarted, backend_release. rewrite Hf. by apply boot. Qed.

(** [persist_storage_state] of a state that encodes. *)
Lemma persist_encoded b st image x : validate_state st = Ok tt → encode_storage_image st = Ok image → target_of b = x →
  persist_storage_state b st =
    match backend_write_slot x image b with
    | (b, Err e) => (b, Err e)
    | (b, Ok _) =>
        if bool_decide (backend_slot b x ≠ image) || negb (holds_image (backend_slot b x))
        then (b, Err StorageFlashVerify) else (b, Ok (mkWriteResult x st image))
    end.
Proof. intros Hv He <-. unfold persist_storage_state. by rewrite Hv, He. Qed.

(** One persist, on the flash and in the backend. *)
Lemma persist_spec m p s st b' res : shaped m s → persistable (booted m p s) st →
  persist_storage_state (booted m p s) st = (b', res) →
  ∃ m' p' s', nb_flash b' = mkFlash m' p' ∧ shaped m' s' ∧
    match res with
    | Ok r => b' = booted m' p' s' ∧ swr_state r = st ∧
        restore_latest_storage_state (booted m' p' s') = Some (durable st)
    | Err _ =>
        restore_latest_storage_state (booted m' p' s') = restore_latest_storage_state (booted m p s) ∨
        restore_latest_storage_state (booted m' p' s') = Some (durable st)
    end ∧ (1025 ≤ p → is_ok res = true).
Proof.
  intros Hs [Hok Hnew Ht]. destruct (encode_decodes st Hok) as (image & He & Hlen & Hb & Hd).
  set (x := target_of (booted m p s)). assert (target_of (booted m p s) = x) as Hx by done.
  rewrite (persist_encoded _ st image x) by (done || apply Hok).
  destruct (backend_write_slot x image (booted m p s)) as [b1 r1] eqn:Hw.
  destruct (backend_write_slot_spec m p s x image b1 r1) as (m' & p' & s' & Hf & Hs' & Hoth & Hres & Hp);
    [done..|unfold holds_image; by rewrite Hd|exact (Ht image He)|exact Hw|].
  pose proof (pick_target m p s x Hx) as Hcur. rewrite Hcur in Hnew |- *.
  assert (∀ q, restore_latest_storage_state (booted m' q s') =
    pick x (decoded m' s' x) (decoded m s (storage_slot_other x))) as Hr.
  { intros q. rewrite (restore_booted m' q s' x). unfold decoded at 2. by rewrite Hoth. }
  apply supersedes_durable in Hnew.
  destruct r1 as [u|e].
  - destruct Hres as [-> Hl]. rewrite booted_slot, Hl. unfold holds_image. rewrite Hd.
    rewrite bool_decide_false by (intros H; by apply H). cbn [is_ok negb orb]. intros [= <- <-].
    exists m', p', s'. split; [done|]. split; [done|]. split; [|done]. split; [done|]. split; [done|].
    rewrite Hr. unfold decoded at 1. rewrite Hl, Hd. by apply pick_newer.
  - intros [= <- <-]. exists m', p', s'. split; [done|]. split; [done|]. split; [|done].
    rewrite Hr. unfold decoded at 1 4. destruct Hres as [H|[H|H]]; rewrite H.
    + left. fold (decoded m s x). rewrite <- (restore_booted m p s x). exact Hcur.
    + left. apply pick_none.
    + right. rewrite Hd. by apply pick_newer.
Qed.

Lemma erase_all_spec m p s b' : erase_all (booted m p s) = (b', Ok tt) →
  ∃ m' p', b' = booted m' p' (λ _, (0%nat, false)) ∧ shaped m' (λ _, (0%nat, false)).
Proof.
  unfold erase_all. cbn [nf_erase supplied_flash]. change (fll_base_offset (nb_layout (booted m p s))) with base.
  change (layout_len (nb_layout (booted m p s))) with 8192. case_decide; [|done]. intros [= <-].
  eexists _, _. split; [done|]. intros x. cbn [fst snd]. split; [lia|intros r Hr; lia|].
  intros a Ha. unfold erased. rewrite decide_True; [done|].
  unfold STORAGE_FLASH_LEN, STORAGE_FLASH_SLOT_SIZE, STORAGE_FLASH_SLOT_COUNT in Hfits.
  unfold as_u32, record_start, slot_start in *. rewrite Z.mod_small by lia. destruct x; lia.
Qed.

Lemma blank_shaped m : (∀ a, base ≤ a < base + 8192 → m a = 0xff) → shaped m (λ _, (0%nat, false)).
Proof.
  intros H x. cbn [fst snd]. split; [lia|intros r Hr; lia|]. intros a Ha. apply H.
  unfold record_start, slot_start in Ha. destruct x; lia.
Qed.

Lemma reached_booted b : storage_reached b → ∃ m p s, b = booted m p s ∧ shaped m s.
Proof.
  induction 1 as [m p b Hm Hb|b st b' r _ (m & p & s & -> & Hs) Hpe Hw|b st b' e q b'' _ (m & p & s & -> & Hs) Hpe Hw Hb
                 |b p b' _ (m & q & s & -> & Hs) Hb|b b' _ (m & p & s & -> & Hs) He].
  - apply blank_shaped in Hm. rewrite (boot m p _ Hm) in Hb. injection Hb as <-. by eexists _, _, _.
  - destruct (persist_spec m p s st b' (Ok r) Hs Hpe Hw) as (m' & p' & s' & Hf & Hs' & (-> & _) & _). by eexists _, _, _.
  - destruct (persist_spec m p s st b' (Err e) Hs Hpe Hw) as (m' & p' & s' & Hf & Hs' & _).
    rewrite (restarted_booted m' q s' p') in Hb by done. injection Hb as <-. by eexists _, _, _.
  - rewrite (restarted_booted m p s q) in Hb by done. injection Hb as <-. by eexists _, _, _.
  - destruct (erase_all_spec m p s b' He) as (m' & p' & -> & Hs'). by eexists _, _, _.
Qed.

(** The backend after the supply is back, without a restart. *)
Definition resupplied (b : NorFlashStorageBackend Flash) (q : Z) : NorFlashStorageBackend Flash :=
  mkNorBackend (mkFlash (fl_mem (nb_flash b)) q) (nb_layout b) (nb_slots b) (nb_next_record b).

(** A persist into the free record [r] of the target. *)
Lemma persist_record m p slots next st image x r : validate_state st = Ok tt → encode_storage_image st = Ok image →
  target_of (mkNorBackend (mkFlash m p) L slots next) = x → length slots = 2%nat →
  nth (storage_slot_number x) next 0 = Z.of_nat r → (r < 4)%nat →
  (∀ a, record_start x r ≤ a < record_start x r + 1024 → m a = 0xff) →
  length image = STORAGE_IMAGE_LEN → bytes_ok image → holds_image image = true →
  persist_storage_state (mkNorBackend (mkFlash m p) L slots next) st =
    (mkNorBackend (mkFlash (programmed m (record_start x r) image (Z.of_nat (supplied p))) (p - Z.of_nat (supplied p))) L
       (if decide (supplied p = STORAGE_IMAGE_LEN) then <[storage_slot_number x := image]> slots else slots)
       (<[storage_slot_number x := Z.of_nat (S r)]> next),
     if decide (supplied p = STORAGE_IMAGE_LEN) then Ok (mkWriteResult x st image) else Err StorageFlashWrite).
Proof.
  intros Hval He Hx Hl Hn Hr Hfree Hlen Hb Hv. rewrite (persist_encoded _ st image x) by done.
  unfold backend_write_slot. cbn [nb_next_record nb_layout nb_flash]. rewrite Hn.
  change (records_per_slot L) with 4. rewrite (proj2 (Z.leb_gt 4 _)) by lia.
  rewrite write_record_spec by done. destruct (decide (supplied p = STORAGE_IMAGE_LEN)) as [Hk|Hk]; [|done].
  assert (backend_slot (F := Flash) (mkNorBackend (mkFlash (programmed m (record_start x r) image (Z.of_nat (supplied p)))
    (p - Z.of_nat (supplied p))) L (<[storage_slot_number x := image]> slots) (<[storage_slot_number x := Z.of_nat (S r)]> next)) x
    = image) as -> by (destruct slots as [|? [|? [|]]]; try done; by destruct x).
  by rewrite Hv, bool_decide_false by (intros H; by apply H).
Qed.

(** A slot whose record [r] is torn, and one more record after it. *)
Lemma after_torn m x r k image : slot_shape m x r false → (S r < 4)%nat → length image = STORAGE_IMAGE_LEN →
  bytes_ok image → holds_image image = true → (0 < k ≤ STORAGE_IMAGE_LEN)%nat →
  holds_image (torn_image image k) = false →
  let m' := programmed m (record_start x r) image (Z.of_nat k) in
  let m'' := programmed m' (record_start x (S r)) image (Z.of_nat STORAGE_IMAGE_LEN) in
  slot_shape m'' x r true ∧ latest m'' x r = latest m x r ∧
  (∀ a, record_start x (S r) ≤ a < record_start x (S r) + 1024 → m' a = 0xff).
Proof.
  intros Hs Hlt Hlen Hb Hv Hk Ht m' m''.
  destruct (record_written m x r k image Hs ltac:(lia) Hlen Hb Hv ltac:(lia)) as (Hrec & _ & Hsh & Hlat).
  rewrite !decide_False, Ht in Hsh by lia. cbn [negb] in Hsh. destruct Hsh as [Hn Hi (_ & Hrest)].
  assert (∀ q, (q ≤ r)%nat → record_at m'' x q = record_at m' x q) as Hkeep by (intros q Hq; apply record_kept; lia).
  split; [split; [done| |]|split].
  - intros q Hq. rewrite Hkeep by lia. by apply Hi.
  - rewrite Hkeep by lia. split; [lia|exact Hrest].
  - rewrite <- Hlat. destruct r as [|r']; [done|]. apply Hkeep. lia.
  - intros a Ha. unfold m', programmed. change STORAGE_IMAGE_LEN with 1024%nat in Hk.
    rewrite decide_False by (unfold record_start in *; lia). destruct Hs as [_ _ Hr]. apply Hr.
    unfold record_start in *. lia.
Qed.

(** One persist by a backend in use, and the restart after it. *)
Lemma persist_outcome b st b' res p : storage_reached b → persistable b st → persist_storage_state b st = (b', res) →
  (∃ b'', restarted b' p = Ok b'' ∧
     match res with
     | Ok r => swr_state r = st ∧ restore_latest_storage_state b' = Some (durable st) ∧
         restore_latest_storage_state b'' = Some (durable st)
     | Err _ => restore_latest_storage_state b'' = restore_latest_storage_state b ∨
         restore_latest_storage_state b'' = Some (durable st)
     end) ∧
  (1025 ≤ fl_power (nb_flash b) → is_ok res = true).
Proof.
  intros Hb Hpe Hw. destruct (reached_booted b Hb) as (m & q & s & -> & Hs).
  destruct (persist_spec m q s st b' res Hs Hpe Hw) as (m' & p' & s' & Hf & Hs' & Hres & Hp).
  split; [|exact Hp]. exists (booted m' p s'). split; [by apply (restarted_booted m' p s' p')|].
  rewrite (restore_booted m' p s' StorageA), <- (restore_booted m' p' s' StorageA).
  destruct res as [r|e]; [|done]. by destruct Hres as (-> & Hst & Hr).
Qed.


(** C38: a retry after a failed write is lost.  When a write tears a record and the persist is retried
    without a restart, the retry goes to the next record, reports success and is current, but the
    scan of a restart stops at the torn record: the restart finds the state before it. *)
Theorem retried_persist_lost b st power q p : storage_reached b → persistable b st →
  (∀ image, encode_storage_image st = Ok image → holds_image (torn_image image (supplied power)) = false) →
  fl_power (nb_flash b) = power → 0 < power < 1024 → 1024 ≤ q →
  nth (storage_slot_number (target_of b)) (nb_next_record b) 0 < 3 →
  let (b1, r1) := persist_storage_state b st in
  let (b2, r2) := persist_storage_state (resupplied b1 q) st in
  r1 = Err StorageFlashWrite ∧ is_ok r2 = true ∧ restore_latest_storage_state b2 = Some (durable st) ∧
  ∃ b3, restarted b2 p = Ok b3 ∧ restore_latest_storage_state b3 = restore_latest_storage_state b.
Proof.
  intros Hb Hpe Ht Hpow Hlow Hq Hnext. destruct (reached_booted b Hb) as (m & power' & s & -> & Hs).
  cbn in Hpow. subst power'. set (x := target_of (booted m power s)) in *.
  destruct Hpe as [Hok Hnew _]. destruct (encode_decodes st Hok) as (image & He & Hlen & Hby & Hd).
  specialize (Ht image He). assert (holds_image image = true) as Hv by (unfold holds_image; by rewrite Hd).
  rewrite booted_next in Hnext. destruct (s x) as [n t] eqn:Hsx. cbn [fst snd] in Hnext.
  unfold next_of in Hnext. destruct t; [lia|]. pose proof (Hs x) as Hx. rewrite Hsx in Hx. cbn [fst snd] in Hx.
  assert (0 < supplied power < STORAGE_IMAGE_LEN)%nat as Hk
    by (unfold supplied; change STORAGE_IMAGE_LEN with 1024%nat; lia).
  assert (supplied q = STORAGE_IMAGE_LEN) as Hfull by (unfold supplied; change STORAGE_IMAGE_LEN with 1024%nat; lia).
  destruct (after_torn m x n (supplied power) image Hx ltac:(lia) Hlen Hby Hv ltac:(lia) Ht) as (Hsh & Hlat & Hfree).
  pose proof (booted_next m power s x) as Hnx. rewrite Hsx in Hnx.
  set (slots := nb_slots (booted m power s)). set (next := nb_next_record (booted m power s)).
  change (booted m power s) with (mkNorBackend (mkFlash m power) L slots next) at 1.
  rewrite (persist_record m power slots next st image x n);
    [|apply Hok|done|done|done|exact Hnx|lia|by (apply shape_free; [|lia])|done..].
  rewrite !(decide_False (P := supplied power = STORAGE_IMAGE_LEN)) by lia.
  set (m1 := programmed m (record_start x n) image (Z.of_nat (supplied power))) in *.
  unfold resupplied. cbn [nb_flash nb_layout nb_slots nb_next_record fl_mem].
  rewrite (persist_record m1 q slots _ st image x (S n)); [|apply Hok|done|done|done|by destruct x|lia|done..].
  rewrite Hfull, !(decide_True (P := STORAGE_IMAGE_LEN = STORAGE_IMAGE_LEN)) by done.
  set (m2 := programmed m1 _ image _) in *.
  set (b2 := mkNorBackend (mkFlash m2 _) L (<[storage_slot_number x := image]> slots) _).
  assert (backend_slot b2 x = image ∧
    backend_slot b2 (storage_slot_other x) = latest m (storage_slot_other x) (s (storage_slot_other x)).1)
    as [Hb2 Hb2'] by (unfold b2; by destruct x).
  pose proof (pick_target m power s x eq_refl) as Hcur. rewrite Hcur in Hnew |- *.
  split; [done|]. split; [done|].
  split.
  - rewrite (restore_backend b2 x), Hb2, Hb2', Hd. apply pick_newer. by apply supersedes_durable.
  - destruct (set_shape_shaped m m2 x (n, true) s Hs Hsh) as (Hs2 & Hsx2 & Hso2).
    { intros y c t Hy Hc. change STORAGE_IMAGE_LEN with 1024%nat in Hk.
      destruct (others_kept m x n (supplied power) image ltac:(lia) ltac:(lia) y c t Hy Hc) as [Hc1 Hl1].
      destruct (others_kept m1 x (S n) 1024 image ltac:(lia) ltac:(lia) y c t Hy Hc1) as [Hc2 Hl2].
      split; [exact Hc2|]. by rewrite <- Hl1. }
    eexists. split; [by apply (restarted_booted m2 p _ (q - Z.of_nat STORAGE_IMAGE_LEN) b2 Hs2)|].
    rewrite (restore_booted m2 p _ x). unfold decoded. rewrite Hso2, Hsx2. cbn [fst]. rewrite Hlat.
    fold (decoded m s (storage_slot_other x)). rewrite <- Hcur at 2. rewrite (restore_booted m power s x). unfold decoded at 2. by rewrite Hsx.
Qed.
End Layout.

(** ** Instances *)

(** Nothing stored, in a flash that can take [p] more bytes. *)
Definition blank_backend (p : Z) : NorFlashStorageBackend Flash := booted 0 (λ _, 0xff) p (λ _, (0%nat, false)).

Lemma blank_reached p : storage_reached 0 (blank_backend p).
Proof.
  assert (0 + STORAGE_FLASH_LEN ≤ 0x400000) as Hf by (vm_compute; done).
  apply (reached_blank 0 (λ _, 0xff) p); [done|]. apply boot; [lia|done|exact Hf|]. by apply blank_shaped.
Qed.

Lemma blank_restored p : restore_latest_storage_state (blank_backend p) = None.
Proof. rewrite (restore_backend _ StorageA). by vm_compute. Qed.

Lemma torn_short image k : (k ≤ 3)%nat → length image = STORAGE_IMAGE_LEN → holds_image (torn_image image k) = false.
Proof.
  intros Hk Hl. unfold holds_image, decode_storage_image. case_decide as H1; [done|]. case_decide as H2; [done|].
  destruct image as [|i0 [|i1 [|i2 image]]]; try done. exfalso. destruct k as [|[|[|[|k]]]]; try lia; done.
Qed.

Lemma sample_persistable p : p ≤ 3 ∨ 1025 ≤ p → persistable (blank_backend p) sample_state.
Proof.
  intros Hp. split; [exact sample_state_ok|by rewrite blank_restored|].
  intros image He k Hk Hr Hh. cbn in Hk. change STORAGE_IMAGE_LEN with 1024%nat in Hr.
  destruct (encode_decodes sample_state sample_state_ok) as (image' & He' & Hl & _).
  rewrite He in He'. injection He' as <-. rewrite torn_short in Hh by (done || lia). done.
Qed.


Lemma retried_persist_lost_witness :
  let (b1, r1) := persist_storage_state (blank_backend 3) sample_state in
  let (b2, r2) := persist_storage_state (resupplied b1 2000) sample_state in
  r1 = Err StorageFlashWrite ∧ is_ok r2 = true ∧ restore_latest_storage_state b2 = Some (durable sample_state) ∧
  ∃ b3, restarted 0 b2 100 = Ok b3 ∧ restore_latest_storage_state b3 = restore_latest_storage_state (blank_backend 3).
Proof.
  assert (0 + STORAGE_FLASH_LEN ≤ 0x400000) as Hf by (vm_compute; discriminate).
  apply (retried_persist_lost 0 (Z.le_refl 0) eq_refl Hf (blank_backend 3) sample_state 3 2000 100 (blank_reached 3)
    (sample_persistable 3 ltac:(lia))); [|reflexivity|lia|lia|].
  - intros image He. destruct (encode_decodes sample_state sample_state_ok) as (image' & He' & Hl & _).
    rewrite He in He'. injection He' as <-. apply torn_short; [vm_compute; lia|exact Hl].
  - unfold blank_backend. rewrite booted_next. cbn. lia.
Defined.
