(* ===== verification/HostState.v ===== *)
(** * BLE host state and pairing ([src/src/bridge/host_state.rs], [pairing.rs])

    What the bridge knows of each BLE computer: its connection, security and subscriptions, what it
    remembers of them, and which one is active.  [HOSTS] is the length of the array.  An operation
    on a host that may have to be created takes what the caller does to it. *)

From S2P Require Import Prelude Input Reports Settings Movement InputProfile OutputTarget.
From S2P Require Import StorageImage.

(** ** Data *)

Record ReportReady := mkReportReady {
  rr_keyboard : bool; rr_mouse : bool; rr_consumer : bool; rr_keyboard_output : bool
}.
#[export] Instance ReportReady_eq_dec : EqDecision ReportReady.
Proof. solve_decision. Defined.

Definition ReportReady_default : ReportReady := mkReportReady false false false false.

Definition ready_get (self : ReportReady) (kind : ReportKind) : bool :=
  match kind with
  | KindKeyboard => rr_keyboard self
  | KindMouse => rr_mouse self
  | KindConsumer => rr_consumer self
  | KindKeyboardOutput => rr_keyboard_output self
  end.

Definition ready_set (self : ReportReady) (kind : ReportKind) (enabled : bool) : ReportReady :=
  match kind with
  | KindKeyboard => mkReportReady enabled (rr_mouse self) (rr_consumer self) (rr_keyboard_output self)
  | KindMouse => mkReportReady (rr_keyboard self) enabled (rr_consumer self) (rr_keyboard_output self)
  | KindConsumer => mkReportReady (rr_keyboard self) (rr_mouse self) enabled (rr_keyboard_output self)
  | KindKeyboardOutput => mkReportReady (rr_keyboard self) (rr_mouse self) (rr_consumer self) enabled
  end.

Record HostRuntimeState := mkHostRuntime {
  hr_host_id : Z;
  hr_connected : bool;
  hr_encrypted : bool;
  hr_bonded : bool;
  hr_stored_report_ready : ReportReady;
  hr_session_report_ready : ReportReady;
  hr_keyboard_leds : option Z;
  hr_name : FixedName;
  hr_discovered_name : FixedName;
  hr_bond : option StoredBond
}.
#[export] Instance eta_HostRuntimeState : Eta HostRuntimeState :=
  λ r, mkHostRuntime (hr_host_id r) (hr_connected r) (hr_encrypted r) (hr_bonded r)
         (hr_stored_report_ready r) (hr_session_report_ready r) (hr_keyboard_leds r) (hr_name r)
         (hr_discovered_name r) (hr_bond r).
#[export] Instance HostRuntimeState_eq_dec : EqDecision HostRuntimeState.
Proof. solve_decision. Defined.

Definition HostRuntimeState_default : HostRuntimeState :=
  mkHostRuntime 0 false false false ReportReady_default ReportReady_default None FixedName_empty
    FixedName_empty None.

Definition host_can_send (self : HostRuntimeState) (kind : ReportKind) : bool :=
  hr_connected self && hr_encrypted self && ready_get (hr_session_report_ready self) kind.

Definition has_bond (self : HostRuntimeState) : bool := hr_bonded self || is_some (hr_bond self).

Inductive HostStateError := InvalidHostId | HostCapacity.
#[export] Instance HostStateError_eq_dec : EqDecision HostStateError.
Proof. solve_decision. Defined.

Record BleHostStateMachine := mkHostMachine {
  hm_active_target : option Z;
  hm_hosts : list (option HostRuntimeState)
}.
#[export] Instance eta_BleHostStateMachine : Eta BleHostStateMachine :=
  λ r, mkHostMachine (hm_active_target r) (hm_hosts r).
#[export] Instance BleHostStateMachine_eq_dec : EqDecision BleHostStateMachine.
Proof. solve_decision. Defined.

Definition BleHostStateMachine_new (HOSTS : nat) : BleHostStateMachine :=
  mkHostMachine None (replicate HOSTS None).

(** ** Lookup *)

Definition is_host (host_id : Z) (slot : option HostRuntimeState) : bool :=
  match slot with Some host => bool_decide (hr_host_id host = host_id) | None => false end.

Definition ble_host_index (self : BleHostStateMachine) (host_id : Z) : option nat :=
  position (is_host host_id) (hm_hosts self).

Definition machine_host (self : BleHostStateMachine) (host_id : Z) : option HostRuntimeState :=
  let+ index := ble_host_index self host_id in mjoin (hm_hosts self !! index).

(** [host_mut]: the caller's update, when the host is known. *)
Definition machine_host_mut (self : BleHostStateMachine) (host_id : Z)
  (f : HostRuntimeState → HostRuntimeState) : BleHostStateMachine :=
  match ble_host_index self host_id with
  | Some index =>
      match hm_hosts self !! index with
      | Some (Some host) => self <| hm_hosts ::= λ hosts, <[index := Some (f host)]> hosts |>
      | _ => self
      end
  | None => self
  end.

Definition upsert_host {A} (self : BleHostStateMachine) (host_id : Z)
  (f : HostRuntimeState → HostRuntimeState * A) : BleHostStateMachine * Result HostStateError A :=
  match HostId_validated host_id with
  | Err _ => (self, Err InvalidHostId)
  | Ok _ =>
      match ble_host_index self host_id with
      | Some index =>
          match hm_hosts self !! index with
          | Some (Some host) =>
              let (host, a) := f host in
              (self <| hm_hosts ::= λ hosts, <[index := Some host]> hosts |>, Ok a)
          | _ => (self, Err HostCapacity)
          end
      | None =>
          match position is_none (hm_hosts self) with
          | None => (self, Err HostCapacity)
          | Some index =>
              let (host, a) := f (HostRuntimeState_default <| hr_host_id := host_id |>) in
              (self <| hm_hosts ::= λ hosts, <[index := Some host]> hosts |>, Ok a)
          end
      end
  end.

(** ** Operations *)

Definition set_active_target (self : BleHostStateMachine) (host_id : Z)
  : BleHostStateMachine * Result HostStateError bool :=
  match upsert_host self host_id (λ host, (host, tt)) with
  | (self, Err e) => (self, Err e)
  | (self, Ok _) =>
      let changed := bool_decide (hm_active_target self ≠ Some host_id) in
      (self <| hm_active_target := Some host_id |>, Ok changed)
  end.

Definition clear_active_target (self : BleHostStateMachine) : BleHostStateMachine :=
  self <| hm_active_target := None |>.

Definition on_connected (self : BleHostStateMachine) (host_id : Z)
  : BleHostStateMachine * Result HostStateError unit :=
  upsert_host self host_id (λ host,
    (host <| hr_connected := true |> <| hr_encrypted := false |>
          <| hr_session_report_ready := ReportReady_default |>, tt)).

Definition on_disconnected (self : BleHostStateMachine) (host_id : Z) : BleHostStateMachine :=
  machine_host_mut self host_id (λ host,
    host <| hr_connected := false |> <| hr_encrypted := false |>
         <| hr_session_report_ready := ReportReady_default |>).

Definition on_security_changed (self : BleHostStateMachine) (host_id : Z) (encrypted bonded : bool)
  (bond : option StoredBond) : BleHostStateMachine * Result HostStateError bool :=
  upsert_host self host_id (λ host,
    let stored_bonded := bonded || is_some (hr_bond host) in
    let persist := bool_decide (hr_bonded host ≠ stored_bonded) ||
                   (is_some bond && bool_decide (hr_bond host ≠ bond)) in
    let host := host <| hr_encrypted := encrypted |> in
    let host := host <| hr_bonded := stored_bonded |> in
    let host := match bond with Some bond => host <| hr_bond := Some bond |> | None => host end in
    let host :=
      if hr_connected host && hr_encrypted host && hr_bonded host
      then host <| hr_session_report_ready := hr_stored_report_ready host |>
      else if negb (hr_encrypted host) then host <| hr_session_report_ready := ReportReady_default |>
      else host in
    (host, persist)).

Definition on_cccd_changed (self : BleHostStateMachine) (host_id : Z) (report : ReportKind)
  (enabled : bool) : BleHostStateMachine * Result HostStateError bool :=
  upsert_host self host_id (λ host,
    let persist := bool_decide (ready_get (hr_stored_report_ready host) report ≠ enabled) in
    (host <| hr_stored_report_ready ::= λ r, ready_set r report enabled |>
          <| hr_session_report_ready ::= λ r, ready_set r report enabled |>, persist)).

Definition on_keyboard_led_changed (self : BleHostStateMachine) (host_id leds : Z)
  : BleHostStateMachine * Result HostStateError unit :=
  upsert_host self host_id (λ host, (host <| hr_keyboard_leds := Some leds |>, tt)).

Definition machine_clear_host (self : BleHostStateMachine) (host_id : Z) : BleHostStateMachine * bool :=
  match ble_host_index self host_id with
  | None => (self, false)
  | Some index =>
      let self := self <| hm_hosts ::= λ hosts, <[index := None]> hosts |> in
      (if bool_decide (hm_active_target self = Some host_id)
       then self <| hm_active_target := None |> else self, true)
  end.

Definition set_name (self : BleHostStateMachine) (host_id : Z) (name : FixedName)
  : BleHostStateMachine * Result HostStateError bool :=
  upsert_host self host_id (λ host,
    (host <| hr_name := name |>, bool_decide (hr_name host ≠ name))).

Definition set_discovered_name (self : BleHostStateMachine) (host_id : Z) (name : FixedName)
  : BleHostStateMachine * Result HostStateError bool :=
  upsert_host self host_id (λ host,
    (host <| hr_discovered_name := name |>, bool_decide (hr_discovered_name host ≠ name))).

(** The body of [restore]'s loop. *)
Definition restore_host (stored : StoredHostProfile) (host : HostRuntimeState) : HostRuntimeState :=
  host <| hr_bonded := sh_bonded stored |> <| hr_connected := false |> <| hr_encrypted := false |>
       <| hr_stored_report_ready :=
            mkReportReady (sh_keyboard_cccd_enabled stored) (sh_mouse_cccd_enabled stored)
              (sh_consumer_cccd_enabled stored) (sh_keyboard_output_cccd_enabled stored) |>
       <| hr_session_report_ready := ReportReady_default |> <| hr_keyboard_leds := None |>
       <| hr_name := sh_name stored |> <| hr_discovered_name := FixedName_empty |>
       <| hr_bond := sh_bond stored |>.

Fixpoint restore_hosts (self : BleHostStateMachine) (hosts : list StoredHostProfile)
  : BleHostStateMachine * Result HostStateError unit :=
  match hosts with
  | [] => (self, Ok tt)
  | stored :: hosts =>
      match upsert_host self (sh_host_id stored) (λ host, (restore_host stored host, tt)) with
      | (self, Err e) => (self, Err e)
      | (self, Ok _) => restore_hosts self hosts
      end
  end.

Definition machine_restore (self : BleHostStateMachine) (storage : StorageState)
  : BleHostStateMachine * Result HostStateError unit :=
  let self := self <| hm_active_target := ss_last_active_host storage |> in
  let self := self <| hm_hosts ::= λ hosts, replicate (length hosts) None |> in
  restore_hosts self (ss_hosts storage).

Definition stored_host (host : HostRuntimeState) : StoredHostProfile :=
  mkStoredHost (hr_host_id host) (hr_bonded host) (rr_keyboard (hr_stored_report_ready host))
    (rr_mouse (hr_stored_report_ready host)) (rr_consumer (hr_stored_report_ready host))
    (rr_keyboard_output (hr_stored_report_ready host)) (hr_name host) (hr_bond host).

Fixpoint push_hosts (state : StorageState) (hosts : list HostRuntimeState)
  : Result StorageError StorageState :=
  match hosts with
  | [] => Ok state
  | host :: hosts =>
      match push_host state (stored_host host) with
      | (state, Ok _) => push_hosts state hosts
      | (_, Err e) => Err e
      end
  end.

Definition machine_storage_state (self : BleHostStateMachine) (generation : Z)
  : Result StorageError StorageState :=
  let? state := push_hosts (StorageState_new generation) (omap id (hm_hosts self)) in
  Ok (state <| ss_last_active_host :=
        match hm_active_target self with
        | Some active =>
            if existsb (λ host, bool_decide (sh_host_id host = active)) (ss_hosts state)
            then Some active else None
        | None => None
        end |>).

Definition machine_can_send (self : BleHostStateMachine) (host_id : Z) (kind : ReportKind) : bool :=
  match machine_host self host_id with Some host => host_can_send host kind | None => false end.

(** The [for] loop of [next_target_after]. *)
Fixpoint next_target_loop (hosts : list HostRuntimeState) (current : option Z)
  (is_candidate : HostRuntimeState → bool) (first_connected : option Z) (return_next : bool) : option Z :=
  match hosts with
  | [] => first_connected
  | host :: hosts =>
      if negb (is_candidate host)
      then next_target_loop hosts current is_candidate first_connected return_next
      else
        let first_connected := match first_connected with None => Some (hr_host_id host) | f => f end in
        if return_next then Some (hr_host_id host)
        else next_target_loop hosts current is_candidate first_connected
               (return_next || bool_decide (Some (hr_host_id host) = current))
  end.

Definition next_target_after (self : BleHostStateMachine) (current : option Z)
  (is_candidate : HostRuntimeState → bool) : option Z :=
  next_target_loop (omap id (hm_hosts self)) current is_candidate None (is_none current).

Definition next_connected_target_after (self : BleHostStateMachine) (current : option Z) : option Z :=
  next_target_after self current hr_connected.
Definition next_connected_target (self : BleHostStateMachine) : option Z :=
  next_connected_target_after self (hm_active_target self).
Definition next_ready_target_after (self : BleHostStateMachine) (current : option Z)
  (report : ReportKind) : option Z :=
  next_target_after self current (λ host, host_can_send host report).

(** The [for] loop of [pairing_candidate]. *)
Fixpoint first_unbonded (self : BleHostStateMachine) (indexes : list nat) : option Z :=
  match indexes with
  | [] => None
  | index :: indexes =>
      let host_id := Z.of_nat (index + 1) in
      if decide (U8_MAX < host_id) then None
      else match machine_host self host_id with
           | Some host => if has_bond host then first_unbonded self indexes else Some host_id
           | None => Some host_id
           end
  end.

Definition pairing_candidate (self : BleHostStateMachine) : option Z :=
  let from_slots := first_unbonded self (seq 0 (length (hm_hosts self))) in
  match hm_active_target self with
  | Some active =>
      match machine_host self active with
      | Some host => if has_bond host then from_slots else Some active
      | None => from_slots
      end
  | None => from_slots
  end.

(** ** Pairing mode *)

Record PairingSession := mkPairingSession { pg_host_id : Z; pg_expires_at_ms : Z }.
Record PairingMode := mkPairingMode { pm_current : option PairingSession }.

Definition PairingMode_new : PairingMode := mkPairingMode None.
Definition pairing_enter (self : PairingMode) (host_id now_ms duration_ms : Z) : PairingMode :=
  mkPairingMode (Some (mkPairingSession host_id (u64_saturating_add now_ms duration_ms))).
Definition pairing_cancel (self : PairingMode) : PairingMode := mkPairingMode None.
Definition pairing_is_open_for (self : PairingMode) (host_id : Z) : bool :=
  match pm_current self with
  | Some session => bool_decide (pg_host_id session = host_id)
  | None => false
  end.
Definition pairing_clear_host (self : PairingMode) (host_id : Z) : PairingMode :=
  if pairing_is_open_for self host_id then mkPairingMode None else self.
Definition pairing_tick (self : PairingMode) (now_ms : Z) : PairingMode * option Z :=
  match pm_current self with
  | None => (self, None)
  | Some session =>
      if decide (now_ms < pg_expires_at_ms session) then (self, None)
      else (mkPairingMode None, Some (pg_host_id session))
  end.

(** ** The hosts as a finite map *)

Definition known_hosts (m : BleHostStateMachine) : list HostRuntimeState := omap id (hm_hosts m).
Definition host_slot_ok (id : Z) : Prop := HostId_validated id = Ok id.

Record machine_inv (m : BleHostStateMachine) : Prop := {
  machine_slots : length (hm_hosts m) = HOST_SLOT_COUNT;
  machine_ids : NoDup (map hr_host_id (known_hosts m));
  machine_valid : Forall (λ h, host_slot_ok (hr_host_id h)) (known_hosts m);
  machine_active : ∀ a, hm_active_target m = Some a → is_Some (machine_host m a)
}.

Lemma host_slot_ok_iff i : host_slot_ok i ↔ 1 ≤ i ≤ 4.
Proof.
  unfold host_slot_ok, HostId_validated, HostSlot_try_from, HOST_SLOT_MIN, HOST_SLOT_MAX.
  case_decide as H; split; try done.
Qed.

Lemma find_omap (p : HostRuntimeState → bool) l :
  List.find p (omap id l) =
  match position (λ s, match s with Some h => p h | None => false end) l with
  | Some i => mjoin (l !! i)
  | None => None
  end.
Proof.
  induction l as [|[h|] l IH]; cbn; [done| |].
  - destruct (p h); [done|]. rewrite IH. by destruct (position _ l).
  - rewrite IH. by destruct (position _ l).
Qed.

Lemma machine_host_find m id :
  machine_host m id = List.find (λ h, bool_decide (hr_host_id h = id)) (known_hosts m).
Proof. unfold known_hosts. rewrite find_omap. unfold machine_host, ble_host_index. done. Qed.

Lemma machine_host_elem m id h : NoDup (map hr_host_id (known_hosts m)) →
  machine_host m id = Some h ↔ h ∈ known_hosts m ∧ hr_host_id h = id.
Proof.
  intros Hn. rewrite machine_host_find. split.
  - intros H. apply find_some in H as [Hin H]. apply bool_decide_eq_true in H.
    split; [by apply list_elem_of_In|done].
  - intros [Hin Hid]. destruct (List.find _ _) as [q|] eqn:Hf.
    + apply find_some in Hf as [Hq Hqid]. apply bool_decide_eq_true in Hqid. f_equal.
      apply list_elem_of_In, list_elem_of_lookup in Hq as [a Ha]. apply list_elem_of_lookup in Hin as [b Hb].
      assert (a = b) as ->; [|congruence].
      apply (proj1 (NoDup_alt _) Hn a b id);
        change (map hr_host_id) with (fmap (M:=list) hr_host_id); rewrite list_lookup_fmap;
        [rewrite Ha|rewrite Hb]; cbn; congruence.
    + apply list_elem_of_In in Hin. pose proof (find_none _ _ Hf h Hin) as H.
      by apply bool_decide_eq_false in H.
Qed.

Lemma machine_host_Some m id h : machine_inv m →
  machine_host m id = Some h ↔ h ∈ known_hosts m ∧ hr_host_id h = id.
Proof. intros [_ Hn _ _]. by apply machine_host_elem. Qed.

Lemma machine_host_None m id : machine_host m id = None ↔ id ∉ map hr_host_id (known_hosts m).
Proof.
  rewrite machine_host_find. split.
  - intros H (h & -> & Hin)%list_elem_of_fmap. apply list_elem_of_In in Hin.
    pose proof (find_none _ _ H h Hin) as Hd. by apply bool_decide_eq_false in Hd.
  - intros H. destruct (List.find _ _) as [h|] eqn:Hf; [|done]. apply find_some in Hf as [Hin Hd].
    apply bool_decide_eq_true in Hd. destruct H. apply list_elem_of_fmap. exists h. split; [done|].
    by apply list_elem_of_In.
Qed.

Lemma known_le_4 m : machine_inv m → (length (known_hosts m) ≤ 4)%nat.
Proof.
  intros [_ Hn Hv _]. rewrite <- (length_map hr_host_id).
  change 4%nat with (length [1; 2; 3; 4]). apply submseteq_length, NoDup_submseteq; [done|].
  intros i (h & -> & Hin)%list_elem_of_fmap. apply list_elem_of_In in Hin.
  apply (proj1 (List.Forall_forall _ _) Hv) in Hin. apply host_slot_ok_iff in Hin.
  rewrite !elem_of_cons. lia.
Qed.

(** ** Through a restart *)

(** What storage keeps of a host. *)
Definition forget (h : HostRuntimeState) : HostRuntimeState :=
  restore_host (stored_host h) (HostRuntimeState_default <| hr_host_id := hr_host_id h |>).

Lemma forget_id h : hr_host_id (forget h) = hr_host_id h.
Proof. done. Qed.

Lemma push_hosts_spec st hosts : (length (ss_hosts st) + length hosts ≤ 4)%nat →
  push_hosts st hosts = Ok (st <| ss_hosts ::= λ l, l ++ map stored_host hosts |>).
Proof.
  revert st. induction hosts as [|h hosts IH]; intros st Hl; cbn [push_hosts map].
  { destruct st. unfold upd, eta_StorageState. cbn. by rewrite app_nil_r. }
  cbn in Hl. unfold push_host, vec_push. change STORED_HOSTS_MAX with 4%nat. rewrite decide_True by lia.
  rewrite IH by (unfold upd; cbn; rewrite length_app; cbn; lia). f_equal. unfold upd, eta_StorageState. cbn.
  by rewrite <- app_assoc.
Qed.

Lemma validate_hosts_spec hosts seen : length seen = 4%nat → NoDup (map sh_host_id hosts) →
  Forall (λ h, 1 ≤ sh_host_id h ≤ 4 ∧ seen !! Z.to_nat (sh_host_id h - 1) = Some false) hosts →
  validate_hosts hosts seen = Ok tt.
Proof.
  revert seen. induction hosts as [|h hosts IH]; intros seen Hl Hn Hf; [done|]. cbn [validate_hosts map] in *.
  apply List.Forall_cons_iff in Hf as [[Hid Hs] Hf]. apply list.NoDup_cons in Hn as [Hh Hn].
  rewrite bool_decide_false by lia. rewrite Hs. apply IH; [by rewrite length_insert|done|].
  apply List.Forall_forall. intros x Hx. pose proof (proj1 (List.Forall_forall _ _) Hf x Hx) as [Hxid Hxs].
  split; [done|]. rewrite list_lookup_insert_ne; [done|]. intros He. apply Hh. apply list_elem_of_fmap.
  exists x. split; [lia|by apply list_elem_of_In].
Qed.

Lemma position_is_none (l : list HostRuntimeState) k :
  position is_none (map Some l ++ replicate (S k) None) = Some (length l).
Proof. induction l as [|h l IH]; [done|]. cbn [map app position is_none]. by rewrite IH. Qed.

Lemma position_absent i (l : list HostRuntimeState) k : i ∉ map hr_host_id l →
  position (is_host i) (map Some l ++ replicate k None) = None.
Proof.
  intros Hi. induction l as [|h l IH]; cbn [map app position].
  - induction k as [|k IHk]; [done|]. cbn [replicate position is_host]. by rewrite IHk.
  - cbn in Hi. apply not_elem_of_cons in Hi as [Hh Hl]. cbn [is_host]. rewrite bool_decide_false by congruence.
    by rewrite (IH Hl).
Qed.

Lemma restore_hosts_spec active l rest k : NoDup (map hr_host_id (l ++ rest)) →
  Forall (λ h, host_slot_ok (hr_host_id h)) rest → (length rest ≤ k)%nat →
  restore_hosts (mkHostMachine active (map Some (map forget l) ++ replicate k None)) (map stored_host rest) =
  (mkHostMachine active (map Some (map forget (l ++ rest)) ++ replicate (k - length rest) None), Ok tt).
Proof.
  revert l k. induction rest as [|h rest IH]; intros l k Hn Hf Hk; cbn [map restore_hosts length].
  { by rewrite app_nil_r, Nat.sub_0_r. }
  apply List.Forall_cons_iff in Hf as [Hh Hf]. cbn in Hk. destruct k as [|k]; [lia|].
  unfold upsert_host. cbn [sh_host_id stored_host]. rewrite Hh.
  assert (hr_host_id h ∉ map hr_host_id (map forget l)) as Habs.
  { rewrite map_map. replace (map (λ x, hr_host_id (forget x)) l) with (map hr_host_id l) by (by apply map_ext).
    rewrite map_app in Hn. apply list.NoDup_app in Hn as (_ & Hd & _). intros Hin. apply (Hd _ Hin), list_elem_of_here. }
  unfold ble_host_index. cbn [hm_hosts]. rewrite position_absent by done. rewrite position_is_none.
  change (restore_host (stored_host h) _) with (forget h).
  unfold upd. cbn [hm_hosts hm_active_target eta_BleHostStateMachine].
  assert (<[length (map forget l):=Some (forget h)]> (map Some (map forget l) ++ replicate (S k) None) =
    map Some (map forget (l ++ [h])) ++ replicate k None) as ->.
  { rewrite insert_app_r_alt by (rewrite length_map; lia). rewrite (length_map Some), Nat.sub_diag.
    cbn [replicate list_insert insert]. rewrite !map_app. cbn. by rewrite <- app_assoc. }
  rewrite IH; [by rewrite <- app_assoc| |done|lia].
  by rewrite <- app_assoc.
Qed.

Lemma known_filled active l k :
  known_hosts (mkHostMachine active (map Some l ++ replicate k None)) = l.
Proof.
  unfold known_hosts. cbn [hm_hosts]. induction l as [|h l IH]; cbn.
  - induction k as [|k IHk]; [done|]. done.
  - by rewrite IH.
Qed.

Lemma find_forget i l : List.find (λ h, bool_decide (hr_host_id h = i)) (map forget l) =
  forget <$> List.find (λ h, bool_decide (hr_host_id h = i)) l.
Proof. induction l as [|h l IH]; [done|]. cbn. case_bool_decide; [done|exact IH]. Qed.

(** The hosts survive a restart.  The state the bridge stores of its hosts is always formed and
    valid; restoring it into any machine of four slots succeeds and gives every host back with
    its bond, name and subscriptions and nothing of the session, and the active host active. *)
Lemma hosts_survive_restart m generation m0 : machine_inv m → length (hm_hosts m0) = HOST_SLOT_COUNT →
  ∃ s m', machine_storage_state m generation = Ok s ∧ validate_state s = Ok tt ∧
    ss_generation s = generation ∧ ss_last_active_host s = hm_active_target m ∧
    machine_restore m0 s = (m', Ok tt) ∧ machine_inv m' ∧
    (∀ id, machine_host m' id = forget <$> machine_host m id) ∧
    hm_active_target m' = hm_active_target m.
Proof.
  intros Hm H0. pose proof Hm as [Hs Hn Hv Ha]. pose proof (known_le_4 m Hm) as Hl.
  assert (∀ a, hm_active_target m = Some a →
    existsb (λ h, bool_decide (sh_host_id h = a)) (map stored_host (known_hosts m)) = true) as Hact.
  { intros a He. destruct (Ha a He) as [h Hh]. apply machine_host_Some in Hh as [Hin Hid]; [|done].
    apply existsb_elem. rewrite map_map. apply list_elem_of_fmap. by exists h. }
  unfold machine_storage_state. change (omap id (hm_hosts m)) with (known_hosts m).
  rewrite push_hosts_spec by (cbn; lia). cbn [result_bind].
  set (s := mkStorageState generation (hm_active_target m) GlobalSettings_DEFAULT InputProfileRegistry_new
              StoredPresentationConfig_DEFAULT (map stored_host (known_hosts m))).
  set (m' := mkHostMachine (hm_active_target m) (map Some (map forget (known_hosts m)) ++
               replicate (4 - length (known_hosts m)) None)).
  assert (∀ id, machine_host m' id = forget <$> machine_host m id) as Hlook.
  { intros i. rewrite !machine_host_find. unfold m'. rewrite known_filled. apply find_forget. }
  exists s, m'. split; [|split; [|split; [done|split; [done|split; [|split; [|done]]]]]].
  - unfold s, upd, eta_StorageState. cbn. f_equal. f_equal. destruct (hm_active_target m) as [a|]; [|done].
    by rewrite Hact.
  - unfold validate_state, s. cbn [ss_hosts ss_last_active_host]. rewrite validate_hosts_spec.
    + cbn [result_bind]. destruct (hm_active_target m) as [a|]; [|done]. by rewrite Hact.
    + done.
    + rewrite map_map. exact Hn.
    + apply List.Forall_forall. intros x (h & <- & Hin)%in_map_iff.
      apply (proj1 (List.Forall_forall _ _) Hv) in Hin. apply host_slot_ok_iff in Hin. cbn [sh_host_id stored_host].
      split; [done|]. apply lookup_replicate. change STORED_HOSTS_MAX with 4%nat. split; [done|lia].
  - unfold machine_restore, s, upd. cbn [hm_hosts hm_active_target eta_BleHostStateMachine ss_hosts ss_last_active_host].
    rewrite H0. change (replicate HOST_SLOT_COUNT None) with (map Some (map forget []) ++ replicate 4 (@None HostRuntimeState)).
    rewrite (restore_hosts_spec _ [] (known_hosts m) 4); done.
  - split.
    + unfold m'. cbn [hm_hosts]. rewrite length_app, !length_map, length_replicate.
      change HOST_SLOT_COUNT with 4%nat. lia.
    + unfold m'. rewrite known_filled, map_map. exact Hn.
    + unfold m'. rewrite known_filled. apply List.Forall_forall. intros x (h & <- & Hin)%in_map_iff.
      rewrite forget_id. by apply (proj1 (List.Forall_forall _ _) Hv).
    + intros a He. rewrite Hlook. destruct (Ha a He) as [h ->]. by eexists.
Qed.

(** ** The operations on the map *)

Definition opt_list (o : option HostRuntimeState) : list HostRuntimeState :=
  match o with Some h => [h] | None => [] end.

Lemma known_insert (hosts : list (option HostRuntimeState)) i old new : hosts !! i = Some old →
  ∃ a b, omap id hosts = a ++ opt_list old ++ b ∧ omap id (<[i := new]> hosts) = a ++ opt_list new ++ b.
Proof.
  intros Hi. exists (omap id (take i hosts)), (omap id (drop (S i) hosts)). split.
  - rewrite <- (take_drop_middle hosts i old Hi) at 1. rewrite omap_app. by destruct old.
  - rewrite insert_take_drop by (by eapply lookup_lt_Some). rewrite omap_app. by destruct new.
Qed.

Lemma position_host_spec m i : match ble_host_index m i with
  | Some k => ∃ h, hm_hosts m !! k = Some (Some h) ∧ hr_host_id h = i ∧ machine_host m i = Some h
  | None => machine_host m i = None
  end.
Proof.
  unfold machine_host. destruct (ble_host_index m i) as [k|] eqn:Hk; [|done].
  unfold ble_host_index in Hk. apply position_Some in Hk as (s & Hs & Hi). destruct s as [h|]; [|done].
  exists h. cbn in Hi. apply bool_decide_eq_true in Hi. rewrite Hs. done.
Qed.

(** Replacing a slot by a host with the same number, or an empty slot by a new one. *)
Lemma replace_slot_inv m k old h : machine_inv m → hm_hosts m !! k = Some old →
  match old with Some o => hr_host_id h = hr_host_id o | None => machine_host m (hr_host_id h) = None end →
  host_slot_ok (hr_host_id h) →
  let m' := m <| hm_hosts ::= λ hosts, <[k := Some h]> hosts |> in
  machine_inv m' ∧ machine_host m' (hr_host_id h) = Some h ∧
  ∀ j, j ≠ hr_host_id h → machine_host m' j = machine_host m j.
Proof.
  intros Hm Hk Hold Hv m'. destruct (known_insert (hm_hosts m) k old (Some h) Hk) as (a & b & Ha & Hb).
  change (known_hosts m = a ++ opt_list old ++ b) in Ha. change (known_hosts m' = a ++ [h] ++ b) in Hb.
  pose proof Hm as [Hs Hn Hf Hact].
  assert (NoDup (map hr_host_id (known_hosts m')) ∧ Forall (λ h, host_slot_ok (hr_host_id h)) (known_hosts m'))
    as [Hn' Hf'].
  { rewrite Hb. rewrite Ha in Hn, Hf. rewrite !map_app in *. rewrite !Forall_app in *.
    destruct Hf as (Hfa & _ & Hfb). split; [|split; [done|by split; [constructor|]]].
    destruct old as [o|]; cbn in Hn |- *; [by rewrite Hold|].
    apply machine_host_None in Hold. rewrite Ha in Hold. cbn in Hold. rewrite map_app in Hold.
    rewrite elem_of_app in Hold. apply list.NoDup_app in Hn as (Hna & Hab & Hnb). apply list.NoDup_app.
    split; [done|]. split; [|apply list.NoDup_cons; tauto].
    intros x Hx [->|Hx']%elem_of_cons; [tauto|by apply (Hab x)]. }
  assert (∀ x, hr_host_id x ≠ hr_host_id h → x ∈ known_hosts m' ↔ x ∈ known_hosts m) as Helem.
  { intros x Hx. rewrite Ha, Hb, !elem_of_app. cbn. rewrite elem_of_cons, elem_of_nil.
    split; [intros [?|[[->|[]]|?]]; tauto|]. intros [?|[Ho|?]]; [tauto| |tauto].
    destruct old as [o|]; cbn in Ho; [|by apply elem_of_nil in Ho].
    apply list_elem_of_singleton in Ho as ->. congruence. }
  assert (∀ i, i ≠ hr_host_id h → machine_host m' i = machine_host m i) as Hother.
  { intros j Hj. apply option_eq. intros x. rewrite !machine_host_elem by done.
    split; intros [Hx <-]; (split; [by apply Helem|done]). }
  assert (machine_host m' (hr_host_id h) = Some h) as Hhere.
  { apply machine_host_elem; [done|]. split; [|done]. rewrite Hb, !elem_of_app. right. left. apply list_elem_of_here. }
  split; [|done]. split; [by unfold m', upd; cbn; rewrite length_insert|done|done|].
  intros j Hj. change (hm_active_target m = Some j) in Hj. destruct (decide (j = hr_host_id h)) as [->|Hne].
  - rewrite Hhere. by eexists.
  - rewrite Hother by done. by apply Hact.
Qed.

Lemma free_slot m : machine_inv m → ∀ i, machine_host m i = None → host_slot_ok i →
  ∃ k, position is_none (hm_hosts m) = Some k ∧ hm_hosts m !! k = Some None.
Proof.
  intros Hm i Hi Hok. destruct (position is_none (hm_hosts m)) as [k|] eqn:Hp.
  - exists k. split; [done|]. apply position_Some in Hp as (s & Hs & Hn). by destruct s.
  - exfalso. assert (length (known_hosts m) = 4%nat) as Hl.
    { destruct Hm as [Hs _ _ _]. change HOST_SLOT_COUNT with 4%nat in Hs. rewrite <- Hs. unfold known_hosts.
      clear -Hp.
      induction (hm_hosts m) as [|[h|] l IH]; cbn in *; [done| |done].
      destruct (position is_none l); [done|]. by rewrite IH. }
    pose proof Hm as [_ Hn Hv _]. apply machine_host_None in Hi.
    assert (map hr_host_id (known_hosts m) ⊆+ [1; 2; 3; 4]) as Hsub.
    { apply NoDup_submseteq; [done|]. intros j (h & -> & Hin)%list_elem_of_fmap. apply list_elem_of_In in Hin.
      apply (proj1 (List.Forall_forall _ _) Hv) in Hin. apply host_slot_ok_iff in Hin. rewrite !elem_of_cons. lia. }
    apply submseteq_length_Permutation in Hsub; [|by rewrite length_map, Hl].
    apply Hi. rewrite Hsub. apply host_slot_ok_iff in Hok. rewrite !elem_of_cons. lia.
Qed.

(** What an operation on a host does: with four slots it can only fail on an invalid number. *)
Lemma upsert_spec {A} m i (f : HostRuntimeState → HostRuntimeState * A) : machine_inv m →
  (∀ h, hr_host_id (f h).1 = hr_host_id h) →
  match upsert_host m i f with
  | (m', Ok a) =>
      let h := default (HostRuntimeState_default <| hr_host_id := i |>) (machine_host m i) in
      host_slot_ok i ∧ machine_inv m' ∧ machine_host m' i = Some (f h).1 ∧ a = (f h).2 ∧
      (∀ j, j ≠ i → machine_host m' j = machine_host m j) ∧ hm_active_target m' = hm_active_target m
  | (m', Err e) => m' = m ∧ e = InvalidHostId ∧ ¬ host_slot_ok i
  end.
Proof.
  intros Hm Hf. unfold upsert_host. destruct (HostId_validated i) as [v|] eqn:Hv.
  2: { repeat split; try done. unfold host_slot_ok. by rewrite Hv. }
  assert (host_slot_ok i) as Hok.
  { unfold host_slot_ok. rewrite Hv. f_equal. unfold HostId_validated, HostSlot_try_from in Hv.
    case_decide; [by injection Hv|done]. }
  pose proof (position_host_spec m i) as Hp. destruct (ble_host_index m i) as [k|].
  - destruct Hp as (h & Hk & Hid & Hh). rewrite Hk, Hh. cbn [default from_option id].
    specialize (Hf h). destruct (f h) as [h' a]. cbn in Hf.
    destruct (replace_slot_inv m k (Some h) h' Hm Hk Hf ltac:(congruence)) as (H1 & H2 & H3).
    rewrite Hf, Hid in H2, H3. done.
  - destruct (free_slot m Hm i Hp Hok) as (k & Hk & Hn). rewrite Hk, Hp. cbn [default from_option].
    set (h := HostRuntimeState_default <| hr_host_id := i |>).
    specialize (Hf h). destruct (f h) as [h' a]. cbn in Hf.
    destruct (replace_slot_inv m k None h' Hm Hn ltac:(by rewrite Hf) ltac:(by rewrite Hf)) as (H1 & H2 & H3).
    rewrite Hf in H2, H3. done.
Qed.

Lemma host_mut_spec m i f : machine_inv m → (∀ h, hr_host_id (f h) = hr_host_id h) →
  let m' := machine_host_mut m i f in
  machine_inv m' ∧ machine_host m' i = f <$> machine_host m i ∧
  (∀ j, j ≠ i → machine_host m' j = machine_host m j) ∧ hm_active_target m' = hm_active_target m.
Proof.
  intros Hm Hf. cbn zeta. unfold machine_host_mut. pose proof (position_host_spec m i) as Hp.
  destruct (ble_host_index m i) as [k|]; [|by rewrite Hp].
  destruct Hp as (h & Hk & Hid & Hh). rewrite Hk, Hh. specialize (Hf h).
  assert (host_slot_ok (hr_host_id (f h))) as Hok.
  { rewrite Hf. pose proof Hm as [_ _ Hv _]. apply (machine_host_Some m i h Hm) in Hh as [Hin _].
    apply list_elem_of_In in Hin. by apply (proj1 (List.Forall_forall _ _) Hv). }
  destruct (replace_slot_inv m k (Some h) (f h) Hm Hk Hf Hok) as (H1 & H2 & H3).
  rewrite Hf, Hid in H2, H3. done.
Qed.

Lemma set_active_spec m i : machine_inv m →
  match set_active_target m i with
  | (m', Ok changed) =>
      host_slot_ok i ∧ machine_inv m' ∧ hm_active_target m' = Some i ∧
      machine_host m' i = Some (default (HostRuntimeState_default <| hr_host_id := i |>) (machine_host m i)) ∧
      (∀ j, j ≠ i → machine_host m' j = machine_host m j)
  | (m', Err e) => m' = m ∧ e = InvalidHostId ∧ ¬ host_slot_ok i
  end.
Proof.
  intros Hm. unfold set_active_target. pose proof (upsert_spec m i (λ h, (h, tt)) Hm ltac:(done)) as Hu.
  destruct (upsert_host m i _) as [m1 [a|e]]; [|done]. destruct Hu as (Hok & [Hs Hn Hv Ha] & Hi & _ & Hj & _).
  assert (∀ j, machine_host (m1 <| hm_active_target := Some i |>) j = machine_host m1 j) as Hl by done.
  split; [done|]. split; [|by rewrite !Hl; split; [|split; [|intros; rewrite Hl; apply Hj]]].
  split; try done. intros a' [= <-]. rewrite Hl, Hi. by eexists.
Qed.

Lemma clear_active_inv m : machine_inv m → machine_inv (clear_active_target m).
Proof. intros [Hs Hn Hv Ha]. by split. Qed.

Lemma clear_host_spec m i : machine_inv m →
  let (m', removed) := machine_clear_host m i in
  machine_inv m' ∧ removed = is_some (machine_host m i) ∧ machine_host m' i = None ∧
  (∀ j, j ≠ i → machine_host m' j = machine_host m j) ∧
  hm_active_target m' = (if bool_decide (hm_active_target m = Some i) then None else hm_active_target m).
Proof.
  intros Hm. pose proof Hm as [Hs Hn Hv Ha]. unfold machine_clear_host.
  pose proof (position_host_spec m i) as Hp. destruct (ble_host_index m i) as [k|].
  2: { rewrite Hp. repeat split; try done. case_bool_decide as Hact; [|done].
       destruct (Ha i Hact) as [h Hh]. congruence. }
  destruct Hp as (h & Hk & Hid & Hh). rewrite Hh.
  destruct (known_insert (hm_hosts m) k (Some h) None Hk) as (a & b & Hka & Hkb).
  set (hosts' := <[k := None]> (hm_hosts m)) in *. change (known_hosts m = a ++ [h] ++ b) in Hka.
  set (m' := if bool_decide _ then _ else _).
  assert (known_hosts m' = a ++ b) as Hkm by (unfold m'; case_bool_decide; exact Hkb).
  assert (hm_active_target m' = if bool_decide (hm_active_target m = Some i) then None else hm_active_target m)
    as Hact by (unfold m'; unfold upd; cbn; by case_bool_decide).
  rewrite Hka in Hn, Hv. rewrite !map_app in Hn. cbn in Hn.
  assert (NoDup (map hr_host_id (known_hosts m')) ∧ hr_host_id h ∉ map hr_host_id (known_hosts m')) as [Hn' Hgone].
  { rewrite Hkm, map_app. apply list.NoDup_app in Hn as (H1 & H2 & H3). apply list.NoDup_cons in H3 as [H3 H4].
    rewrite elem_of_app. split.
    - apply list.NoDup_app. split; [done|]. split; [|done]. intros x Hx Hx'. apply (H2 x Hx).
      by apply list_elem_of_further.
    - intros [Hx|Hx]; [|done]. apply (H2 _ Hx), list_elem_of_here. }
  assert (∀ j, j ≠ i → machine_host m' j = machine_host m j) as Hother.
  { intros j Hj. apply option_eq. intros x. rewrite !machine_host_elem by (done || by destruct Hm).
    rewrite Hkm, Hka, !elem_of_app, list_elem_of_singleton. split; [tauto|].
    intros [[?|[->|?]] Hx]; try tauto. congruence. }
  split; [|split; [done|split; [|done]]].
  - split; [unfold m'; unfold upd; cbn; case_bool_decide; cbn; by rewrite length_insert|done| |].
    + rewrite Hkm. rewrite !Forall_app in *. tauto.
    + intros j. rewrite Hact. case_bool_decide as Hc; [done|]. intros Hj. rewrite Hother; [by apply Ha|congruence].
  - apply machine_host_None. by rewrite <- Hid.
Qed.

Lemma machine_new_inv : machine_inv (BleHostStateMachine_new HOST_SLOT_COUNT).
Proof. split; [done|apply NoDup_nil_2|constructor|done]. Qed.

(** A machine reached by connecting, subscribing and selecting. *)
Definition sample_machine : BleHostStateMachine :=
  let m := BleHostStateMachine_new HOST_SLOT_COUNT in
  let m := fst (on_connected m 2) in
  let m := fst (on_security_changed m 2 true true (Some sample_bond)) in
  let m := fst (on_cccd_changed m 2 KindKeyboard true) in
  let m := fst (on_connected m 1) in
  fst (set_active_target m 2).

Lemma sample_machine_inv : machine_inv sample_machine.
Proof.
  split; [done|apply (bool_decide_unpack _); by vm_compute| |].
  - assert (forallb (λ h, bool_decide (host_slot_ok (hr_host_id h))) (known_hosts sample_machine) = true) as H
      by by vm_compute.
    rewrite forallb_forall in H. apply List.Forall_forall. intros x Hx. specialize (H x Hx). by apply bool_decide_eq_true in H.
  - intros a Ha. assert (a = 2) as -> by (vm_compute in Ha; congruence). eexists. by vm_compute.
Qed.
