(* ===== verification/Bridge.v ===== *)
(** * The bridge ([src/src/bridge/mod.rs])

    The heart of the host chip: input frames of all devices in, reports to the selected computer
    out, with host connections, target switches, pairing, keyboard LEDs and device removal.
    Modelled as built with the dual-S3 feature.  A handler that can fail is a computation over the
    state and the action vector; [handle_event_in_place] keeps what it did before an error,
    [handle_event] does not. *)

From S2P Require Import Prelude Input Reports Aggregator Settings Movement InputProfile.
From S2P Require Import OutputTarget StorageImage HostState.

(** ** Data *)

Definition BRIDGE_USB_HID_INTERFACES_MAX : nat := 8.
Definition BRIDGE_INPUT_INTERFACES_MAX : nat := BRIDGE_USB_HID_INTERFACES_MAX.

Record UsbHidInterfaceRegistration := mkUsbInterface {
  ui_interface_id : Z;
  ui_device_id : Z;
  ui_keyboard_led_sink : bool
}.
#[export] Instance UsbHidInterfaceRegistration_eq_dec : EqDecision UsbHidInterfaceRegistration.
Proof. solve_decision. Defined.

Record SuppressionState := mkSuppressionState {
  sp_keyboard : KeyboardSuppression;
  sp_mouse_buttons : Z;
  sp_consumer : ConsumerState
}.
#[export] Instance eta_SuppressionState : Eta SuppressionState :=
  λ r, mkSuppressionState (sp_keyboard r) (sp_mouse_buttons r) (sp_consumer r).
Definition SuppressionState_new : SuppressionState :=
  mkSuppressionState KeyboardSuppression_new 0 ConsumerState_new.

Record BridgeStats := mkBridgeStats {
  bs_input_reports_dropped_no_ready_target : Z;
  bs_mouse_movements_dropped : Z;
  bs_keyboard_reports_truncated : Z;
  bs_vendor_frames_ignored : Z
}.
#[export] Instance eta_BridgeStats : Eta BridgeStats :=
  λ r, mkBridgeStats (bs_input_reports_dropped_no_ready_target r) (bs_mouse_movements_dropped r)
         (bs_keyboard_reports_truncated r) (bs_vendor_frames_ignored r).
Definition BridgeStats_new : BridgeStats := mkBridgeStats 0 0 0 0.

Record BridgeState := mkBridgeState {
  br_input : PhysicalInputState;
  br_input_devices : InputAggregator;
  br_suppression : SuppressionState;
  br_usb_hid_interfaces : list UsbHidInterfaceRegistration;
  br_hosts : BleHostStateMachine;
  br_pairable_host : option Z;
  br_stats : BridgeStats;
  br_output_target : OutputTargetState;
  br_wired_availability : OutputTargetAvailability;
  br_wired_keyboard_leds : Z;
  br_wired_ble_host : option Z;
  br_mirror_target : option MirrorStableId
}.
#[export] Instance eta_BridgeState : Eta BridgeState :=
  λ r, mkBridgeState (br_input r) (br_input_devices r) (br_suppression r) (br_usb_hid_interfaces r)
         (br_hosts r) (br_pairable_host r) (br_stats r) (br_output_target r) (br_wired_availability r)
         (br_wired_keyboard_leds r) (br_wired_ble_host r) (br_mirror_target r).

Definition BridgeState_new (HOSTS : nat) : BridgeState :=
  mkBridgeState PhysicalInputState_new (InputAggregator_new BRIDGE_INPUT_INTERFACES_MAX)
    SuppressionState_new [] (BleHostStateMachine_new HOSTS) None BridgeStats_new OutputTargetState_new
    AvailUnavailable 0 None None.

Inductive BridgeEvent :=
| EvInputFrame (frame : InputFrame)
| EvUsbDeviceRemoved (interface_id : Z)
| EvResetInputDevice (device_id : Z)
| EvUsbHidInterfaceConnected (interface_id device_id : Z) (keyboard_led_sink : bool)
| EvHostConnected (host_id : Z)
| EvHostDisconnected (host_id : Z)
| EvHostSecurityChanged (host_id : Z) (encrypted bonded : bool) (bond : option StoredBond)
| EvCccdChanged (host_id : Z) (report : ReportKind) (enabled : bool)
| EvHostKeyboardLedChanged (host_id leds : Z)
| EvSetHostName (host_id : Z) (name : FixedName)
| EvEnterPairingMode (host_id : Z)
| EvPairingModeExpired (host_id : Z)
| EvClearHost (host_id : Z)
| EvSwitchTarget (target : Z)
| EvSelectOutputTarget (target : OutputTarget)
| EvWiredAvailabilityChanged (availability : OutputTargetAvailability)
| EvWiredKeyboardLedChanged (leds : Z).

Inductive NotifyReason :=
| ReasonInput | ReasonInputEdge | ReasonInputRelease | ReasonTargetSwitchRelease
| ReasonUsbDeviceRemovedRelease | ReasonSafetyRelease.
#[export] Instance NotifyReason_eq_dec : EqDecision NotifyReason.
Proof. solve_decision. Defined.

Record BridgeStatus := mkBridgeStatus { st_active_target : option Z; st_pairable_host : option Z }.
#[export] Instance BridgeStatus_eq_dec : EqDecision BridgeStatus.
Proof. solve_decision. Defined.

Inductive BridgeAction :=
| Notify (target : OutputTarget) (report : StandardHidReport) (reason : NotifyReason)
| UsbSetKeyboardLeds (interface_id device_id leds : Z)
| AllowPairing (host_id : Z)
| RejectPairing (host_id : Z)
| ClearBond (host_id : Z) (bond : option StoredBond)
| ActivateInput (host_id : Z)
| ActivateWired (operation_id : Z)
| EnsureFallback (operation_id : Z)
| PersistProfiles
| StatusChanged (status : BridgeStatus).

Inductive BridgeError :=
| ActionCapacity | UsbHidInterfaceCapacity | BridgeHostState (e : HostStateError)
| BridgeInput (e : InputError) | BridgeStorage (e : StorageError) | BridgeInvalidOutputTarget.
#[export] Instance BridgeError_eq_dec : EqDecision BridgeError.
Proof. solve_decision. Defined.

(** ** Handlers

    [M A] is a handler body: it threads the state and the actions pushed so far, and [?] leaves
    both as they are at the error. *)

Definition M (A : Type) : Type :=
  BridgeState → list BridgeAction → BridgeState * list BridgeAction * Result BridgeError A.

Definition m_ret {A} (a : A) : M A := λ s out, (s, out, Ok a).
Definition m_bind {A B} (m : M A) (k : A → M B) : M B := λ s out,
  match m s out with
  | (s, out, Ok a) => k a s out
  | (s, out, Err e) => (s, out, Err e)
  end.
Definition m_get : M BridgeState := λ s out, (s, out, Ok s).
Definition m_modify (f : BridgeState → BridgeState) : M unit := λ s out, (f s, out, Ok tt).
Definition m_result {A} (r : Result BridgeError A) : M A := λ s out, (s, out, r).

Notation "'let-' x ':=' m 'in' k" := (m_bind m (fun x => k))
  (at level 10, x pattern, m at level 100, k at level 200) : rust_scope.
Notation "m ';-' k" := (m_bind m (fun _ => k)) (at level 100, k at level 200, right associativity) : rust_scope.

(** A method of the hosts, with [?] on its result. *)
Definition on_hosts {A} (f : BleHostStateMachine → BleHostStateMachine * Result HostStateError A) : M A :=
  λ s out, let (hosts, r) := f (br_hosts s) in
           (s <| br_hosts := hosts |>, out, map_err BridgeHostState r).

(** [self.state.suppression.keyboard.capture_from(..)?] and the two assignments after it. *)
Definition capture_input : M unit := λ s out,
  let (keyboard, r) := capture_from (sp_keyboard (br_suppression s)) (pi_keyboard (br_input s)) in
  let s := s <| br_suppression ::= λ p, p <| sp_keyboard := keyboard |> |> in
  match r with
  | Err e => (s, out, Err (BridgeInput e))
  | Ok _ =>
      (s <| br_suppression ::= λ p,
          p <| sp_mouse_buttons := pm_buttons (pi_mouse (br_input s)) |>
            <| sp_consumer := pi_consumer (br_input s) |> |>, out, Ok tt)
  end.

Section Handlers.
Context (ACTIONS : nat).

Definition push_action (action : BridgeAction) : M unit := λ s out,
  match vec_push ACTIONS action out with
  | Some out => (s, out, Ok tt)
  | None => (s, out, Err ActionCapacity)
  end.

Fixpoint push_actions (actions : list BridgeAction) : M unit :=
  match actions with
  | [] => m_ret tt
  | action :: actions => push_action action ;- push_actions actions
  end.

Definition bridge_status (s : BridgeState) : BridgeStatus :=
  mkBridgeStatus (hm_active_target (br_hosts s)) (br_pairable_host s).

Definition push_status : M unit := let- s := m_get in push_action (StatusChanged (bridge_status s)).

Definition can_send (s : BridgeState) (host_id : Z) (kind : ReportKind) : bool :=
  machine_can_send (br_hosts s) host_id kind.

Definition ready_active_target (s : BridgeState) (kind : ReportKind) : option OutputTarget :=
  match ots_active (br_output_target s) with
  | None => None
  | Some TargetWired => Some TargetWired
  | Some (TargetBle host_id) => if can_send s host_id kind then Some (TargetBle host_id) else None
  end.

Definition ble_target_ready (s : BridgeState) (host_id : Z) : bool :=
  policy_is_ready BLE_TARGET_READINESS_POLICY (can_send s host_id KindKeyboard)
    (can_send s host_id KindMouse) (can_send s host_id KindConsumer).

Definition selected_availability (s : BridgeState) : OutputTargetAvailability :=
  match ots_selected (br_output_target s) with
  | TargetWired => br_wired_availability s
  | TargetBle host_id =>
      if ble_target_ready s host_id then AvailReady
      else match machine_host (br_hosts s) host_id with
           | Some host => if hr_connected host then AvailConnectedNotReady else AvailUnavailable
           | None => AvailUnavailable
           end
  end.

Definition refresh_selected_target_availability (s : BridgeState) : BridgeState :=
  s <| br_output_target ::= λ t, set_availability t (selected_availability s) |>.

(** The loop over the hosts that builds [ready_ble_mask]. *)
Fixpoint ready_mask_loop (s : BridgeState) (indexes : list nat) (mask : Z) : Z :=
  match indexes with
  | [] => mask
  | index :: indexes =>
      ready_mask_loop s indexes
        (if ble_target_ready s (as_u8 (Z.of_nat (index + 1))) then Z.lor mask (Z.shiftl 1 (Z.of_nat index))
         else mask)
  end.

Definition next_ready_output_target (s : BridgeState) : option OutputTarget :=
  next_ready_computer_target (ots_selected (br_output_target s))
    (bool_decide (br_wired_availability s = AvailReady))
    (ready_mask_loop s (seq 0 (Nat.min (length (hm_hosts (br_hosts s))) HOST_SLOT_COUNT)) 0)
    (br_wired_ble_host s).

Definition has_connected_computer (s : BridgeState) : bool :=
  if existsb hr_connected (omap id (hm_hosts (br_hosts s))) then true
  else negb (bool_decide (br_wired_availability s = AvailUnavailable)).

Definition push_usb_keyboard_leds (leds : Z) : M unit :=
  let- s := m_get in
  push_actions (map (λ sink, UsbSetKeyboardLeds (ui_interface_id sink) (ui_device_id sink) leds)
                  (List.filter ui_keyboard_led_sink (br_usb_hid_interfaces s))).

Definition apply_active_host_leds : M unit :=
  let- s := m_get in
  if bool_decide (ots_selected (br_output_target s) = TargetWired)
  then push_usb_keyboard_leds (br_wired_keyboard_leds s)
  else match hm_active_target (br_hosts s) with
       | None => m_ret tt
       | Some active_target =>
           push_usb_keyboard_leds
             (default 0 (let+ host := machine_host (br_hosts s) active_target in hr_keyboard_leds host))
       end.

Definition push_neutral_reports (target : OutputTarget) (reason : NotifyReason) : M unit :=
  push_actions (map (λ report, Notify target report reason)
    [ReportOfKeyboard Keyboard6KroReport_release; ReportOfMouse MouseReport_release_buttons;
     ReportOfConsumer ConsumerReport_release]).

Definition push_if (condition : bool) (action : BridgeAction) : M unit :=
  if condition then push_action action else m_ret tt.

Definition push_release_reports (host_id : Z) (reason : NotifyReason) : M unit :=
  let- s := m_get in
  push_if (can_send s host_id KindKeyboard)
    (Notify (TargetBle host_id) (ReportOfKeyboard Keyboard6KroReport_release) reason) ;-
  push_if (can_send s host_id KindMouse)
    (Notify (TargetBle host_id) (ReportOfMouse MouseReport_release_buttons) reason) ;-
  push_if (can_send s host_id KindConsumer)
    (Notify (TargetBle host_id) (ReportOfConsumer ConsumerReport_release) reason).

Definition push_release_target (target : OutputTarget) (reason : NotifyReason) : M unit :=
  match target with
  | TargetBle host_id => push_release_reports host_id reason
  | TargetWired => push_neutral_reports TargetWired reason
  end.

(** ** Input frames *)

Definition keyboard_contains_release (previous current : PhysicalKeyboardState) : bool :=
  existsb (λ key, negb (contains (kb_keys current) key)) (kb_keys previous) ||
  negb (Z.land (kb_modifiers previous) (u8_not (kb_modifiers current)) =? 0).

(** [push_action] on the vector [next_out] of the handler. *)
Definition push_next (out : list BridgeAction) (action : BridgeAction) : Result BridgeError (list BridgeAction) :=
  match vec_push ACTIONS action out with Some out => Ok out | None => Err ActionCapacity end.

Definition keyboard_output (s : BridgeState) (agg : PhysicalInputState) (stats : BridgeStats)
  (out : list BridgeAction)
  : Result BridgeError (PhysicalKeyboardState * KeyboardSuppression * BridgeStats * list BridgeAction) :=
  let '(keyboard, suppression, r) :=
    apply_state (pi_keyboard (br_input s)) (pi_keyboard agg) (sp_keyboard (br_suppression s)) in
  let? _ := map_err BridgeInput r in
  let (suppression, r) := suppress_visible_after suppression keyboard KEYBOARD_6KRO_KEY_CAPACITY in
  let? suppressed := map_err BridgeInput r in
  let stats :=
    if bool_decide (suppressed ≠ 0%nat)
    then stats <| bs_keyboard_reports_truncated ::= λ n, u32_saturating_add n 1 |> else stats in
  match ready_active_target s KindKeyboard with
  | Some target =>
      let build := from_physical_state keyboard suppression in
      let? out := push_next out
        (Notify target (ReportOfKeyboard (kb_report build))
           (if keyboard_contains_release (pi_keyboard (br_input s)) keyboard
            then ReasonInputRelease else ReasonInput)) in
      Ok (keyboard, suppression, stats, out)
  | None =>
      Ok (keyboard, suppression,
          stats <| bs_input_reports_dropped_no_ready_target ::= λ n, u32_saturating_add n 1 |>, out)
  end.

Definition mouse_output (s : BridgeState) (agg : PhysicalInputState) (mouse : MouseFrame)
  (stats : BridgeStats) (out : list BridgeAction)
  : Result BridgeError (PhysicalMouseState * Z * BridgeStats * list BridgeAction) :=
  let mouse_state := pi_mouse agg in
  let suppression :=
    MouseButtons_intersection (sp_mouse_buttons (br_suppression s)) (pm_buttons mouse_state) in
  let visible_buttons := MouseButtons_without (pm_buttons mouse_state) suppression in
  match ready_active_target s KindMouse with
  | Some target =>
      let previous := pm_buttons (pi_mouse (br_input s)) in
      let released_buttons := negb (Z.land previous (u8_not (pm_buttons mouse_state)) =? 0) in
      let? out := push_next out
        (Notify target (ReportOfMouse (MouseReport_from_frame visible_buttons (mouse_movement mouse)))
           (if released_buttons || bool_decide (previous ≠ pm_buttons mouse_state)
            then ReasonInputEdge else ReasonInput)) in
      Ok (mouse_state, suppression, stats, out)
  | None =>
      Ok (mouse_state, suppression,
          (if bool_decide (mouse_movement mouse ≠ MouseMovement_neutral)
           then stats <| bs_mouse_movements_dropped ::= λ n, u32_saturating_add n 1 |> else stats), out)
  end.

Definition consumer_report (active : option Z) : ConsumerReport :=
  match active with
  | Some usage => ConsumerReport_from_usage_id usage
  | None => ConsumerReport_release
  end.

Definition consumer_output (s : BridgeState) (agg : PhysicalInputState) (out : list BridgeAction)
  : Result BridgeError (ConsumerState * ConsumerState * list BridgeAction) :=
  let consumer_state := pi_consumer agg in
  let suppression :=
    if bool_decide (cs_active consumer_state ≠ cs_active (sp_consumer (br_suppression s)))
    then mkConsumerState None else sp_consumer (br_suppression s) in
  match ready_active_target s KindConsumer with
  | Some target =>
      let visible := if bool_decide (cs_active consumer_state = cs_active suppression)
                     then None else cs_active consumer_state in
      let? out := push_next out
        (Notify target (ReportOfConsumer (consumer_report visible))
           (if is_some (cs_active (pi_consumer (br_input s))) && is_none (cs_active consumer_state)
            then ReasonInputRelease else ReasonInput)) in
      Ok (consumer_state, suppression, out)
  | None => Ok (consumer_state, suppression, out)
  end.

(** The three parts run only when the frame has them. *)
Definition bridge_keyboard_step (s : BridgeState) (agg : PhysicalInputState) (frame : StandardInputFrame)
  (stats : BridgeStats) (out : list BridgeAction)
  : Result BridgeError (option (PhysicalKeyboardState * KeyboardSuppression) * BridgeStats * list BridgeAction) :=
  match sif_keyboard frame with
  | Some _ =>
      let? (keyboard, suppression, stats, out) := keyboard_output s agg stats out in
      Ok (Some (keyboard, suppression), stats, out)
  | None => Ok (None, stats, out)
  end.

Definition bridge_mouse_step (s : BridgeState) (agg : PhysicalInputState) (frame : StandardInputFrame)
  (stats : BridgeStats) (out : list BridgeAction)
  : Result BridgeError (option (PhysicalMouseState * Z) * BridgeStats * list BridgeAction) :=
  match sif_mouse frame with
  | Some frame_mouse =>
      let? (mouse, suppression, stats, out) := mouse_output s agg frame_mouse stats out in
      Ok (Some (mouse, suppression), stats, out)
  | None => Ok (None, stats, out)
  end.

Definition bridge_consumer_step (s : BridgeState) (agg : PhysicalInputState) (frame : StandardInputFrame)
  (out : list BridgeAction)
  : Result BridgeError (option (ConsumerState * ConsumerState) * list BridgeAction) :=
  match sif_consumer frame with
  | Some _ =>
      let? (consumer, suppression, out) := consumer_output s agg out in
      Ok (Some (consumer, suppression), out)
  | None => Ok (None, out)
  end.

(** Everything is installed at the end, so an error leaves the state and the actions as they were. *)
Definition handle_standard_input_frame (frame : StandardInputFrame) : M unit := λ s out,
  match
    let? prepared := map_err BridgeInput (prepare_frame (br_input_devices s) frame) in
    let agg := prepared_aggregate prepared (br_input_devices s) in
    let? (keyboard, stats, next_out) := bridge_keyboard_step s agg frame (br_stats s) out in
    let? (mouse, stats, next_out) := bridge_mouse_step s agg frame stats next_out in
    let? (consumer, next_out) := bridge_consumer_step s agg frame next_out in
    Ok (prepared, keyboard, mouse, consumer, stats, next_out)
  with
  | Err e => (s, out, Err e)
  | Ok (prepared, keyboard, mouse, consumer, stats, next_out) =>
      let s := s <| br_input_devices ::= λ devices, commit_frame devices prepared |> in
      let s := match keyboard with
        | Some (keyboard, suppression) =>
            s <| br_input ::= λ i, i <| pi_keyboard := keyboard |> |>
              <| br_suppression ::= λ p, p <| sp_keyboard := suppression |> |>
        | None => s
        end in
      let s := match mouse with
        | Some (mouse, suppression) =>
            s <| br_input ::= λ i, i <| pi_mouse := mouse |> |>
              <| br_suppression ::= λ p, p <| sp_mouse_buttons := suppression |> |>
        | None => s
        end in
      let s := match consumer with
        | Some (consumer, suppression) =>
            s <| br_input ::= λ i, i <| pi_consumer := consumer |> |>
              <| br_suppression ::= λ p, p <| sp_consumer := suppression |> |>
        | None => s
        end in
      (s <| br_stats := stats |>, next_out, Ok tt)
  end.

Definition handle_input_frame (frame : InputFrame) : M unit :=
  match frame with
  | FrameStandard frame => handle_standard_input_frame frame
  | FrameVendor _ =>
      m_modify (λ s, s <| br_stats ::= λ t,
        t <| bs_vendor_frames_ignored ::= λ n, u32_saturating_add n 1 |> |>)
  end.

(** ** Targets *)

Definition transition_output_target (target : OutputTarget) (release_previous : option NotifyReason)
  : M unit :=
  match validate_target target with
  | Err _ => m_result (Err BridgeInvalidOutputTarget)
  | Ok _ =>
      let- s := m_get in
      if bool_decide (ots_selected (br_output_target s) = target) then push_status
      else
        match ots_active (br_output_target s), release_previous with
        | Some active, Some reason => push_release_target active reason
        | _, _ => m_ret tt
        end ;-
        capture_input ;-
        let- operation_id := (λ s out,
          let (output_target, r) := select_target (br_output_target s) target in
          (s <| br_output_target := output_target |>, out, map_err (λ _, BridgeInvalidOutputTarget) r)) in
        match target with
        | TargetWired =>
            m_modify (λ s, s <| br_hosts ::= clear_active_target |>) ;-
            push_action (ActivateWired operation_id) ;-
            m_modify (λ s, s <| br_output_target ::= λ t, set_availability t (br_wired_availability s) |>) ;-
            let- s := m_get in
            if bool_decide (br_wired_availability s = AvailReady) then
              push_neutral_reports TargetWired ReasonSafetyRelease ;-
              push_usb_keyboard_leds (br_wired_keyboard_leds s)
            else m_ret tt
        | TargetBle host_id =>
            on_hosts (λ hosts, set_active_target hosts host_id) ;-
            push_action (EnsureFallback operation_id) ;-
            push_action (ActivateInput host_id) ;-
            apply_active_host_leds ;-
            m_modify refresh_selected_target_availability
        end ;-
        push_action PersistProfiles ;-
        push_status
  end.

Definition select_output_target (target : OutputTarget) : M unit :=
  transition_output_target target (Some ReasonTargetSwitchRelease).

Definition switch_target (target : Z) : M unit := select_output_target (TargetBle target).

Definition wired_availability_changed (availability : OutputTargetAvailability) : M unit :=
  m_modify (λ s, s <| br_wired_availability := availability |>) ;-
  (let- s := m_get in
   if bool_decide (ots_selected (br_output_target s) = TargetWired) then
     m_modify (λ s, s <| br_output_target ::= λ t, set_availability t availability |>) ;-
     if bool_decide (availability = AvailReady) then
       push_neutral_reports TargetWired ReasonSafetyRelease ;-
       push_usb_keyboard_leds (br_wired_keyboard_leds s)
     else m_ret tt
   else m_ret tt) ;-
  push_status.

(** ** Pairing and hosts *)

Definition enter_pairing_mode (host_id : Z) : M unit :=
  let- s := m_get in
  m_modify (λ s, s <| br_pairable_host := Some host_id |>) ;-
  match br_pairable_host s with
  | Some previous => push_if (bool_decide (previous ≠ host_id)) (RejectPairing previous)
  | None => m_ret tt
  end ;-
  push_action (AllowPairing host_id) ;-
  push_status.

Definition expire_pairing_mode (host_id : Z) : M unit :=
  let- s := m_get in
  if bool_decide (br_pairable_host s = Some host_id) then
    m_modify (λ s, s <| br_pairable_host := None |>) ;-
    push_action (RejectPairing host_id) ;-
    push_status
  else m_ret tt.

Definition bridge_clear_host (host_id : Z) : M unit :=
  let- s := m_get in
  let was_active := bool_decide (hm_active_target (br_hosts s) = Some host_id) in
  let bond := (let+ host := machine_host (br_hosts s) host_id in hr_bond host) in
  (if was_active then push_release_reports host_id ReasonSafetyRelease else m_ret tt) ;-
  (if bool_decide (br_pairable_host s = Some host_id) then
     m_modify (λ s, s <| br_pairable_host := None |>) ;-
     push_action (RejectPairing host_id)
   else m_ret tt) ;-
  let- removed := (λ s out,
    let (hosts, removed) := machine_clear_host (br_hosts s) host_id in
    (s <| br_hosts := hosts |>, out, Ok removed)) in
  if removed then
    m_modify (λ s, if bool_decide (br_wired_ble_host s = Some host_id)
                   then s <| br_wired_ble_host := None |> else s) ;-
    push_action (ClearBond host_id bond) ;-
    push_action PersistProfiles ;-
    (if was_active then push_usb_keyboard_leds 0 else m_ret tt) ;-
    push_status
  else m_ret tt.

(** ** Removed input devices *)

Definition emit_detach_updates (host_id : Z) (previous_input : PhysicalInputState)
  (reason : NotifyReason) : M unit :=
  let- s := m_get in
  let- keyboard := m_result (map_err BridgeInput (to_frame (pi_keyboard (br_input s)))) in
  (λ s out,
     let '(keyboard, suppression, r) :=
       keyboard_apply_frame (pi_keyboard (br_input s)) keyboard (sp_keyboard (br_suppression s)) in
     (s <| br_input ::= λ i, i <| pi_keyboard := keyboard |> |>
        <| br_suppression ::= λ p, p <| sp_keyboard := suppression |> |>, out, map_err BridgeInput r)) ;-
  (let- s := m_get in
   push_if (can_send s host_id KindKeyboard &&
            bool_decide (pi_keyboard previous_input ≠ pi_keyboard (br_input s)))
     (Notify (TargetBle host_id)
        (ReportOfKeyboard (kb_report (from_visible_state
           (visible_against (pi_keyboard (br_input s)) (sp_keyboard (br_suppression s)))))) reason)) ;-
  m_modify (λ s, s <| br_suppression ::= λ p,
    p <| sp_mouse_buttons ::= λ b, MouseButtons_intersection b (pm_buttons (pi_mouse (br_input s))) |> |>) ;-
  (let- s := m_get in
   push_if (can_send s host_id KindMouse &&
            bool_decide (pm_buttons (pi_mouse previous_input) ≠ pm_buttons (pi_mouse (br_input s))))
     (Notify (TargetBle host_id)
        (ReportOfMouse (MouseReport_from_frame
           (MouseButtons_without (pm_buttons (pi_mouse (br_input s))) (sp_mouse_buttons (br_suppression s)))
           MouseMovement_neutral)) reason)) ;-
  m_modify (λ s,
    if bool_decide (cs_active (pi_consumer (br_input s)) ≠ cs_active (sp_consumer (br_suppression s)))
    then s <| br_suppression ::= λ p, p <| sp_consumer := mkConsumerState None |> |> else s) ;-
  let- s := m_get in
  push_if (can_send s host_id KindConsumer &&
           bool_decide (cs_active (pi_consumer previous_input) ≠ cs_active (pi_consumer (br_input s))))
    (Notify (TargetBle host_id)
       (ReportOfConsumer (consumer_report (cs_active (pi_consumer (br_input s))))) reason).

(** [swap_remove]: the last element takes the place of the removed one. *)
Definition swap_remove {A} (index : nat) (l : list A) : list A :=
  match l !! (length l - 1)%nat with
  | Some x => if decide (index = length l - 1)%nat then removelast l else <[index := x]> (removelast l)
  | None => l
  end.

Definition upsert_usb_hid_interface (interface_id device_id : Z) (keyboard_led_sink : bool) : M unit := λ s out,
  let registration := mkUsbInterface interface_id device_id keyboard_led_sink in
  match position (λ sink, bool_decide (ui_interface_id sink = interface_id)) (br_usb_hid_interfaces s) with
  | Some index => (s <| br_usb_hid_interfaces ::= λ l, <[index := registration]> l |>, out, Ok tt)
  | None =>
      match vec_push BRIDGE_USB_HID_INTERFACES_MAX registration (br_usb_hid_interfaces s) with
      | Some l => (s <| br_usb_hid_interfaces := l |>, out, Ok tt)
      | None => (s, out, Err UsbHidInterfaceCapacity)
      end
  end.

Definition remove_usb_hid_interface (interface_id : Z) (s : BridgeState) : BridgeState :=
  match position (λ sink, bool_decide (ui_interface_id sink = interface_id)) (br_usb_hid_interfaces s) with
  | Some index => s <| br_usb_hid_interfaces ::= swap_remove index |>
  | None => s
  end.

Definition detach_active (previous_input : PhysicalInputState) : M unit :=
  let- s := m_get in
  match hm_active_target (br_hosts s) with
  | Some host_id => emit_detach_updates host_id previous_input ReasonUsbDeviceRemovedRelease
  | None => m_ret tt
  end.

Definition usb_device_removed (interface_id : Z) : M unit :=
  let- s := m_get in
  let previous_input := br_input s in
  m_modify (remove_usb_hid_interface interface_id) ;-
  m_modify (λ s, s <| br_input_devices ::= λ d, snd (remove_interface d interface_id) |>) ;-
  m_modify (λ s, s <| br_input := aggregate (br_input_devices s) |>) ;-
  detach_active previous_input ;-
  push_status.

Definition reset_input_device (device_id : Z) : M unit :=
  let- s := m_get in
  let previous_input := br_input s in
  let- removed := (λ s out,
    let (removed, devices) := remove_device (br_input_devices s) device_id in
    (s <| br_input_devices := devices |>, out, Ok removed)) in
  if negb removed then m_ret tt
  else
    m_modify (λ s, s <| br_input := aggregate (br_input_devices s) |>) ;-
    detach_active previous_input.

(** ** Events *)

Definition handle_event_in_place (event : BridgeEvent) : M unit :=
  match event with
  | EvInputFrame frame => handle_input_frame frame
  | EvHostConnected host_id =>
      on_hosts (λ hosts, on_connected hosts host_id) ;-
      m_modify refresh_selected_target_availability ;-
      push_status
  | EvHostDisconnected host_id =>
      let- s := m_get in
      let should_fallback := bool_decide (ots_active (br_output_target s) = Some (TargetBle host_id)) in
      m_modify (λ s, s <| br_hosts ::= λ hosts, on_disconnected hosts host_id |>) ;-
      m_modify refresh_selected_target_availability ;-
      let- s := m_get in
      match (if should_fallback then next_ready_output_target s else None) with
      | Some target => transition_output_target target None
      | None => push_status
      end
  | EvHostSecurityChanged host_id encrypted bonded bond =>
      let- persist := on_hosts (λ hosts, on_security_changed hosts host_id encrypted bonded bond) in
      push_if persist PersistProfiles ;-
      (let- s := m_get in
       if bonded && bool_decide (br_pairable_host s = Some host_id) then
         m_modify (λ s, s <| br_pairable_host := None |>) ;-
         push_action (RejectPairing host_id)
       else m_ret tt) ;-
      m_modify refresh_selected_target_availability ;-
      push_status
  | EvCccdChanged host_id report enabled =>
      let- persist := on_hosts (λ hosts, on_cccd_changed hosts host_id report enabled) in
      push_if persist PersistProfiles ;-
      m_modify refresh_selected_target_availability ;-
      push_status
  | EvUsbHidInterfaceConnected interface_id device_id keyboard_led_sink =>
      upsert_usb_hid_interface interface_id device_id keyboard_led_sink ;-
      apply_active_host_leds
  | EvHostKeyboardLedChanged host_id leds =>
      on_hosts (λ hosts, on_keyboard_led_changed hosts host_id leds) ;-
      let- s := m_get in
      if bool_decide (hm_active_target (br_hosts s) = Some host_id) then push_usb_keyboard_leds leds
      else m_ret tt
  | EvWiredKeyboardLedChanged leds =>
      m_modify (λ s, s <| br_wired_keyboard_leds := leds |>) ;-
      let- s := m_get in
      if bool_decide (ots_selected (br_output_target s) = TargetWired) then push_usb_keyboard_leds leds
      else m_ret tt
  | EvSetHostName host_id name =>
      let- changed := on_hosts (λ hosts, set_name hosts host_id name) in
      push_if changed PersistProfiles ;-
      push_status
  | EvEnterPairingMode host_id => enter_pairing_mode host_id
  | EvPairingModeExpired host_id => expire_pairing_mode host_id
  | EvClearHost host_id => bridge_clear_host host_id
  | EvSwitchTarget target => switch_target target
  | EvSelectOutputTarget target => select_output_target target
  | EvWiredAvailabilityChanged availability => wired_availability_changed availability
  | EvUsbDeviceRemoved interface_id => usb_device_removed interface_id
  | EvResetInputDevice device_id => reset_input_device device_id
  end.

(** [handle_event]: the event is handled on a copy, which replaces the state and the actions only
    when no error occurred. *)
Definition handle_event (event : BridgeEvent) (s : BridgeState) (out : list BridgeAction)
  : BridgeState * list BridgeAction * Result BridgeError unit :=
  match handle_event_in_place event s [] with
  | (next, next_actions, Ok _) => (next, next_actions, Ok tt)
  | (_, _, Err e) => (s, out, Err e)
  end.

End Handlers.

(** ** Outside the event loop *)

Definition mark_host_disconnected_for_quiesce (s : BridgeState) (host_id : Z) : BridgeState :=
  s <| br_hosts ::= λ hosts, on_disconnected hosts host_id |>.

Definition prepare_for_quiesce (s : BridgeState) : BridgeState * Result BridgeError unit :=
  let '(s, _, r) := capture_input s [] in (s, r).

Definition set_discovered_host_name (s : BridgeState) (host_id : Z) (name : FixedName)
  : BridgeState * Result HostStateError bool :=
  let (hosts, r) := set_discovered_name (br_hosts s) host_id name in (s <| br_hosts := hosts |>, r).

Definition set_mirror_target (s : BridgeState) (target : option MirrorStableId) : BridgeState :=
  s <| br_mirror_target := target |>.

Definition set_wired_host_link (s : BridgeState) (host : option Z) : BridgeState :=
  s <| br_wired_ble_host := host |>.

Definition begin_wired_presentation_transition (s : BridgeState) : BridgeState * Result BridgeError Z :=
  match capture_input s [] with
  | (s, _, Err e) => (s, Err e)
  | (s, _, Ok _) =>
      let s := s <| br_wired_availability := AvailConnectedNotReady |> in
      let (t, operation_id) := begin_transition (br_output_target s) in
      (s <| br_output_target := t |>, Ok operation_id)
  end.

Definition hold_wired_presentation_transition (s : BridgeState) : BridgeState :=
  if bool_decide (br_wired_availability s ≠ AvailUnavailable) then
    s <| br_wired_availability := AvailConnectedNotReady |>
      <| br_output_target ::= λ t, set_availability t AvailConnectedNotReady |>
  else s.

Definition bridge_storage_state (s : BridgeState) (generation : Z) : Result StorageError StorageState :=
  let? storage := machine_storage_state (br_hosts s) generation in
  let? output_target :=
    match ots_selected (br_output_target s) with
    | TargetWired => Ok StoredWired
    | TargetBle host_id =>
        let? slot := map_err (λ _, StorageInvalidHostId) (HostId_validated host_id) in Ok (StoredBle slot)
    end in
  let? wired_ble_host :=
    match br_wired_ble_host s with
    | Some host => let? slot := map_err (λ _, StorageInvalidHostId) (HostId_validated host) in Ok (Some slot)
    | None => Ok None
    end in
  Ok (storage <| ss_presentation :=
        mkPresentationConfig output_target wired_ble_host (br_mirror_target s) |>).

(** [restore_storage_state]: [out.clear()], and the state restored so far stays on an error. *)
Definition restore_storage_state (s : BridgeState) (storage : StorageState)
  : BridgeState * list BridgeAction * Result BridgeError unit :=
  match machine_restore (br_hosts s) storage with
  | (hosts, Err e) => (s <| br_hosts := hosts |>, [], Err (BridgeHostState e))
  | (hosts, Ok _) =>
      let s := s <| br_hosts := hosts |> in
      let selected :=
        match spc_output_target (ss_presentation storage), ss_last_active_host storage with
        | StoredWired, Some host_id => TargetBle host_id
        | stored, _ => as_output_target stored
        end in
      let s := s <| br_output_target := OutputTargetState_new <| ots_selected := selected |> |> in
      let s := s <| br_mirror_target := spc_mirror_target (ss_presentation storage) |> in
      let s := s <| br_wired_ble_host := spc_wired_ble_host (ss_presentation storage) |> in
      let s := if bool_decide (ots_selected (br_output_target s) = TargetWired)
               then s <| br_hosts ::= clear_active_target |> else s in
      (s <| br_pairable_host := None |>, [], Ok tt)
  end.

Definition keyboard_led_event_from_ble_output (host_id : Z) (bytes : list Z)
  : Result BleKeyboardOutputError BridgeEvent :=
  let? leds := led_from_bytes bytes in Ok (EvHostKeyboardLedChanged host_id leds).
