(* ===== verification/BridgeSafety.v ===== *)
(** * Safety of the bridge

    A small Hoare logic for the handlers of [Bridge.v] and what it gives: the invariant of the
    bridge state, the number of actions an event needs, and where reports may go. *)

From stdpp Require Import relations.
From S2P Require Import Prelude Input Reports Aggregator Settings Movement InputProfile.
From S2P Require Import OutputTarget StorageImage HostState Bridge.

(** ** The logic

    [holds I J n G out res]: a handler run from the actions [out] ended with at most [n] new
    actions, all satisfying [G]; on success [J] holds of the answer and the state, on an error [I]
    holds of the state, and the error is [ActionCapacity] only if [n] more actions would not fit. *)

Section Logic.
Context (ACTIONS : nat) (I : BridgeState → Prop) (G : BridgeAction → Prop).

Definition holds {A} (J : A → BridgeState → Prop) (n : nat) (out : list BridgeAction)
  (res : BridgeState * list BridgeAction * Result BridgeError A) : Prop :=
  let '(s, out', r) := res in
  (∃ new, out' = out ++ new ∧ (length new ≤ n)%nat ∧ Forall G new) ∧
  match r with
  | Ok a => J a s
  | Err e => I s ∧ (e = ActionCapacity → ACTIONS < length out + n)%nat
  end.

Lemma holds_ret {A} (J : A → BridgeState → Prop) n a s out : J a s → holds J n out (m_ret a s out).
Proof.
  intros H. split; [|done]. exists []. rewrite app_nil_r. split; [done|]. split; [cbn; lia|constructor].
Qed.

Lemma holds_bind {A B} (J : A → BridgeState → Prop) (K : B → BridgeState → Prop) n1 n2 n
  (m : M A) (k : A → M B) s out :
  n = (n1 + n2)%nat →
  holds J n1 out (m s out) → (∀ a s' out', J a s' → holds K n2 out' (k a s' out')) →
  holds K n out (m_bind m k s out).
Proof.
  intros -> Hm Hk. unfold m_bind. destruct (m s out) as [[s1 out1] [a|e]]; destruct Hm as [(new & -> & Hl & Hg) Hr].
  - specialize (Hk a s1 (out ++ new) Hr). destruct (k a s1 (out ++ new)) as [[s2 out2] r].
    destruct Hk as [(new2 & -> & Hl2 & Hg2) Hr2]. split.
    + exists (new ++ new2). rewrite app_assoc, length_app. split; [done|]. split; [lia|]. by apply Forall_app.
    + destruct r; [done|]. destruct Hr2 as [HI Hc]. split; [done|]. intros He. specialize (Hc He).
      rewrite length_app in Hc. lia.
  - split; [by exists new; split; [|split; [lia|]]|]. destruct Hr as [HI Hc]. split; [done|].
    intros He. specialize (Hc He). lia.
Qed.

Lemma holds_get {B} (K : B → BridgeState → Prop) n (k : BridgeState → M B) s out :
  holds K n out (k s s out) → holds K n out (m_bind m_get k s out).
Proof. done. Qed.

Lemma holds_modify {B} (K : B → BridgeState → Prop) n f (k : unit → M B) s out :
  holds K n out (k tt (f s) out) → holds K n out (m_bind (m_modify f) k s out).
Proof. done. Qed.

Lemma holds_modify_last (K : unit → BridgeState → Prop) n f s out :
  K tt (f s) → holds K n out (m_modify f s out).
Proof. intros H. by apply (holds_ret K n tt (f s) out). Qed.

Lemma holds_weaken {A} (J K : A → BridgeState → Prop) n n' out res :
  holds J n out res → (∀ a s, J a s → K a s) → (n ≤ n')%nat → holds K n' out res.
Proof.
  intros H HJ Hn. destruct res as [[s out'] r]. destruct H as [(new & -> & Hl & Hg) Hr].
  split; [exists new; split; [done|split; [lia|done]]|].
  destruct r; [by apply HJ|]. destruct Hr as [HI Hc]. split; [done|]. intros He. specialize (Hc He). lia.
Qed.

Lemma holds_error {A} (J : A → BridgeState → Prop) n e s out : I s → e ≠ ActionCapacity →
  holds J n out (s, out, Err e).
Proof.
  intros H He. split; [|done]. exists []. rewrite app_nil_r. split; [done|]. split; [cbn; lia|constructor].
Qed.

Lemma holds_push (J : unit → BridgeState → Prop) action s out : I s → J tt s → G action →
  holds J 1 out (push_action ACTIONS action s out).
Proof.
  intros HI HJ HG. unfold push_action. destruct (vec_push ACTIONS action out) as [out'|] eqn:Hv.
  - apply vec_push_Some in Hv as [_ ->]. split; [|done]. exists [action]. split; [done|].
    split; [done|]. by constructor.
  - apply vec_push_None in Hv. split; [exists []; rewrite app_nil_r; split; [done|split; [cbn; lia|constructor]]|].
    split; [done|]. intros _. lia.
Qed.

(** Pushing changes no state, so what holds before holds after. *)
Lemma holds_pushes (J : unit → BridgeState → Prop) actions s out : I s → J tt s → Forall G actions →
  holds J (length actions) out (push_actions ACTIONS actions s out).
Proof.
  intros HI HJ HG. revert out. induction HG as [|a l Ha Hl IH]; intros out; cbn [push_actions length].
  { by apply holds_ret. }
  eapply (holds_bind (λ _ s', s' = s) _ 1 (length l)); [done|by apply holds_push|].
  intros _ s' out' ->. apply IH.
Qed.

Lemma holds_push_if (J : unit → BridgeState → Prop) (b : bool) action s out : I s → J tt s →
  (b = true → G action) → holds J 1 out (push_if ACTIONS b action s out).
Proof.
  intros HI HJ HG. unfold push_if. destruct b; [by apply holds_push; [| |apply HG]|by apply holds_ret].
Qed.

End Logic.

(** ** The invariant *)

(** What the bridge shows of the input is what the devices hold together. *)
Definition input_agrees (s : BridgeState) : Prop :=
  let agg := aggregate (br_input_devices s) in
  kb_modifiers (pi_keyboard (br_input s)) = kb_modifiers (pi_keyboard agg) ∧
  (∀ k, k ∈ kb_keys (pi_keyboard (br_input s)) ↔ k ∈ kb_keys (pi_keyboard agg)) ∧
  pi_mouse (br_input s) = pi_mouse agg ∧ pi_consumer (br_input s) = pi_consumer agg.

Record bridge_wf (s : BridgeState) : Prop := {
  wf_hosts : machine_inv (br_hosts s);
  wf_usb : (length (br_usb_hid_interfaces s) ≤ BRIDGE_USB_HID_INTERFACES_MAX)%nat;
  wf_selected : target_ok (ots_selected (br_output_target s));
  wf_active : ∀ t, ots_active (br_output_target s) = Some t → t = ots_selected (br_output_target s);
  wf_wired : ots_active (br_output_target s) = Some TargetWired → br_wired_availability s = AvailReady;
  wf_ble : ∀ h, hm_active_target (br_hosts s) = Some h → ots_selected (br_output_target s) = TargetBle h;
  wf_devices : agg_inv (br_input_devices s);
  wf_keyboard : keyboard_ok (pi_keyboard (br_input s));
  wf_input : input_agrees s;
  wf_suppression : suppression_ok (sp_keyboard (br_suppression s))
}.

Lemma target_ok_iff t : target_ok t ↔ match t with TargetWired => True | TargetBle h => 1 ≤ h ≤ 4 end.
Proof.
  unfold target_ok, validate_target. destruct t as [|h]; [done|]. change (Z.of_nat HOST_SLOT_COUNT) with 4.
  destruct (bool_decide (1 ≤ h)) eqn:H1, (bool_decide (h ≤ 4)) eqn:H2; cbn;
    try apply bool_decide_eq_true in H1; try apply bool_decide_eq_false in H1;
    try apply bool_decide_eq_true in H2; try apply bool_decide_eq_false in H2; split; (done || lia).
Qed.

Lemma host_target_ok h : host_slot_ok h ↔ target_ok (TargetBle h).
Proof. by rewrite host_slot_ok_iff, target_ok_iff. Qed.

(** A reset report: no key, no button, no movement. *)
Definition neutral_report (r : StandardHidReport) : Prop :=
  r = ReportOfKeyboard Keyboard6KroReport_release ∨ r = ReportOfMouse MouseReport_release_buttons ∨
  r = ReportOfConsumer ConsumerReport_release.

Definition input_reason (r : NotifyReason) : bool :=
  match r with ReasonInput | ReasonInputEdge | ReasonInputRelease => true | _ => false end.

(** What an event handled in state [s] may send: input only to the target that is active and takes
    that kind of report; anything else only to the selected target, but for reset reports to the
    wired computer. *)
Definition may_send (s : BridgeState) (action : BridgeAction) : Prop :=
  match action with
  | Notify target report reason =>
      if input_reason reason then ready_active_target s (report_kind report) = Some target
      else target = ots_selected (br_output_target s) ∨ target = TargetWired ∧ neutral_report report
  | _ => True
  end.

(** ** Steps that keep the invariant *)

Lemma wf_set_hosts s hosts : bridge_wf s → machine_inv hosts →
  (∀ h, hm_active_target hosts = Some h → hm_active_target (br_hosts s) = Some h) →
  bridge_wf (s <| br_hosts := hosts |>).
Proof. intros [H1 H2 H3 H4 H5 H6 H7 H8 H9 H10] Hm Ha. split; try done. intros h Hh. by apply H6, Ha. Qed.

Lemma wf_refresh s : bridge_wf s → bridge_wf (refresh_selected_target_availability s).
Proof.
  intros [H1 H2 H3 H4 H5 H6 H7 H8 H9 H10]. unfold refresh_selected_target_availability.
  split; try done; unfold upd; cbn.
  - intros t. destruct (selected_availability s); [by intros [= <-]|done|done].
  - destruct (selected_availability s) eqn:Ha; [|done|done]. intros [= Hs]. unfold selected_availability in Ha.
    by rewrite Hs in Ha.
Qed.

Lemma wf_set_pairable s p : bridge_wf s → bridge_wf (s <| br_pairable_host := p |>).
Proof. intros [H1 H2 H3 H4 H5 H6 H7 H8 H9 H10]. by split. Qed.

Lemma wf_set_leds s l : bridge_wf s → bridge_wf (s <| br_wired_keyboard_leds := l |>).
Proof. intros [H1 H2 H3 H4 H5 H6 H7 H8 H9 H10]. by split. Qed.

Lemma wf_set_link s l : bridge_wf s → bridge_wf (s <| br_wired_ble_host := l |>).
Proof. intros [H1 H2 H3 H4 H5 H6 H7 H8 H9 H10]. by split. Qed.

Lemma wf_set_stats s f : bridge_wf s → bridge_wf (s <| br_stats ::= f |>).
Proof. intros [H1 H2 H3 H4 H5 H6 H7 H8 H9 H10]. by split. Qed.

Lemma wf_set_usb s l : bridge_wf s → (length l ≤ BRIDGE_USB_HID_INTERFACES_MAX)%nat →
  bridge_wf (s <| br_usb_hid_interfaces := l |>).
Proof. intros [H1 H2 H3 H4 H5 H6 H7 H8 H9 H10] Hl. by split. Qed.

Lemma wf_suppress s p : bridge_wf s → suppression_ok (sp_keyboard p) → bridge_wf (s <| br_suppression := p |>).
Proof. intros [H1 H2 H3 H4 H5 H6 H7 H8 H9 H10] Hp. by split. Qed.

(** What is held now is what is hidden afterwards. *)
Definition held_now (s : BridgeState) : SuppressionState :=
  mkSuppressionState
    (mkSuppression (kb_modifiers (pi_keyboard (br_input s))) (kb_keys (pi_keyboard (br_input s))))
    (pm_buttons (pi_mouse (br_input s))) (pi_consumer (br_input s)).

Lemma capture_input_spec s out : bridge_wf s →
  capture_input s out = (s <| br_suppression := held_now s |>, out, Ok tt).
Proof.
  intros Hs. unfold capture_input. rewrite capture_from_spec by apply Hs. by destruct s as [? ? []].
Qed.

Lemma wf_held s : bridge_wf s → bridge_wf (s <| br_suppression := held_now s |>).
Proof.
  intros Hs. apply wf_suppress; [done|]. pose proof (wf_keyboard s Hs) as [Hm _ Hn _]. by split.
Qed.

Section Steps.
Context (ACTIONS : nat) (G : BridgeAction → Prop).

(** An operation on a host that creates it when needed. *)
Lemma holds_upsert {A} i (f : HostRuntimeState → HostRuntimeState * A) s out : bridge_wf s →
  (∀ h, hr_host_id (f h).1 = hr_host_id h) →
  holds ACTIONS bridge_wf G
    (λ a s', bridge_wf s' ∧ host_slot_ok i ∧ br_output_target s' = br_output_target s ∧
       a = (f (default (HostRuntimeState_default <| hr_host_id := i |>) (machine_host (br_hosts s) i))).2 ∧
       br_pairable_host s' = br_pairable_host s)
    0 out (on_hosts (λ hosts, upsert_host hosts i f) s out).
Proof.
  intros Hs Hf. unfold on_hosts. pose proof (upsert_spec (br_hosts s) i f (wf_hosts s Hs) Hf) as Hu.
  destruct (upsert_host (br_hosts s) i f) as [hosts [a|e]]; cbn [map_err].
  - destruct Hu as (Hi & Hm & _ & -> & _ & Ha). split.
    + exists []. rewrite app_nil_r. split; [done|]. split; [done|constructor].
    + split; [|done]. apply wf_set_hosts; [done|done|]. by rewrite Ha.
  - destruct Hu as (-> & -> & _). replace (s <| br_hosts := br_hosts s |>) with s by by destruct s.
    by apply holds_error.
Qed.

Lemma holds_status s out : bridge_wf s → (∀ st, G (StatusChanged st)) →
  holds ACTIONS bridge_wf G (λ _, bridge_wf) 1 out (push_status ACTIONS s out).
Proof. intros Hs HG. unfold push_status. apply holds_get. by apply holds_push. Qed.

Lemma led_actions_length s leds : bridge_wf s →
  (length (map (λ sink, UsbSetKeyboardLeds (ui_interface_id sink) (ui_device_id sink) leds)
     (List.filter ui_keyboard_led_sink (br_usb_hid_interfaces s))) ≤ 8)%nat.
Proof.
  intros Hs. rewrite length_map. pose proof (wf_usb s Hs) as Hl. change BRIDGE_USB_HID_INTERFACES_MAX with 8%nat in Hl.
  etransitivity; [|exact Hl]. clear. induction (br_usb_hid_interfaces s) as [|x l IH]; [done|]. cbn.
  destruct (ui_keyboard_led_sink x); cbn; lia.
Qed.

Lemma holds_leds leds s out : bridge_wf s → (∀ i d l, G (UsbSetKeyboardLeds i d l)) →
  holds ACTIONS bridge_wf G (λ _ s', s' = s) 8 out (push_usb_keyboard_leds ACTIONS leds s out).
Proof.
  intros Hs HG. unfold push_usb_keyboard_leds. apply holds_get.
  eapply holds_weaken; [apply (holds_pushes ACTIONS bridge_wf G (λ _ s', s' = s)); [done|done|]|done|
    by apply led_actions_length].
  apply List.Forall_forall. intros a (x & <- & _)%in_map_iff. apply HG.
Qed.

Lemma holds_active_leds s out : bridge_wf s → (∀ i d l, G (UsbSetKeyboardLeds i d l)) →
  holds ACTIONS bridge_wf G (λ _ s', s' = s) 8 out (apply_active_host_leds ACTIONS s out).
Proof.
  intros Hs HG. unfold apply_active_host_leds. apply holds_get. destruct (bool_decide _); [by apply holds_leds|].
  destruct (hm_active_target (br_hosts s)); [by apply holds_leds|by apply holds_ret].
Qed.

Lemma holds_neutral target reason s out : bridge_wf s →
  (∀ r, neutral_report r → G (Notify target r reason)) →
  holds ACTIONS bridge_wf G (λ _ s', s' = s) 3 out (push_neutral_reports ACTIONS target reason s out).
Proof.
  intros Hs HG. unfold push_neutral_reports.
  apply (holds_pushes ACTIONS bridge_wf G (λ _ s', s' = s)); [done|done|].
  cbn [map]. unfold neutral_report in HG. repeat constructor; apply HG; tauto.
Qed.

Lemma holds_release host reason s out : bridge_wf s →
  (∀ r, neutral_report r → G (Notify (TargetBle host) r reason)) →
  holds ACTIONS bridge_wf G (λ _ s', s' = s) 3 out (push_release_reports ACTIONS host reason s out).
Proof.
  intros Hs HG. unfold push_release_reports, neutral_report in *. apply holds_get.
  eapply (holds_bind _ _ _ (λ _ s', s' = s) _ 1 2); [done|apply holds_push_if; [done|done|]|].
  { intros _. apply HG. tauto. }
  intros _ s' out' ->. eapply (holds_bind _ _ _ (λ _ s', s' = s) _ 1 1); [done|apply holds_push_if; [done|done|]|].
  { intros _. apply HG. tauto. }
  intros _ s' out'' ->. apply holds_push_if; [done|done|]. intros _. apply HG. tauto.
Qed.

Lemma holds_release_target target reason s out : bridge_wf s →
  (∀ r, neutral_report r → G (Notify target r reason)) →
  holds ACTIONS bridge_wf G (λ _ s', s' = s) 3 out (push_release_target ACTIONS target reason s out).
Proof. intros Hs HG. destruct target; [by apply holds_neutral|by apply holds_release]. Qed.

End Steps.

(** ** Input frames *)

Lemma kb_loop_ok es kb kb' : rebuild_keyboard_loop es kb = Ok kb' → Forall entry_ok es →
  keyboard_ok kb → keyboard_ok kb'.
Proof.
  intros H Hes Hkb. pose proof Hkb as [Hm Hk Hn Hl].
  pose proof (kb_loop_inv es kb kb' H Hn Hl) as (Hkeys & Hn' & Hl' & _). split; [|clear Hkeys|done|done].
  - clear Hkeys Hn' Hl'. revert kb Hkb Hm Hk Hn Hl H. induction Hes as [|e es He Hes IH];
      intros kb Hkb Hm Hk Hn Hl H; cbn [rebuild_keyboard_loop] in H; [by injection H as <-|].
    destruct (press_keys _ _) as [kb1 [[]|err]] eqn:Hp; [|done].
    pose proof (press_keys_inv _ _ _ Hp Hn Hl) as (H1 & H2 & H3 & H4). unfold upd in *. cbn in H1, H4.
    assert (u8_ok (kb_modifiers kb1)) as H5 by (rewrite H4; apply lor_u8; [done|apply He]).
    assert (bytes_ok (kb_keys kb1)) as H6.
    { unfold bytes_ok in *. apply List.Forall_forall. intros k [Hx|Hx]%list_elem_of_In%H1.
      - rewrite List.Forall_forall in Hk. by apply Hk, list_elem_of_In.
      - pose proof (kb_keys_ok _ (en_keyboard_ok e He)) as Hb. unfold bytes_ok in Hb.
        rewrite List.Forall_forall in Hb. by apply Hb, list_elem_of_In. }
    by apply (IH kb1).
  - pose proof (kb_loop_inv es kb kb' H Hn Hl) as (Hkeys & _). unfold bytes_ok in *.
    apply List.Forall_forall. intros k [Hx|(e & He & Hx)]%list_elem_of_In%Hkeys.
    + rewrite List.Forall_forall in Hk. by apply Hk, list_elem_of_In.
    + apply list_elem_of_In in He. rewrite List.Forall_forall in Hes.
      pose proof (kb_keys_ok _ (en_keyboard_ok e (Hes e He))) as Hb. unfold bytes_ok in Hb.
      rewrite List.Forall_forall in Hb. by apply Hb, list_elem_of_In.
Qed.

Lemma agg_keyboard_ok a : agg_inv a → keyboard_ok (pi_keyboard (aggregate a)).
Proof.
  intros [Hagg _ Hen _]. rewrite rebuild_aggregate_parts in Hagg. apply bind_ok in Hagg as (kb & Hkb & Hagg).
  injection Hagg as <-. apply (kb_loop_ok _ _ _ Hkb Hen). split; [done|by constructor|constructor|cbn; lia].
Qed.

(** What a frame accepted by the aggregator changes of its aggregate. *)
Lemma prepare_frame_spec a f p : input_ok f → agg_inv a → prepare_frame a f = Ok p →
  let agg := prepared_aggregate p a in
  agg_inv (commit_frame a p) ∧ aggregate (commit_frame a p) = agg ∧
  (sif_keyboard f = None → pi_keyboard agg = pi_keyboard (aggregate a)) ∧
  (sif_mouse f = None → pi_mouse agg = pi_mouse (aggregate a)) ∧
  (sif_consumer f = None → pi_consumer agg = pi_consumer (aggregate a)).
Proof.
  intros Hf Ha Hp agg. split; [|split; [done|]].
  { eapply apply_frame_preserves; [done..|]. unfold apply_frame. by rewrite Hp. }
  apply prepare_frame_inv in Hp as [->|(l1 & l2 & slot & index & next & existing & only & agg1 & _ & _ & _ & _ &
    _ & _ & Hk & ->)]; [done|].
  unfold agg, prepared_aggregate. cbn [prep_aggregate default from_option id].
  set (b := frame_changes_buttons _ _). set (mid := buttons_part _ _ _ _ _ _).
  assert (pi_keyboard (consumer_part a f index only next mid) = pi_keyboard mid ∧
          pi_mouse (consumer_part a f index only next mid) = pi_mouse mid ∧
          (sif_consumer f = None → consumer_part a f index only next mid = mid)) as (C1 & C2 & C3).
  { unfold consumer_part. destruct (sif_consumer f); [by destruct only|done]. }
  assert (pi_keyboard mid = pi_keyboard agg1 ∧ pi_consumer mid = pi_consumer agg1 ∧
          (sif_mouse f = None → mid = agg1)) as (M1 & M2 & M3).
  { unfold mid, buttons_part. destruct b eqn:Hb; [|done]. split; [by destruct only|].
    split; [by destruct only|]. intros Hn. unfold b, frame_changes_buttons in Hb. by rewrite Hn in Hb. }
  assert (pi_mouse agg1 = pi_mouse (aggregate a) ∧ pi_consumer agg1 = pi_consumer (aggregate a) ∧
          (sif_keyboard f = None → agg1 = aggregate a)) as (K1 & K2 & K3).
  { unfold keyboard_part in Hk. destruct (sif_keyboard f); cbn [is_some is_none negb] in Hk.
    - destruct only; [injection Hk as <-; done|]. unfold rebuild_keyboard_replacing in Hk.
      apply bind_ok in Hk as (kb & _ & Hk). by injection Hk as <-.
    - injection Hk as <-. done. }
  split; [intros H; rewrite C1, M1; by rewrite K3|].
  split; [intros H; rewrite C2, M3 by done; exact K1|]. intros H. rewrite C3 by done. by rewrite M2.
Qed.

(** Keys that stay hidden after the devices hold [kb], in the order they were captured. *)
Definition hidden_keys (supp : KeyboardSuppression) (kb : PhysicalKeyboardState) : list Z :=
  filter (λ k, k ∈ kb_keys kb) (supp_keys supp).

(** The keys shown: those held, in the order they were pressed, that are not hidden. *)
Definition shown_keys (s : BridgeState) (kb : PhysicalKeyboardState) : list Z :=
  filter (λ k, k ∉ hidden_keys (sp_keyboard (br_suppression s)) kb)
    (snapshot_keys (kb_keys (pi_keyboard (br_input s))) (kb_keys kb)).

(** What an input frame makes of the held keyboard and of its suppression. *)
Record keyboard_next (s : BridgeState) (agg kb : PhysicalKeyboardState) (supp : KeyboardSuppression) : Prop := {
  kn_keyboard : kb = mkPhysicalKeyboard (kb_modifiers agg)
    (snapshot_keys (kb_keys (pi_keyboard (br_input s))) (kb_keys agg));
  kn_keyboard_ok : keyboard_ok kb;
  kn_suppression_ok : suppression_ok supp;
  kn_modifiers : supp_modifiers supp = Z.land (supp_modifiers (sp_keyboard (br_suppression s))) (kb_modifiers agg);
  kn_keys : supp_keys supp = hidden_keys (sp_keyboard (br_suppression s)) agg ++ drop 6 (shown_keys s agg);
  kn_report : kb_report (from_physical_state kb supp) =
    six_key_report (Z.land (kb_modifiers agg) (u8_not (supp_modifiers supp))) (shown_keys s agg)
}.

Definition keyboard_reason (s : BridgeState) (kb : PhysicalKeyboardState) : NotifyReason :=
  if keyboard_contains_release (pi_keyboard (br_input s)) kb then ReasonInputRelease else ReasonInput.

Lemma In_drop_in {A} n (l : list A) x : List.In x (drop n l) → List.In x l.
Proof. intros H. rewrite <- (take_drop n l). apply List.in_or_app. by right. Qed.

Lemma keyboard_next_exists s agg : keyboard_ok (pi_keyboard (br_input s)) →
  suppression_ok (sp_keyboard (br_suppression s)) → keyboard_ok agg →
  ∃ kb supp0 supp n, keyboard_next s agg kb supp ∧
    apply_state (pi_keyboard (br_input s)) agg (sp_keyboard (br_suppression s)) = (kb, supp0, Ok tt) ∧
    suppress_visible_after supp0 kb KEYBOARD_6KRO_KEY_CAPACITY = (supp, Ok n).
Proof.
  intros Hk Hs Ha. unfold apply_state. rewrite apply_snapshot_spec by (done || apply Ha).
  set (kb := mkPhysicalKeyboard _ _). set (supp0 := mkSuppression _ _).
  assert (keyboard_ok kb) as Hkb.
  { split; cbn; [apply Ha| |apply snapshot_keys_nodup; [apply Hk|apply Ha]|].
    - pose proof (kb_keys_ok _ Ha) as Hb. unfold bytes_ok in *. rewrite List.Forall_forall in *.
      intros k Hin. apply list_elem_of_In, snapshot_keys_in, list_elem_of_In in Hin. by apply Hb.
    - rewrite snapshot_keys_len by (apply Hk || apply Ha). apply Ha. }
  assert (suppression_ok supp0) as Hs0.
  { split; cbn; [apply land_u8; [apply Hs|apply Ha]|apply list.NoDup_filter, Hs]. }
  destruct (stable_six_key_window kb supp0 Hkb Hs0) as (supp & H1 & H2 & _ & H4 & _ & H6).
  { intros k. unfold supp0, kb. cbn. rewrite list_elem_of_filter, snapshot_keys_in. tauto. }
  exists kb, supp0, supp, (length (filter (.∉ supp_keys supp0) (kb_keys kb)) - 6)%nat.
  split; [|split; [done|exact H1]]. split; [done|done| |by rewrite H6|exact H2|].
  - split; [rewrite H6; apply Hs0|]. rewrite H2. apply list.NoDup_app. split; [apply Hs0|].
    split; [|apply sublist_NoDup with (filter (.∉ supp_keys supp0) (kb_keys kb)); [apply list.NoDup_filter, Hkb|apply sublist_drop]].
    intros x Hx Hd. apply list_elem_of_In, (In_drop_in 6), list_elem_of_In, list_elem_of_filter in Hd. tauto.
  - rewrite H4, from_physical_state_spec by apply Hkb. rewrite from_visible_state_spec, visible_against_spec by apply Hkb.
    by rewrite H6.
Qed.

(** The reports a frame gives, each with its reason, and the ones that are sent: those whose kind
    the active target takes. *)
Definition mouse_reason (s : BridgeState) (buttons : Z) : NotifyReason :=
  let previous := pm_buttons (pi_mouse (br_input s)) in
  if negb (Z.land previous (u8_not buttons) =? 0) || bool_decide (previous ≠ buttons)
  then ReasonInputEdge else ReasonInput.

Definition consumer_reason (s : BridgeState) (consumer : ConsumerState) : NotifyReason :=
  if is_some (cs_active (pi_consumer (br_input s))) && is_none (cs_active consumer)
  then ReasonInputRelease else ReasonInput.

Definition keyboard_input_report (s : BridgeState) (kb : PhysicalKeyboardState) : StandardHidReport :=
  ReportOfKeyboard (six_key_report
    (Z.land (kb_modifiers kb)
       (u8_not (Z.land (supp_modifiers (sp_keyboard (br_suppression s))) (kb_modifiers kb))))
    (shown_keys s kb)).

Definition mouse_input_report (s : BridgeState) (buttons : Z) (mouse : MouseFrame) : StandardHidReport :=
  ReportOfMouse (MouseReport_from_frame
    (MouseButtons_without buttons (MouseButtons_intersection (sp_mouse_buttons (br_suppression s)) buttons))
    (mouse_movement mouse)).

Definition consumer_input_report (s : BridgeState) (consumer : ConsumerState) : StandardHidReport :=
  ReportOfConsumer (consumer_report
    (if bool_decide (cs_active consumer = cs_active (sp_consumer (br_suppression s)))
     then None else cs_active consumer)).

Definition keyboard_reports (s : BridgeState) (agg : PhysicalInputState) (f : StandardInputFrame)
  : list (StandardHidReport * NotifyReason) :=
  match sif_keyboard f with
  | Some _ => [(keyboard_input_report s (pi_keyboard agg), keyboard_reason s (pi_keyboard agg))]
  | None => []
  end.

Definition mouse_reports (s : BridgeState) (agg : PhysicalInputState) (f : StandardInputFrame)
  : list (StandardHidReport * NotifyReason) :=
  match sif_mouse f with
  | Some mouse => [(mouse_input_report s (pm_buttons (pi_mouse agg)) mouse,
                    mouse_reason s (pm_buttons (pi_mouse agg)))]
  | None => []
  end.

Definition consumer_reports (s : BridgeState) (agg : PhysicalInputState) (f : StandardInputFrame)
  : list (StandardHidReport * NotifyReason) :=
  match sif_consumer f with
  | Some _ => [(consumer_input_report s (pi_consumer agg), consumer_reason s (pi_consumer agg))]
  | None => []
  end.

Definition input_reports (s : BridgeState) (agg : PhysicalInputState) (f : StandardInputFrame)
  : list (StandardHidReport * NotifyReason) :=
  keyboard_reports s agg f ++ mouse_reports s agg f ++ consumer_reports s agg f.

Definition deliver (s : BridgeState) (reports : list (StandardHidReport * NotifyReason)) : list BridgeAction :=
  omap (λ '(report, reason),
    match ready_active_target s (report_kind report) with
    | Some target => Some (Notify target report reason)
    | None => None
    end) reports.

Section InputFrames.
Context (ACTIONS : nat).

Definition push_list (actions out : list BridgeAction) : Result BridgeError (list BridgeAction) :=
  if decide (length out + length actions ≤ ACTIONS)%nat then Ok (out ++ actions) else Err ActionCapacity.

Lemma push_list_nil out : (length out ≤ ACTIONS)%nat → push_list [] out = Ok out.
Proof. intros H. unfold push_list. rewrite decide_True by (cbn; lia). by rewrite app_nil_r. Qed.

Lemma push_list_one action out : push_list [action] out = push_next ACTIONS out action.
Proof.
  unfold push_list, push_next. destruct (vec_push ACTIONS action out) as [out'|] eqn:Hv.
  - apply vec_push_Some in Hv as [? ->]. by rewrite decide_True by (cbn; lia).
  - apply vec_push_None in Hv. by rewrite decide_False by (cbn; lia).
Qed.

Lemma push_list_app a b out : (length out ≤ ACTIONS)%nat →
  push_list (a ++ b) out = (let? out := push_list a out in push_list b out).
Proof.
  intros H. unfold push_list. rewrite length_app. case_decide as Ha.
  - rewrite (decide_True (P := (length out + length a ≤ ACTIONS)%nat)) by lia. cbn [result_bind].
    rewrite decide_True by (rewrite length_app; lia). by rewrite app_assoc.
  - case_decide as Hb; [|done]. cbn [result_bind]. by rewrite decide_False by (rewrite length_app; lia).
Qed.

Lemma push_list_length a out out' : push_list a out = Ok out' → (length out' ≤ ACTIONS)%nat.
Proof. unfold push_list. case_decide; [intros [= <-]; rewrite length_app; lia|done]. Qed.

Lemma contains_release_set previous kb kb' : kb_modifiers kb = kb_modifiers kb' →
  (∀ k, k ∈ kb_keys kb ↔ k ∈ kb_keys kb') →
  keyboard_contains_release previous kb = keyboard_contains_release previous kb'.
Proof.
  intros Hm Hk. unfold keyboard_contains_release. rewrite Hm. f_equal.
  induction (kb_keys previous) as [|k l IH]; [done|]. cbn [existsb]. rewrite IH. f_equal. f_equal.
  unfold contains. apply bool_decide_ext, Hk.
Qed.

Lemma keyboard_output_spec s agg stats out : keyboard_ok (pi_keyboard (br_input s)) →
  suppression_ok (sp_keyboard (br_suppression s)) → keyboard_ok (pi_keyboard agg) → (length out ≤ ACTIONS)%nat →
  ∃ kb supp stats', keyboard_next s (pi_keyboard agg) kb supp ∧
    keyboard_output ACTIONS s agg stats out =
      (let? out := push_list (deliver s [(keyboard_input_report s (pi_keyboard agg), keyboard_reason s (pi_keyboard agg))]) out in
       Ok (kb, supp, stats', out)).
Proof.
  intros Hk Hs Ha Hl. destruct (keyboard_next_exists s _ Hk Hs Ha) as (kb & supp0 & supp & n & Hn & H1 & H2).
  exists kb, supp. unfold keyboard_output. rewrite H1. cbn [map_err result_bind]. rewrite H2. cbn [map_err result_bind].
  set (stats1 := if bool_decide (n ≠ 0%nat) then _ else _).
  unfold deliver. cbn [omap list_omap]. unfold keyboard_input_report at 1. cbn [report_kind].
  destruct (ready_active_target s KindKeyboard) as [target|].
  - exists stats1. split; [done|]. rewrite push_list_one. rewrite (kn_report _ _ _ _ Hn).
    unfold keyboard_input_report, keyboard_reason. rewrite <- (kn_modifiers _ _ _ _ Hn).
    rewrite (contains_release_set _ kb (pi_keyboard agg)); [done| |]; rewrite (kn_keyboard _ _ _ _ Hn); cbn; [done|].
    apply snapshot_keys_in.
  - eexists. split; [done|]. by rewrite push_list_nil.
Qed.

Lemma mouse_output_spec s agg mouse stats out : (length out ≤ ACTIONS)%nat →
  ∃ stats', mouse_output ACTIONS s agg mouse stats out =
    (let? out := push_list (deliver s [(mouse_input_report s (pm_buttons (pi_mouse agg)) mouse,
                                        mouse_reason s (pm_buttons (pi_mouse agg)))]) out in
     Ok (pi_mouse agg, MouseButtons_intersection (sp_mouse_buttons (br_suppression s)) (pm_buttons (pi_mouse agg)),
         stats', out)).
Proof.
  intros Hl. unfold mouse_output, deliver. cbn [omap list_omap]. unfold mouse_input_report at 1. cbn [report_kind].
  destruct (ready_active_target s KindMouse) as [target|].
  - exists stats. by rewrite push_list_one.
  - eexists. by rewrite push_list_nil.
Qed.

Lemma consumer_output_spec s agg out : (length out ≤ ACTIONS)%nat →
  ∃ supp, consumer_output ACTIONS s agg out =
    (let? out := push_list (deliver s [(consumer_input_report s (pi_consumer agg),
                                        consumer_reason s (pi_consumer agg))]) out in
     Ok (pi_consumer agg, supp, out)).
Proof.
  intros Hl. unfold consumer_output, deliver. cbn [omap list_omap]. unfold consumer_input_report at 1. cbn [report_kind].
  set (supp := if bool_decide (cs_active (pi_consumer agg) ≠ _) then _ else _). exists supp.
  destruct (ready_active_target s KindConsumer) as [target|]; [|by rewrite push_list_nil].
  rewrite push_list_one. unfold consumer_reason.
  replace (consumer_input_report s (pi_consumer agg)) with (ReportOfConsumer (consumer_report
    (if bool_decide (cs_active (pi_consumer agg) = cs_active supp) then None else cs_active (pi_consumer agg)))); [done|].
  unfold consumer_input_report, supp. clear.
  destruct (decide (cs_active (pi_consumer agg) = cs_active (sp_consumer (br_suppression s)))) as [He|He].
  - rewrite (bool_decide_false (_ ≠ _)) by tauto. done.
  - rewrite (bool_decide_true (_ ≠ _)) by done. cbn [cs_active]. rewrite (bool_decide_false (_ = cs_active (sp_consumer _))) by done.
    case_bool_decide as H; [by rewrite H|done].
Qed.

Lemma deliver_app s a b : deliver s (a ++ b) = deliver s a ++ deliver s b.
Proof. unfold deliver. apply omap_app. Qed.

(** The parts the frame does not touch. *)
Record same_targets (s s' : BridgeState) : Prop := {
  sm_hosts : br_hosts s' = br_hosts s;
  sm_output_target : br_output_target s' = br_output_target s;
  sm_wired_availability : br_wired_availability s' = br_wired_availability s;
  sm_usb : br_usb_hid_interfaces s' = br_usb_hid_interfaces s;
  sm_pairable : br_pairable_host s' = br_pairable_host s;
  sm_leds : br_wired_keyboard_leds s' = br_wired_keyboard_leds s;
  sm_link : br_wired_ble_host s' = br_wired_ble_host s
}.

Record frame_next (s : BridgeState) (f : StandardInputFrame) (devices : InputAggregator)
  (agg : PhysicalInputState) (s' : BridgeState) : Prop := {
  fn_devices : br_input_devices s' = devices;
  fn_targets : same_targets s s';
  fn_keyboard : if is_some (sif_keyboard f)
    then keyboard_next s (pi_keyboard agg) (pi_keyboard (br_input s')) (sp_keyboard (br_suppression s'))
    else pi_keyboard (br_input s') = pi_keyboard (br_input s) ∧
         sp_keyboard (br_suppression s') = sp_keyboard (br_suppression s);
  fn_mouse : if is_some (sif_mouse f)
    then pi_mouse (br_input s') = pi_mouse agg ∧
         sp_mouse_buttons (br_suppression s') = MouseButtons_intersection
           (sp_mouse_buttons (br_suppression s)) (pm_buttons (pi_mouse agg))
    else pi_mouse (br_input s') = pi_mouse (br_input s) ∧
         sp_mouse_buttons (br_suppression s') = sp_mouse_buttons (br_suppression s);
  fn_consumer : pi_consumer (br_input s') =
    if is_some (sif_consumer f) then pi_consumer agg else pi_consumer (br_input s)
}.

Lemma keyboard_step_spec s agg f stats out : bridge_wf s → keyboard_ok (pi_keyboard agg) → (length out ≤ ACTIONS)%nat →
  ∃ next stats', bridge_keyboard_step ACTIONS s agg f stats out =
    (let? out := push_list (deliver s (keyboard_reports s agg f)) out in Ok (next, stats', out)) ∧
    match sif_keyboard f, next with
    | Some _, Some (kb, supp) => keyboard_next s (pi_keyboard agg) kb supp
    | None, None => True
    | _, _ => False
    end.
Proof.
  intros Hs Hkb Hl. unfold bridge_keyboard_step, keyboard_reports. destruct (sif_keyboard f) as [kf|].
  - destruct (keyboard_output_spec s agg stats out) as (kb & supp & stats1 & Hn & ->);
      [apply Hs|apply Hs|done|done|]. exists (Some (kb, supp)), stats1. split; [|done].
    by destruct (push_list _ out).
  - exists None, stats. by rewrite push_list_nil.
Qed.

Lemma mouse_step_spec s agg f stats out : (length out ≤ ACTIONS)%nat →
  ∃ stats', bridge_mouse_step ACTIONS s agg f stats out =
    (let? out := push_list (deliver s (mouse_reports s agg f)) out in
     Ok ((if is_some (sif_mouse f) then Some (pi_mouse agg,
            MouseButtons_intersection (sp_mouse_buttons (br_suppression s)) (pm_buttons (pi_mouse agg)))
          else None), stats', out)).
Proof.
  intros Hl. unfold bridge_mouse_step, mouse_reports. destruct (sif_mouse f) as [m|].
  - destruct (mouse_output_spec s agg m stats out Hl) as (stats2 & ->). exists stats2.
    by destruct (push_list _ out).
  - exists stats. by rewrite push_list_nil.
Qed.

Lemma consumer_step_spec s agg f out : (length out ≤ ACTIONS)%nat →
  ∃ supp, bridge_consumer_step ACTIONS s agg f out =
    (let? out := push_list (deliver s (consumer_reports s agg f)) out in
     Ok ((if is_some (sif_consumer f) then Some (pi_consumer agg, supp) else None), out)).
Proof.
  intros Hl. unfold bridge_consumer_step, consumer_reports. destruct (sif_consumer f) as [c|].
  - destruct (consumer_output_spec s agg out Hl) as (supp & ->). exists supp. by destruct (push_list _ out).
  - exists ConsumerState_new. by rewrite push_list_nil.
Qed.

Lemma handle_standard_spec s f out : bridge_wf s → input_ok f → (length out ≤ ACTIONS)%nat →
  match prepare_frame (br_input_devices s) f with
  | Err e => handle_standard_input_frame ACTIONS f s out = (s, out, Err (BridgeInput e))
  | Ok p =>
      match push_list (deliver s (input_reports s (prepared_aggregate p (br_input_devices s)) f)) out with
      | Ok out' => ∃ s', frame_next s f (commit_frame (br_input_devices s) p)
            (prepared_aggregate p (br_input_devices s)) s' ∧
          handle_standard_input_frame ACTIONS f s out = (s', out', Ok tt)
      | Err e => handle_standard_input_frame ACTIONS f s out = (s, out, Err e)
      end
  end.
Proof.
  intros Hs Hf Hl. unfold handle_standard_input_frame.
  destruct (prepare_frame (br_input_devices s) f) as [p|e] eqn:Hp; [|done].
  destruct (prepare_frame_spec _ _ _ Hf (wf_devices s Hs) Hp) as (Ha & Hagg & _).
  set (agg := prepared_aggregate p (br_input_devices s)) in *. cbn [map_err result_bind].
  assert (keyboard_ok (pi_keyboard agg)) as Hkb by (rewrite <- Hagg; by apply agg_keyboard_ok).
  unfold input_reports. rewrite !deliver_app, push_list_app by done.
  destruct (keyboard_step_spec s agg f (br_stats s) out Hs Hkb Hl) as (keyboard & stats1 & HKe & HK).
  fold agg. rewrite HKe.
  destruct (push_list (deliver s (keyboard_reports s agg f)) out) as [out1|e] eqn:H1; [|done].
  cbn [result_bind]. apply push_list_length in H1. rewrite push_list_app by done.
  destruct (mouse_step_spec s agg f stats1 out1 H1) as (stats2 & ->).
  destruct (push_list (deliver s (mouse_reports s agg f)) out1) as [out2|e] eqn:H2; [|done].
  cbn [result_bind]. apply push_list_length in H2.
  destruct (consumer_step_spec s agg f out2 H2) as (supp & ->).
  destruct (push_list (deliver s (consumer_reports s agg f)) out2) as [out3|e] eqn:H3; cbn [result_bind]; [|done].
  eexists. split; [|reflexivity]. fold agg. clear H1 H2 H3 HKe Hl.
  destruct (sif_keyboard f) as [kf|] eqn:Ek, keyboard as [[kb sp]|]; try done;
    destruct (sif_mouse f) as [m|] eqn:Em; destruct (sif_consumer f) as [c|] eqn:Ec;
    cbn [is_some is_none negb].
  all: split; rewrite ?Ek, ?Em, ?Ec; cbn [is_some is_none negb];
    [reflexivity|split; reflexivity|first [exact HK|split; reflexivity]|split; reflexivity|reflexivity].
Qed.

End InputFrames.

Lemma wf_frame s f p s' : bridge_wf s → input_ok f → prepare_frame (br_input_devices s) f = Ok p →
  frame_next s f (commit_frame (br_input_devices s) p) (prepared_aggregate p (br_input_devices s)) s' →
  bridge_wf s'.
Proof.
  intros Hs Hf Hp [Hd [T1 T2 T3 T4 T5 T6 T7] Hk Hm Hc].
  destruct (prepare_frame_spec _ _ _ Hf (wf_devices s Hs) Hp) as (Ha & Hagg & Nk & Nm & Nc).
  set (devices' := commit_frame _ p) in *. set (agg := prepared_aggregate _ _) in *. clearbody agg devices'.
  destruct Hs as [H1 H2 H3 H4 H5 H6 H7 H8 [I1 [I2 [I3 I4]]] H10].
  split; rewrite ?T1, ?T2, ?T3, ?T4, ?Hd; try done.
  - destruct (sif_keyboard f); [by apply Hk|by destruct Hk as [-> _]].
  - unfold input_agrees. rewrite Hd, Hagg, Hc.
    assert (pi_mouse (br_input s') = pi_mouse agg) as ->
      by (destruct (sif_mouse f); destruct Hm as [-> _]; [done|by rewrite I3, Nm]).
    assert ((if is_some (sif_consumer f) then pi_consumer agg else pi_consumer (br_input s)) = pi_consumer agg) as ->
      by (destruct (sif_consumer f); [done|cbn; by rewrite I4, Nc]).
    destruct (sif_keyboard f).
    + rewrite (kn_keyboard _ _ _ _ Hk). cbn [kb_modifiers kb_keys]. split; [done|]. split; [|done].
      apply snapshot_keys_in.
    + destruct Hk as [-> _]. rewrite Nk by done. done.
  - destruct (sif_keyboard f); [by apply Hk|by destruct Hk as [_ ->]].
Qed.

(** ** What each handler may do *)

(** Names the state the handler goes on from. *)
Ltac name_state s := match goal with |- holds _ _ _ _ _ _ (_ ?st _) => set (s := st) end.

Section Handlers.
Context (ACTIONS : nat).

Lemma deliver_may_send s reports : Forall (λ r, input_reason r.2 = true) reports →
  Forall (may_send s) (deliver s reports).
Proof.
  induction 1 as [|[report reason] l Hr Hl IH]; [constructor|]. unfold deliver in *. cbn [omap list_omap].
  destruct (ready_active_target s (report_kind report)) eqn:Ht; [|done]. constructor; [|done].
  cbn in *. by rewrite Hr.
Qed.

Lemma input_reports_reason s agg f : Forall (λ r, input_reason r.2 = true) (input_reports s agg f).
Proof.
  unfold input_reports, keyboard_reports, mouse_reports, consumer_reports, keyboard_reason, mouse_reason, consumer_reason.
  destruct (sif_keyboard f), (sif_mouse f), (sif_consumer f); cbn [app]; repeat constructor; cbn; by case_match.
Qed.

Lemma deliver_length s agg f : (length (deliver s (input_reports s agg f)) ≤ 3)%nat.
Proof.
  transitivity (length (input_reports s agg f)).
  - unfold deliver. induction (input_reports s agg f) as [|[r c] l IH]; [done|]. cbn [omap list_omap].
    case_match; cbn; lia.
  - unfold input_reports, keyboard_reports, mouse_reports, consumer_reports.
    destruct (sif_keyboard f), (sif_mouse f), (sif_consumer f); cbn; lia.
Qed.

Lemma holds_frame s frame out : bridge_wf s → (∀ f, frame = FrameStandard f → input_ok f) →
  (length out ≤ ACTIONS)%nat →
  holds ACTIONS bridge_wf (may_send s) (λ _, bridge_wf) 3 out (handle_input_frame ACTIONS frame s out).
Proof.
  intros Hs Hf Hl. destruct frame as [f|v]; cbn [handle_input_frame].
  2: { apply holds_modify_last. by apply wf_set_stats. }
  specialize (Hf f eq_refl). pose proof (handle_standard_spec ACTIONS s f out Hs Hf Hl) as H.
  destruct (prepare_frame (br_input_devices s) f) as [p|e] eqn:Hp; [|rewrite H; by apply holds_error].
  set (agg := prepared_aggregate p (br_input_devices s)) in *.
  pose proof (deliver_length s agg f) as Hlen.
  pose proof (deliver_may_send s _ (input_reports_reason s agg f)) as Hsend.
  unfold push_list in H. case_decide as Hd.
  - destruct H as (s' & Hn & ->). split; [by exists (deliver s (input_reports s agg f))|].
    by apply (wf_frame s f p).
  - rewrite H. split; [exists []; rewrite app_nil_r; split; [done|split; [cbn; lia|constructor]]|].
    split; [done|]. intros _. lia.
Qed.

Lemma holds_step {A B} (K : B → BridgeState → Prop) G n (m : M A) (k : A → M B) s s' out a :
  m s out = (s', out, Ok a) → holds ACTIONS bridge_wf G K n out (k a s' out) →
  holds ACTIONS bridge_wf G K n out (m_bind m k s out).
Proof. intros Hm Hk. unfold m_bind. by rewrite Hm. Qed.

Lemma holds_fail {A B} (K : B → BridgeState → Prop) G n (m : M A) (k : A → M B) s out e :
  m s out = (s, out, Err e) → bridge_wf s → e ≠ ActionCapacity →
  holds ACTIONS bridge_wf G K n out (m_bind m k s out).
Proof. intros Hm Hs He. unfold m_bind. rewrite Hm. by apply holds_error. Qed.

Lemma wf_select s hosts t : bridge_wf s → machine_inv hosts → target_ok (ots_selected t) → ots_active t = None →
  (∀ h, hm_active_target hosts = Some h → ots_selected t = TargetBle h) →
  bridge_wf (s <| br_output_target := t |> <| br_hosts := hosts |>).
Proof.
  intros [H1 H2 H3 H4 H5 H6 H7 H8 H9 H10] Hm Ht Ha Hh. split; unfold upd; cbn; try done; congruence.
Qed.

Lemma wf_availability s a : bridge_wf s →
  (ots_selected (br_output_target s) = TargetWired → a = AvailReady → br_wired_availability s = AvailReady) →
  bridge_wf (s <| br_output_target ::= λ t, set_availability t a |>).
Proof.
  intros [H1 H2 H3 H4 H5 H6 H7 H8 H9 H10] Ha. split; unfold upd; cbn; try done.
  - destruct a; by intros t [= <-].
  - destruct a; [|done|done]. intros [= ?]. by apply Ha.
Qed.

Definition selected_as (t : OutputTargetState) (target : OutputTarget) : OutputTargetState :=
  mkOutputTargetState target None AvailUnavailable (as_u32 (ots_transition_operation_id t + 1)).

Lemma select_target_spec t target : target_ok target →
  select_target t target = (selected_as t target, Ok (as_u32 (ots_transition_operation_id t + 1))).
Proof. intros H. unfold select_target. rewrite H. done. Qed.

(** The neutral reports to a wired computer that became ready, and its LEDs. *)
Lemma holds_wired_ready G leds s out : bridge_wf s → (∀ r, neutral_report r → G (Notify TargetWired r ReasonSafetyRelease)) →
  (∀ i d l, G (UsbSetKeyboardLeds i d l)) →
  holds ACTIONS bridge_wf G (λ _ s', s' = s) 11 out
    ((push_neutral_reports ACTIONS TargetWired ReasonSafetyRelease ;- push_usb_keyboard_leds ACTIONS leds) s out)%rust.
Proof.
  intros Hs Hn Hl. eapply (holds_bind _ _ _ (λ _ s', s' = s) _ 3 8); [done|by apply holds_neutral|].
  intros _ s' out' ->. by apply holds_leds.
Qed.

(** The two actions every switch ends with. *)
Lemma holds_persist_status G s out : bridge_wf s → G PersistProfiles → (∀ st, G (StatusChanged st)) →
  holds ACTIONS bridge_wf G (λ _, bridge_wf) 2 out
    ((push_action ACTIONS PersistProfiles ;- push_status ACTIONS) s out)%rust.
Proof.
  intros Hs Hp Hst. eapply (holds_bind _ _ _ (λ _ s', s' = s) _ 1 1); [done|by apply holds_push|].
  intros _ s' out' ->. by apply holds_status.
Qed.

Lemma holds_transition s0 s target release out : bridge_wf s →
  ots_selected (br_output_target s) = ots_selected (br_output_target s0) →
  (∀ reason, release = Some reason → input_reason reason = false) →
  holds ACTIONS bridge_wf (may_send s0) (λ _, bridge_wf) 17 out
    (transition_output_target ACTIONS target release s out).
Proof.
  intros Hs Hsel Hr. unfold transition_output_target.
  destruct (validate_target target) as [t|e] eqn:Hv; [|by apply holds_error].
  assert (target_ok target) as Ht.
  { unfold target_ok. rewrite Hv. f_equal. unfold validate_target in Hv. destruct target as [|h]; [by injection Hv|].
    case_match; [by injection Hv|done]. }
  apply holds_get. case_bool_decide as Hsame.
  { eapply holds_weaken; [by apply holds_status| |lia]. done. }
  eapply (holds_bind _ _ _ (λ _ s', s' = s) _ 3 14); [done| |].
  { destruct (ots_active (br_output_target s)) as [active|] eqn:Ha, release as [reason|];
      [|by apply holds_ret..]. apply holds_release_target; [done|]. intros r Hn. cbn.
    rewrite (Hr reason eq_refl). left. by rewrite (wf_active s Hs active Ha), Hsel. }
  intros _ s' out' ->. eapply holds_step; [by apply capture_input_spec|].
  pose proof (wf_held s Hs) as Hs1. set (s1 := s <| br_suppression := held_now s |>) in *.
  eapply holds_step; [cbv beta; by rewrite select_target_spec by done|].
  set (id := as_u32 (ots_transition_operation_id _ + 1)). clearbody id.
  set (t1 := selected_as _ target).
  eapply (holds_bind _ _ _ (λ _, bridge_wf) _ 12 2); [done| |intros _ s' out'' Hs'; by apply holds_persist_status].
  destruct target as [|host_id].
  - apply holds_modify. name_state s2.
    assert (bridge_wf s2) as Hs2.
    { apply (wf_select s1 (clear_active_target (br_hosts s1)) t1); [done|apply clear_active_inv, Hs1|done|done|done]. }
    clearbody s2. eapply (holds_bind _ _ _ (λ _ s', s' = s2) _ 1 11); [done|by apply holds_push|].
    intros _ s' out'' ->. apply holds_modify.
    name_state s3.
    assert (bridge_wf s3) as Hs3 by by apply wf_availability.
    clearbody s3. apply holds_get. case_bool_decide as Hav; [|by apply holds_ret].
    eapply holds_weaken; [apply holds_wired_ready; [done| |done]|by intros ? ? ->|done].
    intros r Hn. cbn. by right.
  - eapply (holds_bind _ _ _ (λ _, bridge_wf) _ 0 12); [done| |].
    { unfold on_hosts. pose proof (set_active_spec (br_hosts s1) host_id (wf_hosts s1 Hs1)) as Ha.
      unfold upd at 1. cbn [br_hosts]. change (br_hosts s) with (br_hosts s1).
      destruct (set_active_target (br_hosts s1) host_id) as [hosts [c|e]].
      - destruct Ha as (Hok & Hm & Hact & _). apply holds_ret.
        apply (wf_select s1 hosts t1); [done|done|done|done|]. rewrite Hact. by intros h [= ->].
      - destruct Ha as (_ & _ & Hno). by apply host_target_ok in Ht. }
    intros _ s2 out2 Hs2. eapply (holds_bind _ _ _ (λ _ s', s' = s2) _ 1 11); [done|by apply holds_push|].
    intros _ s' out3 ->. eapply (holds_bind _ _ _ (λ _ s', s' = s2) _ 1 10); [done|by apply holds_push|].
    intros _ s' out4 ->. eapply (holds_bind _ _ _ (λ _ s', s' = s2) _ 8 2); [done|by apply holds_active_leds|].
    intros _ s' out5 ->. apply holds_modify_last. by apply wf_refresh.
Qed.

Lemma holds_wired_availability s availability out : bridge_wf s →
  holds ACTIONS bridge_wf (may_send s) (λ _, bridge_wf) 12 out
    (wired_availability_changed ACTIONS availability s out).
Proof.
  intros Hs. unfold wired_availability_changed. apply holds_modify. name_state s1.
  eapply (holds_bind _ _ _ (λ _, bridge_wf) _ 11 1); [done| |intros _ s' out' Hs'; by apply holds_status].
  apply holds_get. change (br_output_target s1) with (br_output_target s). case_bool_decide as Hsel.
  - apply holds_modify. name_state s2.
    assert (bridge_wf s2) as Hs2.
    { destruct Hs as [H1 H2 H3 H4 H5 H6 H7 H8 H9 H10]. split; unfold s2, s1, upd; cbn; try done.
      - destruct availability; by intros t [= <-].
      - by destruct availability. }
    change (br_wired_keyboard_leds s1) with (br_wired_keyboard_leds s2). clearbody s2.
    case_bool_decide as Hav; [|by apply holds_ret].
    eapply holds_weaken; [apply holds_wired_ready; [done| |done]|by intros ? ? ->|done].
    intros r Hn. cbn. by right.
  - apply holds_ret. destruct Hs as [H1 H2 H3 H4 H5 H6 H7 H8 H9 H10]. split; try done.
    intros Hw. destruct Hsel. symmetry. by apply H4.
Qed.

Lemma holds_enter_pairing G s host_id out : bridge_wf s → (∀ a, match a with Notify _ _ _ => True | _ => G a end) →
  holds ACTIONS bridge_wf G (λ _, bridge_wf) 3 out (enter_pairing_mode ACTIONS host_id s out).
Proof.
  intros Hs HG. unfold enter_pairing_mode. apply holds_get, holds_modify. name_state s1.
  assert (bridge_wf s1) as Hs1 by by apply wf_set_pairable.
  eapply (holds_bind _ _ _ (λ _ s', s' = s1) _ 1 2); [done| |].
  { destruct (br_pairable_host s) as [previous|]; [|by apply holds_ret].
    apply holds_push_if; [done|done|]. intros _. exact (HG (RejectPairing previous)). }
  intros _ s' out' ->. eapply (holds_bind _ _ _ (λ _ s', s' = s1) _ 1 1); [done| |].
  { apply holds_push; [done|done|exact (HG (AllowPairing host_id))]. }
  intros _ s' out'' ->. apply holds_status; [done|]. intros st. exact (HG (StatusChanged st)).
Qed.

(** The end of a pairing session. *)
Lemma holds_reject G s host_id out : bridge_wf s → G (RejectPairing host_id) →
  holds ACTIONS bridge_wf G (λ _, bridge_wf) 1 out
    ((m_modify (λ s, s <| br_pairable_host := None |>) ;- push_action ACTIONS (RejectPairing host_id)) s out)%rust.
Proof.
  intros Hs HG. apply holds_modify. name_state s1.
  assert (bridge_wf s1) as Hs1 by by apply wf_set_pairable. by apply holds_push.
Qed.

Lemma holds_expire_pairing s host_id out : bridge_wf s →
  holds ACTIONS bridge_wf (may_send s) (λ _, bridge_wf) 2 out (expire_pairing_mode ACTIONS host_id s out).
Proof.
  intros Hs. unfold expire_pairing_mode. apply holds_get. case_bool_decide; [|by apply holds_ret].
  apply holds_modify. name_state s1. assert (bridge_wf s1) as Hs1 by by apply wf_set_pairable.
  eapply (holds_bind _ _ _ (λ _ s', s' = s1) _ 1 1); [done|by apply holds_push|].
  intros _ s' out' ->. by apply holds_status.
Qed.

Lemma holds_clear_host s host_id out : bridge_wf s →
  holds ACTIONS bridge_wf (may_send s) (λ _, bridge_wf) 15 out (bridge_clear_host ACTIONS host_id s out).
Proof.
  intros Hs. unfold bridge_clear_host. apply holds_get. set (was_active := bool_decide _).
  eapply (holds_bind _ _ _ (λ _ s', s' = s) _ 3 12); [done| |].
  { destruct was_active eqn:Hact; [|by apply holds_ret]. apply bool_decide_eq_true in Hact.
    apply holds_release; [done|]. intros r Hn. cbn. left. by rewrite (wf_ble s Hs _ Hact). }
  intros _ s' out' ->. clearbody was_active.
  eapply (holds_bind _ _ _ (λ _, bridge_wf) _ 1 11); [done| |].
  { case_bool_decide; [by apply holds_reject|by apply holds_ret]. }
  intros _ s1 out1 Hs1.
  eapply (holds_bind _ _ _ (λ _, bridge_wf) _ 0 11); [done| |].
  { pose proof (clear_host_spec (br_hosts s1) host_id (wf_hosts s1 Hs1)) as Hc. cbv beta.
    destruct (machine_clear_host (br_hosts s1) host_id) as [hosts removed].
    destruct Hc as (Hm & _ & _ & _ & Hact). apply holds_ret. apply wf_set_hosts; [done|done|].
    rewrite Hact. by case_bool_decide. }
  intros removed s2 out2 Hs2. destruct removed; [|by apply holds_ret].
  apply holds_modify. name_state s3.
  assert (bridge_wf s3) as Hs3 by (unfold s3; case_bool_decide; [by apply wf_set_link|done]).
  clearbody s3.
  eapply (holds_bind _ _ _ (λ _ s', s' = s3) _ 1 10); [done|by apply holds_push|].
  intros _ s' out3 ->. eapply (holds_bind _ _ _ (λ _ s', s' = s3) _ 1 9); [done|by apply holds_push|].
  intros _ s' out4 ->. eapply (holds_bind _ _ _ (λ _ s', s' = s3) _ 8 1); [done| |].
  { destruct was_active; [by apply holds_leds|by apply holds_ret]. }
  intros _ s' out5 ->. by apply holds_status.
Qed.

(** *** Removed devices *)

Lemma push_keys_spec keys f : NoDup (frame_keys f ++ keys) →
  (length (frame_keys f ++ keys) ≤ PHYSICAL_KEYBOARD_KEY_CAPACITY)%nat →
  push_keys f keys = (mkKeyboardFrame (frame_modifiers f) (frame_keys f ++ keys), Ok tt).
Proof.
  revert f. induction keys as [|k keys IH]; intros f Hn Hl; cbn [push_keys].
  { rewrite app_nil_r. by destruct f. }
  assert (k ∉ frame_keys f) as Hk.
  { apply list.NoDup_app in Hn as (_ & H & _). intros Hin. apply (H k Hin). by left. }
  rewrite length_app in Hl. cbn in Hl.
  unfold push_key. apply contains_false in Hk as ->. unfold vec_push. rewrite decide_True by lia.
  unfold upd. rewrite IH; cbn [frame_keys frame_modifiers]; rewrite <- app_assoc; [done|done|].
  rewrite length_app. cbn. lia.
Qed.

Lemma to_frame_spec kb : keyboard_ok kb → to_frame kb = Ok (mkKeyboardFrame (kb_modifiers kb) (kb_keys kb)).
Proof. intros [_ _ Hn Hl]. unfold to_frame. by rewrite push_keys_spec. Qed.

Lemma keyboard_refresh s : bridge_wf s →
  ∃ kb supp, keyboard_apply_frame (pi_keyboard (br_input s))
      (mkKeyboardFrame (kb_modifiers (pi_keyboard (br_input s))) (kb_keys (pi_keyboard (br_input s))))
      (sp_keyboard (br_suppression s)) = (kb, supp, Ok tt) ∧
    bridge_wf (s <| br_input ::= λ i, i <| pi_keyboard := kb |> |>
                 <| br_suppression ::= λ p, p <| sp_keyboard := supp |> |>).
Proof.
  intros Hs. pose proof Hs as [H1 H2 H3 H4 H5 H6 H7 H8 [I1 [I2 [I3 I4]]] H10].
  destruct (apply_frame_ok (pi_keyboard (br_input s)) (sp_keyboard (br_suppression s))
    (mkKeyboardFrame (kb_modifiers (pi_keyboard (br_input s))) (kb_keys (pi_keyboard (br_input s)))) H8 H10)
    as (kb & supp & Heq & Hkb & Hsupp & Hm & Hk & _); [by destruct H8|].
  exists kb, supp. split; [exact Heq|]. cbn in Hm, Hk. split; try assumption.
  change (input_agrees (s <| br_input ::= λ i, i <| pi_keyboard := kb |> |>)). unfold input_agrees.
  unfold upd. cbn [br_input br_input_devices pi_keyboard pi_mouse pi_consumer].
  rewrite Hm. split; [done|]. split; [|done]. intros k. by rewrite Hk.
Qed.

Lemma holds_detach s0 s host_id previous reason out : bridge_wf s →
  ots_selected (br_output_target s0) = TargetBle host_id → input_reason reason = false →
  holds ACTIONS bridge_wf (may_send s0) (λ _, bridge_wf) 3 out
    (emit_detach_updates ACTIONS host_id previous reason s out).
Proof.
  intros Hs Hsel Hr. assert (∀ r, may_send s0 (Notify (TargetBle host_id) r reason)) as Hsend.
  { intros r. cbn. rewrite Hr. by left. }
  unfold emit_detach_updates. apply holds_get. rewrite to_frame_spec by apply Hs.
  eapply holds_step; [reflexivity|]. destruct (keyboard_refresh s Hs) as (kb & supp & Heq & Hs1).
  eapply holds_step; [rewrite Heq; reflexivity|]. name_state s1. change (bridge_wf s1) in Hs1. clearbody s1.
  eapply (holds_bind _ _ _ (λ _ s', s' = s1) _ 1 2); [done| |].
  { apply holds_get. by apply holds_push_if. }
  intros _ s' out1 ->. apply holds_modify. name_state s2.
  assert (bridge_wf s2) as Hs2 by (apply (wf_suppress s1 _ Hs1); apply Hs1). clearbody s2.
  eapply (holds_bind _ _ _ (λ _ s', s' = s2) _ 1 1); [done| |].
  { apply holds_get. by apply holds_push_if. }
  intros _ s' out2 ->. apply holds_modify. name_state s3.
  assert (bridge_wf s3) as Hs3.
  { unfold s3. case_bool_decide; [|done]. apply (wf_suppress s2 _ Hs2); apply Hs2. }
  clearbody s3. apply holds_get. by apply holds_push_if.
Qed.

Lemma length_swap_remove {A} i (l : list A) : (length (swap_remove i l) ≤ length l)%nat.
Proof.
  unfold swap_remove. destruct (l !! (length l - 1)%nat) eqn:Hl; [|done]. case_decide; [|rewrite length_insert].
  all: rewrite (removelast_firstn_len l), length_take; lia.
Qed.

Lemma wf_remove_usb i s : bridge_wf s → bridge_wf (remove_usb_hid_interface i s).
Proof.
  intros Hs. unfold remove_usb_hid_interface. destruct (position _ _) as [k|]; [|done].
  apply wf_set_usb; [done|]. etransitivity; [apply length_swap_remove|apply Hs].
Qed.

(** Taking over the aggregate of the devices that are left. *)
Lemma wf_devices_removed s d : bridge_wf s → agg_inv d →
  bridge_wf (s <| br_input_devices := d |> <| br_input := aggregate d |>).
Proof.
  intros [H1 H2 H3 H4 H5 H6 H7 H8 H9 H10] Hd. split; try assumption.
  - by apply agg_keyboard_ok.
  - done.
Qed.

Lemma holds_detach_active s0 s previous out : bridge_wf s →
  br_output_target s = br_output_target s0 →
  holds ACTIONS bridge_wf (may_send s0) (λ _, bridge_wf) 3 out (detach_active ACTIONS previous s out).
Proof.
  intros Hs Ht. unfold detach_active. apply holds_get.
  destruct (hm_active_target (br_hosts s)) as [h|] eqn:Hh; [|by apply holds_ret].
  apply holds_detach; [done| |done]. rewrite <- Ht. by apply wf_ble.
Qed.

Lemma holds_usb_removed s i out : bridge_wf s →
  holds ACTIONS bridge_wf (may_send s) (λ _, bridge_wf) 4 out (usb_device_removed ACTIONS i s out).
Proof.
  intros Hs. unfold usb_device_removed. apply holds_get, holds_modify. name_state s1.
  assert (bridge_wf s1) as Hs1 by by apply wf_remove_usb.
  assert (br_output_target s1 = br_output_target s) as Ht by (unfold s1, remove_usb_hid_interface; by case_match).
  clearbody s1. apply holds_modify, holds_modify. name_state s2.
  assert (bridge_wf s2) as Hs2.
  { destruct (remove_interface_spec (br_input_devices s1) i (wf_devices s1 Hs1)) as (b & d & Hd & Ha & _).
    unfold s2, upd. cbn. rewrite Hd. exact (wf_devices_removed s1 d Hs1 Ha). }
  eapply (holds_bind _ _ _ (λ _, bridge_wf) _ 3 1); [done|by apply holds_detach_active|].
  intros _ s' out' Hs'. by apply holds_status.
Qed.

Lemma holds_reset_device s d out : bridge_wf s →
  holds ACTIONS bridge_wf (may_send s) (λ _, bridge_wf) 3 out (reset_input_device ACTIONS d s out).
Proof.
  intros Hs. unfold reset_input_device. apply holds_get.
  destruct (remove_device_spec (br_input_devices s) d (wf_devices s Hs)) as (b & d' & Hd & Ha & Hb & _).
  eapply holds_step; [rewrite Hd; reflexivity|]. destruct b; cbn [negb].
  - apply holds_modify. apply holds_detach_active; [|done]. exact (wf_devices_removed s d' Hs Ha).
  - apply holds_ret. unfold remove_device in Hd. rewrite <- Hb in Hd. cbn in Hd. injection Hd as <-.
    by destruct s.
Qed.

(** *** Events *)

Lemma wf_upsert_usb s i d b out : bridge_wf s →
  holds ACTIONS bridge_wf (may_send s) (λ _, bridge_wf) 0 out (upsert_usb_hid_interface i d b s out).
Proof.
  intros Hs. unfold upsert_usb_hid_interface. destruct (position _ _) as [k|].
  - apply holds_ret. apply wf_set_usb; [done|]. rewrite length_insert. apply Hs.
  - destruct (vec_push _ _ _) as [l|] eqn:Hv; [|by apply holds_error].
    apply vec_push_Some in Hv as [Hlt ->]. apply holds_ret. apply wf_set_usb; [done|].
    rewrite length_app. cbn. lia.
Qed.

Lemma holds_refresh_status G s out : bridge_wf s → (∀ st, G (StatusChanged st)) →
  holds ACTIONS bridge_wf G (λ _, bridge_wf) 1 out
    ((m_modify refresh_selected_target_availability ;- push_status ACTIONS) s out)%rust.
Proof. intros Hs HG. apply holds_modify. apply holds_status; [by apply wf_refresh|done]. Qed.

Definition event_ok (event : BridgeEvent) : Prop :=
  match event with EvInputFrame (FrameStandard f) => input_ok f | _ => True end.

Lemma holds_host_event s event out : bridge_wf s →
  match event with
  | EvHostConnected _ | EvHostDisconnected _ | EvHostSecurityChanged _ _ _ _ | EvCccdChanged _ _ _
  | EvHostKeyboardLedChanged _ _ | EvSetHostName _ _ => True
  | _ => False
  end →
  holds ACTIONS bridge_wf (may_send s) (λ _, bridge_wf) 17 out (handle_event_in_place ACTIONS event s out).
Proof.
  intros Hs Hev. destruct event; try done; cbn [handle_event_in_place].
  - eapply (holds_bind _ _ _ (λ _, bridge_wf) _ 0 17); [done| |].
    + eapply holds_weaken; [apply holds_upsert; done|by intros ? ? [? _]|done].
    + intros _ s1 out1 Hs1. eapply holds_weaken; [by apply holds_refresh_status|done|lia].
  - apply holds_get. set (fallback := bool_decide _). clearbody fallback. apply holds_modify, holds_modify.
    name_state s1. assert (bridge_wf s1) as Hs1.
    { apply wf_refresh. destruct (host_mut_spec (br_hosts s) host_id
        (λ host, host <| hr_connected := false |> <| hr_encrypted := false |>
                      <| hr_session_report_ready := ReportReady_default |>) (wf_hosts s Hs) ltac:(done))
        as (Hm & _ & _ & Ha). apply (wf_set_hosts s _ Hs Hm). intros h. by rewrite Ha. }
    assert (ots_selected (br_output_target s1) = ots_selected (br_output_target s)) as Hsel by done.
    clearbody s1. apply holds_get. destruct (if fallback then _ else _) as [target|].
    + by apply holds_transition.
    + eapply holds_weaken; [by apply holds_status|done|lia].
  - eapply (holds_bind _ _ _ (λ _, bridge_wf) _ 0 17); [done| |].
    { eapply holds_weaken; [apply holds_upsert; [done|]|by intros ? ? [? _]|done].
      intros h. unfold on_security_changed. cbn. by repeat case_match. }
    intros persist s1 out1 Hs1. eapply (holds_bind _ _ _ (λ _ s', s' = s1) _ 1 16); [done|by apply holds_push_if|].
    intros _ s' out2 ->. eapply (holds_bind _ _ _ (λ _, bridge_wf) _ 1 15); [done| |].
    { apply holds_get. destruct (_ && _); [by apply holds_reject|by apply holds_ret]. }
    intros _ s2 out3 Hs2. eapply holds_weaken; [by apply holds_refresh_status|done|lia].
  - eapply (holds_bind _ _ _ (λ _, bridge_wf) _ 0 17); [done| |].
    { eapply holds_weaken; [apply holds_upsert; done|by intros ? ? [? _]|done]. }
    intros persist s1 out1 Hs1. eapply (holds_bind _ _ _ (λ _ s', s' = s1) _ 1 16); [done|by apply holds_push_if|].
    intros _ s' out2 ->. eapply holds_weaken; [by apply holds_refresh_status|done|lia].
  - eapply (holds_bind _ _ _ (λ _, bridge_wf) _ 0 17); [done| |].
    { eapply holds_weaken; [apply holds_upsert; done|by intros ? ? [? _]|done]. }
    intros _ s1 out1 Hs1. apply holds_get. case_bool_decide; [|by apply holds_ret].
    eapply holds_weaken; [by apply holds_leds|by intros ? ? ->|lia].
  - eapply (holds_bind _ _ _ (λ _, bridge_wf) _ 0 17); [done| |].
    { eapply holds_weaken; [apply holds_upsert; done|by intros ? ? [? _]|done]. }
    intros changed s1 out1 Hs1. eapply (holds_bind _ _ _ (λ _ s', s' = s1) _ 1 16); [done|by apply holds_push_if|].
    intros _ s' out2 ->. eapply holds_weaken; [by apply holds_status|done|lia].
Qed.

Lemma holds_event s event out : bridge_wf s → event_ok event → (length out ≤ ACTIONS)%nat →
  holds ACTIONS bridge_wf (may_send s) (λ _, bridge_wf) 17 out (handle_event_in_place ACTIONS event s out).
Proof.
  intros Hs Hev Hl. destruct event; try (by apply holds_host_event); cbn [handle_event_in_place].
  - eapply holds_weaken; [apply holds_frame; [done| |done]|done|lia]. by intros f ->.
  - eapply holds_weaken; [by apply holds_usb_removed|done|lia].
  - eapply holds_weaken; [by apply holds_reset_device|done|lia].
  - eapply (holds_bind _ _ _ (λ _, bridge_wf) _ 0 17); [done|by apply wf_upsert_usb|].
    intros _ s1 out1 Hs1. eapply holds_weaken; [by apply holds_active_leds|by intros ? ? ->|lia].
  - eapply holds_weaken; [apply holds_enter_pairing; [done|by intros []]|done|lia].
  - eapply holds_weaken; [by apply holds_expire_pairing|done|lia].
  - eapply holds_weaken; [by apply holds_clear_host|done|lia].
  - apply holds_transition; [done|done|]. by intros reason [= <-].
  - apply holds_transition; [done|done|]. by intros reason [= <-].
  - eapply holds_weaken; [by apply holds_wired_availability|done|lia].
  - apply holds_modify. name_state s1. assert (bridge_wf s1) as Hs1 by by apply wf_set_leds.
    clearbody s1. apply holds_get. case_bool_decide; [|by apply holds_ret].
    eapply holds_weaken; [by apply holds_leds|by intros ? ? ->|lia].
Qed.
End Handlers.

(** ** Reachable states *)

Inductive BridgeStep (ACTIONS : nat) (s : BridgeState) : BridgeState → Prop :=
| bstep_event event out : event_ok event → (length out ≤ ACTIONS)%nat →
    BridgeStep ACTIONS s (handle_event_in_place ACTIONS event s out).1.1
| bstep_quiesce : BridgeStep ACTIONS s (prepare_for_quiesce s).1
| bstep_quiesced_host h : BridgeStep ACTIONS s (mark_host_disconnected_for_quiesce s h)
| bstep_name h name : BridgeStep ACTIONS s (set_discovered_host_name s h name).1
| bstep_mirror target : BridgeStep ACTIONS s (set_mirror_target s target)
| bstep_link host : BridgeStep ACTIONS s (set_wired_host_link s host)
| bstep_begin : BridgeStep ACTIONS s (begin_wired_presentation_transition s).1
| bstep_hold : BridgeStep ACTIONS s (hold_wired_presentation_transition s).

Lemma wf_begin s : bridge_wf s → bridge_wf (begin_wired_presentation_transition s).1.
Proof.
  intros Hs. unfold begin_wired_presentation_transition. rewrite capture_input_spec by done.
  destruct (wf_held s Hs) as [H1 H2 H3 H4 H5 H6 H7 H8 H9 H10]. by split.
Qed.

Lemma wf_hold s : bridge_wf s → bridge_wf (hold_wired_presentation_transition s).
Proof.
  intros Hs. unfold hold_wired_presentation_transition. case_bool_decide; [|done].
  destruct Hs as [H1 H2 H3 H4 H5 H6 H7 H8 H9 H10]. by split.
Qed.

Lemma wf_step ACTIONS s s' : bridge_wf s → BridgeStep ACTIONS s s' → bridge_wf s'.
Proof.
  intros Hs [event out He Hl| |h|h name|target|host| |].
  - pose proof (holds_event ACTIONS s event out Hs He Hl) as H. unfold holds in H.
    destruct (handle_event_in_place _ _ _ _) as [[s1 out1] [a|e]]; [apply H|apply H].
  - unfold prepare_for_quiesce. rewrite capture_input_spec by done. by apply wf_held.
  - destruct (host_mut_spec (br_hosts s) h
        (λ host, host <| hr_connected := false |> <| hr_encrypted := false |>
                      <| hr_session_report_ready := ReportReady_default |>) (wf_hosts s Hs) ltac:(done))
        as (Hm & _ & _ & Ha). apply (wf_set_hosts s _ Hs Hm). intros a. by rewrite Ha.
  - unfold set_discovered_host_name, set_discovered_name.
    pose proof (upsert_spec (br_hosts s) h (λ host, (host <| hr_discovered_name := name |>,
      bool_decide (hr_discovered_name host ≠ name))) (wf_hosts s Hs) ltac:(done)) as Hu.
    destruct (upsert_host (br_hosts s) h _) as [hosts [a|e]]; cbn [fst].
    + destruct Hu as (_ & Hm & _ & _ & _ & Ha). apply (wf_set_hosts s _ Hs Hm). intros i. by rewrite Ha.
    + destruct Hu as [-> _]. by replace (s <| br_hosts := br_hosts s |>) with s by by destruct s.
  - destruct Hs as [H1 H2 H3 H4 H5 H6 H7 H8 H9 H10]. by split.
  - by apply wf_set_link.
  - by apply wf_begin.
  - by apply wf_hold.
Qed.

Lemma wf_new : bridge_wf (BridgeState_new HOST_SLOT_COUNT).
Proof.
  split; try done; [apply machine_new_inv|cbn; lia| | |split; [done|constructor]].
  - split; cbn; try done; constructor.
  - split; cbn; [done|constructor|constructor|lia].
Qed.

Lemma wf_reach ACTIONS s : rtc (BridgeStep ACTIONS) (BridgeState_new HOST_SLOT_COUNT) s → bridge_wf s.
Proof.
  intros H. refine (rtc_ind_r bridge_wf _ _ _ s H); [apply wf_new|].
  intros y z _ Hyz Hy. by eapply wf_step.
Qed.

(** C2: no event sends a report to a computer that should not get it.  In every reachable state,
    whatever event is handled and whether it succeeds or fails half way: input reports go only to
    the active target, and only when it takes that kind of report; any other report goes to the
    selected target or is a neutral one for the wired computer; at most seventeen actions are
    produced, so with that room the vector never overflows; and the state left behind is consistent:
    the active target is the selected one, a wired target is active only when ready, a BLE host is
    active only while selected, and the input shown is what the devices hold together. *)
Theorem bridge_event_safe ACTIONS s event :
  rtc (BridgeStep ACTIONS) (BridgeState_new HOST_SLOT_COUNT) s → event_ok event →
  let '(s', out, r) := handle_event_in_place ACTIONS event s [] in
  bridge_wf s' ∧ Forall (may_send s) out ∧ (length out ≤ 17)%nat ∧
  ((17 ≤ ACTIONS)%nat → r ≠ Err ActionCapacity) ∧
  handle_event ACTIONS event s [] = match r with Ok _ => (s', out, Ok tt) | Err e => (s, [], Err e) end.
Proof.
  intros Hr%wf_reach He. pose proof (holds_event ACTIONS s event [] Hr He ltac:(cbn; lia)) as H.
  unfold handle_event. destruct (handle_event_in_place ACTIONS event s []) as [[s' out] r].
  destruct H as [(new & -> & Hl & Hg) H]. cbn [app]. destruct r as [[]|e].
  - split; [done|]. split; [done|]. split; [done|]. split; [done|]. done.
  - destruct H as [H Hc]. split; [done|]. split; [done|]. split; [done|]. split; [|done].
    intros Ha [= ->]. specialize (Hc eq_refl). cbn in Hc. lia.
Qed.

(** A ready BLE host, selected, with a keyboard plugged in. *)
Definition ready_host_events (h : Z) : list BridgeEvent :=
  [EvHostConnected h; EvHostSecurityChanged h true true None; EvCccdChanged h KindKeyboard true;
   EvCccdChanged h KindMouse true; EvCccdChanged h KindConsumer true].

Fixpoint bridge_run (ACTIONS : nat) (s : BridgeState) (events : list BridgeEvent) : BridgeState :=
  match events with
  | [] => s
  | event :: events => bridge_run ACTIONS (handle_event_in_place ACTIONS event s []).1.1 events
  end.

Lemma bridge_run_reach ACTIONS s events : Forall event_ok events →
  rtc (BridgeStep ACTIONS) s (bridge_run ACTIONS s events).
Proof.
  intros H. revert s. induction H as [|event events He H IH]; intros s; cbn [bridge_run]; [done|].
  eapply rtc_l; [|apply IH]. apply bstep_event; [done|cbn; lia].
Qed.

Definition sample_keys : StandardInputFrame := sample_frame 1 1 [4; 5].

Definition sample_bridge_events : list BridgeEvent :=
  ready_host_events 2 ++ [EvSelectOutputTarget (TargetBle 2); EvUsbHidInterfaceConnected 1 1 true;
    EvInputFrame (FrameStandard sample_keys)].

Lemma sample_frame_ok d i keys : bool_decide (bytes_ok keys ∧ NoDup keys ∧ (length keys ≤ 32)%nat) = true →
  input_ok (sample_frame d i keys).
Proof.
  intros (H1 & H2 & H3)%bool_decide_eq_true. split; [intros k [= <-]; split; cbn; [words|done..]|by intros m [= <-]].
Qed.

Lemma sample_events_ok : Forall event_ok sample_bridge_events.
Proof. repeat (apply List.Forall_cons; [first [exact I|by apply sample_frame_ok]|]). apply List.Forall_nil. Qed.

Definition sample_bridge : BridgeState :=
  bridge_run 17 (BridgeState_new HOST_SLOT_COUNT) sample_bridge_events.

Lemma sample_bridge_reach : rtc (BridgeStep 17) (BridgeState_new HOST_SLOT_COUNT) sample_bridge.
Proof. apply bridge_run_reach, sample_events_ok. Qed.

Lemma bridge_event_safe_witness :
  let '(s', out, r) := handle_event_in_place 17 (EvSelectOutputTarget TargetWired) sample_bridge [] in
  Forall (may_send sample_bridge) out ∧
  out = [Notify (TargetBle 2) (ReportOfKeyboard Keyboard6KroReport_release) ReasonTargetSwitchRelease;
         Notify (TargetBle 2) (ReportOfMouse MouseReport_release_buttons) ReasonTargetSwitchRelease;
         Notify (TargetBle 2) (ReportOfConsumer ConsumerReport_release) ReasonTargetSwitchRelease;
         ActivateWired 2; PersistProfiles; StatusChanged (mkBridgeStatus None None)].
Proof.
  pose proof (bridge_event_safe 17 sample_bridge (EvSelectOutputTarget TargetWired) sample_bridge_reach I) as H.
  destruct (handle_event_in_place 17 _ sample_bridge []) as [[s' out] r] eqn:E.
  destruct H as (_ & H & _). split; [exact H|]. vm_compute in E. by injection E as <- <- <-.
Defined.
