(* ===== verification/BridgeBehaviour.v ===== *)
(** * What the bridge does

    Input frames, target switches, the loss of the active computer, storage, and what device
    removal misses, on the states [BridgeSafety] shows consistent. *)

From stdpp Require Import relations.
From S2P Require Import Prelude Input Reports Aggregator Settings Movement InputProfile.
From S2P Require Import OutputTarget StorageImage HostState Bridge BridgeSafety.

(** A state the bridge gets to with room for [ACTIONS] actions, whatever happens to it. *)
Definition reachable (ACTIONS : nat) (s : BridgeState) : Prop :=
  rtc (BridgeStep ACTIONS) (BridgeState_new HOST_SLOT_COUNT) s.

(** ** Input *)

Lemma shown_keys_in s kb k : k ∈ shown_keys s kb ↔
  k ∈ kb_keys kb ∧ k ∉ supp_keys (sp_keyboard (br_suppression s)).
Proof.
  unfold shown_keys, hidden_keys. rewrite list_elem_of_filter, snapshot_keys_in, list_elem_of_filter. tauto.
Qed.

(** C3: an accepted input frame becomes exactly its reports.  In every reachable state a frame the
    aggregator accepts yields, in order, a keyboard, mouse and consumer report for the parts it has,
    each sent to the active target if that takes the kind and dropped otherwise; the keyboard report
    carries the first six shown keys, which are those any device holds and none is hidden; hidden
    keys stay hidden as long as they are held, and keys beyond the sixth become hidden. A refused
    frame changes nothing. *)
Theorem input_frame_delivered ACTIONS s f :
  reachable ACTIONS s → input_ok f → (3 ≤ ACTIONS)%nat →
  match prepare_frame (br_input_devices s) f with
  | Err e => handle_event ACTIONS (EvInputFrame (FrameStandard f)) s [] = (s, [], Err (BridgeInput e))
  | Ok p =>
      let kb := pi_keyboard (prepared_aggregate p (br_input_devices s)) in
      (∀ k, k ∈ shown_keys s kb ↔ k ∈ kb_keys kb ∧ k ∉ supp_keys (sp_keyboard (br_suppression s))) ∧
      ∃ s', handle_event ACTIONS (EvInputFrame (FrameStandard f)) s [] =
          (s', deliver s (input_reports s (prepared_aggregate p (br_input_devices s)) f), Ok tt) ∧
        br_input_devices s' = commit_frame (br_input_devices s) p ∧ same_targets s s' ∧
        (sif_keyboard f ≠ None → ∀ k, k ∈ supp_keys (sp_keyboard (br_suppression s')) ↔
           k ∈ supp_keys (sp_keyboard (br_suppression s)) ∧ k ∈ kb_keys kb ∨ k ∈ drop 6 (shown_keys s kb))
  end.
Proof.
  intros Hs%wf_reach Hf Ha. pose proof (handle_standard_spec ACTIONS s f [] Hs Hf ltac:(cbn; lia)) as H.
  unfold handle_event. cbn [handle_event_in_place handle_input_frame].
  destruct (prepare_frame (br_input_devices s) f) as [p|e]; [|by rewrite H].
  set (agg := prepared_aggregate p (br_input_devices s)) in *. split; [apply shown_keys_in|].
  unfold push_list in H. rewrite decide_True in H by (pose proof (deliver_length s agg f); cbn; lia).
  destruct H as (s' & Hn & ->). exists s'. split; [done|]. split; [apply Hn|]. split; [apply Hn|].
  intros Hk k. pose proof (fn_keyboard _ _ _ _ _ Hn) as Hkb. destruct (sif_keyboard f); [|done].
  rewrite (kn_keys _ _ _ _ Hkb), elem_of_app. unfold hidden_keys at 1. rewrite list_elem_of_filter. tauto.
Qed.

(** Seven keys are held: the report shows six. *)
Lemma input_frame_delivered_witness :
  let frame := sample_frame 1 1 [4; 5; 6; 7; 8; 9; 10] in
  ∃ s' out, handle_event 17 (EvInputFrame (FrameStandard frame)) sample_bridge [] = (s', out, Ok tt) ∧
  length out = 3%nat ∧
  out !! 0%nat = Some (Notify (TargetBle 2) (ReportOfKeyboard (mkKeyboardReport [1; 0; 4; 5; 6; 7; 8; 9])) ReasonInput).
Proof.
  cbv zeta.
  pose proof (input_frame_delivered 17 sample_bridge (sample_frame 1 1 [4; 5; 6; 7; 8; 9; 10]) sample_bridge_reach
    ltac:(by apply sample_frame_ok) ltac:(lia)) as H.
  destruct (prepare_frame (br_input_devices sample_bridge) _) as [p|e] eqn:Hp; [|vm_compute in Hp; discriminate Hp].
  destruct H as (_ & s' & H & _). do 2 eexists. split; [exact H|]. clear H s'.
  vm_compute in Hp. injection Hp as <-. vm_compute. split; reflexivity.
Defined.

(** ** Runs that have room *)

Section Runs.
Context (ACTIONS : nat).

(** [m] run from [s] answers [a] in [s'] having pushed [actions], when these fit. *)
Definition runs {A} (m : M A) (s s' : BridgeState) (actions : list BridgeAction) (a : A) : Prop :=
  ∀ out, (length out + length actions ≤ ACTIONS)%nat → m s out = (s', out ++ actions, Ok a).

Lemma runs_bind {A B} (m : M A) (k : A → M B) s s1 s2 l1 l2 a b :
  runs m s s1 l1 a → runs (k a) s1 s2 l2 b → runs (m_bind m k) s s2 (l1 ++ l2) b.
Proof.
  intros Hm Hk out Hl. rewrite length_app in Hl. unfold m_bind. rewrite Hm by lia.
  rewrite Hk by (rewrite length_app; lia). by rewrite app_assoc.
Qed.

Lemma runs_quiet {A B} (m : M A) (k : A → M B) s s1 s2 l a b :
  (∀ out, m s out = (s1, out, Ok a)) → runs (k a) s1 s2 l b → runs (m_bind m k) s s2 l b.
Proof. intros Hm Hk out Hl. unfold m_bind. rewrite Hm. by apply Hk. Qed.

Lemma runs_last {A} (m : M A) s s1 a : (∀ out, m s out = (s1, out, Ok a)) → runs m s s1 [] a.
Proof. intros Hm out _. by rewrite app_nil_r. Qed.

Lemma runs_ret {A} s (a : A) : runs (m_ret a) s s [] a.
Proof. by apply runs_last. Qed.

Lemma runs_push action s : runs (push_action ACTIONS action) s s [action] tt.
Proof.
  intros out Hl. cbn in Hl. unfold push_action. destruct (vec_push ACTIONS action out) as [o|] eqn:Hv.
  - by apply vec_push_Some in Hv as [_ ->].
  - apply vec_push_None in Hv. lia.
Qed.

Lemma runs_pushes actions s : runs (push_actions ACTIONS actions) s s actions tt.
Proof.
  induction actions as [|a l IH]; [apply runs_ret|]. cbn [push_actions].
  apply (runs_bind _ _ s s s [a] l tt tt); [apply runs_push|apply IH].
Qed.

Lemma runs_push_if (b : bool) action s : runs (push_if ACTIONS b action) s s (if b then [action] else []) tt.
Proof. destruct b; [apply runs_push|apply runs_ret]. Qed.

Lemma runs_eq {A} (m : M A) s s' l l' a : runs m s s' l a → l = l' → runs m s s' l' a.
Proof. by intros H <-. Qed.

(** *** What the building blocks push *)

Definition neutral_reports : list StandardHidReport :=
  [ReportOfKeyboard Keyboard6KroReport_release; ReportOfMouse MouseReport_release_buttons;
   ReportOfConsumer ConsumerReport_release].

(** The reset reports a target takes. *)
Definition release_actions (s : BridgeState) (target : OutputTarget) (reason : NotifyReason) : list BridgeAction :=
  map (λ report, Notify target report reason)
    match target with
    | TargetWired => neutral_reports
    | TargetBle host => List.filter (λ report, can_send s host (report_kind report)) neutral_reports
    end.

Definition led_actions (s : BridgeState) (leds : Z) : list BridgeAction :=
  map (λ sink, UsbSetKeyboardLeds (ui_interface_id sink) (ui_device_id sink) leds)
    (List.filter ui_keyboard_led_sink (br_usb_hid_interfaces s)).

Lemma runs_leds leds s : runs (push_usb_keyboard_leds ACTIONS leds) s s (led_actions s leds) tt.
Proof. intros out Hl. apply runs_pushes. exact Hl. Qed.

Lemma runs_status s : runs (push_status ACTIONS) s s [StatusChanged (bridge_status s)] tt.
Proof. intros out Hl. apply runs_push. exact Hl. Qed.

Lemma runs_release target reason s : runs (push_release_target ACTIONS target reason) s s (release_actions s target reason) tt.
Proof.
  destruct target as [|h]; cbn [push_release_target].
  - apply runs_pushes.
  - unfold push_release_reports, release_actions, neutral_reports. cbn [List.filter report_kind].
    eapply runs_quiet; [done|]. cbv beta.
    eapply runs_eq; [eapply runs_bind; [apply runs_push_if|eapply runs_bind; apply runs_push_if]|].
    by destruct (can_send s h KindKeyboard), (can_send s h KindMouse), (can_send s h KindConsumer).
Qed.

(** ** Switching *)

(** Names the state the run goes on from. *)
Ltac name_run s := match goal with |- runs _ ?st _ _ _ => set (s := st) end.

(** The state a switch to [target] leaves. *)
Definition switched (s : BridgeState) (target : OutputTarget) : BridgeState :=
  let s := s <| br_suppression := held_now s |> <| br_output_target := selected_as (br_output_target s) target |> in
  match target with
  | TargetWired =>
      let s := s <| br_hosts ::= clear_active_target |> in
      s <| br_output_target ::= λ t, set_availability t (br_wired_availability s) |>
  | TargetBle host =>
      refresh_selected_target_availability (s <| br_hosts := fst (set_active_target (br_hosts s) host) |>)
  end.

Definition ble_leds (s : BridgeState) (host : Z) : Z :=
  default 0 (let+ host := machine_host (br_hosts s) host in hr_keyboard_leds host).

Definition switch_actions (s : BridgeState) (target : OutputTarget) (release : option NotifyReason)
  : list BridgeAction :=
  let id := as_u32 (ots_transition_operation_id (br_output_target s) + 1) in
  match ots_active (br_output_target s), release with
  | Some active, Some reason => release_actions s active reason
  | _, _ => []
  end ++
  match target with
  | TargetWired =>
      ActivateWired id ::
      (if bool_decide (br_wired_availability s = AvailReady)
       then release_actions s TargetWired ReasonSafetyRelease ++ led_actions s (br_wired_keyboard_leds s)
       else [])
  | TargetBle host =>
      [EnsureFallback id; ActivateInput host] ++ led_actions s (ble_leds s host)
  end ++
  [PersistProfiles;
   StatusChanged (mkBridgeStatus (match target with TargetBle host => Some host | TargetWired => None end)
                    (br_pairable_host s))].

Lemma runs_ble_leds s s' host leds : ots_selected (br_output_target s') = TargetBle host →
  hm_active_target (br_hosts s') = Some host →
  default 0 (let+ host := machine_host (br_hosts s') host in hr_keyboard_leds host) = leds →
  br_usb_hid_interfaces s' = br_usb_hid_interfaces s →
  runs (apply_active_host_leds ACTIONS) s' s' (led_actions s leds) tt.
Proof.
  intros Hsel Hact <- Hu. unfold apply_active_host_leds. eapply runs_quiet; [done|]. cbv beta.
  rewrite Hsel, bool_decide_false, Hact by done.
  eapply runs_eq; [apply runs_leds|]. unfold led_actions. by rewrite Hu.
Qed.

Lemma switched_active s target : bridge_wf s → target_ok target →
  hm_active_target (br_hosts (switched s target)) =
    match target with TargetBle host => Some host | TargetWired => None end.
Proof.
  intros Hs Ht. destruct target as [|host]; [done|].
  pose proof (set_active_spec (br_hosts s) host (wf_hosts s Hs)) as Ha.
  enough (hm_active_target (set_active_target (br_hosts s) host).1 = Some host) as H by exact H.
  destruct (set_active_target (br_hosts s) host) as [hosts [c|e]]; [apply Ha|].
  destruct Ha as (_ & _ & Hno). by apply host_target_ok in Ht.
Qed.

Lemma runs_transition s target release : bridge_wf s → target_ok target →
  ots_selected (br_output_target s) ≠ target →
  runs (transition_output_target ACTIONS target release) s (switched s target) (switch_actions s target release) tt.
Proof.
  intros Hs Ht Hne. unfold transition_output_target. rewrite Ht.
  eapply runs_quiet; [done|]. rewrite bool_decide_false by done. unfold switch_actions.
  eapply runs_bind.
  { instantiate (1 := tt). instantiate (1 := s).
    destruct (ots_active (br_output_target s)) as [active|], release as [reason|];
      first [apply runs_release|apply runs_ret]. }
  eapply runs_quiet; [intros out; by apply capture_input_spec|]. name_run s1.
  eapply runs_quiet; [intros out; cbv beta; change (br_output_target s1) with (br_output_target s);
    by rewrite select_target_spec|]. cbv beta. name_run s2.
  apply (runs_bind _ _ _ (switched s target) _ _ [PersistProfiles; _] tt).
  - destruct target as [|host].
    + eapply runs_quiet; [done|]. name_run s3. apply (runs_bind _ _ _ s3 _ [ActivateWired _] _ tt); [apply runs_push|].
      eapply runs_quiet; [done|]. name_run s4. change (switched s TargetWired) with s4.
      eapply runs_quiet; [done|]. cbv beta. change (br_wired_availability s4) with (br_wired_availability s).
      case_bool_decide; [|apply runs_ret].
      apply (runs_bind _ _ _ s4 _ _ _ tt); [apply runs_pushes|].
      change (led_actions s (br_wired_keyboard_leds s)) with (led_actions s4 (br_wired_keyboard_leds s4)).
      apply runs_leds.
    + pose proof (set_active_spec (br_hosts s) host (wf_hosts s Hs)) as Ha.
      destruct (set_active_target (br_hosts s) host) as [hosts [c|e]] eqn:He.
      2: { destruct Ha as (_ & _ & Hno). by apply host_target_ok in Ht. }
      destruct Ha as (_ & _ & Hact & Hhost & _).
      eapply runs_quiet; [intros out; unfold on_hosts; change (br_hosts s2) with (br_hosts s); by rewrite He|].
      cbn [app]. name_run s3.
      assert (br_hosts s3 = hosts) as Hs3 by done.
      apply (runs_bind _ _ _ s3 _ [EnsureFallback _] _ tt); [apply runs_push|].
      apply (runs_bind _ _ _ s3 _ [ActivateInput _] _ tt); [apply runs_push|].
      eapply runs_eq; [apply (runs_bind _ _ _ s3 _ (led_actions s (ble_leds s host)) [] tt)|apply app_nil_r].
      * apply (runs_ble_leds s s3 host); [done|by rewrite Hs3| |done]. rewrite Hs3, Hhost. unfold ble_leds.
        by destruct (machine_host (br_hosts s) host).
      * apply runs_last. intros out. unfold s3. by replace hosts with (set_active_target (br_hosts s) host).1 by by rewrite He.
  - eapply (runs_bind _ _ _ _ _ [PersistProfiles] [_]); [apply runs_push|].
    eapply runs_eq; [apply runs_status|]. unfold bridge_status. f_equal. f_equal. f_equal.
    + by apply switched_active.
    + by destruct target.
Qed.
End Runs.

Lemma refresh_active s :
  ots_active (br_output_target (refresh_selected_target_availability s)) =
    if bool_decide (selected_availability (refresh_selected_target_availability s) = AvailReady)
    then Some (ots_selected (br_output_target s)) else None.
Proof.
  change (selected_availability (refresh_selected_target_availability s)) with (selected_availability s).
  unfold refresh_selected_target_availability, upd. cbn. by destruct (selected_availability s).
Qed.

Lemma switch_actions_length s target release : bridge_wf s → (length (switch_actions s target release) ≤ 17)%nat.
Proof.
  intros Hs. assert (∀ l, (length (led_actions s l) ≤ 8)%nat) as Hl by (intros l; by apply led_actions_length).
  assert (∀ t reason, (length (release_actions s t reason) ≤ 3)%nat) as Hr.
  { intros t reason. unfold release_actions. rewrite length_map. destruct t; [done|]. unfold neutral_reports.
    cbn [List.filter]. repeat case_match; cbn; lia. }
  unfold switch_actions. rewrite !length_app. cbn [length].
  assert (length (match ots_active (br_output_target s), release with
    | Some active, Some reason => release_actions s active reason | _, _ => [] end) ≤ 3)%nat as H1
    by (repeat case_match; [apply Hr|cbn; lia..]).
  destruct target as [|host]; cbn [length].
  - case_bool_decide; [|cbn; lia]. rewrite length_app.
    pose proof (Hr TargetWired ReasonSafetyRelease). pose proof (Hl (br_wired_keyboard_leds s)). lia.
  - rewrite !length_app. cbn [length]. pose proof (Hl (ble_leds s host)). lia.
Qed.



(** ** Losing the active computer *)

Lemma ready_mask_spec s h : length (hm_hosts (br_hosts s)) = HOST_SLOT_COUNT → slot_ok h →
  Z.testbit (ready_mask_loop s (seq 0 (Nat.min (length (hm_hosts (br_hosts s))) HOST_SLOT_COUNT)) 0) (h - 1) =
    ble_target_ready s h.
Proof.
  intros -> Hh. change (seq 0 _) with [0; 1; 2; 3]%nat. cbn [ready_mask_loop].
  change (as_u8 (Z.of_nat (0 + 1))) with 1. change (as_u8 (Z.of_nat (1 + 1))) with 2.
  change (as_u8 (Z.of_nat (2 + 1))) with 3. change (as_u8 (Z.of_nat (3 + 1))) with 4.
  assert (h = 1 ∨ h = 2 ∨ h = 3 ∨ h = 4) as Hc by (unfold slot_ok in Hh; lia).
  destruct Hc as [Hc|[Hc|[Hc|Hc]]]; rewrite Hc; clear Hc; destruct (ble_target_ready s 1), (ble_target_ready s 2),
    (ble_target_ready s 3), (ble_target_ready s 4); reflexivity.
Qed.

(** The state once [h] is gone. *)
Definition without_host (s : BridgeState) (h : Z) : BridgeState :=
  refresh_selected_target_availability (mark_host_disconnected_for_quiesce s h).

Lemma wf_without s h : bridge_wf s → bridge_wf (without_host s h).
Proof.
  intros Hs. apply wf_refresh, (wf_step 0 s); [done|]. apply bstep_quiesced_host.
Qed.

Lemma without_not_ready s h : bridge_wf s → ble_target_ready (without_host s h) h = false.
Proof.
  intros Hs. unfold ble_target_ready, policy_is_ready, BLE_TARGET_READINESS_POLICY, can_send, machine_can_send.
  change (br_hosts (without_host s h)) with (on_disconnected (br_hosts s) h).
  destruct (host_mut_spec (br_hosts s) h
    (λ host, host <| hr_connected := false |> <| hr_encrypted := false |>
                  <| hr_session_report_ready := ReportReady_default |>) (wf_hosts s Hs) ltac:(done)) as (_ & Hh & _).
  unfold on_disconnected. rewrite Hh. by destruct (machine_host (br_hosts s) h).
Qed.


Definition two_computers : list BridgeEvent :=
  ready_host_events 2 ++ ready_host_events 3 ++ [EvSelectOutputTarget (TargetBle 2)].

Definition two_computers_bridge : BridgeState := bridge_run 17 (BridgeState_new HOST_SLOT_COUNT) two_computers.

Lemma two_computers_linked : br_wired_ble_host two_computers_bridge = None.
Proof. by vm_compute. Qed.

Lemma two_computers_reach :
  rtc (BridgeStep 17) (BridgeState_new HOST_SLOT_COUNT) two_computers_bridge.
Proof. apply bridge_run_reach. repeat (apply List.Forall_cons; [exact I|]). apply List.Forall_nil. Qed.


(** ** Storage *)

Definition restored_target (st : StorageState) : OutputTarget :=
  match spc_output_target (ss_presentation st), ss_last_active_host st with
  | StoredWired, Some host_id => TargetBle host_id
  | stored, _ => as_output_target stored
  end.

Lemma restore_spec s st m : machine_restore (br_hosts s) st = (m, Ok tt) →
  restore_storage_state s st =
    (mkBridgeState (br_input s) (br_input_devices s) (br_suppression s) (br_usb_hid_interfaces s)
       (if bool_decide (restored_target st = TargetWired) then clear_active_target m else m)
       None (br_stats s) (mkOutputTargetState (restored_target st) None AvailUnavailable 0)
       (br_wired_availability s) (br_wired_keyboard_leds s) (spc_wired_ble_host (ss_presentation st))
       (spc_mirror_target (ss_presentation st)), [], Ok tt).
Proof.
  intros H. unfold restore_storage_state. rewrite H. fold (restored_target st).
  set (target := restored_target st). clearbody target. destruct s, target as [|h]; reflexivity.
Qed.

(** What a restart keeps. *)
Record carried_over (s s' : BridgeState) : Prop := {
  co_selected : ots_selected (br_output_target s') = ots_selected (br_output_target s);
  co_link : br_wired_ble_host s' = br_wired_ble_host s;
  co_mirror : br_mirror_target s' = br_mirror_target s;
  co_hosts : ∀ h, machine_host (br_hosts s') h = forget <$> machine_host (br_hosts s) h;
  co_active : hm_active_target (br_hosts s') = hm_active_target (br_hosts s)
}.

(** C34: what is stored comes back.  The state to store always exists, is valid and, restored into
    any bridge of four hosts, gives the same selected target, not yet active, the same link between
    wired and BLE, the same mirrored device, every host without its session, the same active host,
    no pairing and no action. *)
Theorem bridge_survives_restart s s0 generation : bridge_wf s → link_ok (br_wired_ble_host s) →
  length (hm_hosts (br_hosts s0)) = HOST_SLOT_COUNT →
  ∃ st s', bridge_storage_state s generation = Ok st ∧ validate_state st = Ok tt ∧
    restore_storage_state s0 st = (s', [], Ok tt) ∧
    carried_over s s' ∧ ots_active (br_output_target s') = None ∧ br_pairable_host s' = None ∧
    br_input s' = br_input s0.
Proof.
  intros Hs Hlink H0.
  destruct (hosts_survive_restart (br_hosts s) generation (br_hosts s0) (wf_hosts s Hs) H0)
    as (st & m & Hst & Hv & _ & Hl & Hr & Hm & Hf & Ha).
  assert (∀ h, slot_ok h → HostId_validated h = Ok h) as Hval.
  { intros h Hh. apply host_slot_ok_iff. exact Hh. }
  set (target := match ots_selected (br_output_target s) with TargetWired => StoredWired | TargetBle h => StoredBle h end).
  set (st' := st <| ss_presentation := mkPresentationConfig target (br_wired_ble_host s) (br_mirror_target s) |>).
  assert (machine_restore (br_hosts s0) st' = (m, Ok tt)) as Hr' by exact Hr.
  assert (ss_last_active_host st' = hm_active_target (br_hosts s)) as Hl' by exact Hl.
  exists st'. eexists. split; [|split; [exact Hv|split; [exact (restore_spec s0 st' m Hr')|]]].
  - unfold bridge_storage_state. rewrite Hst. cbn [result_bind]. pose proof (wf_selected s Hs) as Ht.
    apply target_ok_iff in Ht. unfold st', target.
    assert ((match br_wired_ble_host s with
      | Some host => let? slot := map_err (λ _, StorageInvalidHostId) (HostId_validated host) in Ok (Some slot)
      | None => Ok None end) = Ok (br_wired_ble_host s)) as Hw.
    { destruct (br_wired_ble_host s) as [h|] eqn:E; [|done]. by rewrite Hval by (by apply Hlink). }
    destruct (ots_selected (br_output_target s)) as [|h]; [|rewrite Hval by exact Ht]; cbn [map_err result_bind];
      by rewrite Hw.
  - assert (restored_target st' = ots_selected (br_output_target s)) as ->.
    { unfold restored_target. rewrite Hl'. unfold st', target. cbn.
      destruct (ots_selected (br_output_target s)) as [|h] eqn:Hsel; [|done].
      destruct (hm_active_target (br_hosts s)) as [a|] eqn:E; [|done]. apply (wf_ble s Hs) in E. congruence. }
    split; [|done]. split; cbn; [done|done|done| |].
    + intros h. rewrite <- Hf. by case_bool_decide.
    + case_bool_decide as Hw; [|done]. cbn. destruct (hm_active_target (br_hosts s)) as [a|] eqn:E; [|done].
      apply (wf_ble s Hs) in E. congruence.
Qed.

Lemma bridge_survives_restart_witness :
  ∃ st s', bridge_storage_state two_computers_bridge 7 = Ok st ∧
    restore_storage_state (BridgeState_new HOST_SLOT_COUNT) st = (s', [], Ok tt) ∧
    ots_selected (br_output_target s') = TargetBle 2.
Proof.
  destruct (bridge_survives_restart two_computers_bridge (BridgeState_new HOST_SLOT_COUNT) 7
    (wf_reach _ _ two_computers_reach) ltac:(rewrite two_computers_linked; intros h [=]) eq_refl)
    as (st & s' & H1 & _ & H2 & H3 & _).
  exists st, s'. split; [exact H1|]. split; [exact H2|]. rewrite (co_selected _ _ H3). by vm_compute.
Defined.

(** ** The room the runtime gives ([src/src/runtime.rs]) *)

Definition RUNTIME_USB_INTERFACES_MAX : nat := 8.
Definition RELEASE_REPORTS_MAX : nat := 3.
Definition USB_LED_ACTIONS_MAX : nat := RUNTIME_USB_INTERFACES_MAX.
Definition TARGET_CONTROL_ACTIONS_MAX : nat := 4.
Definition RUNTIME_BRIDGE_ACTION_CAPACITY : nat :=
  RELEASE_REPORTS_MAX + USB_LED_ACTIONS_MAX + TARGET_CONTROL_ACTIONS_MAX + 1.

(** A ready wired computer, a ready BLE host selected, eight interfaces with LEDs. *)
Definition crowded_events : list BridgeEvent :=
  map (λ i, EvUsbHidInterfaceConnected (Z.of_nat i) (Z.of_nat i) true) (seq 1 8) ++ ready_host_events 2 ++
  [EvSelectOutputTarget (TargetBle 2); EvWiredAvailabilityChanged AvailReady].

Definition crowded_bridge : BridgeState :=
  bridge_run RUNTIME_BRIDGE_ACTION_CAPACITY (BridgeState_new HOST_SLOT_COUNT) crowded_events.

(** C35: the runtime's action vector is one short.  There is a state, reached with the runtime's own
    capacity, in which selecting the ready wired computer needs seventeen actions while the runtime
    gives sixteen: the event fails with [ActionCapacity], yet, handled in place, it leaves the wired
    target selected and active and the BLE host inactive, and none of the actions - the reset
    reports for the BLE host, the activation, the save - is delivered. *)
Theorem switch_overflows_capacity :
  let s := crowded_bridge in
  rtc (BridgeStep RUNTIME_BRIDGE_ACTION_CAPACITY) (BridgeState_new HOST_SLOT_COUNT) s ∧
  ots_active (br_output_target s) = Some (TargetBle 2) ∧
  length (switch_actions s TargetWired (Some ReasonTargetSwitchRelease)) = S RUNTIME_BRIDGE_ACTION_CAPACITY ∧
  let '(s', _, r) :=
    handle_event_in_place RUNTIME_BRIDGE_ACTION_CAPACITY (EvSelectOutputTarget TargetWired) s [] in
  r = Err ActionCapacity ∧ ots_active (br_output_target s') = Some TargetWired ∧
  hm_active_target (br_hosts s') = None.
Proof.
  cbv zeta. split; [|split; [by vm_compute|split; [by vm_compute|]]].
  - apply bridge_run_reach. repeat (apply List.Forall_cons; [exact I|]). apply List.Forall_nil.
  - vm_compute. repeat split.
Qed.

(** ** Removed devices *)

(** A wired computer is not told of removed devices.  While the wired target is selected,
    removing an interface or resetting a device sends no report at all, whatever the device held:
    the keys leave the bridge's state, not the computer's. *)
Theorem removal_silent_when_wired ACTIONS s i d :
  reachable ACTIONS s →
  ots_selected (br_output_target s) = TargetWired → (1 ≤ ACTIONS)%nat →
  (∃ s', handle_event ACTIONS (EvUsbDeviceRemoved i) s [] = (s', [StatusChanged (bridge_status s)], Ok tt) ∧
     br_input s' = aggregate (remove_interface (br_input_devices s) i).2) ∧
  (∃ s', handle_event ACTIONS (EvResetInputDevice d) s [] = (s', [], Ok tt) ∧
     ((remove_device (br_input_devices s) d).1 = true →
      br_input s' = aggregate (remove_device (br_input_devices s) d).2)).
Proof.
  intros Hs%wf_reach Hw Ha.
  assert (hm_active_target (br_hosts s) = None) as Hn.
  { destruct (hm_active_target (br_hosts s)) as [a|] eqn:E; [|done]. apply (wf_ble s Hs) in E. congruence. }
  split.
  - set (s1 := remove_usb_hid_interface i s).
    assert (br_hosts s1 = br_hosts s ∧ br_pairable_host s1 = br_pairable_host s ∧
      br_input_devices s1 = br_input_devices s) as (H1 & H2 & H3)
      by (unfold s1, remove_usb_hid_interface; by case_match).
    set (d1 := (remove_interface (br_input_devices s1) i).2).
    exists (s1 <| br_input_devices := d1 |> <| br_input := aggregate d1 |>). split; [|unfold d1; by rewrite H3].
    unfold handle_event. cbn [handle_event_in_place].
    assert (runs ACTIONS (usb_device_removed ACTIONS i) s (s1 <| br_input_devices := d1 |> <| br_input := aggregate d1 |>)
      [StatusChanged (bridge_status s)] tt) as Hrun; [|by rewrite (Hrun []) by (cbn; lia)].
    unfold usb_device_removed. do 4 (eapply runs_quiet; [done|]). cbv beta. fold s1.
    eapply runs_quiet; [intros out; unfold detach_active, m_bind, m_get; cbv beta iota;
      change (br_hosts (_ <| br_input := _ |>)) with (br_hosts s1); rewrite H1, Hn; reflexivity|].
    eapply runs_eq; [apply runs_status|]. unfold bridge_status. change (br_hosts (_ <| br_input := _ |>)) with (br_hosts s1).
    change (br_pairable_host (_ <| br_input := _ |>)) with (br_pairable_host s1). by rewrite H1, H2.
  - unfold handle_event. cbn [handle_event_in_place]. unfold reset_input_device, detach_active, m_bind, m_get, m_modify.
    destruct (remove_device (br_input_devices s) d) as [[] d1] eqn:Hd; cbv beta iota; cbn [negb].
    + unfold upd. cbn. rewrite Hn. eexists. split; [reflexivity|]. by intros _.
    + cbn. by eexists.
Qed.

Definition wired_events : list BridgeEvent :=
  [EvUsbHidInterfaceConnected 1 1 false; EvWiredAvailabilityChanged AvailReady;
   EvInputFrame (FrameStandard sample_keys)].

Definition wired_bridge : BridgeState := bridge_run 16 (BridgeState_new HOST_SLOT_COUNT) wired_events.

Lemma wired_bridge_reach : rtc (BridgeStep 16) (BridgeState_new HOST_SLOT_COUNT) wired_bridge.
Proof.
  apply bridge_run_reach. do 2 (apply List.Forall_cons; [exact I|]).
  apply List.Forall_cons; [by apply sample_frame_ok|]. apply List.Forall_nil.
Qed.

(** The wired computer was sent keys 4 and 5; the device goes; nothing is sent. *)
Lemma removal_silent_when_wired_witness :
  kb_keys (pi_keyboard (br_input wired_bridge)) = [4; 5] ∧
  ∃ s', handle_event 16 (EvUsbDeviceRemoved 1) wired_bridge [] =
    (s', [StatusChanged (bridge_status wired_bridge)], Ok tt) ∧
  kb_keys (pi_keyboard (br_input s')) = [].
Proof.
  split; [by vm_compute|].
  destruct (removal_silent_when_wired 16 wired_bridge 1 1 wired_bridge_reach ltac:(by vm_compute) ltac:(lia))
    as [(s' & H & Hi) _].
  exists s'. split; [exact H|]. rewrite Hi. by vm_compute.
Defined.
