(* ===== verification/Management.v ===== *)
(** * Management protocol ([src/src/management.rs])

    The fixed-size requests, responses and events the web page, the companion and the
    command-line tool exchange with the Bridge, built with the dual-S3 feature. *)

From S2P Require Import Prelude Input Settings OutputTarget.

Definition MANAGEMENT_PROTOCOL_VERSION : Z := 1.
Definition MANAGEMENT_REQUEST_LEN : nat := 20.
Definition MANAGEMENT_RESPONSE_LEN : nat := 20.
Definition MANAGEMENT_EVENT_LEN : nat := 4.
Definition MANAGEMENT_HOST_NAME_LEN : nat := 12.
Definition MANAGEMENT_USB_NAME_CHUNK_LEN : nat := 4.
Definition MANAGEMENT_CAPABILITY_DUAL_S3_WIRED : Z := Z.shiftl 1 0.
Definition MANAGEMENT_CAPABILITY_COMPANION_EVENTS : Z := Z.shiftl 1 1.
Definition MANAGEMENT_CAPABILITY_COMPUTER_TARGET_LINKS : Z := Z.shiftl 1 2.

Definition OP_GET_STATUS : Z := 0x01.
Definition OP_SELECT_HOST : Z := 0x02.
Definition OP_START_PAIRING : Z := 0x03.
Definition OP_FORGET_HOST : Z := 0x04.
Definition OP_GET_HOST_INFO : Z := 0x05.
Definition OP_SET_HOST_NAME : Z := 0x06.
Definition OP_CANCEL_PAIRING : Z := 0x07.
Definition OP_GET_USB_DEVICE : Z := 0x08.
Definition OP_GET_DIAGNOSTICS : Z := 0x09.
Definition OP_GET_HISTORY : Z := 0x0a.
Definition OP_GET_SCHEMA : Z := 0x0b.
Definition OP_GET_SETTING : Z := 0x0c.
Definition OP_SET_SETTING : Z := 0x0d.
Definition OP_GET_HOST_TIMING : Z := 0x0e.
Definition OP_GET_CLIENT_SESSION : Z := 0x12.
Definition OP_SELECT_OUTPUT_TARGET : Z := 0x0f.
Definition OP_GET_OUTPUT_TARGET_STATUS : Z := 0x10.
Definition OP_GET_MIRROR_CANDIDATE : Z := 0x11.
Definition OP_SET_MIRROR_TARGET : Z := 0x13.
Definition OP_CLEAR_MIRROR_TARGET : Z := 0x14.
Definition OP_SET_WIRED_HOST_LINK : Z := 0x15.

Definition PAYLOAD_NONE : Z := 0.
Definition PAYLOAD_STATUS : Z := 1.
Definition PAYLOAD_HOST_INFO : Z := 2.
Definition PAYLOAD_USB_DEVICE : Z := 3.
Definition PAYLOAD_DIAGNOSTICS : Z := 4.
Definition PAYLOAD_HISTORY : Z := 5.
Definition PAYLOAD_SCHEMA : Z := 6.
Definition PAYLOAD_SETTING : Z := 7.
Definition PAYLOAD_HOST_TIMING : Z := 8.
Definition PAYLOAD_CLIENT_SESSION : Z := 11.
Definition PAYLOAD_OUTPUT_TARGET_STATUS : Z := 9.
Definition PAYLOAD_MIRROR_CANDIDATE : Z := 10.
Definition STATUS_PAYLOAD_LEN : Z := 11.
Definition HOST_INFO_PAYLOAD_LEN : Z := 15.
Definition USB_DEVICE_PAYLOAD_LEN : Z := 15.
Definition DIAGNOSTICS_PAYLOAD_LEN : Z := 15.
Definition HISTORY_PAYLOAD_LEN : Z := 15.
Definition SCHEMA_PAYLOAD_LEN : Z := 8.
Definition SETTING_PAYLOAD_LEN : Z := 8.
Definition HOST_TIMING_PAYLOAD_LEN : Z := 10.
Definition CLIENT_SESSION_PAYLOAD_LEN : Z := 1.
Definition OUTPUT_TARGET_STATUS_PAYLOAD_LEN : Z := 14.
Definition MIRROR_CANDIDATE_PAYLOAD_LEN : Z := 15.

Inductive ManagementProtocolError :=
| MgmtInvalidLength | MgmtUnsupportedVersion | MgmtUnknownCommand | MgmtInvalidArgument.
#[export] Instance ManagementProtocolError_eq_dec : EqDecision ManagementProtocolError.
Proof. solve_decision. Defined.

(** [o.ok_or(InvalidArgument)]. *)
Definition or_invalid {A} (o : option A) : Result ManagementProtocolError A :=
  match o with Some a => Ok a | None => Err MgmtInvalidArgument end.

(** ** Events *)

Inductive ManagementEvent := StatusChanged (sequence : Z).
#[export] Instance ManagementEvent_eq_dec : EqDecision ManagementEvent.
Proof. solve_decision. Defined.

Definition ManagementEvent_encode (self : ManagementEvent) : list Z :=
  match self with
  | StatusChanged sequence => [MANAGEMENT_PROTOCOL_VERSION; 1] ++ u16_to_le_bytes sequence
  end.

Definition ManagementEvent_decode (bytes : list Z) : Result ManagementProtocolError ManagementEvent :=
  if decide (length bytes ≠ MANAGEMENT_EVENT_LEN) then Err MgmtInvalidLength
  else if decide (byte_at bytes 0 ≠ MANAGEMENT_PROTOCOL_VERSION) then Err MgmtUnsupportedVersion
  else if decide (byte_at bytes 1 = 1)
  then Ok (StatusChanged (u16_from_le_bytes (byte_at bytes 2) (byte_at bytes 3)))
  else Err MgmtUnknownCommand.

(** ** Host names *)

Record ManagementHostName := mkHostName { hn_len : Z; hn_bytes : list Z }.
#[export] Instance ManagementHostName_eq_dec : EqDecision ManagementHostName.
Proof. solve_decision. Defined.

Definition ManagementHostName_empty : ManagementHostName :=
  mkHostName 0 (zeros MANAGEMENT_HOST_NAME_LEN).

(** [byte == b' ' || byte.is_ascii_graphic()]. *)
Definition printable (byte : Z) : bool :=
  bool_decide (byte = 32) || (bool_decide (33 ≤ byte) && bool_decide (byte ≤ 126)).

(** [from_ascii], on the bytes of the string. *)
Definition HostName_from_ascii (name : list Z)
  : Result ManagementProtocolError ManagementHostName :=
  if bool_decide (MANAGEMENT_HOST_NAME_LEN < length name)%nat || negb (forallb printable name)
  then Err MgmtInvalidArgument
  else Ok (mkHostName (as_u8 (Z.of_nat (length name)))
             (blit 0 name (zeros MANAGEMENT_HOST_NAME_LEN))).

Definition HostName_from_parts (len : Z) (bytes : list Z)
  : Result ManagementProtocolError ManagementHostName :=
  if bool_decide (Z.of_nat MANAGEMENT_HOST_NAME_LEN < len) ||
     negb (forallb printable (take (Z.to_nat len) bytes))
  then Err MgmtInvalidArgument
  else Ok (mkHostName len bytes).

Definition hn_as_bytes (self : ManagementHostName) : list Z :=
  take (Z.to_nat (hn_len self)) (hn_bytes self).

(** ** Small codes *)

Definition option_host_id (host_id : option Z) : Z :=
  match host_id with Some host_id => host_id | None => 0 end.
Definition decode_optional_host (value : Z) : option Z :=
  if decide (value = 0) then None else Some value.

(** The two bytes [encode_setting_target] writes. *)
Definition encode_setting_target (target : SettingTarget) : list Z :=
  match target with TargetGlobal => [0; 0] | TargetInput profile => [1; profile] end.

Definition decode_setting_target (scope target : Z) : Result ManagementProtocolError SettingTarget :=
  if decide (scope = 0 ∧ target = 0) then Ok TargetGlobal
  else if decide (scope = 1 ∧ 1 ≤ target ≤ 8) then
    let? profile := or_invalid (InputProfileId_new target) in Ok (TargetInput profile)
  else Err MgmtInvalidArgument.

Definition availability_byte (value : OutputTargetAvailability) : Z :=
  match value with AvailReady => 0 | AvailConnectedNotReady => 1 | AvailUnavailable => 2 end.
Definition availability_from_byte (value : Z)
  : Result ManagementProtocolError OutputTargetAvailability :=
  match value with
  | 0 => Ok AvailReady | 1 => Ok AvailConnectedNotReady | 2 => Ok AvailUnavailable
  | _ => Err MgmtInvalidArgument
  end.

Definition decode_bool (value : Z) : Result ManagementProtocolError bool :=
  match value with 0 => Ok false | 1 => Ok true | _ => Err MgmtInvalidArgument end.

(** [StorageHealth] of [storage.rs]. *)
Inductive StorageHealth :=
| HealthInitializing | HealthPersistent | HealthVolatileTest | HealthUnavailable | HealthDegraded.
#[export] Instance StorageHealth_eq_dec : EqDecision StorageHealth.
Proof. solve_decision. Defined.

Definition StorageHealth_code (h : StorageHealth) : Z :=
  match h with
  | HealthInitializing => 0 | HealthPersistent => 1 | HealthVolatileTest => 2
  | HealthUnavailable => 3 | HealthDegraded => 4
  end.
Definition StorageHealth_from_byte (value : Z) : option StorageHealth :=
  match value with
  | 0 => Some HealthInitializing | 1 => Some HealthPersistent | 2 => Some HealthVolatileTest
  | 3 => Some HealthUnavailable | 4 => Some HealthDegraded | _ => None
  end.
Definition allows_persistent_mutation (h : StorageHealth) : bool :=
  match h with HealthPersistent | HealthVolatileTest => true | _ => false end.

Inductive ManagementOutputTarget := MgmtWired | MgmtBle (host_id : Z).
#[export] Instance ManagementOutputTarget_eq_dec : EqDecision ManagementOutputTarget.
Proof. solve_decision. Defined.

Definition MgmtOutputTarget_encode (self : ManagementOutputTarget) : Z * Z :=
  match self with MgmtWired => (0, 0) | MgmtBle host_id => (1, host_id) end.
Definition MgmtOutputTarget_decode (kind id : Z)
  : Result ManagementProtocolError ManagementOutputTarget :=
  if decide (kind = 0 ∧ id = 0) then Ok MgmtWired
  else if decide (kind = 1 ∧ 1 ≤ id ≤ 4) then Ok (MgmtBle id)
  else Err MgmtInvalidArgument.
Definition to_output_target (self : ManagementOutputTarget) : OutputTarget :=
  match self with MgmtWired => TargetWired | MgmtBle host_id => TargetBle host_id end.
Definition from_output_target (value : OutputTarget) : ManagementOutputTarget :=
  match value with TargetWired => MgmtWired | TargetBle host_id => MgmtBle host_id end.

Inductive ManagementUsbPresentationKind := PresentationFallback | PresentationMirror.
#[export] Instance ManagementUsbPresentationKind_eq_dec : EqDecision ManagementUsbPresentationKind.
Proof. solve_decision. Defined.

Definition PresentationKind_code (k : ManagementUsbPresentationKind) : Z :=
  match k with PresentationFallback => 0 | PresentationMirror => 1 end.
Definition PresentationKind_from_byte (value : Z)
  : Result ManagementProtocolError ManagementUsbPresentationKind :=
  match value with
  | 0 => Ok PresentationFallback | 1 => Ok PresentationMirror | _ => Err MgmtInvalidArgument
  end.
Definition from_presentation (value : UsbPresentation) : ManagementUsbPresentationKind :=
  match value with PresentFallback => PresentationFallback | PresentMirror _ => PresentationMirror end.

(** ** Requests *)

Inductive ManagementCommand :=
| CmdGetStatus
| CmdSelectHost (host : Z)
| CmdStartPairing (host : Z)
| CmdForgetHost (host : Z)
| CmdGetHostInfo (host : Z)
| CmdSetHostName (host_id : Z) (name : ManagementHostName)
| CmdCancelPairing
| CmdGetUsbDevice (index name_offset : Z)
| CmdGetDiagnostics
| CmdGetHostTiming (host : Z)
| CmdGetClientSession
| CmdGetHistory (index : Z)
| CmdGetSchema
| CmdGetSetting (id : SettingId) (target : SettingTarget)
| CmdSetSetting (id : SettingId) (target : SettingTarget) (value : Z)
| CmdSelectOutputTarget (target : ManagementOutputTarget)
| CmdGetOutputTargetStatus
| CmdGetMirrorCandidate (candidate : Z)
| CmdSetMirrorTarget (candidate : Z)
| CmdClearMirrorTarget
| CmdSetWiredHostLink (ble_host : option Z).
#[export] Instance ManagementCommand_eq_dec : EqDecision ManagementCommand.
Proof. solve_decision. Defined.

Record ManagementRequest := mkMgmtRequest { mreq_id : Z; mreq_command : ManagementCommand }.
#[export] Instance ManagementRequest_eq_dec : EqDecision ManagementRequest.
Proof. solve_decision. Defined.

(** The arm of one opcode: [None] is a payload of another shape, which the catch-all arm of
    the known opcodes answers with [InvalidArgument]. *)
Definition no_argument (payload : list Z) (command : ManagementCommand)
  : Result ManagementProtocolError ManagementCommand :=
  match payload with [] => Ok command | _ => Err MgmtInvalidArgument end.
Definition one_argument (payload : list Z)
  (command : Z → Result ManagementProtocolError ManagementCommand)
  : Result ManagementProtocolError ManagementCommand :=
  match payload with [a] => command a | _ => Err MgmtInvalidArgument end.
Definition two_arguments (payload : list Z)
  (command : Z → Z → Result ManagementProtocolError ManagementCommand)
  : Result ManagementProtocolError ManagementCommand :=
  match payload with [a; b] => command a b | _ => Err MgmtInvalidArgument end.

Definition decode_wired_host_link (host : Z) : Result ManagementProtocolError ManagementCommand :=
  if decide (host = 0) then Ok (CmdSetWiredHostLink None)
  else if decide (1 ≤ host ≤ 4) then Ok (CmdSetWiredHostLink (Some host))
  else Err MgmtInvalidArgument.

Definition decode_get_setting (payload : list Z) : Result ManagementProtocolError ManagementCommand :=
  match payload with
  | [id_low; id_high; scope; target] =>
      let? id := or_invalid (SettingId_from_u16 (u16_from_le_bytes id_low id_high)) in
      let? target := decode_setting_target scope target in
      Ok (CmdGetSetting id target)
  | _ => Err MgmtInvalidArgument
  end.

Definition decode_set_setting (payload : list Z) : Result ManagementProtocolError ManagementCommand :=
  match payload with
  | [id_low; id_high; scope; target; v0; v1; v2; v3] =>
      let? id := or_invalid (SettingId_from_u16 (u16_from_le_bytes id_low id_high)) in
      let? target := decode_setting_target scope target in
      Ok (CmdSetSetting id target (i32_from_le_bytes v0 v1 v2 v3))
  | _ => Err MgmtInvalidArgument
  end.

Definition decode_set_host_name (payload : list Z) : Result ManagementProtocolError ManagementCommand :=
  if decide (length payload = 2 + MANAGEMENT_HOST_NAME_LEN)%nat then
    let len := byte_at payload 1 in
    if decide (len > Z.of_nat MANAGEMENT_HOST_NAME_LEN) then Err MgmtInvalidArgument
    else
      let? name := HostName_from_parts len (drop 2 payload) in
      Ok (CmdSetHostName (byte_at payload 0) name)
  else Err MgmtInvalidArgument.

Definition decode_command (op : Z) (payload : list Z)
  : Result ManagementProtocolError ManagementCommand :=
  if op =? OP_GET_STATUS then no_argument payload CmdGetStatus
  else if op =? OP_SELECT_HOST then one_argument payload (λ host, Ok (CmdSelectHost host))
  else if op =? OP_START_PAIRING then one_argument payload (λ host, Ok (CmdStartPairing host))
  else if op =? OP_FORGET_HOST then one_argument payload (λ host, Ok (CmdForgetHost host))
  else if op =? OP_GET_HOST_INFO then one_argument payload (λ host, Ok (CmdGetHostInfo host))
  else if op =? OP_CANCEL_PAIRING then no_argument payload CmdCancelPairing
  else if op =? OP_GET_USB_DEVICE then
    two_arguments payload (λ index name_offset, Ok (CmdGetUsbDevice index name_offset))
  else if op =? OP_GET_DIAGNOSTICS then no_argument payload CmdGetDiagnostics
  else if op =? OP_GET_HOST_TIMING then one_argument payload (λ host, Ok (CmdGetHostTiming host))
  else if op =? OP_GET_CLIENT_SESSION then no_argument payload CmdGetClientSession
  else if op =? OP_SELECT_OUTPUT_TARGET then
    two_arguments payload (λ kind id,
      let? target := MgmtOutputTarget_decode kind id in Ok (CmdSelectOutputTarget target))
  else if op =? OP_GET_OUTPUT_TARGET_STATUS then no_argument payload CmdGetOutputTargetStatus
  else if op =? OP_GET_MIRROR_CANDIDATE then
    one_argument payload (λ candidate, Ok (CmdGetMirrorCandidate candidate))
  else if op =? OP_SET_MIRROR_TARGET then
    one_argument payload (λ candidate, Ok (CmdSetMirrorTarget candidate))
  else if op =? OP_CLEAR_MIRROR_TARGET then no_argument payload CmdClearMirrorTarget
  else if op =? OP_SET_WIRED_HOST_LINK then one_argument payload decode_wired_host_link
  else if op =? OP_GET_HISTORY then one_argument payload (λ index, Ok (CmdGetHistory index))
  else if op =? OP_GET_SCHEMA then no_argument payload CmdGetSchema
  else if op =? OP_GET_SETTING then decode_get_setting payload
  else if op =? OP_SET_SETTING then decode_set_setting payload
  else if op =? OP_SET_HOST_NAME then decode_set_host_name payload
  else Err MgmtUnknownCommand.

Definition ManagementRequest_decode (bytes : list Z)
  : Result ManagementProtocolError ManagementRequest :=
  if decide (length bytes ≠ MANAGEMENT_REQUEST_LEN) then Err MgmtInvalidLength
  else if decide (byte_at bytes 0 ≠ MANAGEMENT_PROTOCOL_VERSION) then Err MgmtUnsupportedVersion
  else
    let payload_len := Z.to_nat (byte_at bytes 3) in
    if decide (payload_len > MANAGEMENT_REQUEST_LEN - 4)%nat then Err MgmtInvalidLength
    else
      let payload := slice 4 (4 + payload_len) bytes in
      let? command := decode_command (byte_at bytes 2) payload in
      Ok (mkMgmtRequest (byte_at bytes 1) command).

(** [bytes[index] = value]. *)
Definition put (index : nat) (value : Z) (bytes : list Z) : list Z := <[index := value]> bytes.

Definition encode_host_command (bytes : list Z) (opcode host_id : Z) : list Z :=
  put 4 host_id (put 3 1 (put 2 opcode bytes)).

Definition ManagementRequest_encode (self : ManagementRequest) : list Z :=
  let bytes := zeros MANAGEMENT_REQUEST_LEN in
  let bytes := put 0 MANAGEMENT_PROTOCOL_VERSION bytes in
  let bytes := put 1 (mreq_id self) bytes in
  match mreq_command self with
  | CmdGetStatus => put 2 OP_GET_STATUS bytes
  | CmdSelectHost host_id => encode_host_command bytes OP_SELECT_HOST host_id
  | CmdStartPairing host_id => encode_host_command bytes OP_START_PAIRING host_id
  | CmdForgetHost host_id => encode_host_command bytes OP_FORGET_HOST host_id
  | CmdGetHostInfo host_id => encode_host_command bytes OP_GET_HOST_INFO host_id
  | CmdCancelPairing => put 2 OP_CANCEL_PAIRING bytes
  | CmdGetUsbDevice index name_offset =>
      put 5 name_offset (put 4 index (put 3 2 (put 2 OP_GET_USB_DEVICE bytes)))
  | CmdGetDiagnostics => put 2 OP_GET_DIAGNOSTICS bytes
  | CmdGetHostTiming host_id => encode_host_command bytes OP_GET_HOST_TIMING host_id
  | CmdGetClientSession => put 2 OP_GET_CLIENT_SESSION bytes
  | CmdSelectOutputTarget target =>
      let bytes := put 3 2 (put 2 OP_SELECT_OUTPUT_TARGET bytes) in
      let '(kind, id) := MgmtOutputTarget_encode target in
      put 5 id (put 4 kind bytes)
  | CmdGetOutputTargetStatus => put 2 OP_GET_OUTPUT_TARGET_STATUS bytes
  | CmdGetMirrorCandidate candidate =>
      put 4 candidate (put 3 1 (put 2 OP_GET_MIRROR_CANDIDATE bytes))
  | CmdSetMirrorTarget candidate =>
      put 4 candidate (put 3 1 (put 2 OP_SET_MIRROR_TARGET bytes))
  | CmdClearMirrorTarget => put 2 OP_CLEAR_MIRROR_TARGET bytes
  | CmdSetWiredHostLink ble_host =>
      put 4 (option_host_id ble_host) (put 3 1 (put 2 OP_SET_WIRED_HOST_LINK bytes))
  | CmdGetHistory index => put 4 index (put 3 1 (put 2 OP_GET_HISTORY bytes))
  | CmdGetSchema => put 2 OP_GET_SCHEMA bytes
  | CmdGetSetting id target =>
      let bytes := put 3 4 (put 2 OP_GET_SETTING bytes) in
      let bytes := blit 4 (u16_to_le_bytes (SettingId_code id)) bytes in
      blit 6 (encode_setting_target target) bytes
  | CmdSetSetting id target value =>
      let bytes := put 3 8 (put 2 OP_SET_SETTING bytes) in
      let bytes := blit 4 (u16_to_le_bytes (SettingId_code id)) bytes in
      let bytes := blit 6 (encode_setting_target target) bytes in
      blit 8 (i32_to_le_bytes value) bytes
  | CmdSetHostName host_id name =>
      let bytes := put 2 OP_SET_HOST_NAME bytes in
      let bytes := put 3 (as_u8 (Z.of_nat (2 + MANAGEMENT_HOST_NAME_LEN))) bytes in
      let bytes := put 4 host_id bytes in
      let bytes := put 5 (hn_len name) bytes in
      blit 6 (hn_bytes name) bytes
  end.

(** ** Responses *)

Inductive ManagementResult :=
| ResOk | ResInvalidHost | ResHostNotFound | ResHostAlreadyBonded | ResInternalError
| ResInvalidName | ResInvalidSetting | ResNotFound | ResUnavailable.
#[export] Instance ManagementResult_eq_dec : EqDecision ManagementResult.
Proof. solve_decision. Defined.

Definition ManagementResult_code (r : ManagementResult) : Z :=
  match r with
  | ResOk => 0 | ResInvalidHost => 1 | ResHostNotFound => 2 | ResHostAlreadyBonded => 3
  | ResInternalError => 4 | ResInvalidName => 5 | ResInvalidSetting => 6 | ResNotFound => 7
  | ResUnavailable => 8
  end.
Definition ManagementResult_from_byte (value : Z)
  : Result ManagementProtocolError ManagementResult :=
  match value with
  | 0 => Ok ResOk | 1 => Ok ResInvalidHost | 2 => Ok ResHostNotFound
  | 3 => Ok ResHostAlreadyBonded | 4 => Ok ResInternalError | 5 => Ok ResInvalidName
  | 6 => Ok ResInvalidSetting | 7 => Ok ResNotFound | 8 => Ok ResUnavailable
  | _ => Err MgmtInvalidArgument
  end.

Record ManagementUsbStatus := mkUsbStatus {
  us_device_count : Z; us_interface_count : Z; us_keyboard_count : Z
}.
#[export] Instance ManagementUsbStatus_eq_dec : EqDecision ManagementUsbStatus.
Proof. solve_decision. Defined.
Definition ManagementUsbStatus_empty : ManagementUsbStatus := mkUsbStatus 0 0 0.

Record ManagementHostStatus := mkHostStatus {
  hs_known : bool; hs_connected : bool; hs_encrypted : bool; hs_bonded : bool
}.
#[export] Instance ManagementHostStatus_eq_dec : EqDecision ManagementHostStatus.
Proof. solve_decision. Defined.
Definition ManagementHostStatus_empty : ManagementHostStatus := mkHostStatus false false false false.

Definition host_status_bits (self : ManagementHostStatus) : Z :=
  Z.lor (Z.lor (Z.lor (Z.b2z (hs_known self)) (Z.shiftl (Z.b2z (hs_connected self)) 1))
    (Z.shiftl (Z.b2z (hs_encrypted self)) 2)) (Z.shiftl (Z.b2z (hs_bonded self)) 3).
Definition host_status_from_bits (bits : Z) : ManagementHostStatus :=
  mkHostStatus (negb (Z.land bits 1 =? 0)) (negb (Z.land bits 2 =? 0))
    (negb (Z.land bits 4 =? 0)) (negb (Z.land bits 8 =? 0)).

(** [hosts] has the length four of its array type. *)
Record ManagementStatus := mkMgmtStatus {
  mst_active_host : option Z;
  mst_pairing_host : option Z;
  mst_host_count : Z;
  mst_usb : ManagementUsbStatus;
  mst_hosts : list ManagementHostStatus;
  mst_storage_health : StorageHealth
}.
#[export] Instance ManagementStatus_eq_dec : EqDecision ManagementStatus.
Proof. solve_decision. Defined.
Definition ManagementStatus_empty (host_count : Z) : ManagementStatus :=
  mkMgmtStatus None None host_count ManagementUsbStatus_empty
    (replicate 4 ManagementHostStatus_empty) HealthPersistent.

Record ManagementHostInfo := mkHostInfo {
  hi_host_id : Z; hi_status : ManagementHostStatus; hi_name : ManagementHostName;
  hi_name_source : Z
}.
#[export] Instance ManagementHostInfo_eq_dec : EqDecision ManagementHostInfo.
Proof. solve_decision. Defined.

Record ManagementUsbDevice := mkUsbDevice {
  ud_index : Z; ud_device_id : Z; ud_flags : Z; ud_vendor_id : Z; ud_product_id : Z;
  ud_input_profile_id : Z; ud_name_len : Z; ud_name_offset : Z; ud_name_chunk_len : Z;
  ud_name_chunk : list Z
}.
#[export] Instance ManagementUsbDevice_eq_dec : EqDecision ManagementUsbDevice.
Proof. solve_decision. Defined.

Record ManagementDiagnostics := mkDiagnostics {
  dg_uptime_seconds : Z; dg_reset_reason : Z; dg_brownout_count : Z;
  dg_ble_disconnect_count : Z; dg_ble_notify_failure_count : Z; dg_usb_error_count : Z;
  dg_flash_write_count : Z; dg_flash_failure_count : Z
}.
#[export] Instance ManagementDiagnostics_eq_dec : EqDecision ManagementDiagnostics.
Proof. solve_decision. Defined.

Record ManagementHistoryEvent := mkHistoryEvent {
  he_kind : Z; he_sequence : Z; he_timestamp_seconds : Z; he_subject : Z; he_detail : Z;
  he_vendor_id : Z; he_product_id : Z
}.
#[export] Instance ManagementHistoryEvent_eq_dec : EqDecision ManagementHistoryEvent.
Proof. solve_decision. Defined.

Record ManagementSchema := mkSchema {
  sc_version : Z; sc_setting_count : Z; sc_history_capacity : Z; sc_usb_capacity : Z;
  sc_hash : Z; sc_firmware_major : Z; sc_firmware_minor : Z; sc_firmware_patch : Z;
  sc_capabilities : Z
}.
#[export] Instance ManagementSchema_eq_dec : EqDecision ManagementSchema.
Proof. solve_decision. Defined.

Record ManagementSetting := mkSetting {
  mse_id : SettingId; mse_target : SettingTarget; mse_value : Z
}.
#[export] Instance ManagementSetting_eq_dec : EqDecision ManagementSetting.
Proof. solve_decision. Defined.

Record ManagementHostTiming := mkHostTiming {
  ht_host_id : Z; ht_last_connected_seconds : Z; ht_last_disconnected_seconds : Z;
  ht_last_disconnect_reason : Z
}.
#[export] Instance ManagementHostTiming_eq_dec : EqDecision ManagementHostTiming.
Proof. solve_decision. Defined.

(** [ManagementClientSession] is its one field, an optional host. *)

Record ManagementOutputTargetStatus := mkOutputTargetStatus {
  mots_selected : ManagementOutputTarget;
  mots_active : option ManagementOutputTarget;
  mots_availability : OutputTargetAvailability;
  mots_wired_ready : bool;
  mots_ready_ble_mask : Z;
  mots_effective_presentation : ManagementUsbPresentationKind;
  mots_mirror_configured : bool;
  mots_operation_id : Z
}.
#[export] Instance ManagementOutputTargetStatus_eq_dec : EqDecision ManagementOutputTargetStatus.
Proof. solve_decision. Defined.

Record ManagementMirrorCandidate := mkMirrorCandidate {
  mc_candidate : Z; mc_flags : Z; mc_source_device : option Z; mc_vendor_id : Z;
  mc_product_id : Z; mc_profile_hash : Z; mc_descriptor_hash : Z
}.
#[export] Instance ManagementMirrorCandidate_eq_dec : EqDecision ManagementMirrorCandidate.
Proof. solve_decision. Defined.

Inductive ManagementResponsePayload :=
| RespNone
| RespStatus (status : ManagementStatus)
| RespHostInfo (info : ManagementHostInfo)
| RespUsbDevice (device : ManagementUsbDevice)
| RespDiagnostics (diagnostics : ManagementDiagnostics)
| RespHistory (event : ManagementHistoryEvent)
| RespSchema (schema : ManagementSchema)
| RespSetting (setting : ManagementSetting)
| RespHostTiming (timing : ManagementHostTiming)
| RespClientSession (host_id : option Z)
| RespOutputTargetStatus (status : ManagementOutputTargetStatus)
| RespMirrorCandidate (candidate : ManagementMirrorCandidate).
#[export] Instance ManagementResponsePayload_eq_dec : EqDecision ManagementResponsePayload.
Proof. solve_decision. Defined.

Record ManagementResponse := mkMgmtResponse {
  mresp_id : Z; mresp_result : ManagementResult; mresp_payload : ManagementResponsePayload
}.
#[export] Instance ManagementResponse_eq_dec : EqDecision ManagementResponse.
Proof. solve_decision. Defined.

(** *** Encoding *)

Definition payload_header (payload_type payload_len : Z) (bytes : list Z) : list Z :=
  put 4 payload_len (put 3 payload_type bytes).

(** [for (index, host) in status.hosts.iter().enumerate() { bytes[11 + index] = host.bits(); }] *)
Fixpoint put_hosts (index : nat) (hosts : list ManagementHostStatus) (bytes : list Z) : list Z :=
  match hosts with
  | [] => bytes
  | host :: hosts => put_hosts (index + 1) hosts (put (11 + index) (host_status_bits host) bytes)
  end.

Definition encode_status (status : ManagementStatus) (bytes : list Z) : list Z :=
  let bytes := payload_header PAYLOAD_STATUS STATUS_PAYLOAD_LEN bytes in
  let bytes := put 5 (option_host_id (mst_active_host status)) bytes in
  let bytes := put 6 (option_host_id (mst_pairing_host status)) bytes in
  let bytes := put 7 (mst_host_count status) bytes in
  let bytes := put 8 (us_device_count (mst_usb status)) bytes in
  let bytes := put 9 (us_interface_count (mst_usb status)) bytes in
  let bytes := put 10 (us_keyboard_count (mst_usb status)) bytes in
  let bytes := put_hosts 0 (mst_hosts status) bytes in
  put 15 (StorageHealth_code (mst_storage_health status)) bytes.

Definition encode_host_info (info : ManagementHostInfo) (bytes : list Z) : list Z :=
  let bytes := payload_header PAYLOAD_HOST_INFO HOST_INFO_PAYLOAD_LEN bytes in
  let bytes := put 5 (hi_host_id info) bytes in
  let bytes := put 6 (Z.lor (host_status_bits (hi_status info))
    (as_u8 (Z.shiftl (Z.land (hi_name_source info) 0x03) 4))) bytes in
  let bytes := put 7 (hn_len (hi_name info)) bytes in
  blit 8 (hn_bytes (hi_name info)) bytes.

Definition encode_usb_device (device : ManagementUsbDevice) (bytes : list Z) : list Z :=
  let bytes := payload_header PAYLOAD_USB_DEVICE USB_DEVICE_PAYLOAD_LEN bytes in
  let bytes := put 5 (ud_index device) bytes in
  let bytes := put 6 (ud_device_id device) bytes in
  let bytes := put 7 (ud_flags device) bytes in
  let bytes := blit 8 (u16_to_le_bytes (ud_vendor_id device)) bytes in
  let bytes := blit 10 (u16_to_le_bytes (ud_product_id device)) bytes in
  let bytes := put 12 (ud_name_len device) bytes in
  let bytes := put 13 (ud_name_offset device) bytes in
  let bytes := put 14 (ud_name_chunk_len device) bytes in
  let bytes := put 15 (ud_input_profile_id device) bytes in
  blit 16 (ud_name_chunk device) bytes.

Definition encode_diagnostics (d : ManagementDiagnostics) (bytes : list Z) : list Z :=
  let bytes := payload_header PAYLOAD_DIAGNOSTICS DIAGNOSTICS_PAYLOAD_LEN bytes in
  let bytes := blit 5 (u32_to_le_bytes (dg_uptime_seconds d)) bytes in
  let bytes := put 9 (dg_reset_reason d) bytes in
  let bytes := blit 10 (u16_to_le_bytes (dg_brownout_count d)) bytes in
  let bytes := blit 12 (u16_to_le_bytes (dg_ble_disconnect_count d)) bytes in
  let bytes := blit 14 (u16_to_le_bytes (dg_ble_notify_failure_count d)) bytes in
  let bytes := blit 16 (u16_to_le_bytes (dg_usb_error_count d)) bytes in
  let bytes := put 18 (dg_flash_write_count d) bytes in
  put 19 (dg_flash_failure_count d) bytes.

Definition encode_history (event : ManagementHistoryEvent) (bytes : list Z) : list Z :=
  let bytes := payload_header PAYLOAD_HISTORY HISTORY_PAYLOAD_LEN bytes in
  let bytes := put 5 (he_kind event) bytes in
  let bytes := blit 6 (u16_to_le_bytes (he_sequence event)) bytes in
  let bytes := blit 8 (u32_to_le_bytes (he_timestamp_seconds event)) bytes in
  let bytes := put 12 (he_subject event) bytes in
  let bytes := put 13 (he_detail event) bytes in
  let bytes := blit 14 (u16_to_le_bytes (he_vendor_id event)) bytes in
  blit 16 (u16_to_le_bytes (he_product_id event)) bytes.

Definition encode_schema (schema : ManagementSchema) (bytes : list Z) : list Z :=
  let bytes := payload_header PAYLOAD_SCHEMA SCHEMA_PAYLOAD_LEN bytes in
  let bytes := blit 5 (u16_to_le_bytes (sc_version schema)) bytes in
  let bytes := put 7 (sc_setting_count schema) bytes in
  let bytes := put 8 (sc_history_capacity schema) bytes in
  let bytes := put 9 (sc_usb_capacity schema) bytes in
  let bytes := blit 10 (u32_to_le_bytes (sc_hash schema)) bytes in
  let bytes := put 14 (sc_firmware_major schema) bytes in
  let bytes := put 15 (sc_firmware_minor schema) bytes in
  let bytes := put 16 (sc_firmware_patch schema) bytes in
  put 17 (sc_capabilities schema) bytes.

Definition encode_setting (setting : ManagementSetting) (bytes : list Z) : list Z :=
  let bytes := payload_header PAYLOAD_SETTING SETTING_PAYLOAD_LEN bytes in
  let bytes := blit 5 (u16_to_le_bytes (SettingId_code (mse_id setting))) bytes in
  let bytes := blit 7 (encode_setting_target (mse_target setting)) bytes in
  blit 9 (i32_to_le_bytes (mse_value setting)) bytes.

Definition encode_host_timing (timing : ManagementHostTiming) (bytes : list Z) : list Z :=
  let bytes := payload_header PAYLOAD_HOST_TIMING HOST_TIMING_PAYLOAD_LEN bytes in
  let bytes := put 5 (ht_host_id timing) bytes in
  let bytes := blit 6 (u32_to_le_bytes (ht_last_connected_seconds timing)) bytes in
  let bytes := blit 10 (u32_to_le_bytes (ht_last_disconnected_seconds timing)) bytes in
  put 14 (ht_last_disconnect_reason timing) bytes.

Definition encode_output_target_status (status : ManagementOutputTargetStatus) (bytes : list Z)
  : list Z :=
  let bytes := payload_header PAYLOAD_OUTPUT_TARGET_STATUS OUTPUT_TARGET_STATUS_PAYLOAD_LEN bytes in
  let '(selected_kind, selected_id) := MgmtOutputTarget_encode (mots_selected status) in
  let bytes := put 6 selected_id (put 5 selected_kind bytes) in
  let bytes :=
    match mots_active status with
    | Some active =>
        let '(active_kind, active_id) := MgmtOutputTarget_encode active in
        put 8 active_id (put 7 active_kind bytes)
    | None => put 7 0xff bytes
    end in
  let bytes := put 9 (availability_byte (mots_availability status)) bytes in
  let bytes := put 10 (Z.b2z (mots_wired_ready status)) bytes in
  let bytes := put 11 (mots_ready_ble_mask status) bytes in
  let bytes := put 12 (PresentationKind_code (mots_effective_presentation status)) bytes in
  let bytes := put 13 (Z.b2z (mots_mirror_configured status)) bytes in
  blit 14 (u32_to_le_bytes (mots_operation_id status)) bytes.

Definition encode_mirror_candidate (c : ManagementMirrorCandidate) (bytes : list Z) : list Z :=
  let bytes := payload_header PAYLOAD_MIRROR_CANDIDATE MIRROR_CANDIDATE_PAYLOAD_LEN bytes in
  let bytes := put 5 (mc_candidate c) bytes in
  let bytes := put 6 (mc_flags c) bytes in
  let bytes := put 7 (default 0xff (mc_source_device c)) bytes in
  let bytes := blit 8 (u16_to_le_bytes (mc_vendor_id c)) bytes in
  let bytes := blit 10 (u16_to_le_bytes (mc_product_id c)) bytes in
  let bytes := blit 12 (u32_to_le_bytes (mc_profile_hash c)) bytes in
  blit 16 (u32_to_le_bytes (mc_descriptor_hash c)) bytes.

Definition ManagementResponse_encode (self : ManagementResponse) : list Z :=
  let bytes := zeros MANAGEMENT_RESPONSE_LEN in
  let bytes := put 0 MANAGEMENT_PROTOCOL_VERSION bytes in
  let bytes := put 1 (mresp_id self) bytes in
  let bytes := put 2 (ManagementResult_code (mresp_result self)) bytes in
  match mresp_payload self with
  | RespNone => put 3 PAYLOAD_NONE bytes
  | RespStatus status => encode_status status bytes
  | RespHostInfo info => encode_host_info info bytes
  | RespUsbDevice device => encode_usb_device device bytes
  | RespDiagnostics diagnostics => encode_diagnostics diagnostics bytes
  | RespHistory event => encode_history event bytes
  | RespSchema schema => encode_schema schema bytes
  | RespSetting setting => encode_setting setting bytes
  | RespHostTiming timing => encode_host_timing timing bytes
  | RespClientSession host_id =>
      put 5 (option_host_id host_id)
        (payload_header PAYLOAD_CLIENT_SESSION CLIENT_SESSION_PAYLOAD_LEN bytes)
  | RespOutputTargetStatus status => encode_output_target_status status bytes
  | RespMirrorCandidate candidate => encode_mirror_candidate candidate bytes
  end.

(** *** Decoding *)

Definition le16 (b : list Z) (i : nat) : Z := u16_from_le_bytes (byte_at b i) (byte_at b (i + 1)).
Definition le32 (b : list Z) (i : nat) : Z :=
  u32_from_le_bytes (byte_at b i) (byte_at b (i + 1)) (byte_at b (i + 2)) (byte_at b (i + 3)).

Definition decode_status (b : list Z) : Result ManagementProtocolError ManagementResponsePayload :=
  if decide (byte_at b 7 > 4) then Err MgmtInvalidArgument
  else
    let? health := or_invalid (StorageHealth_from_byte (byte_at b 15)) in
    Ok (RespStatus (mkMgmtStatus (decode_optional_host (byte_at b 5))
      (decode_optional_host (byte_at b 6)) (byte_at b 7)
      (mkUsbStatus (byte_at b 8) (byte_at b 9) (byte_at b 10))
      [host_status_from_bits (byte_at b 11); host_status_from_bits (byte_at b 12);
       host_status_from_bits (byte_at b 13); host_status_from_bits (byte_at b 14)]
      health)).

Definition decode_host_info (b : list Z) : Result ManagementProtocolError ManagementResponsePayload :=
  let? name := HostName_from_parts (byte_at b 7) (slice 8 20 b) in
  Ok (RespHostInfo (mkHostInfo (byte_at b 5) (host_status_from_bits (byte_at b 6)) name
    (Z.land (Z.shiftr (byte_at b 6) 4) 0x03))).

Definition decode_usb_device (b : list Z) : Result ManagementProtocolError ManagementResponsePayload :=
  if bool_decide (byte_at b 14 > 4) ||
     bool_decide (u8_saturating_add (byte_at b 13) (byte_at b 14) > byte_at b 12)
  then Err MgmtInvalidArgument
  else
    let? profile := or_invalid (InputProfileId_new (byte_at b 15)) in
    Ok (RespUsbDevice (mkUsbDevice (byte_at b 5) (byte_at b 6) (byte_at b 7) (le16 b 8) (le16 b 10)
      profile (byte_at b 12) (byte_at b 13) (byte_at b 14) (slice 16 20 b))).

Definition decode_diagnostics (b : list Z) : ManagementResponsePayload :=
  RespDiagnostics (mkDiagnostics (le32 b 5) (byte_at b 9) (le16 b 10) (le16 b 12) (le16 b 14)
    (le16 b 16) (byte_at b 18) (byte_at b 19)).

Definition decode_history (b : list Z) : ManagementResponsePayload :=
  RespHistory (mkHistoryEvent (byte_at b 5) (le16 b 6) (le32 b 8) (byte_at b 12) (byte_at b 13)
    (le16 b 14) (le16 b 16)).

Definition decode_schema (b : list Z) : ManagementResponsePayload :=
  RespSchema (mkSchema (le16 b 5) (byte_at b 7) (byte_at b 8) (byte_at b 9) (le32 b 10)
    (byte_at b 14) (byte_at b 15) (byte_at b 16) (byte_at b 17)).

Definition decode_setting (b : list Z) : Result ManagementProtocolError ManagementResponsePayload :=
  let? id := or_invalid (SettingId_from_u16 (le16 b 5)) in
  let? target := decode_setting_target (byte_at b 7) (byte_at b 8) in
  Ok (RespSetting (mkSetting id target
    (i32_from_le_bytes (byte_at b 9) (byte_at b 10) (byte_at b 11) (byte_at b 12)))).

Definition decode_host_timing (b : list Z) : ManagementResponsePayload :=
  RespHostTiming (mkHostTiming (byte_at b 5) (le32 b 6) (le32 b 10) (byte_at b 14)).

Definition decode_active_target (kind id : Z)
  : Result ManagementProtocolError (option ManagementOutputTarget) :=
  if decide (kind = 0xff) then
    if decide (id ≠ 0) then Err MgmtInvalidArgument else Ok None
  else
    let? target := MgmtOutputTarget_decode kind id in Ok (Some target).

Definition decode_output_target_status (b : list Z)
  : Result ManagementProtocolError ManagementResponsePayload :=
  let? selected := MgmtOutputTarget_decode (byte_at b 5) (byte_at b 6) in
  let? active := decode_active_target (byte_at b 7) (byte_at b 8) in
  let? availability := availability_from_byte (byte_at b 9) in
  let? wired_ready := decode_bool (byte_at b 10) in
  let? presentation := PresentationKind_from_byte (byte_at b 12) in
  let? mirror_configured := decode_bool (byte_at b 13) in
  Ok (RespOutputTargetStatus (mkOutputTargetStatus selected active availability wired_ready
    (Z.land (byte_at b 11) 0x0f) presentation mirror_configured (le32 b 14))).

Definition decode_mirror_candidate (b : list Z) : ManagementResponsePayload :=
  RespMirrorCandidate (mkMirrorCandidate (byte_at b 5) (byte_at b 6)
    (if decide (byte_at b 7 ≠ 0xff) then Some (byte_at b 7) else None)
    (le16 b 8) (le16 b 10) (le32 b 12) (le32 b 16)).

Definition decode_payload (kind len : Z) (b : list Z)
  : Result ManagementProtocolError ManagementResponsePayload :=
  let tagged kind' len' := (kind =? kind') && (len =? len') in
  if tagged PAYLOAD_NONE 0 then Ok RespNone
  else if tagged PAYLOAD_STATUS STATUS_PAYLOAD_LEN then decode_status b
  else if tagged PAYLOAD_HOST_INFO HOST_INFO_PAYLOAD_LEN then decode_host_info b
  else if tagged PAYLOAD_USB_DEVICE USB_DEVICE_PAYLOAD_LEN then decode_usb_device b
  else if tagged PAYLOAD_DIAGNOSTICS DIAGNOSTICS_PAYLOAD_LEN then Ok (decode_diagnostics b)
  else if tagged PAYLOAD_HISTORY HISTORY_PAYLOAD_LEN then Ok (decode_history b)
  else if tagged PAYLOAD_SCHEMA SCHEMA_PAYLOAD_LEN then Ok (decode_schema b)
  else if tagged PAYLOAD_SETTING SETTING_PAYLOAD_LEN then decode_setting b
  else if tagged PAYLOAD_HOST_TIMING HOST_TIMING_PAYLOAD_LEN then Ok (decode_host_timing b)
  else if tagged PAYLOAD_CLIENT_SESSION CLIENT_SESSION_PAYLOAD_LEN
  then Ok (RespClientSession (decode_optional_host (byte_at b 5)))
  else if tagged PAYLOAD_OUTPUT_TARGET_STATUS OUTPUT_TARGET_STATUS_PAYLOAD_LEN
  then decode_output_target_status b
  else if tagged PAYLOAD_MIRROR_CANDIDATE MIRROR_CANDIDATE_PAYLOAD_LEN
  then Ok (decode_mirror_candidate b)
  else Err MgmtInvalidArgument.

Definition ManagementResponse_decode (bytes : list Z)
  : Result ManagementProtocolError ManagementResponse :=
  if decide (length bytes ≠ MANAGEMENT_RESPONSE_LEN) then Err MgmtInvalidLength
  else if decide (byte_at bytes 0 ≠ MANAGEMENT_PROTOCOL_VERSION) then Err MgmtUnsupportedVersion
  else
    let? result := ManagementResult_from_byte (byte_at bytes 2) in
    let? payload := decode_payload (byte_at bytes 3) (byte_at bytes 4) bytes in
    Ok (mkMgmtResponse (byte_at bytes 1) result payload).

(** ** Well-formed values: what the types and their constructors guarantee *)

Definition hn_ok (n : ManagementHostName) : Prop :=
  u8_ok (hn_len n) ∧ length (hn_bytes n) = MANAGEMENT_HOST_NAME_LEN ∧ bytes_ok (hn_bytes n) ∧
  HostName_from_parts (hn_len n) (hn_bytes n) = Ok n.

Definition setting_target_ok (t : SettingTarget) : Prop :=
  match t with TargetGlobal => True | TargetInput p => InputProfileId_new p = Some p end.

Definition mgmt_target_ok (t : ManagementOutputTarget) : Prop :=
  match t with MgmtWired => True | MgmtBle h => 1 ≤ h ≤ 4 end.

(** A host that is present has a nonzero number. *)
Definition host_opt_ok (o : option Z) : Prop :=
  match o with None => True | Some h => u8_ok h ∧ h ≠ 0 end.

Definition command_ok (c : ManagementCommand) : Prop :=
  match c with
  | CmdSelectHost h | CmdStartPairing h | CmdForgetHost h | CmdGetHostInfo h
  | CmdGetHostTiming h | CmdGetHistory h | CmdGetMirrorCandidate h | CmdSetMirrorTarget h => u8_ok h
  | CmdSetHostName h n => u8_ok h ∧ hn_ok n
  | CmdGetUsbDevice i n => u8_ok i ∧ u8_ok n
  | CmdGetSetting _ t => setting_target_ok t
  | CmdSetSetting _ t v => setting_target_ok t ∧ i32_ok v
  | CmdSelectOutputTarget t => mgmt_target_ok t
  | CmdSetWiredHostLink h => match h with None => True | Some h => 1 ≤ h ≤ 4 end
  | CmdGetStatus | CmdCancelPairing | CmdGetDiagnostics | CmdGetClientSession | CmdGetSchema
  | CmdGetOutputTargetStatus | CmdClearMirrorTarget => True
  end.

Definition request_ok (r : ManagementRequest) : Prop :=
  u8_ok (mreq_id r) ∧ command_ok (mreq_command r).

Lemma decode_setting_target_encode t : setting_target_ok t →
  ∃ a b, encode_setting_target t = [a; b] ∧ decode_setting_target a b = Ok t.
Proof.
  destruct t as [|p]; intros H; cbn [encode_setting_target]; do 2 eexists; (split; [done|]); [done|].
  cbn [setting_target_ok] in H. unfold decode_setting_target, InputProfileId_new in *.
  change (Z.of_nat INPUT_PROFILE_CAPACITY) with 8 in *.
  rewrite decide_False by lia. repeat case_bool_decide; try discriminate H.
  rewrite decide_True by lia. done.
Qed.

Lemma MgmtOutputTarget_roundtrip t : mgmt_target_ok t →
  let '(kind, id) := MgmtOutputTarget_encode t in MgmtOutputTarget_decode kind id = Ok t.
Proof.
  destruct t as [|h]; intros H; cbn [MgmtOutputTarget_encode]; [done|]. cbn [mgmt_target_ok] in H.
  unfold MgmtOutputTarget_decode. rewrite decide_False, decide_True by lia. done.
Qed.

(** [decode_command] on what [encode] left in the buffer. *)
Lemma request_decode_bytes id op len payload rest :
  length payload = len → (len ≤ 16)%nat → length rest = (16 - len)%nat →
  ManagementRequest_decode ([MANAGEMENT_PROTOCOL_VERSION; id; op; Z.of_nat len] ++ payload ++ rest) =
    let? command := decode_command op payload in Ok (mkMgmtRequest id command).
Proof.
  intros Hp Hl Hr. unfold ManagementRequest_decode.
  rewrite decide_False by (rewrite !length_app; change MANAGEMENT_REQUEST_LEN with 20%nat; cbn [length]; lia).
  cbn [app byte_at nth]. unfold byte_at. cbn [nth]. rewrite decide_False by tauto.
  rewrite Nat2Z.id. change (MANAGEMENT_REQUEST_LEN - 4)%nat with 16%nat.
  rewrite decide_False by lia. unfold slice. cbn [drop].
  rewrite drop_0. replace (4 + len - 4)%nat with len by lia. by rewrite <- Hp, take_app_length.
Qed.

Lemma encode_set_host_name_bytes id h len bytes : length bytes = 12%nat →
  ManagementRequest_encode (mkMgmtRequest id (CmdSetHostName h (mkHostName len bytes))) =
  [MANAGEMENT_PROTOCOL_VERSION; id; OP_SET_HOST_NAME; 14] ++ (h :: len :: bytes) ++ zeros 2.
Proof. intros H. explode bytes H. reflexivity. Qed.

Lemma request_roundtrip r : request_ok r →
  ManagementRequest_decode (ManagementRequest_encode r) = Ok r.
Proof.
  destruct r as [id c]. intros [_ Hc]. cbn [mreq_command] in Hc.
  destruct c as [ | | | | |h [len bytes]| | | | | | | |s t|s t v|t| | | | |h]; try reflexivity.
  - destruct Hc as (_ & _ & Hl & _ & Hn). cbn [hn_len hn_bytes] in *.
    rewrite encode_set_host_name_bytes by done.
    change 14 with (Z.of_nat 14). rewrite request_decode_bytes by (cbn [length]; rewrite ?Hl; done || lia).
    change (decode_command OP_SET_HOST_NAME (h :: len :: bytes))
      with (decode_set_host_name (h :: len :: bytes)).
    unfold decode_set_host_name. rewrite decide_True by (cbn [length]; rewrite Hl; done).
    unfold byte_at. cbn [nth drop]. rewrite drop_0. rewrite decide_False; [by rewrite Hn|].
    intros Hgt. unfold HostName_from_parts in Hn. by rewrite bool_decide_true in Hn by lia.
  - destruct (decode_setting_target_encode t Hc) as (a & b & He & Hd).
    change (ManagementRequest_encode _) with
      (blit 6 (encode_setting_target t) (blit 4 (u16_to_le_bytes (SettingId_code s))
        ([MANAGEMENT_PROTOCOL_VERSION; id; OP_GET_SETTING; 4] ++ zeros 16))).
    rewrite He. change (ManagementRequest_decode _) with
      (let? command := decode_get_setting [SettingId_code s mod 256; SettingId_code s / 256 mod 256; a; b]
       in Ok (mkMgmtRequest id command)).
    cbn [decode_get_setting]. rewrite u16_from_to_le by auto with hid.
    rewrite SettingId_roundtrip. cbn [or_invalid result_bind]. by rewrite Hd.
  - destruct Hc as [Ht Hv]. destruct (decode_setting_target_encode t Ht) as (a & b & He & Hd).
    pose proof (i32_from_to_le v Hv) as Hvv. cbn zeta in Hvv.
    change (ManagementRequest_encode _) with
      (blit 8 (i32_to_le_bytes v) (blit 6 (encode_setting_target t)
        (blit 4 (u16_to_le_bytes (SettingId_code s))
        ([MANAGEMENT_PROTOCOL_VERSION; id; OP_SET_SETTING; 8] ++ zeros 16)))).
    rewrite He. destruct (i32_to_le_bytes v) as [|v0 [|v1 [|v2 [|v3 []]]]] eqn:Ev; try discriminate Ev.
    change (ManagementRequest_decode _) with
      (let? command := decode_set_setting [SettingId_code s mod 256; SettingId_code s / 256 mod 256;
         a; b; v0; v1; v2; v3] in Ok (mkMgmtRequest id command)).
    cbn [decode_set_setting]. rewrite u16_from_to_le by auto with hid.
    rewrite SettingId_roundtrip. cbn [or_invalid result_bind]. rewrite Hd. cbn [result_bind].
    unfold byte_at in Hvv. cbn [nth] in Hvv. by rewrite Hvv.
  - pose proof (MgmtOutputTarget_roundtrip t Hc) as H. cbn [ManagementRequest_encode mreq_command].
    unfold ManagementRequest_encode. cbn [mreq_command mreq_id].
    destruct (MgmtOutputTarget_encode t) as [k i].
    change (ManagementRequest_decode _) with
      (let? command := (let? target := MgmtOutputTarget_decode k i in Ok (CmdSelectOutputTarget target))
       in Ok (mkMgmtRequest id command)).
    by rewrite H.
  - change (ManagementRequest_decode _) with
      (let? command := decode_wired_host_link (option_host_id h) in Ok (mkMgmtRequest id command)).
    destruct h as [h|]; [|done]. cbn [command_ok] in Hc. unfold decode_wired_host_link. cbn [option_host_id].
    by rewrite decide_False, decide_True by lia.
Qed.

Lemma decode_setting_target_inv a b t : decode_setting_target a b = Ok t →
  setting_target_ok t ∧ encode_setting_target t = [a; b].
Proof.
  unfold decode_setting_target. case_decide as H0; [intros [= <-]; by destruct H0 as [-> ->]|].
  case_decide as H1; [|done]. destruct H1 as [-> Hb]. unfold InputProfileId_new.
  change (Z.of_nat INPUT_PROFILE_CAPACITY) with 8. rewrite !bool_decide_true by lia.
  cbn [andb or_invalid result_bind]. intros [= <-]. split; [|done]. cbn [setting_target_ok].
  unfold InputProfileId_new. change (Z.of_nat INPUT_PROFILE_CAPACITY) with 8.
  by rewrite !bool_decide_true by lia.
Qed.

Lemma MgmtOutputTarget_decode_inv k i t : MgmtOutputTarget_decode k i = Ok t →
  mgmt_target_ok t ∧ MgmtOutputTarget_encode t = (k, i).
Proof.
  unfold MgmtOutputTarget_decode. case_decide as H0; [intros [= <-]; by destruct H0 as [-> ->]|].
  case_decide as H1; [|done]. destruct H1 as [-> Hb]. by intros [= <-].
Qed.

Lemma i32_to_from_le a b c d : bytes_ok [a; b; c; d] →
  i32_ok (i32_from_le_bytes a b c d) ∧ i32_to_le_bytes (i32_from_le_bytes a b c d) = [a; b; c; d].
Proof.
  intros H. unfold bytes_ok in H. repeat (apply List.Forall_cons_iff in H as [? H]).
  unfold i32_from_le_bytes, i32_to_le_bytes. split; [apply as_i32_ok|].
  assert (as_u32 (as_i32 (u32_from_le_bytes a b c d)) = u32_from_le_bytes a b c d) as ->.
  { pose proof (u32_from_le_ok a b c d) as Hu. unfold as_u32, as_i32, u32_ok in *.
    specialize (Hu ltac:(done) ltac:(done) ltac:(done) ltac:(done)).
    revert Hu. generalize (u32_from_le_bytes a b c d). intros x Hx. divmod. }
  by apply u32_to_from_le.
Qed.

(** The buffer a request with this opcode and payload is written into. *)
Definition request_wire (id op : Z) (payload : list Z) : list Z :=
  [MANAGEMENT_PROTOCOL_VERSION; id; op; Z.of_nat (length payload)] ++ payload ++
  zeros (16 - length payload).

Definition decodes_to (id op : Z) (payload : list Z) (c : ManagementCommand) : Prop :=
  command_ok c ∧ ManagementRequest_encode (mkMgmtRequest id c) = request_wire id op payload.

Lemma or_invalid_Ok {A} (o : option A) a : or_invalid o = Ok a → o = Some a.
Proof. destruct o; cbn; congruence. Qed.

Lemma decode_setting_inv id payload c : bytes_ok payload →
  (decode_get_setting payload = Ok c → decodes_to id OP_GET_SETTING payload c) ∧
  (decode_set_setting payload = Ok c → decodes_to id OP_SET_SETTING payload c).
Proof.
  intros Hb. split; intros H; unfold decode_get_setting, decode_set_setting in H;
    repeat (case_match; try discriminate H); subst; split_bytes Hb; inv_ok H; subst;
    apply or_invalid_Ok, SettingId_code_inv in Ha;
    apply decode_setting_target_inv in Ha0 as [Hok He].
  - split; [done|]. unfold ManagementRequest_encode. cbn [mreq_command mreq_id].
    rewrite He, Ha, u16_to_from_le by done. reflexivity.
  - destruct (i32_to_from_le z3 z4 z5 z6) as [Hi Hie].
    { unfold bytes_ok. repeat (apply List.Forall_cons_iff; split); done. }
    split; [done|]. unfold ManagementRequest_encode. cbn [mreq_command mreq_id].
    rewrite He, Ha, u16_to_from_le, Hie by done. reflexivity.
Qed.

Lemma decode_set_host_name_inv id payload c : bytes_ok payload →
  decode_set_host_name payload = Ok c → decodes_to id OP_SET_HOST_NAME payload c.
Proof.
  intros Hb H. unfold decode_set_host_name in H. case_decide as Hl; [|done].
  change (2 + MANAGEMENT_HOST_NAME_LEN)%nat with 14%nat in Hl.
  destruct payload as [|h [|len bytes]]; [done|done|]. injection Hl as Hl.
  split_bytes Hb. unfold byte_at in H. cbn [nth drop] in H. rewrite drop_0 in H.
  case_decide; [done|]. inv_ok H. subst c.
  assert (a = mkHostName len bytes) as ->.
  { unfold HostName_from_parts in Ha. case_match; [done|]. by injection Ha as <-. }
  split.
  - split; [done|]. split; [done|]. split; [done|]. split; [done|exact Ha].
  - rewrite encode_set_host_name_bytes by done. unfold request_wire. cbn [length]. by rewrite Hl.
Qed.

Lemma decode_command_inv id op payload c : bytes_ok payload →
  decode_command op payload = Ok c → decodes_to id op payload c.
Proof.
  intros Hb H. unfold decode_command, no_argument, one_argument, two_arguments in H.
  repeat (match type of H with (if ?op =? ?k then _ else _) = _ =>
    destruct (Z.eqb_spec op k) as [->|_] end); [..|discriminate H].
  all: try (by apply decode_setting_inv); try (by apply decode_set_host_name_inv).
  all: repeat (case_match; try discriminate H); subst; split_bytes Hb.
  all: try (injection H as <-; split; [done|reflexivity]).
  - inv_ok H. subst c. apply MgmtOutputTarget_decode_inv in Ha as [Hok He]. split; [done|].
    unfold ManagementRequest_encode. cbn [mreq_command mreq_id]. rewrite He. reflexivity.
  - unfold decode_wired_host_link in H. case_decide; [injection H as <-; subst; by split|].
    case_decide; [|done]. injection H as <-. split; [done|reflexivity].
Qed.

Lemma bytes_ok_put i v b : u8_ok v → bytes_ok b → bytes_ok (put i v b).
Proof.
  intros Hv Hb. unfold put, bytes_ok. by apply Forall_insert.
Qed.
Lemma i32_to_le_bytes_ok x : bytes_ok (i32_to_le_bytes x).
Proof. apply u32_to_le_bytes_ok. Qed.
Lemma encode_setting_target_ok t : setting_target_ok t → bytes_ok (encode_setting_target t).
Proof.
  intros H. unfold bytes_ok. destruct t as [|p]; cbn [encode_setting_target];
    repeat (apply List.Forall_cons_iff; split); try done.
  cbn [setting_target_ok] in H. unfold InputProfileId_new in H.
  change (Z.of_nat INPUT_PROFILE_CAPACITY) with 8 in H.
  repeat case_bool_decide; try discriminate H. words.
Qed.
Lemma mgmt_target_kind_ok t : mgmt_target_ok t →
  u8_ok (MgmtOutputTarget_encode t).1 ∧ u8_ok (MgmtOutputTarget_encode t).2.
Proof. destruct t; cbn; [by split|]. intros H. split; [done|words]. Qed.
Lemma option_host_id_ok h : host_opt_ok h → u8_ok (option_host_id h).
Proof. destruct h; cbn; [by intros [? _]|done]. Qed.
#[export] Hint Resolve bytes_ok_put i32_to_le_bytes_ok encode_setting_target_ok
  option_host_id_ok : hid.

Lemma length_put i v b : length (put i v b) = length b.
Proof. apply length_insert. Qed.

Lemma request_encode_length r : request_ok r → length (ManagementRequest_encode r) = 20%nat.
Proof.
  intros [_ Hc]. destruct r as [id c]. cbn [mreq_command] in Hc. unfold ManagementRequest_encode.
  cbn [mreq_command mreq_id].
  destruct c as [ | | | | |h [len bytes]| | | | | | | |s t|s t v|t| | | | |h]; try reflexivity.
  - destruct Hc as (_ & _ & Hl & _). cbn [hn_len hn_bytes] in *. explode bytes Hl. reflexivity.
  - destruct t; reflexivity.
  - destruct t; reflexivity.
  - destruct t; reflexivity.
Qed.

Lemma request_encode_ok r : request_ok r → bytes_ok (ManagementRequest_encode r).
Proof.
  intros [Hi Hc]. destruct r as [id c]. cbn [mreq_command mreq_id] in *. unfold ManagementRequest_encode.
  cbn [mreq_command mreq_id].
  unfold encode_host_command.
  destruct c as [ | | | | |h n| | | | | | | |s t|s t v|t| | | | |h]; cbn [command_ok] in Hc;
    try solve [repeat (apply bytes_ok_put; [done|]); apply bytes_ok_zeros].
  - destruct Hc as (Hh & Hl & _ & Hn & _). apply bytes_ok_blit; [done|].
    repeat (apply bytes_ok_put; [done|]); apply bytes_ok_zeros.
  - destruct Hc as [H1 H2]. repeat (apply bytes_ok_put; [done|]); apply bytes_ok_zeros.
  - apply bytes_ok_blit; [auto with hid|]. apply bytes_ok_blit; [auto with hid|].
    repeat (apply bytes_ok_put; [done|]); apply bytes_ok_zeros.
  - destruct Hc as [Ht Hv]. apply bytes_ok_blit; [auto with hid|].
    apply bytes_ok_blit; [auto with hid|]. apply bytes_ok_blit; [auto with hid|].
    repeat (apply bytes_ok_put; [done|]); apply bytes_ok_zeros.
  - destruct (mgmt_target_kind_ok t Hc) as [H1 H2]. destruct (MgmtOutputTarget_encode t).
    repeat (apply bytes_ok_put; [done|]); apply bytes_ok_zeros.
  - apply bytes_ok_put; [|repeat (apply bytes_ok_put; [done|]); apply bytes_ok_zeros].
    destruct h as [h|]; [|done]. cbn. words.
Qed.

(** C17: the request codec.  Every command the program can form is twenty bytes and decodes to
    itself.  Conversely whatever decodes is such a command, and re-encoding it gives the
    received bytes up to its declared payload, then zeros, so no two payloads of an opcode
    mean the same command. *)
Theorem management_request_codec :
  (∀ r, request_ok r → length (ManagementRequest_encode r) = MANAGEMENT_REQUEST_LEN ∧
     bytes_ok (ManagementRequest_encode r) ∧
     ManagementRequest_decode (ManagementRequest_encode r) = Ok r) ∧
  (∀ b r, bytes_ok b → ManagementRequest_decode b = Ok r → request_ok r ∧
     let used := (4 + Z.to_nat (byte_at b 3))%nat in
     (used ≤ MANAGEMENT_REQUEST_LEN)%nat ∧
     ManagementRequest_encode r = take used b ++ zeros (MANAGEMENT_REQUEST_LEN - used)).
Proof.
  split.
  - intros r Hr. split; [by apply request_encode_length|].
    split; [by apply request_encode_ok|by apply request_roundtrip].
  - intros b r Hb H. unfold ManagementRequest_decode in H.
    change (MANAGEMENT_REQUEST_LEN - 4)%nat with 16%nat in *.
    destruct (decide (length b ≠ MANAGEMENT_REQUEST_LEN)) as [|Hl]; [discriminate H|].
    apply dec_stable in Hl. change MANAGEMENT_REQUEST_LEN with 20%nat in *.
    destruct (decide (_ ≠ MANAGEMENT_PROTOCOL_VERSION)) as [|Hv]; [discriminate H|].
    apply dec_stable in Hv. destruct (decide (_ > 16)%nat) as [|Hp]; [discriminate H|].
    inv_ok H. subst r. set (n := Z.to_nat (byte_at b 3)) in *.
    assert (length (slice 4 (4 + n) b) = n) as Hsl by (rewrite length_slice by lia; lia).
    destruct (decode_command_inv (byte_at b 1) _ _ _ (bytes_ok_slice 4 (4 + n) b Hb) Ha) as [Hok He].
    split; [split; [by apply byte_at_ok|done]|]. split; [lia|]. rewrite He. unfold request_wire.
    rewrite Hsl. assert (Z.of_nat n = byte_at b 3) as ->.
    { unfold n. rewrite Z2Nat.id; [done|]. pose proof (byte_at_ok b 3 Hb) as Hk. unfold u8_ok in Hk. lia. }
    unfold slice. replace (4 + n - 4)%nat with n by lia. replace (20 - (4 + n))%nat with (16 - n)%nat by lia.
    rewrite app_assoc. f_equal. clearbody n.
    destruct b as [|b0 [|b1 [|b2 [|b3 b]]]]; try discriminate Hl.
    unfold byte_at in *. cbn [nth drop take Nat.add] in *. rewrite drop_0. subst b0. reflexivity.
Qed.

Lemma management_request_codec_witness :
  ManagementRequest_decode (ManagementRequest_encode
    (mkMgmtRequest 7 (CmdSetSetting MouseSensitivityPercent (TargetInput 3) (-5)))) =
  Ok (mkMgmtRequest 7 (CmdSetSetting MouseSensitivityPercent (TargetInput 3) (-5))).
Proof.
  refine (proj2 (proj2 (proj1 management_request_codec _ _))).
  split; [|split; [reflexivity|]]; apply (bool_decide_unpack _); vm_compute; exact I.
Defined.

(** ** The response codec *)

Definition status_ok (s : ManagementStatus) : Prop :=
  host_opt_ok (mst_active_host s) ∧ host_opt_ok (mst_pairing_host s) ∧ 0 ≤ mst_host_count s ≤ 4 ∧
  u8_ok (us_device_count (mst_usb s)) ∧ u8_ok (us_interface_count (mst_usb s)) ∧
  u8_ok (us_keyboard_count (mst_usb s)) ∧ length (mst_hosts s) = 4%nat.

Definition host_info_ok (i : ManagementHostInfo) : Prop :=
  u8_ok (hi_host_id i) ∧ hn_ok (hi_name i) ∧ 0 ≤ hi_name_source i ≤ 3.

Definition usb_device_ok (d : ManagementUsbDevice) : Prop :=
  u8_ok (ud_index d) ∧ u8_ok (ud_device_id d) ∧ u8_ok (ud_flags d) ∧ u16_ok (ud_vendor_id d) ∧
  u16_ok (ud_product_id d) ∧ InputProfileId_new (ud_input_profile_id d) = Some (ud_input_profile_id d) ∧
  u8_ok (ud_name_len d) ∧ u8_ok (ud_name_offset d) ∧ 0 ≤ ud_name_chunk_len d ≤ 4 ∧
  u8_saturating_add (ud_name_offset d) (ud_name_chunk_len d) ≤ ud_name_len d ∧
  length (ud_name_chunk d) = MANAGEMENT_USB_NAME_CHUNK_LEN ∧ bytes_ok (ud_name_chunk d).

Definition diagnostics_ok (d : ManagementDiagnostics) : Prop :=
  u32_ok (dg_uptime_seconds d) ∧ u8_ok (dg_reset_reason d) ∧ u16_ok (dg_brownout_count d) ∧
  u16_ok (dg_ble_disconnect_count d) ∧ u16_ok (dg_ble_notify_failure_count d) ∧
  u16_ok (dg_usb_error_count d) ∧ u8_ok (dg_flash_write_count d) ∧ u8_ok (dg_flash_failure_count d).

Definition history_ok (e : ManagementHistoryEvent) : Prop :=
  u8_ok (he_kind e) ∧ u16_ok (he_sequence e) ∧ u32_ok (he_timestamp_seconds e) ∧
  u8_ok (he_subject e) ∧ u8_ok (he_detail e) ∧ u16_ok (he_vendor_id e) ∧ u16_ok (he_product_id e).

Definition schema_ok (s : ManagementSchema) : Prop :=
  u16_ok (sc_version s) ∧ u8_ok (sc_setting_count s) ∧ u8_ok (sc_history_capacity s) ∧
  u8_ok (sc_usb_capacity s) ∧ u32_ok (sc_hash s) ∧ u8_ok (sc_firmware_major s) ∧
  u8_ok (sc_firmware_minor s) ∧ u8_ok (sc_firmware_patch s) ∧ u8_ok (sc_capabilities s).

Definition setting_ok (s : ManagementSetting) : Prop :=
  setting_target_ok (mse_target s) ∧ i32_ok (mse_value s).

Definition host_timing_ok (t : ManagementHostTiming) : Prop :=
  u8_ok (ht_host_id t) ∧ u32_ok (ht_last_connected_seconds t) ∧
  u32_ok (ht_last_disconnected_seconds t) ∧ u8_ok (ht_last_disconnect_reason t).

Definition output_status_ok (s : ManagementOutputTargetStatus) : Prop :=
  mgmt_target_ok (mots_selected s) ∧
  match mots_active s with None => True | Some t => mgmt_target_ok t end ∧
  0 ≤ mots_ready_ble_mask s ≤ 15 ∧ u32_ok (mots_operation_id s).

Definition mirror_candidate_ok (c : ManagementMirrorCandidate) : Prop :=
  u8_ok (mc_candidate c) ∧ u8_ok (mc_flags c) ∧
  match mc_source_device c with None => True | Some d => u8_ok d ∧ d ≠ 0xff end ∧
  u16_ok (mc_vendor_id c) ∧ u16_ok (mc_product_id c) ∧ u32_ok (mc_profile_hash c) ∧
  u32_ok (mc_descriptor_hash c).

Definition payload_ok (p : ManagementResponsePayload) : Prop :=
  match p with
  | RespNone => True
  | RespStatus s => status_ok s
  | RespHostInfo i => host_info_ok i
  | RespUsbDevice d => usb_device_ok d
  | RespDiagnostics d => diagnostics_ok d
  | RespHistory e => history_ok e
  | RespSchema s => schema_ok s
  | RespSetting s => setting_ok s
  | RespHostTiming t => host_timing_ok t
  | RespClientSession h => host_opt_ok h
  | RespOutputTargetStatus s => output_status_ok s
  | RespMirrorCandidate c => mirror_candidate_ok c
  end.

Definition response_ok (r : ManagementResponse) : Prop := u8_ok (mresp_id r) ∧ payload_ok (mresp_payload r).

Lemma host_status_roundtrip h : host_status_from_bits (host_status_bits h) = h.
Proof. by destruct h as [[] [] [] []]. Qed.
Lemma host_status_bits_range h : 0 ≤ host_status_bits h ≤ 15.
Proof. destruct h as [[] [] [] []]; cbv; split; discriminate. Qed.
Lemma StorageHealth_roundtrip h : StorageHealth_from_byte (StorageHealth_code h) = Some h.
Proof. by destruct h. Qed.
Lemma availability_roundtrip a : availability_from_byte (availability_byte a) = Ok a.
Proof. by destruct a. Qed.
Lemma decode_bool_roundtrip b : decode_bool (Z.b2z b) = Ok b.
Proof. by destruct b. Qed.
Lemma PresentationKind_roundtrip k : PresentationKind_from_byte (PresentationKind_code k) = Ok k.
Proof. by destruct k. Qed.
Lemma ManagementResult_roundtrip r : ManagementResult_from_byte (ManagementResult_code r) = Ok r.
Proof. by destruct r. Qed.
Lemma optional_host_roundtrip h : host_opt_ok h → decode_optional_host (option_host_id h) = h.
Proof. destruct h as [h|]; cbn; [|done]. intros [_ H]. unfold decode_optional_host. by rewrite decide_False. Qed.

(** Write an encoding as an explicit list of bytes, and read explicit bytes. *)
Ltac explicit_bytes :=
  cbv [payload_header put blit insert list_insert take drop app length zeros replicate Nat.add
    u16_to_le_bytes u32_to_le_bytes i32_to_le_bytes MANAGEMENT_RESPONSE_LEN put_hosts].
Ltac read_bytes :=
  unfold le16, le32, byte_at;
  cbn -[u16_from_le_bytes u32_from_le_bytes i32_from_le_bytes Z.modulo Z.div as_u32].

(** The header of an encoded response is checked and leaves [decode_payload]. *)
Lemma response_decode_header id result kind len rest p : length rest = 15%nat →
  decode_payload kind len ([MANAGEMENT_PROTOCOL_VERSION; id; ManagementResult_code result; kind; len] ++ rest)
    = Ok p →
  ManagementResponse_decode ([MANAGEMENT_PROTOCOL_VERSION; id; ManagementResult_code result; kind; len] ++ rest)
    = Ok (mkMgmtResponse id result p).
Proof.
  intros Hl H. unfold ManagementResponse_decode.
  rewrite decide_False by (rewrite length_app, Hl; change MANAGEMENT_RESPONSE_LEN with 20%nat; cbn [length]; lia).
  unfold byte_at. cbn [nth app]. rewrite decide_False by tauto.
  rewrite ManagementResult_roundtrip. cbn [result_bind]. cbn [app] in H. by rewrite H.
Qed.

Ltac response_bytes enc :=
  unfold ManagementResponse_encode; cbn [mresp_payload mresp_id mresp_result]; unfold enc;
  explicit_bytes;
  match goal with |- ManagementResponse_decode (?v :: ?i :: ?r :: ?k :: ?l :: ?rest) = _ =>
    apply (response_decode_header i _ k l rest); [reflexivity|] end.

Ltac fields := rewrite ?u16_from_to_le, ?u32_from_to_le by done; reflexivity.

Lemma response_plain_roundtrip id result p :
  match p with
  | RespNone => True
  | RespDiagnostics d => diagnostics_ok d | RespHistory e => history_ok e
  | RespSchema s => schema_ok s | RespHostTiming t => host_timing_ok t
  | _ => False
  end →
  ManagementResponse_decode (ManagementResponse_encode (mkMgmtResponse id result p)) =
    Ok (mkMgmtResponse id result p).
Proof.
  destruct p as [|?|?|?|d|e|s|?|t|?|?|?]; try done; intros H.
  - response_bytes encode_status. reflexivity.
  - destruct d, H as (? & ? & ? & ? & ? & ? & ? & ?).
    cbn [dg_uptime_seconds dg_reset_reason dg_brownout_count dg_ble_disconnect_count
      dg_ble_notify_failure_count dg_usb_error_count dg_flash_write_count dg_flash_failure_count] in *.
    response_bytes encode_diagnostics. change (decode_payload _ _ ?b) with
      (Ok (E := ManagementProtocolError) (decode_diagnostics b)). f_equal.
    unfold decode_diagnostics. read_bytes. fields.
  - destruct e, H as (? & ? & ? & ? & ? & ? & ?).
    cbn [he_kind he_sequence he_timestamp_seconds he_subject he_detail he_vendor_id he_product_id] in *.
    response_bytes encode_history. change (decode_payload _ _ ?b) with
      (Ok (E := ManagementProtocolError) (decode_history b)). f_equal.
    unfold decode_history. read_bytes. fields.
  - destruct s, H as (? & ? & ? & ? & ? & ? & ? & ? & ?).
    cbn [sc_version sc_setting_count sc_history_capacity sc_usb_capacity sc_hash sc_firmware_major
      sc_firmware_minor sc_firmware_patch sc_capabilities] in *.
    response_bytes encode_schema. change (decode_payload _ _ ?b) with
      (Ok (E := ManagementProtocolError) (decode_schema b)). f_equal.
    unfold decode_schema. read_bytes. fields.
  - destruct t, H as (? & ? & ? & ?).
    cbn [ht_host_id ht_last_connected_seconds ht_last_disconnected_seconds ht_last_disconnect_reason] in *.
    response_bytes encode_host_timing. change (decode_payload _ _ ?b) with
      (Ok (E := ManagementProtocolError) (decode_host_timing b)). f_equal.
    unfold decode_host_timing. read_bytes. fields.
Qed.

(** The status bits and the name's source share a byte. *)
Lemma host_info_byte st ns : 0 ≤ ns ≤ 3 →
  let v := Z.lor (host_status_bits st) (as_u8 (Z.shiftl (Z.land ns 3) 4)) in
  host_status_from_bits v = st ∧ Z.land (Z.shiftr v 4) 3 = ns ∧ u8_ok v.
Proof.
  intros H. assert (ns = 0 ∨ ns = 1 ∨ ns = 2 ∨ ns = 3) as [ -> |[ -> |[ -> | -> ]]] by lia;
    destruct st as [[] [] [] []]; vm_compute; repeat split; discriminate.
Qed.

Lemma response_status_roundtrip id result s : status_ok s →
  ManagementResponse_decode (ManagementResponse_encode (mkMgmtResponse id result (RespStatus s))) =
    Ok (mkMgmtResponse id result (RespStatus s)).
Proof.
  destruct s as [active pairing count [dev itf kbd] hosts health].
  intros (Ha & Hp & Hc & Hd & Hi & Hk & Hl).
  cbn [mst_active_host mst_pairing_host mst_host_count mst_usb us_device_count us_interface_count
    us_keyboard_count mst_hosts mst_storage_health] in *.
  explode hosts Hl. unfold ManagementResponse_encode; cbn [mresp_payload mresp_id mresp_result].
  unfold encode_status. cbn [mst_active_host mst_pairing_host mst_host_count mst_usb us_device_count
    us_interface_count us_keyboard_count mst_hosts mst_storage_health].
  explicit_bytes.
  match goal with |- ManagementResponse_decode (?v :: ?i :: ?r :: ?k :: ?l :: ?rest) = _ =>
    apply (response_decode_header i _ k l rest); [reflexivity|] end.
  change (decode_payload _ _ ?b) with (decode_status b). unfold decode_status, byte_at. cbn [nth app].
  rewrite decide_False by lia. rewrite StorageHealth_roundtrip. cbn [or_invalid result_bind].
  by rewrite !optional_host_roundtrip, !host_status_roundtrip by done.
Qed.

Lemma response_setting_roundtrip id result s : setting_ok s →
  ManagementResponse_decode (ManagementResponse_encode (mkMgmtResponse id result (RespSetting s))) =
    Ok (mkMgmtResponse id result (RespSetting s)).
Proof.
  destruct s as [sid t v]. intros [Ht Hv]. cbn [mse_target mse_value] in *.
  destruct (decode_setting_target_encode t Ht) as (a & b & He & Hd).
  pose proof (i32_from_to_le v Hv) as Hvv. cbn zeta in Hvv. unfold byte_at in Hvv.
  unfold ManagementResponse_encode; cbn [mresp_payload mresp_id mresp_result].
  unfold encode_setting. cbn [mse_target mse_value mse_id]. rewrite He.
  destruct (i32_to_le_bytes v) as [|v0 [|v1 [|v2 [|v3 []]]]] eqn:Ev; try discriminate Ev.
  explicit_bytes. cbn [nth] in Hvv.
  match goal with |- ManagementResponse_decode (?v :: ?i :: ?r :: ?k :: ?l :: ?rest) = _ =>
    apply (response_decode_header i _ k l rest); [reflexivity|] end.
  change (decode_payload _ _ ?b) with (decode_setting b).
  unfold decode_setting. read_bytes. rewrite u16_from_to_le by auto with hid.
  rewrite SettingId_roundtrip. cbn [or_invalid result_bind]. rewrite Hd. cbn [result_bind].
  by rewrite Hvv.
Qed.

Lemma response_host_info_roundtrip id result s : host_info_ok s →
  ManagementResponse_decode (ManagementResponse_encode (mkMgmtResponse id result (RespHostInfo s))) =
    Ok (mkMgmtResponse id result (RespHostInfo s)).
Proof.
  destruct s as [hid st [len bytes] ns]. intros (Hh & (Hl & Hlen & Hb & Hn) & Hs).
  cbn [hi_name_source hi_name hi_host_id hn_len hn_bytes] in *.
  destruct (host_info_byte st ns Hs) as (H1 & H2 & _).
  unfold ManagementResponse_encode; cbn [mresp_payload mresp_id mresp_result].
  unfold encode_host_info. cbn [hi_status hi_name_source hi_name hi_host_id hn_len hn_bytes].
  set (v := Z.lor _ _) in *. clearbody v. explode bytes Hlen. explicit_bytes.
  match goal with |- ManagementResponse_decode (?v :: ?i :: ?r :: ?k :: ?l :: ?rest) = _ =>
    apply (response_decode_header i _ k l rest); [reflexivity|] end.
  change (decode_payload _ _ ?b) with (decode_host_info b).
  unfold decode_host_info. unfold slice, byte_at. cbn [nth drop take app Nat.sub].
  by rewrite Hn, H1, H2.
Qed.

Lemma response_usb_roundtrip id result s : usb_device_ok s →
  ManagementResponse_decode (ManagementResponse_encode (mkMgmtResponse id result (RespUsbDevice s))) =
    Ok (mkMgmtResponse id result (RespUsbDevice s)).
Proof.
  destruct s as [idx did flags vid pid prof nl no cl chunk].
  intros (Hi & Hd & Hf & Hv & Hp & Hpr & Hnl & Hno & Hcl & Hc & Hlen & Hb).
  cbn [ud_index ud_device_id ud_flags ud_vendor_id ud_product_id ud_input_profile_id ud_name_len
    ud_name_offset ud_name_chunk_len ud_name_chunk] in *.
  explode chunk Hlen. response_bytes encode_usb_device.
  change (decode_payload _ _ ?b) with (decode_usb_device b).
  unfold decode_usb_device, slice. unfold le16, le32, byte_at.
  cbn [ud_index ud_device_id ud_flags ud_vendor_id ud_product_id ud_input_profile_id ud_name_len
    ud_name_offset ud_name_chunk_len ud_name_chunk nth app Nat.add drop take Nat.sub].
  rewrite !bool_decide_false by lia. cbn [orb]. rewrite Hpr. cbn [or_invalid result_bind].
  by rewrite !u16_from_to_le by done.
Qed.

Lemma response_target_roundtrip id result s : output_status_ok s →
  ManagementResponse_decode
    (ManagementResponse_encode (mkMgmtResponse id result (RespOutputTargetStatus s))) =
    Ok (mkMgmtResponse id result (RespOutputTargetStatus s)).
Proof.
  destruct s as [sel act av wired mask pk mc op]. intros (Hs & Ha & Hm & Ho).
  cbn [mots_selected mots_active mots_ready_ble_mask mots_operation_id] in *.
  pose proof (MgmtOutputTarget_roundtrip sel Hs) as Hsel.
  assert (Z.land mask 0x0f = mask) as Hmask.
  { change 0x0f with (Z.ones 4). rewrite Z.land_ones by lia. apply Z.mod_small. lia. }
  assert (∃ k i, (match act with
      | Some active => let '(k, i) := MgmtOutputTarget_encode active in (k, i) | None => (0xff, 0) end)
      = (k, i) ∧ decode_active_target k i = Ok act) as (ka & ia & Eact & Hact).
  { destruct act as [t|]; [|by do 2 eexists].
    pose proof (MgmtOutputTarget_roundtrip t Ha) as Ht. destruct (MgmtOutputTarget_encode t) as [k i] eqn:Ek.
    exists k, i. split; [done|]. unfold decode_active_target.
    rewrite decide_False; [by rewrite Ht|]. destruct t; cbn in Ek; injection Ek as <- <-; lia. }
  unfold ManagementResponse_encode; cbn [mresp_payload mresp_id mresp_result].
  unfold encode_output_target_status. cbn [mots_selected mots_active mots_availability mots_wired_ready
    mots_ready_ble_mask mots_effective_presentation mots_mirror_configured mots_operation_id].
  destruct (MgmtOutputTarget_encode sel) as [ks si].
  assert (∃ rest, (match act with
      | Some active => let '(active_kind, active_id) := MgmtOutputTarget_encode active in
          put 8 active_id (put 7 active_kind (put 6 si (put 5 ks (payload_header
            PAYLOAD_OUTPUT_TARGET_STATUS OUTPUT_TARGET_STATUS_PAYLOAD_LEN
            (put 2 (ManagementResult_code result) (put 1 id (put 0 MANAGEMENT_PROTOCOL_VERSION
              (zeros MANAGEMENT_RESPONSE_LEN))))))))
      | None => put 7 0xff (put 6 si (put 5 ks (payload_header
            PAYLOAD_OUTPUT_TARGET_STATUS OUTPUT_TARGET_STATUS_PAYLOAD_LEN
            (put 2 (ManagementResult_code result) (put 1 id (put 0 MANAGEMENT_PROTOCOL_VERSION
              (zeros MANAGEMENT_RESPONSE_LEN)))))))
      end) = [MANAGEMENT_PROTOCOL_VERSION; id; ManagementResult_code result;
        PAYLOAD_OUTPUT_TARGET_STATUS; OUTPUT_TARGET_STATUS_PAYLOAD_LEN; ks; si; ka; ia] ++ rest ∧
      rest = zeros 11) as (rest & -> & ->).
  { exists (zeros 11). split; [|done]. destruct act as [t|].
    - destruct (MgmtOutputTarget_encode t) as [k i]. by injection Eact as -> ->.
    - by injection Eact as <- <-. }
  explicit_bytes.
  match goal with |- ManagementResponse_decode (?v :: ?i :: ?r :: ?k :: ?l :: ?rest) = _ =>
    apply (response_decode_header i _ k l rest); [reflexivity|] end.
  change (decode_payload _ _ ?b) with (decode_output_target_status b).
  unfold decode_output_target_status, le32, byte_at. cbn [nth app Nat.add].
  rewrite Hsel. cbn [result_bind]. rewrite Hact. cbn [result_bind].
  rewrite availability_roundtrip. cbn [result_bind]. rewrite !decode_bool_roundtrip. cbn [result_bind].
  rewrite PresentationKind_roundtrip. cbn [result_bind]. by rewrite u32_from_to_le, Hmask by done.
Qed.

Lemma response_mirror_roundtrip id result s : mirror_candidate_ok s →
  ManagementResponse_decode
    (ManagementResponse_encode (mkMgmtResponse id result (RespMirrorCandidate s))) =
    Ok (mkMgmtResponse id result (RespMirrorCandidate s)).
Proof.
  destruct s as [cand flags dev vid pid ph dh]. intros (Hc & Hf & Hd & Hv & Hp & Hph & Hdh).
  cbn [mc_candidate mc_flags mc_source_device mc_vendor_id mc_product_id mc_profile_hash
    mc_descriptor_hash] in *.
  response_bytes encode_mirror_candidate.
  change (decode_payload _ _ ?b) with (Ok (E := ManagementProtocolError) (decode_mirror_candidate b)).
  f_equal. unfold decode_mirror_candidate, le16, le32, byte_at.
  cbn [nth app Nat.add mc_candidate mc_flags mc_source_device mc_vendor_id mc_product_id
    mc_profile_hash mc_descriptor_hash].
  rewrite !u16_from_to_le, !u32_from_to_le by done.
  destruct dev as [d|]; cbn [default]; [|done]. by rewrite decide_True by tauto.
Qed.

Lemma response_roundtrip r : response_ok r →
  ManagementResponse_decode (ManagementResponse_encode r) = Ok r.
Proof.
  destruct r as [id result p]. intros [_ H]. cbn [mresp_payload] in H. destruct p; cbn [payload_ok] in H;
    auto using response_status_roundtrip, response_host_info_roundtrip, response_usb_roundtrip,
      response_setting_roundtrip, response_target_roundtrip, response_mirror_roundtrip.
  all: try by apply response_plain_roundtrip.
  destruct host_id as [h|]; [|by destruct result]. destruct H as [_ H].
  unfold ManagementResponse_encode; cbn [mresp_payload mresp_id mresp_result]. explicit_bytes.
  match goal with |- ManagementResponse_decode (?v :: ?i :: ?r :: ?k :: ?l :: ?rest) = _ =>
    apply (response_decode_header i _ k l rest); [reflexivity|] end.
  change (decode_payload _ _ ?b) with (Ok (E := ManagementProtocolError)
    (RespClientSession (decode_optional_host (byte_at b 5)))).
  unfold byte_at. cbn [nth app option_host_id]. unfold decode_optional_host. by rewrite decide_False.
Qed.

(** What decodes is well formed, so [decode] and [encode] are inverse on it. *)
Lemma HostName_from_parts_inv len bytes n : HostName_from_parts len bytes = Ok n → n = mkHostName len bytes.
Proof. unfold HostName_from_parts. case_match; [done|]. by intros [= <-]. Qed.

Lemma InputProfileId_new_inv v p : InputProfileId_new v = Some p → p = v.
Proof. unfold InputProfileId_new. repeat case_bool_decide; by intros [= <-]. Qed.

Lemma decode_optional_host_ok b : u8_ok b → host_opt_ok (decode_optional_host b).
Proof. intros H. unfold decode_optional_host. by case_decide; cbn. Qed.

Lemma decode_active_target_ok k i t : decode_active_target k i = Ok t →
  match t with None => True | Some t => mgmt_target_ok t end.
Proof.
  unfold decode_active_target. repeat case_decide; try done; [by intros [= <-]|].
  intros Hd. inv_ok Hd. subst t. by apply MgmtOutputTarget_decode_inv in Ha as [? _].
Qed.

Lemma le16_ok b i : bytes_ok b → u16_ok (le16 b i).
Proof. intros H. apply u16_from_le_ok; by apply byte_at_ok. Qed.
Lemma le32_ok b i : bytes_ok b → u32_ok (le32 b i).
Proof. intros H. apply u32_from_le_ok; by apply byte_at_ok. Qed.
#[export] Hint Resolve le16_ok le32_ok byte_at_ok decode_optional_host_ok bytes_ok_slice : hid.

Lemma land_ones_range x n : 0 ≤ n → 0 ≤ Z.land x (Z.ones n) ≤ Z.ones n.
Proof.
  intros H. rewrite Z.land_ones, Z.ones_equiv by lia.
  pose proof (Z.mod_pos_bound x (2 ^ n)). pose proof (Z.pow_pos_nonneg 2 n). lia.
Qed.

Lemma decode_payload_ok kind len b p : bytes_ok b → length b = 20%nat →
  decode_payload kind len b = Ok p → payload_ok p.
Proof.
  intros Hb Hl H. unfold decode_payload in H.
  repeat (match type of H with (if ?c then _ else _) = _ => destruct c end); [..|discriminate H];
    unfold decode_status, decode_host_info, decode_usb_device, decode_setting,
      decode_output_target_status in H.
  - by injection H as <-.
  - case_decide; [done|]. inv_ok H. subst p. pose proof (byte_at_ok b 7 Hb) as H7. unfold u8_ok in H7.
    split_and!; cbn; auto with hid; lia.
  - inv_ok H. subst p. pose proof (HostName_from_parts_inv _ _ _ Ha) as ->.
    split_and!; cbn -[slice Z.land Z.shiftr]; auto with hid.
    1: split_and!; cbn -[slice]; auto with hid; by rewrite length_slice by lia.
    all: apply (land_ones_range _ 2); lia.
  - repeat case_bool_decide; try discriminate H. cbn [orb] in H. inv_ok H. subst p.
    pose proof (byte_at_ok b 14 Hb) as H14. unfold u8_ok in H14.
    apply or_invalid_Ok in Ha. pose proof (InputProfileId_new_inv _ _ Ha) as ->.
    split_and!; cbn -[slice]; auto with hid; try lia. by rewrite length_slice by lia.
  - injection H as <-. split_and!; cbn -[le16 le32 Z.land]; auto with hid.
  - injection H as <-. split_and!; cbn -[le16 le32 Z.land]; auto with hid.
  - injection H as <-. split_and!; cbn -[le16 le32 Z.land]; auto with hid.
  - inv_ok H. subst p. apply decode_setting_target_inv in Ha0 as [Ht _].
    split; [done|apply as_i32_ok].
  - injection H as <-. split_and!; cbn -[le16 le32 Z.land]; auto with hid.
  - injection H as <-. cbn. auto with hid.
  - inv_ok H. subst p. apply MgmtOutputTarget_decode_inv in Ha as [Ht _].
    apply decode_active_target_ok in Ha0. split_and!; cbn -[le16 le32 Z.land]; auto with hid.
    all: apply (land_ones_range _ 4); lia.
  - injection H as <-. split_and!; cbn -[le16 le32 Z.land]; auto with hid.
    case_decide; [|done]. auto with hid.
Qed.

Lemma response_encode_length r : response_ok r → length (ManagementResponse_encode r) = 20%nat.
Proof.
  destruct r as [id result p]. intros [_ H]. cbn [mresp_payload] in H. unfold ManagementResponse_encode.
  cbn [mresp_payload mresp_id mresp_result].
  destruct p as [|s| | | | | | | | |s| ]; try reflexivity.
  - unfold encode_status. rewrite length_put. destruct H as (_ & _ & _ & _ & _ & _ & Hl).
    destruct (mst_hosts s) as [|h0 [|h1 [|h2 [|h3 []]]]]; try discriminate Hl. reflexivity.
  - unfold encode_host_info. destruct H as (_ & (_ & Hl & _) & _).
    rewrite length_blit by (by rewrite Hl). reflexivity.
  - unfold encode_usb_device. destruct H as (_ & _ & _ & _ & _ & _ & _ & _ & _ & _ & Hl & _).
    rewrite length_blit by (by rewrite Hl). reflexivity.
  - unfold encode_setting. destruct (mse_target setting); reflexivity.
  - unfold encode_output_target_status. destruct (mots_selected s), (mots_active s) as [[]|]; reflexivity.
Qed.

(** C18: the response codec.  Every well-formed response is twenty bytes and decodes to itself;
    and whatever the decoder accepts, of arbitrary received bytes, is well formed, so encoding
    what was decoded and decoding it again changes nothing. *)
Theorem management_response_codec :
  (∀ r, response_ok r → length (ManagementResponse_encode r) = MANAGEMENT_RESPONSE_LEN ∧
     ManagementResponse_decode (ManagementResponse_encode r) = Ok r) ∧
  (∀ b r, bytes_ok b → ManagementResponse_decode b = Ok r →
     response_ok r ∧ length b = MANAGEMENT_RESPONSE_LEN ∧
     ManagementResponse_decode (ManagementResponse_encode r) = Ok r).
Proof.
  assert (∀ b r, bytes_ok b → ManagementResponse_decode b = Ok r →
    response_ok r ∧ length b = MANAGEMENT_RESPONSE_LEN) as Hdec.
  { intros b r Hb H. unfold ManagementResponse_decode in H.
    case_decide as Hl; [done|]. case_decide; [done|]. inv_ok H. subst r.
    change MANAGEMENT_RESPONSE_LEN with 20%nat in *. assert (length b = 20%nat) as Hl' by lia.
    split; [|done]. split; [by apply byte_at_ok|]. by eapply decode_payload_ok. }
  split.
  - intros r Hr. split; [by apply response_encode_length|by apply response_roundtrip].
  - intros b r Hb H. destruct (Hdec b r Hb H) as [Hr Hl]. auto using response_roundtrip.
Qed.

Lemma management_response_codec_witness :
  ManagementResponse_decode (ManagementResponse_encode (mkMgmtResponse 9 ResOk
    (RespSetting (mkSetting MouseSensitivityPercent (TargetInput 2) (-40))))) =
  Ok (mkMgmtResponse 9 ResOk (RespSetting (mkSetting MouseSensitivityPercent (TargetInput 2) (-40)))).
Proof.
  refine (proj2 (proj1 management_response_codec _ _)).
  split; [|split; [reflexivity|]]; apply (bool_decide_unpack _); vm_compute; exact I.
Defined.
