(* ===== verification/StoragePersist.v ===== *)
(** * Delayed persistence ([src/src/storage.rs], [StoragePersistence], and the storage task)

    A state to be stored waits for its deadline, a failed write is retried with a growing delay and,
    after six failures of the same state, no more until another one comes.  The storage task asks the
    policy what to do, stops Bluetooth before it writes and tells the runtime what happened. *)

From S2P Require Import Prelude FlashModel Settings InputProfile OutputTarget StorageImage StorageFlash.
From S2P Require Import Management.

Definition STORAGE_RETRY_BASE_MS : Z := 1000.
Definition STORAGE_RETRY_MAX_MS : Z := 60000.
Definition STORAGE_RETRY_FAILURE_LIMIT : Z := 6.

Inductive StoragePersistPriority := PrioLazy | PrioNormal | PrioCritical.
#[export] Instance StoragePersistPriority_eq_dec : EqDecision StoragePersistPriority.
Proof. solve_decision. Defined.

(** The derived order, as [Ord::max] uses it. *)
Definition priority_rank (p : StoragePersistPriority) : Z :=
  match p with PrioLazy => 0 | PrioNormal => 1 | PrioCritical => 2 end.
Definition priority_max (a b : StoragePersistPriority) : StoragePersistPriority :=
  if priority_rank b <? priority_rank a then a else b.

Record StoragePersistence := mkPersistence {
  sp_normal_delay_ms : Z;
  sp_lazy_delay_ms : Z;
  sp_pending_state : option StorageState;
  sp_pending_priority : option StoragePersistPriority;
  sp_deadline_ms : option Z;
  sp_consecutive_failures : Z;
  sp_retry_suspended : bool
}.
#[export] Instance eta_StoragePersistence : Eta StoragePersistence :=
  λ r, mkPersistence (sp_normal_delay_ms r) (sp_lazy_delay_ms r) (sp_pending_state r) (sp_pending_priority r)
         (sp_deadline_ms r) (sp_consecutive_failures r) (sp_retry_suspended r).

Definition StoragePersistence_new (normal_delay_ms lazy_delay_ms : Z) : StoragePersistence :=
  mkPersistence normal_delay_ms lazy_delay_ms None None None 0 false.

Definition delay_for (self : StoragePersistence) (priority : StoragePersistPriority) : Z :=
  match priority with
  | PrioCritical => 0
  | PrioNormal => sp_normal_delay_ms self
  | PrioLazy => sp_lazy_delay_ms self
  end.

Definition same_generation (self : StoragePersistence) (state : StorageState) : bool :=
  match sp_pending_state self with Some pending => ss_generation pending =? ss_generation state | None => false end.

Definition merged_priority (self : StoragePersistence) (priority : StoragePersistPriority) : StoragePersistPriority :=
  match sp_pending_priority self with Some current => priority_max current priority | None => priority end.

Definition stage (state : StorageState) (priority : StoragePersistPriority) (now_ms : Z) (self : StoragePersistence)
  : StoragePersistence :=
  let self := if same_generation self state then self
    else self <| sp_consecutive_failures := 0 |> <| sp_retry_suspended := false |> in
  let merged := merged_priority self priority in
  let new_deadline := u64_saturating_add now_ms (delay_for self merged) in
  let deadline := match sp_deadline_ms self with
    | Some current => if decide (merged ≠ priority) then Z.min current new_deadline else new_deadline
    | None => new_deadline
    end in
  self <| sp_pending_state := Some state |> <| sp_pending_priority := Some merged |> <| sp_deadline_ms := Some deadline |>.

Definition stage_quiesce_snapshot (state : StorageState) (now_ms : Z) (self : StoragePersistence) : StoragePersistence :=
  if same_generation self state then self <| sp_pending_state := Some state |>
  else stage state PrioCritical now_ms self.

Definition is_pending (self : StoragePersistence) : bool := bool_decide (sp_pending_state self ≠ None).

Definition remaining_ms (now_ms : Z) (self : StoragePersistence) : option Z :=
  (λ deadline, saturating_sub deadline now_ms) <$> sp_deadline_ms self.

Definition overdue_ms (now_ms : Z) (self : StoragePersistence) : option Z :=
  (λ deadline, saturating_sub now_ms deadline) <$> sp_deadline_ms self.

Definition effective_health (self : StoragePersistence) (backend_health : StorageHealth) : StorageHealth :=
  if bool_decide (backend_health = HealthPersistent) && (0 <? sp_consecutive_failures self) then HealthDegraded
  else backend_health.

(** [1u64.checked_shl(shift)] is [None] from 64 on. *)
Definition checked_shl_1 (shift : Z) : option Z := if shift <? 64 then Some (Z.shiftl 1 shift) else None.

Definition record_failure (now_ms : Z) (self : StoragePersistence) : StoragePersistence :=
  let self := self <| sp_consecutive_failures := u8_saturating_add (sp_consecutive_failures self) 1 |> in
  if STORAGE_RETRY_FAILURE_LIMIT <=? sp_consecutive_failures self
  then self <| sp_retry_suspended := true |> <| sp_deadline_ms := None |>
  else
    let shift := saturating_sub (sp_consecutive_failures self) 1 in
    let delay := Z.min (u64_saturating_mul STORAGE_RETRY_BASE_MS (default U64_MAX (checked_shl_1 shift)))
                   STORAGE_RETRY_MAX_MS in
    self <| sp_deadline_ms := Some (u64_saturating_add now_ms delay) |>.

Definition clear_pending (self : StoragePersistence) : StoragePersistence :=
  self <| sp_deadline_ms := None |> <| sp_pending_priority := None |> <| sp_pending_state := None |>
    <| sp_consecutive_failures := 0 |> <| sp_retry_suspended := false |>.

Section Persist.
Context {B : Type} `{!StorageSlotBackend B}.

Definition persist_due (self : StoragePersistence) (backend : B) (now_ms : Z)
  : StoragePersistence * B * Result StorageError (option StorageWriteResult) :=
  match sp_deadline_ms self with
  | None => (self, backend, Ok None)
  | Some deadline =>
      if now_ms <? deadline then (self, backend, Ok None)
      else
        match sp_pending_state self with
        | None => (self, backend, Ok None)
        | Some state =>
            match persist_storage_state backend state with
            | (backend, Ok result) => (clear_pending self, backend, Ok (Some result))
            | (backend, Err e) => (record_failure now_ms self, backend, Err e)
            end
        end
  end.

Definition flush (self : StoragePersistence) (backend : B)
  : StoragePersistence * B * Result StorageError (option StorageWriteResult) :=
  match sp_pending_state self with
  | None => (self, backend, Ok None)
  | Some state =>
      match persist_storage_state backend state with
      | (backend, Ok result) => (clear_pending self, backend, Ok (Some result))
      | (backend, Err e) => (self, backend, Err e)
      end
  end.
End Persist.

(** ** The policy *)

Record StorageTaskPolicy := mkTaskPolicy { active_ble_retry_ms : Z; critical_force_quiesce_ms : Z }.

Inductive StorageTaskAction :=
  | AwaitCommand
  | WaitForDeadline (delay_ms : Z)
  | DeferForActiveBle (delay_ms : Z)
  | QuiesceAndPersist (forced : bool).
#[export] Instance StorageTaskAction_eq_dec : EqDecision StorageTaskAction.
Proof. solve_decision. Defined.

Definition evaluate (self : StorageTaskPolicy) (persistence : StoragePersistence) (now_ms active_ble_connections : Z)
  : StorageTaskAction :=
  if negb (is_pending persistence) then AwaitCommand
  else if sp_retry_suspended persistence then AwaitCommand
  else
    let ready :=
      if active_ble_connections =? 0 then QuiesceAndPersist false
      else if bool_decide (sp_pending_priority persistence = Some PrioCritical) &&
              (critical_force_quiesce_ms self <=? default 0 (overdue_ms now_ms persistence))
      then QuiesceAndPersist true
      else DeferForActiveBle (active_ble_retry_ms self) in
    match remaining_ms now_ms persistence with
    | Some delay => if 0 <? delay then WaitForDeadline delay else ready
    | None => ready
    end.

(** ** What follows a write *)

Inductive QuiescedPersistCompletionAction :=
  | ReleaseQuiesce
  | ReportStorageHealth (health : StorageHealth)
  | ReportFlashWrite (success : bool).
#[export] Instance QuiescedPersistCompletionAction_eq_dec : EqDecision QuiescedPersistCompletionAction.
Proof. solve_decision. Defined.

Record QuiescedPersistCompletion := mkCompletion {
  qc_next_health : option StorageHealth; qc_write_succeeded : bool; qc_phase : Z
}.

Definition QuiescedPersistCompletion_new (next_health : option StorageHealth) (write_succeeded : bool)
  : QuiescedPersistCompletion := mkCompletion next_health write_succeeded 0.

Definition completion_next (self : QuiescedPersistCompletion)
  : QuiescedPersistCompletion * option QuiescedPersistCompletionAction :=
  let action :=
    if qc_phase self =? 0 then Some ReleaseQuiesce
    else if qc_phase self =? 1 then
      Some (match qc_next_health self with
            | Some health => ReportStorageHealth health
            | None => ReportFlashWrite (qc_write_succeeded self)
            end)
    else if (qc_phase self =? 2) && bool_decide (qc_next_health self ≠ None) then
      Some (ReportFlashWrite (qc_write_succeeded self))
    else None in
  match action with
  | None => (self, None)
  | Some action =>
      let phase := u8_saturating_add (qc_phase self) 1 in
      let phase := if (phase =? 2) && bool_decide (qc_next_health self = None) then 3 else phase in
      (mkCompletion (qc_next_health self) (qc_write_succeeded self) phase, Some action)
  end.

(** [for action in completion]. *)
Fixpoint completion_actions (fuel : nat) (self : QuiescedPersistCompletion) : list QuiescedPersistCompletionAction :=
  match fuel with
  | O => []
  | S fuel =>
      match completion_next self with
      | (_, None) => []
      | (self, Some action) => action :: completion_actions fuel self
      end
  end.

(** ** The storage task ([src/firmware/src/platform/storage_task.rs])

    One turn of the loop once Bluetooth is quiesced: the runtime's snapshot replaces what was staged
    and is written; without a snapshot Bluetooth is only resumed.  [health] is the backend's, and the
    task remembers the health it reported last. *)
Section Task.
Context {B : Type} `{!StorageSlotBackend B}.

Record StorageTask := mkStorageTask {
  stk_persistence : StoragePersistence;
  stk_backend : B;
  stk_backend_health : StorageHealth;
  stk_reported_health : StorageHealth
}.

Definition quiesced_turn (t : StorageTask) (snapshot : option StorageState) (staged_ms persist_ms : Z)
  : StorageTask * list QuiescedPersistCompletionAction :=
  match snapshot with
  | None => (t, [ReleaseQuiesce])
  | Some state =>
      let persistence := stage_quiesce_snapshot state staged_ms (stk_persistence t) in
      let '(persistence, backend, persisted) := persist_due persistence (stk_backend t) persist_ms in
      let next_health := effective_health persistence (stk_backend_health t) in
      let health_change := if decide (next_health ≠ stk_reported_health t) then Some next_health else None in
      (mkStorageTask persistence backend (stk_backend_health t) (default (stk_reported_health t) health_change),
       completion_actions 4 (QuiescedPersistCompletion_new health_change
         (match persisted with Ok (Some _) => true | _ => false end)))
  end.
End Task.
Arguments StorageTask B : clear implicits.

(** ** The invariant *)

Record persistence_ok (p : StoragePersistence) : Prop := {
  po_idle : sp_pending_state p = None → sp_pending_priority p = None ∧ sp_deadline_ms p = None ∧
    sp_consecutive_failures p = 0 ∧ sp_retry_suspended p = false;
  po_priority : sp_pending_state p ≠ None → sp_pending_priority p ≠ None;
  po_deadline : sp_pending_state p ≠ None → sp_retry_suspended p = false → sp_deadline_ms p ≠ None;
  po_failures : 0 ≤ sp_consecutive_failures p ≤ 255;
  po_limit : sp_retry_suspended p = false → sp_consecutive_failures p < STORAGE_RETRY_FAILURE_LIMIT
}.

Lemma new_persistence_ok normal lazy : persistence_ok (StoragePersistence_new normal lazy).
Proof. by split; cbn. Qed.

Lemma stage_ok st prio now p : persistence_ok p → persistence_ok (stage st prio now p).
Proof.
  intros [Hi Hp Hd Hf Hl]. unfold stage. destruct (same_generation p st); split; cbn; try done; intros; try lia.
Qed.

Lemma stage_pending st prio now p : sp_pending_state (stage st prio now p) = Some st.
Proof. done. Qed.

Lemma snapshot_pending st now p : sp_pending_state (stage_quiesce_snapshot st now p) = Some st.
Proof. unfold stage_quiesce_snapshot. by destruct (same_generation p st). Qed.

Lemma snapshot_ok st now p : persistence_ok p → persistence_ok (stage_quiesce_snapshot st now p).
Proof.
  intros Hok. unfold stage_quiesce_snapshot. destruct (same_generation p st) eqn:Hg; [|by apply stage_ok].
  unfold same_generation in Hg. destruct (sp_pending_state p) as [st0|] eqn:Hp; [|done].
  destruct Hok as [Hi Hpr Hd Hf Hl]. rewrite Hp in *. by split; cbn; auto.
Qed.

Lemma record_failure_ok now p : persistence_ok p → sp_pending_state p ≠ None → persistence_ok (record_failure now p).
Proof.
  intros [Hi Hp Hd Hf Hl] Hs. unfold record_failure, u8_saturating_add.
  change U8_MAX with 255. case_match eqn:Hlim; cbn in Hlim; split; cbn; try done; intros; try lia; try (by apply Hp).
Qed.

Lemma record_failure_pending now p : sp_pending_state (record_failure now p) = sp_pending_state p.
Proof. unfold record_failure. by case_match. Qed.

Lemma clear_pending_ok p : persistence_ok (clear_pending p).
Proof. by split; cbn. Qed.

(** ** What is asked for is stored or still pending *)

Inductive PersistOp :=
  | OpStage (state : StorageState) (priority : StoragePersistPriority) (now_ms : Z)
  | OpSnapshot (state : StorageState) (now_ms : Z)
  | OpPersistDue (now_ms : Z)
  | OpFlush.

Section Kept.
Context {B : Type} `{!StorageSlotBackend B}.

(** The state last asked for and the one last written. *)
Record PersistRun := mkPersistRun {
  pr_persistence : StoragePersistence; pr_backend : B; pr_asked : option StorageState; pr_stored : option StorageState
}.

Definition stored_by (previous : option StorageState) (result : Result StorageError (option StorageWriteResult))
  : option StorageState := match result with Ok (Some r) => Some (swr_state r) | _ => previous end.

Definition persist_op (r : PersistRun) (op : PersistOp) : PersistRun :=
  match op with
  | OpStage st prio now => mkPersistRun (stage st prio now (pr_persistence r)) (pr_backend r) (Some st) (pr_stored r)
  | OpSnapshot st now => mkPersistRun (stage_quiesce_snapshot st now (pr_persistence r)) (pr_backend r) (Some st) (pr_stored r)
  | OpPersistDue now =>
      let '(p, b, res) := persist_due (pr_persistence r) (pr_backend r) now in
      mkPersistRun p b (pr_asked r) (stored_by (pr_stored r) res)
  | OpFlush =>
      let '(p, b, res) := flush (pr_persistence r) (pr_backend r) in
      mkPersistRun p b (pr_asked r) (stored_by (pr_stored r) res)
  end.

Definition run_kept (r : PersistRun) : Prop :=
  persistence_ok (pr_persistence r) ∧
  match sp_pending_state (pr_persistence r) with Some st => pr_asked r = Some st | None => pr_asked r = pr_stored r end.

Lemma persist_writes_state (b b' : B) st r : persist_storage_state b st = (b', Ok r) → swr_state r = st.
Proof.
  unfold persist_storage_state. destruct (validate_state st); [|done]. destruct (encode_storage_image st); [|done].
  destruct (sb_write_slot _ _ b) as [b1 [u1|e1]]; [|done]. destruct (_ || _); [done|]. by intros [= _ <-].
Qed.

Lemma persist_op_kept r op : run_kept r → run_kept (persist_op r op).
Proof.
  intros [Hok Hk]. destruct op as [st prio now|st now|now|]; cbn [persist_op].
  - split; [by apply stage_ok|done].
  - split; [by apply snapshot_ok|]. cbn [pr_persistence]. by rewrite snapshot_pending.
  - unfold persist_due. destruct (sp_deadline_ms (pr_persistence r)); [|done].
    destruct (now <? _); [done|]. destruct (sp_pending_state (pr_persistence r)) as [st|] eqn:Hp; [|by split; cbn; [|rewrite Hp]].
    destruct (persist_storage_state (pr_backend r) st) as [b [res|e]] eqn:Hw; split; cbn; [apply clear_pending_ok| | |].
    + rewrite Hk. by rewrite (persist_writes_state _ _ _ _ Hw).
    + apply record_failure_ok; [done|]. by rewrite Hp.
    + by rewrite record_failure_pending, Hp.
  - unfold flush. destruct (sp_pending_state (pr_persistence r)) as [st|] eqn:Hp; [|by split; cbn; [|rewrite Hp]].
    destruct (persist_storage_state (pr_backend r) st) as [b [res|e]] eqn:Hw; split; cbn;
      [apply clear_pending_ok| |done|by rewrite Hp].
    rewrite Hk. by rewrite (persist_writes_state _ _ _ _ Hw).
Qed.

(** C36: no state asked for is dropped.  Whatever is staged, snapshotted, persisted when due or
    flushed, over any backend and with any failures of it: the state asked for last is the one
    pending, or nothing is pending and it is the one written last. *)
Theorem latest_state_kept normal lazy (b : B) ops :
  let r := fold_left persist_op ops (mkPersistRun (StoragePersistence_new normal lazy) b None None) in
  persistence_ok (pr_persistence r) ∧
  (sp_pending_state (pr_persistence r) = pr_asked r ∨
   sp_pending_state (pr_persistence r) = None ∧ pr_stored r = pr_asked r).
Proof.
  assert (∀ r0, run_kept r0 → run_kept (fold_left persist_op ops r0)) as H
    by (induction ops as [|op ops IH]; intros r0 H0; cbn; [done|]; by apply IH, persist_op_kept).
  intros r. destruct (H (mkPersistRun (StoragePersistence_new normal lazy) b None None)) as [Hok Hk].
  { split; [apply new_persistence_ok|done]. }
  fold r in Hok, Hk. split; [exact Hok|]. destruct (sp_pending_state (pr_persistence r)); [by left|by right].
Qed.
End Kept.

(** ** Retries *)

Lemma due_attempt {B : Type} `{!StorageSlotBackend B} p (b : B) st d now : sp_pending_state p = Some st →
  sp_deadline_ms p = Some d → d ≤ now →
  persist_due p b now =
    match persist_storage_state b st with
    | (b, Ok r) => (clear_pending p, b, Ok (Some r))
    | (b, Err e) => (record_failure now p, b, Err e)
    end.
Proof. intros Hp Hd Hn. unfold persist_due. rewrite Hd, Hp. by rewrite (proj2 (Z.ltb_ge _ _)). Qed.

(** The delay after the failure that follows [failures] others. *)
Definition retry_delay (failures : Z) : Z := Z.min (STORAGE_RETRY_BASE_MS * 2 ^ failures) STORAGE_RETRY_MAX_MS.

Lemma five_cases f : 0 ≤ f < 5 → f = 0 ∨ f = 1 ∨ f = 2 ∨ f = 3 ∨ f = 4.
Proof. lia. Qed.

Lemma backoff f : 0 ≤ f < 5 →
  Z.min (u64_saturating_mul STORAGE_RETRY_BASE_MS (default U64_MAX (checked_shl_1 (saturating_sub (f + 1) 1))))
    STORAGE_RETRY_MAX_MS = retry_delay f.
Proof. intros H. by destruct (five_cases f H) as [Hc|[Hc|[Hc|[Hc|Hc]]]]; subst f; vm_compute. Qed.

Lemma retry_delay_pos f : 0 ≤ f < 5 → 0 < retry_delay f ≤ 60000.
Proof. intros H. by destruct (five_cases f H) as [Hc|[Hc|[Hc|[Hc|Hc]]]]; subst f; vm_compute. Qed.

Lemma record_failure_delay now p : 0 ≤ sp_consecutive_failures p < 5 → now + 60000 ≤ U64_MAX →
  record_failure now p = p <| sp_consecutive_failures := sp_consecutive_failures p + 1 |>
    <| sp_deadline_ms := Some (now + retry_delay (sp_consecutive_failures p)) |>.
Proof.
  intros Hf Hn. pose proof (retry_delay_pos _ Hf) as Hd. unfold record_failure, u8_saturating_add. change U8_MAX with 255.
  cbn [sp_consecutive_failures]. rewrite Z.min_r by lia. cbv zeta. cbn [sp_consecutive_failures].
  rewrite (proj2 (Z.leb_gt _ _)) by (unfold STORAGE_RETRY_FAILURE_LIMIT; cbn; lia).
  change (sp_consecutive_failures (p <| sp_consecutive_failures := ?x |>)) with x.
  rewrite backoff by done. unfold u64_saturating_add. by rewrite Z.min_r by lia.
Qed.

Lemma record_failure_suspends now p : sp_consecutive_failures p = 5 →
  record_failure now p = p <| sp_consecutive_failures := 6 |> <| sp_retry_suspended := true |> <| sp_deadline_ms := None |>.
Proof. intros Hf. unfold record_failure. by rewrite Hf. Qed.


(** ** A turn of the storage task over the flash *)

(** The messages after a turn: Bluetooth first, then the health if it changed, then the outcome. *)
Lemma completion_list health success : completion_actions 4 (QuiescedPersistCompletion_new health success) =
  ReleaseQuiesce :: match health with Some h => [ReportStorageHealth h] | None => [] end ++ [ReportFlashWrite success].
Proof. by destruct health. Qed.

(** A snapshot staged when the policy said to write is due. *)
Lemma snapshot_due policy p st now active forced staged persist : persistence_ok p →
  evaluate policy p now active = QuiesceAndPersist forced → now ≤ staged → staged ≤ persist →
  ∃ d, sp_deadline_ms (stage_quiesce_snapshot st staged p) = Some d ∧ d ≤ persist.
Proof.
  intros Hok Hev H1 H2. unfold evaluate in Hev. destruct (is_pending p) eqn:Hpend; [|done].
  destruct (sp_retry_suspended p) eqn:Hs; [done|]. cbn [negb] in Hev.
  apply bool_decide_eq_true in Hpend. unfold remaining_ms in Hev.
  pose proof (po_deadline p Hok Hpend Hs) as Hdl. destruct (sp_deadline_ms p) as [d|] eqn:Hd; [|done]. cbn in Hev.
  destruct (0 <? saturating_sub d now) eqn:Hz; [done|]. apply Z.ltb_ge in Hz. unfold saturating_sub in Hz.
  unfold stage_quiesce_snapshot. destruct (same_generation p st) eqn:Hg.
  - exists d. split; [exact Hd|lia].
  - unfold stage. rewrite Hg. eexists. split; [done|]. cbn. rewrite Hd.
    assert (∀ q, merged_priority q PrioCritical = PrioCritical) as Hm
      by (intros q; unfold merged_priority; by destruct (sp_pending_priority q) as [[]|]).
    rewrite Hm, decide_False by (intros H; by apply H). cbn. unfold u64_saturating_add. lia.
Qed.


(** ** Instances *)

(** A backend that never writes. *)
Definition dead_backend : StorageSlotBackend unit := {|
  sb_slot _ _ := erased_image; sb_write_slot _ _ b := (b, Err StorageFlashWrite)
|}.

Lemma dead_backend_fails : persist_storage_state (StorageSlotBackend0 := dead_backend) tt sample_state = (tt, Err StorageFlashWrite).
Proof.
  destruct (encode_decodes sample_state sample_state_ok) as (image & He & _).
  unfold persist_storage_state. rewrite (state_valid _ sample_state_ok), He. reflexivity.
Qed.

Definition staged_sample : StoragePersistence := stage sample_state PrioCritical 100 (StoragePersistence_new 500 5000).

Lemma staged_sample_ok : persistence_ok staged_sample.
Proof. apply stage_ok, new_persistence_ok. Qed.


