(* ===== verification/Device.v ===== *)
(** * The device end of the inter-chip link ([src/src/interchip/device.rs])

    [DeviceLink] ties the cell codec, the reliable sender and receiver, the record codec and
    the message codecs into the state machine the USB device chip runs: it shakes hands with
    the host chip, turns received records into events, and schedules what it sends.  Methods
    that take [&mut self] return the new state; [events], a [heapless::Vec] of capacity
    [EVENTS], is a list. *)

From stdpp Require Import relations.
From S2P Require Import Prelude Cell Records Reliable Link Input Reports Message.
From S2P Require Import ControlFragment InputBatch Settings OutputTarget Management.

Definition DEVICE_CAPABILITIES : Z :=
  Z.lor (Z.lor (Z.lor CAPABILITY_FALLBACK_PROFILE CAPABILITY_STANDARD_WIRED_HID)
    CAPABILITY_USB_STATE_REPORTING) CAPABILITY_HID_MANAGEMENT.
Definition RETRANSMIT_TIMEOUT_MS : Z := 5.
Definition MAX_RETRANSMIT_ATTEMPTS : Z := 8.

Inductive DeviceLinkEvent :=
| EvStandardInput (report : StandardInputReport)
| EvReleaseAll
| EvForceFallback (operation_id : Z)
| EvActivateProfile (activate : ActivateProfile)
| EvProfileBegin (begin : ProfileBegin)
| EvProfileChunk (chunk : ProfileChunkData)
| EvProfileCommit (transfer_id : Z)
| EvRawEndpointIn (report : RawEndpointReport)
| EvControlResponse (response : MirrorControlResponse)
| EvManagementResponse (response : ManagementResponse)
| EvManagementEvent (event : ManagementEvent).

Record DeviceLinkDiagnostics := mkDiag {
  valid_cells : Z; host_session_changes : Z; standard_reports_received : Z;
  releases_received : Z; malformed_cells : Z; duplicate_cells : Z; sequence_gaps : Z;
  event_overflows : Z
}.
#[export] Instance eta_Diag : Eta DeviceLinkDiagnostics := λ d,
  mkDiag (valid_cells d) (host_session_changes d) (standard_reports_received d)
    (releases_received d) (malformed_cells d) (duplicate_cells d) (sequence_gaps d)
    (event_overflows d).

Definition Diagnostics_default : DeviceLinkDiagnostics := mkDiag 0 0 0 0 0 0 0 0.

Record DeviceLink := mkDeviceLink {
  dl_sender : ReliableSender;
  dl_receiver : ReliableReceiver;
  next_cell : option SpiCell;
  host_compatible : bool;
  usb_state : UsbState;
  usb_state_dirty : bool;
  diagnostics : DeviceLinkDiagnostics;
  capabilities : Z;
  active_profile_hash : Z;
  control_request_tx : option (MirrorControlRequest * Z);
  control_response_assembler : Assembler ControlStatus;
  management_request_tx : option ManagementRequest
}.
#[export] Instance eta_DeviceLink : Eta DeviceLink := λ s,
  mkDeviceLink (dl_sender s) (dl_receiver s) (next_cell s) (host_compatible s) (usb_state s)
    (usb_state_dirty s) (diagnostics s) (capabilities s) (active_profile_hash s)
    (control_request_tx s) (control_response_assembler s) (management_request_tx s).

(** ** Queueing records *)

Definition nonzero_session (value : Z) : Z := if decide (value = 0) then 1 else value.

Definition device_hello (self : DeviceLink) : Hello :=
  mkHello RoleDevice SPI_PROTOCOL_VERSION 0 2 (capabilities self) (active_profile_hash self).

Definition queue_records (self : DeviceLink) (records : list WireRecord) (now_ms : Z)
  : option SpiCell * DeviceLink :=
  match encode_records records (zeros SPI_CELL_PAYLOAD_LEN) with
  | (payload, Ok (length, count)) =>
      match sender_queue (dl_sender self) (take (Z.to_nat length) payload) count now_ms with
      | Ok (cell, sender) => (Some cell, self <| dl_sender := sender |>)
      | Err _ => (None, self)
      end
  | (_, Err _) => (None, self)
  end.

Definition queue_record (self : DeviceLink) (record_type : Z) (data : list Z) (now_ms : Z)
  : option SpiCell * DeviceLink :=
  queue_records self [mkWireRecord record_type 0 data] now_ms.

Definition queue_hello (self : DeviceLink) (now_ms : Z) : option SpiCell * DeviceLink :=
  queue_record self RECORD_HELLO (Hello_encode (device_hello self)) now_ms.

Definition queue_hello_ack_and_usb_state (self : DeviceLink) (now_ms : Z)
  : option SpiCell * DeviceLink :=
  let hello := Hello_encode (device_hello self) in
  let state := UsbState_encode (usb_state self) in
  let '(cell, self) := queue_records self
    [mkWireRecord RECORD_HELLO_ACK 0 hello; mkWireRecord RECORD_USB_STATE 0 state] now_ms in
  if is_some cell then (cell, self <| usb_state_dirty := false |>) else (cell, self).

Definition queue_dirty_usb_state (self : DeviceLink) (now_ms : Z) : option SpiCell * DeviceLink :=
  if negb (host_compatible self) || negb (usb_state_dirty self) then (None, self)
  else
    let '(cell, self) :=
      queue_record self RECORD_USB_STATE (UsbState_encode (usb_state self)) now_ms in
    if is_some cell then (cell, self <| usb_state_dirty := false |>) else (cell, self).

Definition queue_next_control_request_fragment (self : DeviceLink) (now_ms : Z)
  : option SpiCell * DeviceLink :=
  match control_request_tx self with
  | None => (None, self)
  | Some (request, offset) =>
      match from_request request (Z.to_nat offset) with
      | Err _ => (None, self)
      | Ok fragment =>
          match ControlRequestFragment_encode fragment (zeros CONTROL_REQUEST_FRAGMENT_MAX_WIRE_LEN) with
          | (_, Err _) => (None, self)
          | (data, Ok length') =>
              match queue_record self RECORD_CONTROL_REQUEST (take length' data) now_ms with
              | (None, self) => (None, self)
              | (Some cell, self) =>
                  let next_offset := (Z.to_nat offset + length (frag_data fragment))%nat in
                  if has_flag (frag_flags fragment) CONTROL_FRAGMENT_LAST
                  then (Some cell, self <| control_request_tx := None |>)
                  else (Some cell, self <| control_request_tx :=
                          Some (request, as_u16 (Z.of_nat next_offset)) |>)
              end
          end
      end
  end.

Definition queue_pending_management_request (self : DeviceLink) (now_ms : Z)
  : option SpiCell * DeviceLink :=
  match management_request_tx self with
  | None => (None, self)
  | Some request =>
      match queue_record self RECORD_MANAGEMENT_REQUEST (ManagementRequest_encode request) now_ms with
      | (None, self) => (None, self)
      | (Some cell, self) => (Some cell, self <| management_request_tx := None |>)
      end
  end.

(** [self.next_cell = self.queue_...(now_ms)] *)
Definition store_cell (r : option SpiCell * DeviceLink) : DeviceLink :=
  r.2 <| next_cell := r.1 |>.

(** ** Constructors *)

Definition DeviceLink_with_capabilities (session_id : Z) (state : UsbState)
  (caps profile_hash : Z) : DeviceLink :=
  let link := mkDeviceLink (ReliableSender_new (nonzero_session session_id)) ReliableReceiver_new
    None false state true Diagnostics_default caps profile_hash None
    (Assembler_new ControlSuccess) None in
  store_cell (queue_hello link 0).

Definition DeviceLink_new (session_id : Z) (state : UsbState) : DeviceLink :=
  DeviceLink_with_capabilities session_id state DEVICE_CAPABILITIES 0.

Definition DeviceLink_new_with_profile_storage (session_id : Z) (state : UsbState)
  (profile_hash : Z) : DeviceLink :=
  DeviceLink_with_capabilities session_id state
    (Z.lor (Z.lor (Z.lor (Z.lor (Z.lor DEVICE_CAPABILITIES CAPABILITY_DYNAMIC_PROFILE)
      CAPABILITY_PROFILE_FLASH_CACHE) CAPABILITY_ENDPOINT_IN) CAPABILITY_ENDPOINT_OUT)
      CAPABILITY_CONTROL_FORWARDING) profile_hash.

(** ** Operations of the device's main loop: what to send *)

Definition update_usb_state (self : DeviceLink) (state : UsbState) (now_ms : Z) : DeviceLink :=
  let self := self <| usb_state := state |> <| usb_state_dirty := true |> in
  if host_compatible self && is_none (next_cell self)
  then store_cell (queue_dirty_usb_state self now_ms) else self.

(** The common body of the [queue_*] methods: refuse, or store the cell of [queue]. *)
Definition queue_unless_busy (busy : bool) (self : DeviceLink)
  (queue : DeviceLink → option SpiCell * DeviceLink) : bool * DeviceLink :=
  if negb (host_compatible self) || is_some (next_cell self) || busy then (false, self)
  else let self := store_cell (queue self) in (is_some (next_cell self), self).

Definition queue_standard_output (self : DeviceLink) (report : StandardOutputReport) (now_ms : Z)
  : bool * DeviceLink :=
  queue_unless_busy false self (λ self,
    queue_record self RECORD_STANDARD_OUTPUT_REPORT (StandardOutputReport_encode report) now_ms).

Definition queue_profile_result (self : DeviceLink) (result : ProfileResult) (now_ms : Z)
  : bool * DeviceLink :=
  queue_unless_busy false self (λ self,
    queue_record self RECORD_PROFILE_RESULT (ProfileResult_encode result) now_ms).

Definition queue_raw_endpoint_out (self : DeviceLink) (report : RawEndpointReport) (now_ms : Z)
  : bool * DeviceLink :=
  match RawEndpointReport_encode report (zeros RAW_ENDPOINT_MAX_WIRE_LEN) with
  | (_, Err _) => (false, self)
  | (data, Ok length) =>
      queue_unless_busy false self (λ self,
        queue_record self RECORD_RAW_ENDPOINT_OUT (take length data) now_ms)
  end.

Definition queue_control_request (self : DeviceLink) (request : MirrorControlRequest) (now_ms : Z)
  : bool * DeviceLink :=
  queue_unless_busy (is_some (control_request_tx self)) self (λ self,
    queue_next_control_request_fragment
      (self <| control_request_tx := Some (request, 0) |>) now_ms).

Definition queue_management_request (self : DeviceLink) (request : ManagementRequest) (now_ms : Z)
  : bool * DeviceLink :=
  queue_unless_busy (is_some (management_request_tx self)) self (λ self,
    queue_pending_management_request
      (self <| management_request_tx := Some request |>) now_ms).

(** [Option::or_else] on a method that may give a cell. *)
Definition or_else (r : option SpiCell * DeviceLink)
  (f : DeviceLink → option SpiCell * DeviceLink) : option SpiCell * DeviceLink :=
  match r with (Some cell, self) => (Some cell, self) | (None, self) => f self end.

Definition retransmit_or_reset (self : DeviceLink) (now_ms : Z) : option SpiCell * DeviceLink :=
  match poll_retransmit (dl_sender self) now_ms RETRANSMIT_TIMEOUT_MS MAX_RETRANSMIT_ATTEMPTS with
  | (RetransmitSend cell, sender) => (Some cell, self <| dl_sender := sender |>)
  | (LinkResetRequired, sender) =>
      let session := nonzero_session (as_u32 (sender_session_id sender + 1)) in
      queue_hello (self <| dl_sender := sender_reset_session sender session |>
                        <| host_compatible := false |> <| usb_state_dirty := true |>) now_ms
  | (RetransmitIdle, sender) => (None, self <| dl_sender := sender |>)
  end.

Definition next_transaction (self : DeviceLink) (now_ms : Z) : list Z * DeviceLink :=
  let self := self <| dl_sender ::=
    λ s, set_cumulative_ack s (receiver_cumulative_ack (dl_receiver self)) |> in
  let '(cell, self) :=
    or_else (or_else (or_else (or_else
      (next_cell self, self <| next_cell := None |>)
      (λ self, queue_next_control_request_fragment self now_ms))
      (λ self, queue_pending_management_request self now_ms))
      (λ self, queue_dirty_usb_state self now_ms))
      (λ self, retransmit_or_reset self now_ms) in
  let cell := default (SpiCell_empty (sender_session_id (dl_sender self))) cell in
  let cell := cell <| header ::=
    λ h, h <| cumulative_ack := receiver_cumulative_ack (dl_receiver self) |> |> in
  (match SpiCell_encode cell with Ok bytes => bytes | Err _ => zeros SPI_CELL_LEN end, self).

(** ** Receiving *)

Definition mark_malformed (self : DeviceLink) : DeviceLink :=
  self <| diagnostics ::= λ d, d <| malformed_cells ::= λ n, u32_saturating_add n 1 |> |>.

Section Receive.
Context (EVENTS : nat).

(** The link and the event vector a handler works on. *)
Definition Handler : Type := DeviceLink * list DeviceLinkEvent.

Definition push_event (event : DeviceLinkEvent) (st : Handler) : Handler :=
  let '(self, events) := st in
  match vec_push EVENTS event events with
  | Some events => (self, events)
  | None => (self <| diagnostics ::= λ d, d <| event_overflows ::= λ n, u32_saturating_add n 1 |> |>,
             events)
  end.

(** [match decoded { Ok(v) => self.push_event(events, event(v)), Err(_) => self.mark_malformed() }] *)
Definition push_decoded {E A} (decoded : Result E A) (event : A → DeviceLinkEvent) (st : Handler)
  : Handler :=
  match decoded with
  | Ok v => push_event (event v) st
  | Err _ => (mark_malformed st.1, st.2)
  end.

(** [<[u8; 4]>::try_from(data)] then [u32::from_le_bytes]. *)
Definition try_u32 (data : list Z) : Result unit Z :=
  if decide (length data = 4%nat)
  then Ok (u32_from_le_bytes (byte_at data 0) (byte_at data 1) (byte_at data 2) (byte_at data 3))
  else Err tt.

Definition is_compatible_host (hello : Hello) : bool :=
  bool_decide (hello_role hello = RoleHost) &&
  bool_decide (hello_protocol_version hello = SPI_PROTOCOL_VERSION).

Definition handle_hello (data : list Z) (now_ms : Z) (st : Handler) : Handler :=
  let '(self, events) := st in
  match Hello_decode data with
  | Err _ => (mark_malformed self, events)
  | Ok hello =>
      let self := self <| host_compatible := is_compatible_host hello |> in
      (if host_compatible self then store_cell (queue_hello_ack_and_usb_state self now_ms) else self,
       events)
  end.

Definition handle_link_reset (now_ms : Z) (st : Handler) : Handler :=
  let '(self, events) := st in
  let self := self <| host_compatible := false |> <| usb_state_dirty := true |>
                   <| control_request_tx := None |> <| control_response_assembler ::= asm_reset |>
                   <| management_request_tx := None |> in
  (store_cell (queue_hello self now_ms), events).

Definition handle_force_fallback (data : list Z) (now_ms : Z) (st : Handler) : Handler :=
  match try_u32 data with
  | Err _ => (mark_malformed st.1, st.2)
  | Ok operation_id =>
      let '(self, events) := push_event (EvForceFallback operation_id) st in
      let self := self <| usb_state_dirty := true |> in
      (if is_none (next_cell self) then store_cell (queue_dirty_usb_state self now_ms) else self,
       events)
  end.

Definition handle_profile_chunk (data : list Z) (st : Handler) : Handler :=
  match ProfileChunk_decode data with
  | Ok chunk => push_decoded (ProfileChunkData_from_borrowed chunk) EvProfileChunk st
  | Err _ => (mark_malformed st.1, st.2)
  end.

Definition handle_control_response (data : list Z) (st : Handler) : Handler :=
  let '(self, events) := st in
  match ControlResponseFragment_decode data with
  | Err _ => (mark_malformed self, events)
  | Ok fragment =>
      let '(assembler, result) :=
        ControlResponseAssembler_push (control_response_assembler self) fragment in
      let self := self <| control_response_assembler := assembler |> in
      match result with
      | Ok (Some response) => push_event (EvControlResponse response) (self, events)
      | Ok None => (self, events)
      | Err _ => (mark_malformed self, events)
      end
  end.

Definition handle_standard_input (data : list Z) (st : Handler) : Handler :=
  let '(self, events) := st in
  match StandardInputReport_decode data with
  | Ok report =>
      push_event (EvStandardInput report)
        (self <| diagnostics ::= λ d, d <| standard_reports_received ::= λ n,
                   u32_saturating_add n 1 |> |>, events)
  | Err _ => (mark_malformed self, events)
  end.

Definition handle_release_all (data : list Z) (st : Handler) : Handler :=
  let '(self, events) := st in
  match data with
  | [] => push_event EvReleaseAll
            (self <| diagnostics ::= λ d, d <| releases_received ::= λ n,
                       u32_saturating_add n 1 |> |>, events)
  | _ :: _ => (mark_malformed self, events)
  end.

(** The [match record.record_type]; arms guarded [if self.host_compatible] fall to [_ => {}]. *)
Definition handle_record (now_ms : Z) (record : WireRecord) (st : Handler) : Handler :=
  let type := record_type record in
  let data := record_data record in
  if type =? RECORD_HELLO then handle_hello data now_ms st
  else if type =? RECORD_HEARTBEAT then st
  else if type =? RECORD_LINK_RESET then handle_link_reset now_ms st
  else if type =? RECORD_FORCE_FALLBACK then handle_force_fallback data now_ms st
  else if negb (host_compatible st.1) then st
  else if type =? RECORD_ACTIVATE_PROFILE
  then push_decoded (ActivateProfile_decode data) EvActivateProfile st
  else if type =? RECORD_PROFILE_BEGIN
  then push_decoded (ProfileBegin_decode data) EvProfileBegin st
  else if type =? RECORD_PROFILE_CHUNK then handle_profile_chunk data st
  else if type =? RECORD_PROFILE_COMMIT then push_decoded (try_u32 data) EvProfileCommit st
  else if type =? RECORD_RAW_ENDPOINT_IN
  then push_decoded (RawEndpointReport_decode data) EvRawEndpointIn st
  else if type =? RECORD_CONTROL_RESPONSE then handle_control_response data st
  else if type =? RECORD_STANDARD_INPUT_REPORT then handle_standard_input data st
  else if type =? RECORD_STANDARD_RELEASE_ALL then handle_release_all data st
  else if type =? RECORD_MANAGEMENT_RESPONSE
  then push_decoded (ManagementResponse_decode data) EvManagementResponse st
  else if type =? RECORD_MANAGEMENT_EVENT
  then push_decoded (ManagementEvent_decode data) EvManagementEvent st
  else st.

(** The record loop and the [finish] check after it; [drain_fuel] turns are enough. *)
Fixpoint handle_records (fuel : nat) (now_ms : Z) (records : RecordIter) (st : Handler) : Handler :=
  match fuel with
  | O => st
  | S fuel =>
      match RecordIter_next records with
      | (Some (Ok record), records) => handle_records fuel now_ms records (handle_record now_ms record st)
      | (Some (Err _), _) => (mark_malformed st.1, st.2)
      | (None, records) =>
          match RecordIter_finish records with
          | Ok _ => st
          | Err _ => (mark_malformed st.1, st.2)
          end
      end
  end.

Definition is_compatible_hello (item : Result RecordCodecError WireRecord) : bool :=
  match item with
  | Err _ => false
  | Ok record =>
      (record_type record =? RECORD_HELLO) &&
      match Hello_decode (record_data record) with
      | Ok hello => is_compatible_host hello
      | Err _ => false
      end
  end.

(** [records.by_ref().any(..)]: stops after the first record that fits. *)
Fixpoint any_record (fuel : nat) (p : Result RecordCodecError WireRecord → bool)
  (records : RecordIter) : bool * RecordIter :=
  match fuel with
  | O => (false, records)
  | S fuel =>
      match RecordIter_next records with
      | (None, records) => (false, records)
      | (Some item, records) => if p item then (true, records) else any_record fuel p records
      end
  end.

Definition contains_compatible_host_hello (cell : SpiCell) : bool :=
  let records := RecordIter_new (SpiCell_payload cell) (record_count (header cell)) in
  let '(found, records) := any_record (drain_fuel records) is_compatible_hello records in
  found && is_ok (RecordIter_finish records).

Definition count_cell (f : DeviceLinkDiagnostics → DeviceLinkDiagnostics) (self : DeviceLink)
  : DeviceLink := self <| diagnostics ::= f |>.

(** What every valid cell does: it is counted and its acknowledgement taken. *)
Definition observe_cell (cell : SpiCell) (self : DeviceLink) : DeviceLink :=
  count_cell (λ d, d <| valid_cells ::= λ n, u32_saturating_add n 1 |>) self
    <| dl_sender ::= λ s, (sender_acknowledge s (cumulative_ack (header cell))).2 |>.

(** A cell of another session than the last: what is dropped with the old session. *)
Definition forget_session (self : DeviceLink) : DeviceLink :=
  count_cell (λ d, d <| host_session_changes ::= λ n, u32_saturating_add n 1 |>) self
    <| host_compatible := false |> <| control_request_tx := None |>
    <| control_response_assembler ::= asm_reset |> <| management_request_tx := None |>.

(** From [self.receiver.receive] on. *)
Definition receive_cell (cell : SpiCell) (now_ms : Z) (st : Handler) : Handler :=
  let '(self, events) := st in
  let '(disposition, receiver) := receive (dl_receiver self) cell in
  let self := self <| dl_receiver := receiver |> in
  match disposition with
  | DispAccepted _ _ =>
      let records := RecordIter_new (SpiCell_payload cell) (record_count (header cell)) in
      handle_records (drain_fuel records) now_ms records (self, events)
  | DispDuplicate _ =>
      (count_cell (λ d, d <| duplicate_cells ::= λ n, u32_saturating_add n 1 |>) self, events)
  | DispGap _ _ =>
      (count_cell (λ d, d <| sequence_gaps ::= λ n, u32_saturating_add n 1 |>) self, events)
  | DispEmpty | DispSessionChanged => (self, events)
  end.

Definition handle_transaction (self : DeviceLink) (bytes : list Z) (now_ms : Z)
  (events : list DeviceLinkEvent) : Handler :=
  match SpiCell_decode bytes with
  | Err _ => (mark_malformed self, events)
  | Ok cell =>
      let self := observe_cell cell self in
      if decide (receiver_session_id (dl_receiver self) ≠ Some (session_id (header cell))) then
        let self := forget_session self in
        if contains_compatible_host_hello cell then receive_cell cell now_ms (self, events)
        else (self <| dl_receiver := receiver_reset_session (session_id (header cell)) |>, events)
      else if negb (host_compatible self) && negb (contains_compatible_host_hello cell)
      then (self, events)
      else receive_cell cell now_ms (self, events)
  end.
End Receive.

(** ** What the operations leave alone *)

(** Sending changes the sender and what is waiting to be sent, never the receiving side. *)
Definition same_reception (a b : DeviceLink) : Prop :=
  dl_receiver a = dl_receiver b ∧ host_compatible a = host_compatible b.

#[export] Instance same_reception_preorder : PreOrder same_reception.
Proof. split; [done|]. intros a b c [] []. split; congruence. Qed.

Lemma queue_records_sender self rs now :
  ∃ sender, (queue_records self rs now).2 = self <| dl_sender := sender |>.
Proof.
  unfold queue_records. destruct (encode_records _ _) as [p [[l c]|]]; [|by exists (dl_sender self); destruct self].
  destruct (sender_queue _ _ _ _) as [[cell sender]|]; [by exists sender|by exists (dl_sender self); destruct self].
Qed.

Lemma queue_records_reception self rs now : same_reception (queue_records self rs now).2 self.
Proof. by destruct (queue_records_sender self rs now) as [sender ->]. Qed.

(** Follow a queueing method to its [queue_records]. *)
Ltac reception :=
  match goal with
  | |- context [queue_records ?s ?rs ?now] =>
      let Hr := fresh "Hr" in
      pose proof (queue_records_reception s rs now) as Hr;
      let o := fresh "o" in let s' := fresh "s'" in
      destruct (queue_records s rs now) as [o s'] eqn:?; destruct o;
      repeat case_match; cbn in *; destruct Hr; split; cbn in *; congruence
  end.

Lemma queue_hello_reception self now : same_reception (queue_hello self now).2 self.
Proof. apply queue_records_reception. Qed.
Lemma queue_hello_ack_reception self now :
  same_reception (queue_hello_ack_and_usb_state self now).2 self.
Proof. unfold queue_hello_ack_and_usb_state. reception. Qed.
Lemma queue_dirty_reception self now : same_reception (queue_dirty_usb_state self now).2 self.
Proof.
  unfold queue_dirty_usb_state, queue_record. case_match; [done|]. reception.
Qed.

(** The same as rewriting rules. *)
Lemma queue_hello_receiver self now : dl_receiver (queue_hello self now).2 = dl_receiver self.
Proof. apply queue_hello_reception. Qed.
Lemma queue_hello_ack_receiver self now :
  dl_receiver (queue_hello_ack_and_usb_state self now).2 = dl_receiver self.
Proof. apply queue_hello_ack_reception. Qed.
Lemma queue_dirty_receiver self now :
  dl_receiver (queue_dirty_usb_state self now).2 = dl_receiver self.
Proof. apply queue_dirty_reception. Qed.
Create Rewrite HintDb reception.
#[export] Hint Rewrite queue_hello_receiver queue_hello_ack_receiver queue_dirty_receiver : reception.

Section Properties.
Context (EVENTS : nat).

Lemma push_event_spec event st :
  (push_event EVENTS event st).2 = st.2 ++ (if decide (length st.2 < EVENTS)%nat then [event] else []) ∧
  ∃ d, (push_event EVENTS event st).1 = st.1 <| diagnostics := d |>.
Proof.
  destruct st as [self events]. unfold push_event, vec_push. cbn [fst snd]. case_decide.
  - split; [done|]. exists (diagnostics self). by destruct self.
  - rewrite app_nil_r. split; [done|]. by eexists.
Qed.

Lemma push_event_reception event st : same_reception (push_event EVENTS event st).1 st.1.
Proof. destruct (push_event_spec event st) as (_ & d & ->). done. Qed.

(** A handler keeps the receiver and only appends events, within the capacity. *)
Definition appends (st st' : Handler) : Prop :=
  dl_receiver st'.1 = dl_receiver st.1 ∧
  ∃ new, st'.2 = st.2 ++ new ∧ ((length st.2 ≤ EVENTS)%nat → (length st'.2 ≤ EVENTS)%nat).

#[export] Instance appends_preorder : PreOrder appends.
Proof.
  split.
  - intros st. split; [done|]. exists []. by rewrite app_nil_r.
  - intros a b c [H1 (n1 & E1 & L1)] [H2 (n2 & E2 & L2)]. split; [congruence|].
    exists (n1 ++ n2). rewrite E2, E1, app_assoc. rewrite E2, E1 in L2. rewrite E1 in L1. auto.
Qed.

Lemma appends_push event st : appends st (push_event EVENTS event st).
Proof.
  destruct (push_event_spec event st) as (E & d & H). split; [by rewrite H|].
  eexists. split; [exact E|]. rewrite E, length_app. case_decide; cbn [length]; lia.
Qed.

Lemma appends_self self self' events : dl_receiver self' = dl_receiver self →
  appends (self, events) (self', events).
Proof. intros H. split; [done|]. exists []. by rewrite app_nil_r. Qed.

Lemma appends_decoded {E A} (d : Result E A) ev st : appends st (push_decoded EVENTS d ev st).
Proof. destruct d, st; cbn [push_decoded]; [apply appends_push|by apply appends_self]. Qed.

(** Chain the steps of a handler. *)
Ltac appends_steps :=
  repeat first
    [ reflexivity | done
    | apply appends_decoded | apply appends_push
    | apply appends_self; unfold store_cell; cbn; autorewrite with reception; done
    | etrans; [|apply appends_push]
    | case_match ].

Lemma handle_record_appends now r st : appends st (handle_record EVENTS now r st).
Proof.
  destruct st as [self events]. unfold handle_record. cbn [fst].
  repeat (case_match; [try (apply appends_decoded)|]); try reflexivity.
  - unfold handle_hello. appends_steps.
  - unfold handle_link_reset. appends_steps.
  - unfold handle_force_fallback. case_match; [|appends_steps].
    destruct (push_event EVENTS (EvForceFallback a) (self, events)) as [self' events'] eqn:E.
    trans (self', events'); [rewrite <- E; apply appends_push|].
    apply appends_self. case_match; [|done]. unfold store_cell. cbn. by autorewrite with reception.
  - unfold handle_profile_chunk. appends_steps.
  - unfold handle_control_response. case_match; [|appends_steps].
    destruct (ControlResponseAssembler_push _ _) as [asm result].
    trans (self <| control_response_assembler := asm |>, events); [by apply appends_self|].
    appends_steps.
  - unfold handle_standard_input. case_match; [|appends_steps]. etrans; [|apply appends_push].
    by apply appends_self.
  - unfold handle_release_all. case_match; [|appends_steps]. etrans; [|apply appends_push].
    by apply appends_self.
Qed.

Lemma handle_records_appends fuel now it st : appends st (handle_records EVENTS fuel now it st).
Proof.
  revert it st. induction fuel as [|fuel IH]; intros it st; cbn [handle_records]; [done|].
  destruct (RecordIter_next it) as [[[r|e]|] it'].
  - etrans; [apply handle_record_appends|apply IH].
  - destruct st. by apply appends_self.
  - case_match; [done|]. destruct st. by apply appends_self.
Qed.

(** The cells whose records [handle_transaction] processes. *)
Definition accepts (self : DeviceLink) (cell : SpiCell) : Prop :=
  (∃ changed ack, (receive (dl_receiver self) cell).1 = DispAccepted changed ack) ∧
  (receiver_session_id (dl_receiver self) = Some (session_id (header cell)) ∧
     host_compatible self = true ∨
   contains_compatible_host_hello cell = true).

(** The receiver has seen everything up to this cell: receiving it again accepts nothing. *)
Definition settled (receiver : ReliableReceiver) (cell : SpiCell) : Prop :=
  receiver_session_id receiver = Some (session_id (header cell)) ∧
  (receive receiver cell).2 = receiver ∧
  ∀ changed ack, (receive receiver cell).1 ≠ DispAccepted changed ack.

Lemma receive_settles R cell : settled (receive R cell).2 cell.
Proof.
  destruct R as [sid ack].
  assert (∀ ack, settled (mkReliableReceiver (Some (session_id (header cell))) ack) cell ∨
    ack ≠ tx_sequence (header cell) ∧ tx_sequence (header cell) ≠ 0 ∧
    tx_sequence (header cell) = next_sequence ack) as Hs.
  { intros k. unfold settled, receive. cbn [receiver_session_id receiver_cumulative_ack].
    rewrite bool_decide_false by tauto. case_decide as H0; [left; done|]. case_decide as H1.
    - right. split; [|done]. intros ->. revert H0 H1. unfold next_sequence. cbn. case_decide as Hd; unfold U16_MAX in *; lia.
    - left. case_match; done. }
  unfold receive. cbn [receiver_session_id receiver_cumulative_ack].
  set (base := if bool_decide _ then mkReliableReceiver _ _ else _).
  assert (receiver_session_id base = Some (session_id (header cell))) as Hb.
  { unfold base. case_bool_decide as H; [done|]. done. }
  destruct base as [bs bk]. cbn [receiver_session_id receiver_cumulative_ack] in *. subst bs.
  assert (∀ k, tx_sequence (header cell) = k → settled (mkReliableReceiver (Some (session_id (header cell))) k) cell) as Hdone.
  { intros k <-. destruct (Hs (tx_sequence (header cell))) as [?|(? & _)]; done. }
  case_decide as H0; [|case_decide as H1].
  - cbn [snd]. by destruct (Hs bk) as [?|(_ & ? & _)].
  - cbn [snd]. by apply Hdone.
  - assert (settled (mkReliableReceiver (Some (session_id (header cell))) bk) cell)
      by (destruct (Hs bk) as [?|(_ & _ & ?)]; done).
    by case_match.
Qed.

Lemma receive_cell_spec cell now st :
  appends (st.1 <| dl_receiver := (receive (dl_receiver st.1) cell).2 |>, st.2)
    (receive_cell EVENTS cell now st) ∧
  ((∀ changed ack, (receive (dl_receiver st.1) cell).1 ≠ DispAccepted changed ack) →
   (receive_cell EVENTS cell now st).2 = st.2 ∧
   ∃ d, (receive_cell EVENTS cell now st).1 =
     st.1 <| dl_receiver := (receive (dl_receiver st.1) cell).2 |> <| diagnostics := d |>).
Proof.
  destruct st as [self events]. unfold receive_cell.
  destruct (receive (dl_receiver self) cell) as [disp R] eqn:E. cbn [fst snd]. rewrite E.
  split.
  - destruct disp; try (by apply appends_self). apply handle_records_appends.
  - intros H. destruct disp; try (by exfalso; eapply H); (split; [done|]);
      first [by eexists | by exists (diagnostics self)].
Qed.

Lemma observe_cell_eq cell self :
  ∃ d sender, observe_cell cell self = self <| diagnostics := d |> <| dl_sender := sender |>.
Proof. do 2 eexists. reflexivity. Qed.

(** A settled cell changes nothing but counters and the acknowledged part of the window. *)
Lemma handle_settled self cell bytes now events :
  SpiCell_decode bytes = Ok cell →
  settled (dl_receiver self) cell ∨
    receiver_session_id (dl_receiver self) = Some (session_id (header cell)) ∧
    host_compatible self = false ∧ contains_compatible_host_hello cell = false →
  let '(self', events') := handle_transaction EVENTS self bytes now events in
  events' = events ∧
  self' = self <| diagnostics := diagnostics self' |> <| dl_sender := dl_sender self' |>.
Proof.
  intros Hd H. unfold handle_transaction. rewrite Hd. destruct (observe_cell_eq cell self) as (d0 & snd0 & ->).
  set (s1 := self <| diagnostics := d0 |> <| dl_sender := snd0 |>).
  assert (receiver_session_id (dl_receiver self) = Some (session_id (header cell))) as Hs.
  { destruct H as [[? _]|[? _]]; done. }
  change (dl_receiver s1) with (dl_receiver self). rewrite decide_False by tauto.
  change (host_compatible s1) with (host_compatible self).
  destruct (negb (host_compatible self) && _) eqn:Hskip; [by destruct self|].
  destruct H as [(_ & Hr & Hn)|(_ & Hc & Hh)]; [|by rewrite Hc, Hh in Hskip].
  destruct (receive_cell_spec cell now (s1, events)) as [_ Hspec].
  destruct (receive_cell EVENTS cell now (s1, events)) as [s2 e2].
  destruct Hspec as (He & d & Hs2); [exact Hn|]. cbn [fst snd] in *. split; [done|].
  subst s2. change (dl_receiver s1) with (dl_receiver self). rewrite Hr. by destruct self.
Qed.

Lemma receive_cell_settles self cell now events : (length events ≤ EVENTS)%nat →
  let '(self', events') := receive_cell EVENTS cell now (self, events) in
  settled (dl_receiver self') cell ∧
  ∃ new, events' = events ++ new ∧ (length events' ≤ EVENTS)%nat ∧
    (new ≠ [] → ∃ changed ack, (receive (dl_receiver self) cell).1 = DispAccepted changed ack).
Proof.
  intros Hcap. destruct (receive_cell_spec cell now (self, events)) as [[HR (new & He & Hl)] Hn].
  destruct (receive_cell EVENTS cell now (self, events)) as [self' events']. cbn in HR, He, Hl, Hn.
  split; [rewrite HR; apply receive_settles|]. exists new. split; [done|split; [auto|]].
  intros Hne. assert (∀ disp, disp = (receive (dl_receiver self) cell).1 →
    (∃ changed ack, disp = DispAccepted changed ack) ∨ ∀ changed ack, disp ≠ DispAccepted changed ack)
    as Hd by (intros []; eauto).
  destruct (Hd _ eq_refl) as [?|H]; [done|]. destruct (Hn H) as [He' _]. rewrite He' in He.
  apply (f_equal length) in He. rewrite length_app in He. destruct new; [done|cbn in He; lia].
Qed.
End Properties.

(** ** Records that arrive whole *)

Lemma handle_records_wire EVENTS rs pre fuel now st : Forall record_ok rs → (length rs < fuel)%nat →
  handle_records EVENTS fuel now
    (mkRecordIter (pre ++ records_wire rs) (length pre) (Z.of_nat (length rs)) false) st =
  fold_left (λ st r, handle_record EVENTS now r st) rs st.
Proof.
  intros Hrs. revert pre fuel st.
  induction Hrs as [|r rs Hr Hrs IH]; intros pre fuel st Hfuel;
    (destruct fuel as [|fuel]; [cbn in Hfuel; lia|]); cbn [handle_records].
  - assert (RecordIter_next (mkRecordIter (pre ++ records_wire []) (length pre) (Z.of_nat (length (A := WireRecord) [])) false)
      = (None, mkRecordIter (pre ++ records_wire []) (length pre) 0 false)) as -> by done.
    unfold RecordIter_finish. cbn [iter_failed iter_remaining iter_offset iter_bytes].
    rewrite decide_False; [done|]. unfold records_wire. cbn. rewrite app_nil_r. lia.
  - cbn [length] in Hfuel. unfold records_wire. cbn [map concat length]. fold (records_wire rs).
    rewrite Nat2Z.inj_succ. unfold Z.succ. rewrite next_record by (done || lia).
    cbn [fold_left]. rewrite <- length_app, app_assoc. apply IH. lia.
Qed.

Lemma handle_new_records EVENTS rs now st : Forall record_ok rs →
  let it := RecordIter_new (records_wire rs) (Z.of_nat (length rs)) in
  handle_records EVENTS (drain_fuel it) now it st =
    fold_left (λ st r, handle_record EVENTS now r st) rs st.
Proof.
  intros H. apply (handle_records_wire EVENTS rs []); [done|].
  unfold drain_fuel, RecordIter_new. cbn [iter_remaining]. lia.
Qed.

Definition input_event (r : InputReport) : DeviceLinkEvent :=
  match r with RawInput m => EvRawEndpointIn m | StandardInput m => EvStandardInput m end.

Lemma handle_input_record EVENTS now r self events : input_wf r → host_compatible self = true →
  (length events < EVENTS)%nat →
  ∃ d, handle_record EVENTS now (input_record r) (self, events) =
    (self <| diagnostics := d |>, events ++ [input_event r]).
Proof.
  intros Hr Hc Hcap. pose proof (read_input_record_ok r Hr) as Hread. unfold handle_record. cbn [fst].
  rewrite Hc. unfold read_input_record in Hread. destruct r as [m|m]; cbn in Hread |- *.
  - destruct (RawEndpointReport_decode _); [|done]. injection Hread as ->. cbn.
    unfold vec_push. rewrite decide_True by done. exists (diagnostics self). by destruct self.
  - unfold handle_standard_input. destruct (StandardInputReport_decode _); [|done].
    injection Hread as ->. unfold push_event, vec_push. rewrite decide_True by done. by eexists.
Qed.

Lemma handle_input_records EVENTS now rs self events : Forall input_wf rs →
  host_compatible self = true → (length events + length rs ≤ EVENTS)%nat →
  ∃ d, fold_left (λ st r, handle_record EVENTS now r st) (map input_record rs) (self, events) =
    (self <| diagnostics := d |>, events ++ map input_event rs).
Proof.
  intros Hrs. revert self events. induction Hrs as [|r rs Hr Hrs IH]; intros self events Hc Hcap.
  - exists (diagnostics self). cbn. rewrite app_nil_r. by destruct self.
  - cbn [map fold_left length] in *.
    destruct (handle_input_record EVENTS now r self events) as [d ->]; [done|done|lia|].
    destruct (IH (self <| diagnostics := d |>) (events ++ [input_event r])) as [d' ->]; [done|rewrite length_app; cbn; lia|].
    exists d'. by rewrite <- app_assoc.
Qed.

(** C22: a received image acts at most once.  Handling any 128 bytes appends events, within the
    capacity, only when they decode to a cell the receiver accepts from a host whose
    compatibility is established or proved by that cell; and handling the same bytes again
    later in the resulting state appends nothing and changes only counters and which cells
    the sender still holds. *)
Theorem device_acts_once (EVENTS : nat) self bytes now events :
  (length events ≤ EVENTS)%nat →
  let '(self1, events1) := handle_transaction EVENTS self bytes now events in
  (∃ new, events1 = events ++ new ∧ (length events1 ≤ EVENTS)%nat ∧
     (new ≠ [] → ∃ cell, SpiCell_decode bytes = Ok cell ∧ accepts self cell)) ∧
  ∀ now2 events2,
    let '(self2, events3) := handle_transaction EVENTS self1 bytes now2 events2 in
    events3 = events2 ∧
    self2 = self1 <| diagnostics := diagnostics self2 |> <| dl_sender := dl_sender self2 |>.
Proof.
  intros Hcap. destruct (SpiCell_decode bytes) as [cell|e] eqn:Hd.
  2:{ unfold handle_transaction. rewrite Hd. split; [|intros; by destruct self].
      exists []. by rewrite app_nil_r. }
  destruct (handle_transaction EVENTS self bytes now events) as [self1 events1] eqn:H1.
  assert ((∃ new, events1 = events ++ new ∧ (length events1 ≤ EVENTS)%nat ∧
      (new ≠ [] → accepts self cell)) ∧
    (settled (dl_receiver self1) cell ∨
     receiver_session_id (dl_receiver self1) = Some (session_id (header cell)) ∧
     host_compatible self1 = false ∧ contains_compatible_host_hello cell = false)) as [Hev Hset].
  2:{ split.
      - destruct Hev as (new & He & Hl & Ha). exists new. split; [done|split; [done|]]. eauto.
      - intros now2 events2. pose proof (handle_settled EVENTS self1 cell bytes now2 events2 Hd Hset) as H.
        by destruct (handle_transaction EVENTS self1 bytes now2 events2). }
  unfold handle_transaction in H1. rewrite Hd in H1.
  destruct (observe_cell_eq cell self) as (d0 & snd0 & Eobs). rewrite Eobs in H1.
  set (s1 := self <| diagnostics := d0 |> <| dl_sender := snd0 |>) in *.
  change (dl_receiver s1) with (dl_receiver self) in H1. unfold accepts. case_decide as Hs.
  - destruct (contains_compatible_host_hello cell) eqn:Hh.
    + pose proof (receive_cell_settles EVENTS (forget_session s1) cell now events Hcap) as H.
      rewrite H1 in H. destruct H as (Hset & new & He & Hl & Ha). split; [|by left].
      exists new. split; [done|split; [done|]]. auto.
    + injection H1 as <- <-. split; [|by right]. exists []. by rewrite app_nil_r.
  - change (host_compatible s1) with (host_compatible self) in H1.
    destruct (negb (host_compatible self) && negb (contains_compatible_host_hello cell)) eqn:Hskip.
    + injection H1 as <- <-. apply andb_true_iff in Hskip as [Hc Hh]. apply negb_true_iff in Hc, Hh.
      split; [|by right]. exists []. by rewrite app_nil_r.
    + pose proof (receive_cell_settles EVENTS s1 cell now events Hcap) as H.
      rewrite H1 in H. destruct H as (Hset & new & He & Hl & Ha). split; [|by left].
      exists new. split; [done|split; [done|]]. intros Hne. split; [by apply Ha|].
      apply andb_false_iff in Hskip as [H|H]; apply negb_false_iff in H; [by left|by right].
Qed.

(** ** From the host's batch to the device's events *)

(** The host's sender and the device's receiver agree on the session and the next cell. *)
Record in_step (host : ReliableSender) (device : DeviceLink) : Prop := {
  step_compatible : host_compatible device = true;
  step_session : receiver_session_id (dl_receiver device) = Some (sender_session_id host);
  step_next : sender_next_sequence host = next_sequence (receiver_cumulative_ack (dl_receiver device));
  step_session_ok : u32_ok (sender_session_id host);
  step_next_ok : 1 ≤ sender_next_sequence host ≤ U16_MAX;
  step_ack_ok : u16_ok (sender_cumulative_ack host)
}.

Lemma receive_in_step host device cell : in_step host device →
  session_id (header cell) = sender_session_id host →
  tx_sequence (header cell) = sender_next_sequence host →
  receive (dl_receiver device) cell =
    (DispAccepted false (tx_sequence (header cell)),
     mkReliableReceiver (Some (sender_session_id host)) (tx_sequence (header cell))).
Proof.
  intros [] Hs Hn. unfold receive. rewrite Hs, bool_decide_false by tauto.
  rewrite decide_False by lia. rewrite decide_True by congruence. by rewrite step_session0.
Qed.

(** C23: input reaches the device.  Take any waiting reports, batched as the host batches them,
    queued on a sender in step with the device.  If the window has room, the cell has an
    image, and when the device handles that image it appends exactly the batched reports to
    its events, in order, acknowledges the cell, and stays in step with the sender. *)
Theorem input_batch_delivered EVENTS host device r rs now now' :
  Forall input_wf (r :: rs) → in_step host device →
  let '(batch, rest) := fill_batch (batch_new r) rs in
  let '(payload, count) := batch_encoded batch in
  ∃ taken, r :: rs = taken ++ rest ∧ taken ≠ [] ∧
    ∀ cell host' events, sender_queue host payload count now = Ok (cell, host') →
      (length events + length taken ≤ EVENTS)%nat →
      ∃ bytes, SpiCell_encode cell = Ok bytes ∧
        let '(device', events') := handle_transaction EVENTS device bytes now' events in
        events' = events ++ map input_event taken ∧
        receiver_cumulative_ack (dl_receiver device') = tx_sequence (header cell) ∧
        in_step host' device'.
Proof.
  intros Hall Hstep. inversion_clear Hall as [|? ? Hr Hrs].
  pose proof (fill_batch_holds rs Hrs _ _ (batch_new_holds r Hr)) as H.
  destruct (fill_batch _ rs) as [b rest]. destruct H as (taken & -> & [Hc Hl Hf Hp] & _).
  apply Forall_app in Hrs as [Htaken _]. change ([r] ++ taken) with (r :: taken) in *.
  assert (Forall input_wf (r :: taken)) as Hwf by by constructor.
  unfold batch_encoded. rewrite Hl, Nat2Z.id, Hp, Hc, take_app_length.
  exists (r :: taken). split; [done|split; [done|]]. intros cell host' events Hq Hcap.
  assert (Forall record_ok (map input_record (r :: taken))) as Hok.
  { apply Forall_map. eapply List.Forall_impl; [|exact Hwf]. exact input_record_ok. }
  pose proof (batch_count_le _ Hf) as Hn.
  pose proof (queue_cell_wire host (batch_bytes (r :: taken)) (Z.of_nat (length (r :: taken))) now cell host'
    (step_session_ok _ _ Hstep) (step_next_ok _ _ Hstep) (step_ack_ok _ _ Hstep)
    (records_wire_ok _ Hok) ltac:(unfold u8_ok; lia) Hq) as (Hw & Hpay & Hsid & Hseq & Hcount & Hh).
  destruct (cell_wire_roundtrip cell Hw) as (bytes & He & _ & _ & Hd). exists bytes. split; [done|].
  unfold handle_transaction. rewrite Hd. destruct (observe_cell_eq cell device) as (d0 & snd0 & ->).
  pose proof (receive_in_step host device cell Hstep Hsid Hseq) as Hrecv.
  destruct Hstep as [Sc Ss Sn So Sb Sa].
  set (s1 := device <| diagnostics := d0 |> <| dl_sender := snd0 |>).
  change (dl_receiver s1) with (dl_receiver device). change (host_compatible s1) with (host_compatible device).
  rewrite decide_False by (rewrite Ss, Hsid; tauto). rewrite Sc. cbn [negb andb].
  unfold receive_cell. change (dl_receiver s1) with (dl_receiver device). rewrite Hrecv, Hpay, Hcount.
  pose proof (λ st, handle_new_records EVENTS (map input_record (r :: taken)) now' st Hok) as Hrecs.
  cbv zeta in Hrecs. rewrite length_map in Hrecs. unfold batch_bytes. rewrite Hrecs.
  destruct (handle_input_records EVENTS now' (r :: taken) (s1 <| dl_receiver :=
    mkReliableReceiver (Some (sender_session_id host)) (tx_sequence (header cell)) |>) events) as [d ->];
    [done|done|done|].
  split; [done|split; [done|]]. rewrite Hh. split; cbn; try done.
  - by rewrite Hseq.
  - unfold next_sequence. case_decide; unfold U16_MAX in *; lia.
Qed.

(** ** What the device puts on the wire *)

(** A cell the sender may emit in its current session. *)
Definition cell_of (session : Z) (c : SpiCell) : Prop :=
  cell_wire c ∧ session_id (header c) = session.

Definition option_all {A} (P : A → Prop) (o : option A) : Prop :=
  match o with Some a => P a | None => True end.

Record sender_ok (s : ReliableSender) : Prop := {
  so_session : u32_ok (sender_session_id s);
  so_nonzero : sender_session_id s ≠ 0;
  so_next : 1 ≤ sender_next_sequence s ≤ U16_MAX;
  so_ack : u16_ok (sender_cumulative_ack s);
  so_pending : Forall (option_all (λ p, cell_of (sender_session_id s) (pending_cell p))) (pending s)
}.

Lemma sender_ok_new session : u32_ok session → session ≠ 0 → sender_ok (ReliableSender_new session).
Proof. intros H1 H2. split; cbn; try done. by repeat apply List.Forall_cons. Qed.

Lemma next_sequence_range n : 1 ≤ n ≤ U16_MAX → 1 ≤ next_sequence n ≤ U16_MAX.
Proof. unfold next_sequence, U16_MAX. intros H. case_decide; lia. Qed.

Lemma sender_ok_queue s payload count now cell s' : sender_ok s → bytes_ok payload → u8_ok count →
  sender_queue s payload count now = Ok (cell, s') →
  sender_ok s' ∧ cell_of (sender_session_id s') cell ∧ sender_session_id s' = sender_session_id s.
Proof.
  intros [Hs Hz Hn Ha Hp] Hb Hc Hq.
  pose proof (queue_cell_wire _ _ _ _ _ _ Hs Hn Ha Hb Hc Hq) as (Hw & _ & Hsid & _ & _ & Hs').
  assert (pending s' = <[default 0%nat (position is_none (pending s)) := Some (mkPendingCell cell now 1)]> (pending s)) as Hpend.
  { unfold sender_queue in Hq. case_decide; [done|]. destruct (position is_none (pending s)); [|done].
    by injection Hq as <- <-. }
  assert (cell_of (sender_session_id s) cell) as Hcell by done.
  rewrite Hs'. split; [split; cbn; try done; [by apply next_sequence_range|]|done].
  rewrite Hpend. by apply Forall_insert.
Qed.

Lemma shift_pending_all (P : PendingCell → Prop) n l :
  Forall (option_all P) l → Forall (option_all P) (shift_pending n l).
Proof.
  unfold shift_pending. revert l. induction (seq 0 SPI_TX_WINDOW) as [|d ds IH]; intros l Hl; [done|].
  cbn [fold_left]. apply IH. apply Forall_insert; [done|]. unfold mjoin, option_join.
  case_match eqn:E; [|done]. rewrite Forall_lookup in Hl. by eapply Hl.
Qed.

Lemma sender_ok_acknowledge s ack : sender_ok s → sender_ok (sender_acknowledge s ack).2.
Proof.
  intros [Hs Hz Hn Ha Hp]. unfold sender_acknowledge. case_match; [|by split].
  split; try done. by apply shift_pending_all.
Qed.

Lemma cell_of_ack session c ack : u16_ok ack → cell_of session c →
  cell_of session (c <| header ::= λ h, h <| cumulative_ack := ack |> |>).
Proof.
  intros Ha [(Hok & Hs & Hcan & Hm & Hv) H]. split; [|done]. split; [|done].
  destruct Hok as [[] Hp Hl]. split; [by split|done..].
Qed.

Lemma sender_ok_set_ack s ack : u16_ok ack → sender_ok s → sender_ok (set_cumulative_ack s ack).
Proof.
  intros Hk [Hs Hz Hn Ha Hp]. split; cbn; try done. rewrite Forall_map.
  eapply List.Forall_impl; [|exact Hp]. intros [p|] Hc; [|done]. exact (cell_of_ack _ _ ack Hk Hc).
Qed.

Lemma sender_ok_poll s now timeout max : sender_ok s →
  let '(action, s') := poll_retransmit s now timeout max in
  sender_ok s' ∧ sender_session_id s' = sender_session_id s ∧
  match action with RetransmitSend c => cell_of (sender_session_id s) c | _ => True end.
Proof.
  intros Hok. unfold poll_retransmit.
  destruct (position is_some (pending s)) as [slot|]; [|done].
  destruct (mjoin (pending s !! slot)) as [p|] eqn:E; [|done].
  assert (cell_of (sender_session_id s) (pending_cell p)) as Hc.
  { destruct Hok as [_ _ _ _ Hp]. rewrite Forall_lookup in Hp. unfold mjoin, option_join in E.
    case_match eqn:El; [|done]. subst. by apply (Hp _ _ El). }
  repeat case_decide; try done. split; [|done]. destruct Hok as [Hs Hz Hn Ha Hp].
  split; cbn; try done. by apply Forall_insert.
Qed.

Record dev_inv (self : DeviceLink) : Prop := {
  inv_sender : sender_ok (dl_sender self);
  inv_next_cell : option_all (cell_of (sender_session_id (dl_sender self))) (next_cell self);
  inv_rx_ack : u16_ok (receiver_cumulative_ack (dl_receiver self));
  inv_usb : usb_state_wf (usb_state self);
  inv_caps : u32_ok (capabilities self);
  inv_hash : u32_ok (active_profile_hash self);
  inv_control : option_all (λ p, creq_wf p.1) (control_request_tx self);
  inv_management : option_all request_ok (management_request_tx self)
}.

(** The result of a queueing method on [self]. *)
Definition queues (self : DeviceLink) (r : option SpiCell * DeviceLink) : Prop :=
  dev_inv r.2 ∧ option_all (cell_of (sender_session_id (dl_sender r.2))) r.1 ∧
  next_cell r.2 = next_cell self.

(** Changes to fields the invariant does not constrain. *)
Lemma dev_inv_fields self self' : dev_inv self →
  dl_sender self' = dl_sender self → next_cell self' = next_cell self →
  dl_receiver self' = dl_receiver self → usb_state self' = usb_state self →
  capabilities self' = capabilities self → active_profile_hash self' = active_profile_hash self →
  (control_request_tx self' = control_request_tx self ∨ control_request_tx self' = None) →
  (management_request_tx self' = management_request_tx self ∨ management_request_tx self' = None) →
  dev_inv self'.
Proof.
  intros [] E1 E2 E3 E4 E5 E6 E7 E8.
  split; rewrite ?E1, ?E2, ?E3, ?E4, ?E5, ?E6; try done; [destruct E7 as [->| ->]|destruct E8 as [->| ->]]; done.
Qed.

Lemma queues_refuse self : dev_inv self → queues self (None, self).
Proof. done. Qed.

Lemma queue_records_queues self rs now : dev_inv self → Forall record_ok rs → (length rs ≤ 255)%nat →
  queues self (queue_records self rs now).
Proof.
  intros Hinv Hrs Hl. unfold queue_records.
  pose proof (encode_records_spec rs (zeros SPI_CELL_PAYLOAD_LEN) Hrs Hl (length_zeros _)) as He.
  case_decide as Hfit.
  - rewrite He, Nat2Z.id, take_app_length.
    destruct (sender_queue _ _ _ _) as [[cell sender]|] eqn:Hq; [|by apply queues_refuse].
    destruct Hinv. apply sender_ok_queue in Hq as (Hs & Hc & Hsid); [|done|by apply records_wire_ok|unfold u8_ok; lia].
    split; [|done]. split; cbn; try done. by rewrite Hsid.
  - destruct (encode_records _ _) as [p [[? ?]|]]; [done|by apply queues_refuse].
Qed.

(** A message of the codec class makes a record. *)
Lemma codec_record_ok {M E} `{WireCodec M E} (m : M) type : u8_ok type → wire_wf m →
  Z.of_nat (length (wire m)) ≤ U16_MAX → record_ok (mkWireRecord type 0 (wire m)).
Proof. intros Ht Hm Hl. split; [done|split; [done|split; [|done]]]. by apply wire_bytes_ok. Qed.

Lemma queue_record_queues self type data now : dev_inv self → u8_ok type → bytes_ok data →
  Z.of_nat (length data) ≤ U16_MAX → queues self (queue_record self type data now).
Proof.
  intros Hinv Ht Hb Hl. apply queue_records_queues; [done| |cbn; lia].
  apply List.Forall_cons; [done|apply List.Forall_nil].
Qed.

Lemma device_hello_wf self : dev_inv self → hello_wf (device_hello self).
Proof. intros []. by split. Qed.

Lemma queue_hello_queues self now : dev_inv self → queues self (queue_hello self now).
Proof.
  intros H. apply queue_record_queues; [done|done| |done].
  exact (@wire_bytes_ok _ _ Hello_codec _ (device_hello_wf self H)).
Qed.

Lemma usb_state_bytes self : dev_inv self → bytes_ok (UsbState_encode (usb_state self)).
Proof. intros H. exact (@wire_bytes_ok _ _ UsbState_codec _ (inv_usb _ H)). Qed.

Lemma queue_hello_ack_queues self now : dev_inv self →
  queues self (queue_hello_ack_and_usb_state self now).
Proof.
  intros H. unfold queue_hello_ack_and_usb_state.
  pose proof (queue_records_queues self [mkWireRecord RECORD_HELLO_ACK 0 (Hello_encode (device_hello self));
    mkWireRecord RECORD_USB_STATE 0 (UsbState_encode (usb_state self))] now H) as Hq.
  destruct (queue_records _ _ _) as [cell self']. destruct Hq as (Hi & Hc & Hn); [|cbn; lia|].
  - apply List.Forall_cons; [|apply List.Forall_cons; [|apply List.Forall_nil]].
    + split; [done|split; [done|split; [|done]]]. exact (@wire_bytes_ok _ _ Hello_codec _ (device_hello_wf self H)).
    + split; [done|split; [done|split; [|done]]]. by apply usb_state_bytes.
  - destruct cell; cbn in *; (split; [|done]); [|done]. eapply dev_inv_fields; eauto.
Qed.

Lemma queue_dirty_queues self now : dev_inv self → queues self (queue_dirty_usb_state self now).
Proof.
  intros H. unfold queue_dirty_usb_state. case_match; [done|].
  pose proof (queue_record_queues self RECORD_USB_STATE (UsbState_encode (usb_state self)) now H
    ltac:(done) (usb_state_bytes self H) ltac:(done)) as (Hi & Hc & Hn).
  destruct (queue_record _ _ _ _) as [[cell|] self']; cbn in *; (split; [|done]); [|done].
  eapply dev_inv_fields; eauto.
Qed.

Lemma from_request_wf m offset f : creq_wf m → from_request m offset = Ok f → frag_wf setup_ok f.
Proof.
  intros (Hid & Hl & Hs & Hd & Hnew) H.
  pose proof (creq_new_data _ _ _ _ Hnew) as (_ & _ & _ & Hcap).
  assert (offset < length (creq_data m) ∨ offset = 0 ∧ length (creq_data m) = 0)%nat as Hoff.
  { unfold from_request, fragment_from, fragment_bounds in H. repeat case_decide; try done. lia. }
  unfold from_request in H. rewrite fragment_from_at in H by done. injection H as <-.
  do 5 eexists. split; [exact Hid|]. split; [split; [exact Hl|exact Hs]|]. split; [|done].
  split; [rewrite length_slice; lia|]. split; [rewrite length_slice; lia|].
  by apply bytes_ok_slice.
Qed.

Lemma req_frag_wire_length f : frag_wf setup_ok f → (length (req_frag_wire f) ≤ 104)%nat.
Proof.
  intros (id & tag & total & off & d & _ & [Hl _] & (_ & Hd & _) & ->). unfold req_frag_wire.
  rewrite frag_at_data. cbn [frag_tag frag_at]. rewrite !length_app, Hl. cbn [length u16_to_le_bytes u32_to_le_bytes].
  unfold CONTROL_FRAGMENT_DATA_MAX_LEN in Hd. lia.
Qed.

Lemma queue_fragment_queues self now : dev_inv self →
  queues self (queue_next_control_request_fragment self now).
Proof.
  intros H. unfold queue_next_control_request_fragment.
  destruct (control_request_tx self) as [[request offset]|] eqn:Etx; [|done].
  assert (creq_wf request) as Hreq by (pose proof (inv_control _ H) as Hc; by rewrite Etx in Hc).
  destruct (from_request request _) as [f|e] eqn:Ef; [|done].
  pose proof (from_request_wf _ _ _ Hreq Ef) as Hf. pose proof (req_frag_wire_length f Hf) as Hlen.
  rewrite req_frag_encode_wire.
  2:{ destruct Hf as (? & ? & ? & ? & ? & _ & [Hl _] & _ & ->). exact Hl. }
  rewrite decide_False by (rewrite length_zeros; unfold CONTROL_REQUEST_FRAGMENT_MAX_WIRE_LEN,
    CONTROL_REQUEST_FRAGMENT_HEADER_LEN, CONTROL_FRAGMENT_DATA_MAX_LEN; lia). unfold buffer_encoded. rewrite take_app_length.
  pose proof (queue_record_queues self RECORD_CONTROL_REQUEST (req_frag_wire f) now H ltac:(done)
    (@wire_bytes_ok _ _ ControlRequestFragment_codec f Hf) ltac:(unfold U16_MAX; lia)) as (Hi & Hc & Hn).
  destruct (queue_record _ _ _ _) as [[cell|] self']; cbn [fst snd] in *; [|done].
  case_match; (split; [|done]); cbn [snd].
  - eapply dev_inv_fields; eauto.
  - destruct Hi. by split.
Qed.

Lemma queue_pending_queues self now : dev_inv self →
  queues self (queue_pending_management_request self now).
Proof.
  intros H. unfold queue_pending_management_request.
  destruct (management_request_tx self) as [request|] eqn:Etx; [|done].
  assert (request_ok request) as Hreq by (pose proof (inv_management _ H) as Hm; by rewrite Etx in Hm).
  pose proof (queue_record_queues self RECORD_MANAGEMENT_REQUEST (ManagementRequest_encode request) now H
    ltac:(done) (request_encode_ok _ Hreq) ltac:(rewrite request_encode_length by done; done)) as (Hi & Hc & Hn).
  destruct (queue_record _ _ _ _) as [[cell|] self']; cbn [fst snd] in *; [|done].
  split; [|done]. eapply dev_inv_fields; eauto.
Qed.

Lemma store_cell_inv self r : queues self r → dev_inv (store_cell r).
Proof. intros (Hi & Hc & _). destruct Hi. by split. Qed.

Lemma queue_unless_busy_inv busy self queue : dev_inv self →
  (dev_inv self → dev_inv (store_cell (queue self))) → dev_inv (queue_unless_busy busy self queue).2.
Proof. intros H Hq. unfold queue_unless_busy. case_match; [done|]. by apply Hq. Qed.

Lemma with_capabilities_inv session state caps hash : u32_ok session → usb_state_wf state →
  u32_ok caps → u32_ok hash → dev_inv (DeviceLink_with_capabilities session state caps hash).
Proof.
  intros Hs Hu Hc Hh. unfold DeviceLink_with_capabilities. eapply store_cell_inv, queue_hello_queues.
  split; cbn; try done. apply sender_ok_new; unfold nonzero_session; by case_decide.
Qed.

(** The two chains of a transaction: what is sent, and that it is the sender's. *)
Lemma or_else_queues self r f : queues self r →
  (∀ self', dev_inv self' → next_cell self' = next_cell self → queues self' (f self')) →
  queues self (or_else r f).
Proof.
  intros (Hi & Hc & Hn) Hf. destruct r as [[cell|] self']; [done|]. cbn [or_else snd] in *.
  destruct (Hf self' Hi Hn) as (Hi' & Hc' & Hn'). split; [done|split; [done|congruence]].
Qed.

Lemma retransmit_queues self now : dev_inv self → next_cell self = None →
  queues self (retransmit_or_reset self now).
Proof.
  intros H Hn. unfold retransmit_or_reset.
  pose proof (sender_ok_poll (dl_sender self) now RETRANSMIT_TIMEOUT_MS MAX_RETRANSMIT_ATTEMPTS
    (inv_sender _ H)) as Hp.
  destruct (poll_retransmit _ _ _ _) as [action sender]. destruct Hp as (Hs & Hsid & Hc).
  pose proof H as [_ Hnc Hr Hu Hcap Hh Hct Hm]. rewrite Hn in Hnc.
  destruct action as [|cell|].
  - split; [|done]. split; cbn; try done. by rewrite Hn.
  - split; [|split; [|done]]; [split; cbn; try done; by rewrite Hn|]. cbn. by rewrite Hsid.
  - set (session := nonzero_session _).
    set (self' := self <| dl_sender := _ |> <| host_compatible := _ |> <| usb_state_dirty := _ |>).
    assert (dev_inv self') as H'.
    { split; cbn; try done; [|by rewrite Hn].
      apply sender_ok_new; unfold session, nonzero_session; case_decide; try done. apply as_u32_ok. }
    destruct (queue_hello_queues self' now H') as (H1 & H2 & H3). split; [done|split; [done|]].
    rewrite H3. done.
Qed.

Lemma next_transaction_spec self now : dev_inv self →
  let '(bytes, self') := next_transaction self now in
  dev_inv self' ∧ next_cell self' = None ∧
  ∃ cell, SpiCell_encode cell = Ok bytes ∧ SpiCell_decode bytes = Ok cell ∧
    length bytes = SPI_CELL_LEN ∧ bytes_ok bytes ∧
    session_id (header cell) = sender_session_id (dl_sender self') ∧
    cumulative_ack (header cell) = receiver_cumulative_ack (dl_receiver self').
Proof.
  intros H. unfold next_transaction. pose proof H as [Hs Hnc Hr Hu Hcap Hh Hct Hm].
  set (s0 := self <| dl_sender ::= _ |>).
  assert (dev_inv s0) as H0.
  { split; cbn; try done. by apply sender_ok_set_ack. }
  set (s1 := s0 <| next_cell := None |>).
  assert (queues s1 (next_cell s0, s1)) as Hq.
  { split; [|split; [|done]]; [|exact (inv_next_cell _ H0)]. destruct H0. by split. }
  pose proof (or_else_queues _ _ (λ self, queue_next_control_request_fragment self now) Hq
    (λ s H _, queue_fragment_queues s now H)) as Hq1.
  pose proof (or_else_queues _ _ (λ self, queue_pending_management_request self now) Hq1
    (λ s H _, queue_pending_queues s now H)) as Hq2.
  pose proof (or_else_queues _ _ (λ self, queue_dirty_usb_state self now) Hq2
    (λ s H _, queue_dirty_queues s now H)) as Hq3.
  pose proof (or_else_queues _ _ (λ self, retransmit_or_reset self now) Hq3
    (λ s H Hn, retransmit_queues s now H Hn)) as (Hi & Hc & Hn).
  set (r := or_else (or_else (or_else (or_else _ _) _) _) _) in *. clearbody r. clear Hq1 Hq2 Hq3.
  destruct r as [cell self']. cbn [fst snd] in *.
  assert (cell_of (sender_session_id (dl_sender self'))
    (default (SpiCell_empty (sender_session_id (dl_sender self'))) cell)) as Hcell.
  { destruct cell as [c|]; [exact Hc|]. destruct (inv_sender _ Hi) as [Hsid _ _ _ _].
    cbn [default]. split; [|done]. split; [apply SpiCell_empty_ok; exact Hsid|]. repeat split; cbn; try done; lia. }
  apply (cell_of_ack _ _ _ (inv_rx_ack _ Hi)) in Hcell as [Hw Hsid].
  set (out := default _ _ <| header ::= _ |>) in *.
  destruct (cell_wire_roundtrip out Hw) as (bytes & He & Hlen & Hb & Hd). rewrite He.
  split; [done|split; [done|]]. exists out. done.
Qed.

(** Changes to counters, flags and the assembler, and dropping what was to be sent. *)
Ltac inv_fields := eapply dev_inv_fields;
  [eassumption|cbn; first [reflexivity|left; reflexivity|right; reflexivity]..].

Lemma push_event_inv EVENTS ev st : dev_inv st.1 → dev_inv (push_event EVENTS ev st).1.
Proof. intros H. destruct (push_event_spec EVENTS ev st) as (_ & d & ->). inv_fields. Qed.
Lemma mark_malformed_inv self : dev_inv self → dev_inv (mark_malformed self).
Proof. intros H. inv_fields. Qed.
Lemma push_decoded_inv EVENTS {E A} (d : Result E A) ev st : dev_inv st.1 →
  dev_inv (push_decoded EVENTS d ev st).1.
Proof. intros H. destruct d; cbn [push_decoded fst]; [by apply push_event_inv|by apply mark_malformed_inv]. Qed.
#[local] Hint Resolve push_event_inv mark_malformed_inv push_decoded_inv : core.

Lemma handle_record_inv EVENTS now r st : dev_inv st.1 → dev_inv (handle_record EVENTS now r st).1.
Proof.
  destruct st as [self events]. cbn [fst]. intros H. unfold handle_record. cbn [fst].
  repeat (case_match; [try by apply push_decoded_inv|]); try done.
  - unfold handle_hello. case_match; [|by apply mark_malformed_inv]. cbn [fst].
    assert (dev_inv (self <| host_compatible := is_compatible_host a |>)) by inv_fields.
    case_match; [|done]. by eapply store_cell_inv, queue_hello_ack_queues.
  - unfold handle_link_reset. cbn [fst]. eapply store_cell_inv, queue_hello_queues. inv_fields.
  - unfold handle_force_fallback. case_match; [|by apply mark_malformed_inv].
    pose proof (push_event_inv EVENTS (EvForceFallback a) (self, events) H) as Hp.
    destruct (push_event _ _ _) as [self' events']. cbn [fst] in *.
    assert (dev_inv (self' <| usb_state_dirty := true |>)) by inv_fields.
    case_match; [|done]. by eapply store_cell_inv, queue_dirty_queues.
  - unfold handle_profile_chunk. case_match; [by apply push_decoded_inv|by apply mark_malformed_inv].
  - unfold handle_control_response. case_match; [|by apply mark_malformed_inv].
    destruct (ControlResponseAssembler_push _ _) as [asm result].
    assert (dev_inv (self <| control_response_assembler := asm |>)) by inv_fields.
    repeat case_match; [by apply push_event_inv|done|by apply mark_malformed_inv].
  - unfold handle_standard_input. case_match; [|by apply mark_malformed_inv].
    apply push_event_inv. cbn [fst]. inv_fields.
  - unfold handle_release_all. case_match; [|by apply mark_malformed_inv].
    apply push_event_inv. cbn [fst]. inv_fields.
Qed.

Lemma handle_records_inv EVENTS fuel now it st : dev_inv st.1 →
  dev_inv (handle_records EVENTS fuel now it st).1.
Proof.
  revert it st. induction fuel as [|fuel IH]; intros it st H; cbn [handle_records]; [done|].
  repeat case_match; try by apply mark_malformed_inv.
  - by apply IH, handle_record_inv.
  - done.
Qed.

Lemma receive_ack_ok R cell : u16_ok (receiver_cumulative_ack R) → u16_ok (tx_sequence (header cell)) →
  u16_ok (receiver_cumulative_ack (receive R cell).2).
Proof. intros H1 H2. unfold receive. repeat case_match; cbn; simplify_eq; done. Qed.

Lemma set_receiver_inv self R : dev_inv self → u16_ok (receiver_cumulative_ack R) →
  dev_inv (self <| dl_receiver := R |>).
Proof. intros [] HR. by split. Qed.

Lemma receive_cell_inv EVENTS cell now self events : dev_inv self →
  u16_ok (tx_sequence (header cell)) → dev_inv (receive_cell EVENTS cell now (self, events)).1.
Proof.
  intros H Hseq. unfold receive_cell.
  pose proof (receive_ack_ok (dl_receiver self) cell (inv_rx_ack _ H) Hseq) as Hack.
  destruct (receive (dl_receiver self) cell) as [disp R]. cbn [snd] in Hack.
  pose proof (set_receiver_inv _ _ H Hack) as H1.
  destruct disp; cbn [fst]; try done; [by apply handle_records_inv|inv_fields|inv_fields].
Qed.

Lemma forget_session_inv self : dev_inv self → dev_inv (forget_session self).
Proof. intros H. inv_fields. Qed.

Lemma handle_transaction_inv EVENTS self bytes now events : dev_inv self →
  length bytes = SPI_CELL_LEN → bytes_ok bytes →
  dev_inv (handle_transaction EVENTS self bytes now events).1.
Proof.
  intros H Hl Hb. unfold handle_transaction. destruct (SpiCell_decode bytes) as [cell|e] eqn:Hd.
  2:{ by apply mark_malformed_inv. }
  apply decode_inv in Hd as [(Hcell & _) _]; [|done|done].
  pose proof (ok_sequence _ (cell_header_ok _ Hcell)) as Hseq.
  assert (dev_inv (observe_cell cell self)) as H1.
  { destruct H. pose proof (sender_ok_acknowledge _ (cumulative_ack (header cell)) inv_sender0) as Hs.
    split; try done. unfold observe_cell, count_cell. cbn.
    unfold sender_acknowledge. by case_match. }
  case_decide.
  - pose proof (forget_session_inv _ H1) as H2.
    case_match; [by apply receive_cell_inv|]. cbn [fst]. by apply set_receiver_inv.
  - case_match; [done|]. by apply receive_cell_inv.
Qed.

(** The device's main loop: what it may do, with well-formed reports of its own and any bytes
    from the wire. *)
Inductive device_step : DeviceLink → DeviceLink → Prop :=
| dstep_usb s state now : usb_state_wf state → device_step s (update_usb_state s state now)
| dstep_output s m now : so_wf m → device_step s (queue_standard_output s m now).2
| dstep_result s m now : profile_result_wf m → device_step s (queue_profile_result s m now).2
| dstep_raw s m now : raw_wf m → device_step s (queue_raw_endpoint_out s m now).2
| dstep_control s m now : creq_wf m → device_step s (queue_control_request s m now).2
| dstep_management s m now : request_ok m → device_step s (queue_management_request s m now).2
| dstep_send s now : device_step s (next_transaction s now).2
| dstep_receive s EVENTS bytes now events : length bytes = SPI_CELL_LEN → bytes_ok bytes →
    device_step s (handle_transaction EVENTS s bytes now events).1.

Lemma device_step_inv s s' : device_step s s' → dev_inv s → dev_inv s'.
Proof.
  intros Hstep H. destruct Hstep.
  - unfold update_usb_state.
    assert (dev_inv (s <| usb_state := state |> <| usb_state_dirty := true |>)) by (destruct H; by split).
    case_match; [|done]. by eapply store_cell_inv, queue_dirty_queues.
  - apply queue_unless_busy_inv; [done|]. intros _. eapply store_cell_inv, queue_record_queues; try done.
    + exact (@wire_bytes_ok _ _ StandardOutputReport_codec _ H0).
    + destruct H0 as (_ & _ & Hnew). apply so_new_inv in Hnew as [Hl ->].
      unfold StandardOutputReport_encode. cbn [so_kind so_length so_data].
      rewrite ?length_app, ?length_cons, ?length_app, length_zeros. unfold U16_MAX. cbn [length]. lia.
  - apply queue_unless_busy_inv; [done|]. intros _. eapply store_cell_inv, queue_record_queues; try done.
    exact (@wire_bytes_ok _ _ ProfileResult_codec _ H0).
  - unfold queue_raw_endpoint_out. rewrite raw_encode_wire by done.
    pose proof (raw_data_le m H0) as Hl.
    assert (length (raw_wire m) ≤ 70)%nat as Hw by (unfold raw_wire; rewrite length_app; cbn [length app u16_to_le_bytes]; lia).
    rewrite decide_False by (rewrite length_zeros; unfold RAW_ENDPOINT_MAX_WIRE_LEN,
      RAW_ENDPOINT_HEADER_LEN, RAW_ENDPOINT_MAX_DATA_LEN; lia).
    unfold buffer_encoded. rewrite take_app_length.
    apply queue_unless_busy_inv; [done|]. intros _. eapply store_cell_inv, queue_record_queues; try done.
    + exact (@wire_bytes_ok _ _ RawEndpointReport_codec _ H0).
    + unfold U16_MAX. lia.
  - apply queue_unless_busy_inv; [done|]. intros _. eapply store_cell_inv, queue_fragment_queues.
    destruct H. by split.
  - apply queue_unless_busy_inv; [done|]. intros _. eapply store_cell_inv, queue_pending_queues.
    destruct H. by split.
  - pose proof (next_transaction_spec s now H) as Hn. by destruct (next_transaction s now) as [bytes s'], Hn.
  - by apply handle_transaction_inv.
Qed.

Lemma device_run_inv s s' : rtc device_step s s' → dev_inv s → dev_inv s'.
Proof. induction 1 as [|x y z Hxy _ IH]; [done|]. intros H. by eapply IH, device_step_inv. Qed.

(** C24: every transaction is well formed.  Whatever the device has been told and has received,
    the 128 bytes it puts on the bus decode to a cell of its current session that carries
    the receiver's cumulative acknowledgement, so the all-zero fallback of [unwrap_or] is never
    sent; and what was waiting in [next_cell] has been handed out. *)
Theorem device_transactions_valid session state caps hash self now :
  u32_ok session → usb_state_wf state → u32_ok caps → u32_ok hash →
  rtc device_step (DeviceLink_with_capabilities session state caps hash) self →
  let '(bytes, self') := next_transaction self now in
  next_cell self' = None ∧
  ∃ cell, SpiCell_encode cell = Ok bytes ∧ SpiCell_decode bytes = Ok cell ∧
    length bytes = SPI_CELL_LEN ∧ bytes_ok bytes ∧
    session_id (header cell) = sender_session_id (dl_sender self') ∧
    cumulative_ack (header cell) = receiver_cumulative_ack (dl_receiver self').
Proof.
  intros Hs Hu Hc Hh Hr. assert (dev_inv self) as H
    by (eapply device_run_inv; [exact Hr|by apply with_capabilities_inv]).
  pose proof (next_transaction_spec self now H) as Hn.
  by destruct (next_transaction self now), Hn.
Qed.

(** ** A refused request that is sent all the same *)

Definition window_full (self : DeviceLink) : Prop := position is_none (pending (dl_sender self)) = None.

Lemma queue_record_room self type data now : dev_inv self → u8_ok type → bytes_ok data →
  (length data ≤ 100)%nat →
  if decide (window_full self) then queue_record self type data now = (None, self)
  else ∃ cell self', queue_record self type data now = (Some cell, self') ∧
    cell_wire cell ∧ SpiCell_payload cell = records_wire [mkWireRecord type 0 data].
Proof.
  intros H Ht Hb Hl. unfold queue_record, queue_records.
  assert (record_ok (mkWireRecord type 0 data)) as Hr.
  { split; [done|split; [done|split; [done|]]]. cbn [record_data]. unfold U16_MAX. lia. }
  assert (Forall record_ok [mkWireRecord type 0 data]) as Hrs by (apply List.Forall_cons; [done|apply List.Forall_nil]).
  pose proof (encode_records_spec _ (zeros SPI_CELL_PAYLOAD_LEN) Hrs ltac:(cbn; lia) (length_zeros _)) as He.
  assert (length (records_wire [mkWireRecord type 0 data]) ≤ SPI_CELL_PAYLOAD_LEN)%nat as Hfit.
  { unfold records_wire. cbn [map concat]. rewrite app_nil_r, length_record_wire. cbn [record_data].
    unfold RECORD_HEADER_LEN, SPI_CELL_PAYLOAD_LEN. divmod. }
  rewrite decide_True in He by done. rewrite He, Nat2Z.id, take_app_length. unfold window_full.
  destruct (sender_queue _ _ _ _) as [[cell sender]|] eqn:Hq.
  - rewrite decide_False.
    2:{ intros Hf. unfold sender_queue in Hq. rewrite Hf in Hq. by case_decide. }
    exists cell, (self <| dl_sender := sender |>). split; [done|].
    destruct (inv_sender _ H). apply queue_cell_wire in Hq as (? & ? & _); try done.
    by apply records_wire_ok.
  - rewrite decide_True; [done|]. unfold sender_queue in Hq. case_decide; [lia|].
    by destruct (position is_none (pending (dl_sender self))).
Qed.

Lemma position_none_map {A B} (f : A → B) l :
  position is_none (map (option_map f) l) = position is_none l.
Proof. induction l as [|[x|] l IH]; [done| |done]. cbn. by rewrite IH. Qed.

(** C25: a request refused for lack of window room is kept and sent.  When the window is full,
    [queue_management_request] answers [false], which its caller takes as not queued and
    offers again later, yet it leaves the request stored; and once the window has room
    the next transaction carries the stored request to the host. *)
Theorem refused_request_sent self request now :
  dev_inv self → request_ok request → host_compatible self = true → next_cell self = None →
  management_request_tx self = None → window_full self →
  queue_management_request self request now =
    (false, self <| management_request_tx := Some request |>) ∧
  ∀ later now', dev_inv later → management_request_tx later = Some request →
    next_cell later = None → control_request_tx later = None → ¬ window_full later →
    let '(bytes, later') := next_transaction later now' in
    ∃ cell, SpiCell_decode bytes = Ok cell ∧
      SpiCell_payload cell =
        records_wire [mkWireRecord RECORD_MANAGEMENT_REQUEST 0 (ManagementRequest_encode request)] ∧
      management_request_tx later' = None.
Proof.
  intros H Hreq Hcompat Hnext Hmgmt Hfull. split.
  - unfold queue_management_request, queue_unless_busy. rewrite Hcompat, Hnext, Hmgmt. cbn [negb orb is_some].
    set (self' := self <| management_request_tx := Some request |>).
    assert (dev_inv self') as H' by (destruct H; by split).
    unfold queue_pending_management_request. cbn [management_request_tx self'].
    pose proof (queue_record_room self' RECORD_MANAGEMENT_REQUEST _ now H' ltac:(done)
      (request_encode_ok _ Hreq) ltac:(rewrite request_encode_length by done; lia)) as Hq.
    rewrite decide_True in Hq by exact Hfull. change (management_request_tx self') with (Some request).
    cbn iota. rewrite Hq. unfold store_cell, self'. destruct self. cbn in *. by subst.
  - intros later now' Hi Hm Hn Hc Hroom.
    pose proof (next_transaction_spec later now' Hi) as Hspec. unfold next_transaction in *.
    set (s0 := later <| dl_sender ::= _ |>) in *. set (s1 := s0 <| next_cell := None |>) in *.
    assert (dev_inv s1) as H1.
    { destruct Hi. split; try done. by apply sender_ok_set_ack. }
    assert (queue_next_control_request_fragment s1 now' = (None, s1)) as Hfrag.
    { unfold queue_next_control_request_fragment. change (control_request_tx s1) with (control_request_tx later).
      by rewrite Hc. }
    pose proof (queue_record_room s1 RECORD_MANAGEMENT_REQUEST _ now' H1 ltac:(done)
      (request_encode_ok _ Hreq) ltac:(rewrite request_encode_length by done; lia)) as Hq.
    rewrite decide_False in Hq.
    2:{ intros Hf. apply Hroom. unfold window_full in *. rewrite <- Hf. symmetry.
        change (pending (dl_sender s1)) with (map (option_map (set_cell_ack
          (receiver_cumulative_ack (dl_receiver later)))) (pending (dl_sender later))).
        apply position_none_map. }
    destruct Hq as (cell & self' & Hq & Hw & Hpay).
    assert (queue_pending_management_request s1 now' =
      (Some cell, self' <| management_request_tx := None |>)) as Hpend.
    { unfold queue_pending_management_request.
      change (management_request_tx s1) with (management_request_tx later). by rewrite Hm, Hq. }
    change (next_cell s0) with (next_cell later) in *. rewrite Hn in *. cbn [or_else] in *.
    rewrite Hfrag in *. cbn [or_else] in *. rewrite Hpend in *. cbn [or_else default id] in *.
    destruct Hspec as (_ & _ & c & He & Hd & _). exists c. split; [done|].
    set (out := cell <| header ::= λ h, h <| cumulative_ack := receiver_cumulative_ack
      (dl_receiver (self' <| management_request_tx := None |>)) |> |>) in *.
    pose proof (queue_pending_queues s1 now' H1) as Hqs. rewrite Hpend in Hqs.
    destruct Hqs as (Hi' & Hcell & _). cbn [fst snd] in *.
    assert (cell_wire out) as Hout by (apply (cell_of_ack _ _ _ (inv_rx_ack _ Hi') Hcell)).
    destruct (cell_wire_roundtrip out Hout) as (b & Hb & _ & _ & Hdec).
    rewrite Hb in *. rewrite Hd in Hdec. injection Hdec as ->. split; [exact Hpay|done].
Qed.

(** ** A run: the host greets, then the device reports until its window is full *)

Definition sample_usb (e : Z) : UsbState := mkUsbState true true false true 0 e.

Definition sample_image (rs : list WireRecord) (host : ReliableSender) : list Z * ReliableSender :=
  match sender_queue host (records_wire rs) (Z.of_nat (length rs)) 0 with
  | Ok (cell, host) => (match SpiCell_encode cell with Ok b => b | Err _ => [] end, host)
  | Err _ => ([], host)
  end.

Definition sample_greeting : list Z * ReliableSender :=
  sample_image [mkWireRecord RECORD_HELLO 0 (Hello_encode (mkHello RoleHost SPI_PROTOCOL_VERSION 0 1 0 0))]
    (ReliableSender_new 9).

Definition sample_new : DeviceLink := DeviceLink_new 7 (sample_usb 0).
Definition sample_greeted : DeviceLink :=
  (handle_transaction 4 sample_new sample_greeting.1 1 []).1.
Definition sample_full : DeviceLink :=
  (next_transaction (update_usb_state (next_transaction (update_usb_state
    (next_transaction sample_greeted 2).2 (sample_usb 1) 3) 3).2 (sample_usb 2) 4) 4).2.
Definition sample_request : ManagementRequest := mkMgmtRequest 5 CmdGetStatus.

Lemma sample_new_inv : dev_inv sample_new.
Proof.
  refine (with_capabilities_inv 7 (sample_usb 0) DEVICE_CAPABILITIES 0 _ _ _ _); [|by split|..]; apply (bool_decide_unpack _); vm_compute; exact I.
Qed.

Lemma sample_full_run : rtc device_step sample_new sample_full.
Proof.
  unfold sample_full, sample_greeted.
  eapply rtc_l; [apply (dstep_receive sample_new 4 sample_greeting.1 1 [])|].
  1, 2: apply (bool_decide_unpack _); vm_compute; exact I.
  eapply rtc_l; [apply (dstep_send _ 2)|]. eapply rtc_l; [by apply (dstep_usb _ (sample_usb 1) 3)|].
  eapply rtc_l; [apply (dstep_send _ 3)|]. eapply rtc_l; [by apply (dstep_usb _ (sample_usb 2) 4)|].
  apply rtc_once. apply (dstep_send _ 4).
Qed.

Lemma device_acts_once_witness :
  (handle_transaction 4 sample_greeted sample_greeting.1 2 []).2 = [].
Proof.
  pose proof (device_acts_once 4 sample_new sample_greeting.1 1 [] ltac:(cbn; lia)) as H.
  unfold sample_greeted. destruct (handle_transaction 4 sample_new sample_greeting.1 1 []) as [s1 e1].
  destruct H as [_ H]. specialize (H 2 []). cbn [fst].
  destruct (handle_transaction 4 s1 sample_greeting.1 2 []). exact (proj1 H).
Defined.

Lemma input_batch_delivered_witness :
  ∃ taken, map sample_standard [1; 2; 3] = taken ++ [].
Proof.
  pose proof (input_batch_delivered 4 sample_greeting.2 sample_greeted (sample_standard 1)
    (map sample_standard [2; 3]) 5 6) as H.
  destruct H as (taken & Ht & _); [repeat constructor; apply sample_standard_wf; words| |].
  - split; apply (bool_decide_unpack _); vm_compute; exact I.
  - exists taken. exact Ht.
Defined.

Lemma device_transactions_valid_witness :
  ∃ cell, SpiCell_decode (next_transaction sample_full 9).1 = Ok cell.
Proof.
  pose proof (device_transactions_valid 7 (sample_usb 0) DEVICE_CAPABILITIES 0 sample_full 9) as H.
  destruct (next_transaction sample_full 9) as [bytes s]. cbn [fst].
  destruct H as (_ & cell & _ & Hd & _); try (apply (bool_decide_unpack _); vm_compute; exact I).
  - by split.
  - exact sample_full_run.
  - exists cell. exact Hd.
Defined.

Lemma refused_request_sent_witness :
  (queue_management_request sample_full sample_request 9).1 = false ∧
  management_request_tx (queue_management_request sample_full sample_request 9).2 = Some sample_request.
Proof.
  destruct (refused_request_sent sample_full sample_request 9) as [H _];
    [exact (device_run_inv _ _ sample_full_run sample_new_inv)|
     split; [apply (bool_decide_unpack _); vm_compute; exact I|exact I]|
     vm_compute; reflexivity..|].
  rewrite H. split; reflexivity.
Defined.
