(* ===== verification/MirrorImage.v ===== *)
(** * Mirror images ([src/src/mirror/image.rs] and [src/src/mirror/parser.rs])

    The file format in which the host chip hands a captured USB device to the device chip:
    a 32-byte header with a CRC, the three standard descriptors, and the string and HID report
    descriptors as length-prefixed records. *)

From S2P Require Import Prelude Checksum.

Definition HSMI_MAGIC : list Z := [0x48; 0x53; 0x4d; 0x49].
Definition HSMI_VERSION : Z := 1.
Definition HSMI_HEADER_LEN : nat := 32.
Definition HSMI_MAX_SIZE : Z := 16 * 1024.
Definition STRING_RECORD_HEADER_LEN : nat := 5.
Definition HID_REPORT_RECORD_HEADER_LEN : nat := 3.

Record MirrorImageHeader := mkImageHeader {
  ih_magic : list Z; ih_version : Z; ih_header_length : Z; ih_total_length : Z;
  ih_image_crc32 : Z; ih_flags : Z; ih_device_length : Z; ih_configuration_length : Z;
  ih_bos_length : Z; ih_string_count : Z; ih_hid_report_count : Z; ih_reserved : list Z
}.
#[export] Instance MirrorImageHeader_eq_dec : EqDecision MirrorImageHeader.
Proof. solve_decision. Defined.

Definition MirrorImageHeader_decode (bytes : list Z) : option MirrorImageHeader :=
  if decide (length bytes < HSMI_HEADER_LEN)%nat then None
  else Some {|
    ih_magic := slice 0 4 bytes;
    ih_version := read_u16 (slice 4 6 bytes);
    ih_header_length := read_u16 (slice 6 8 bytes);
    ih_total_length := read_u32 (slice 8 12 bytes);
    ih_image_crc32 := read_u32 (slice 12 16 bytes);
    ih_flags := read_u32 (slice 16 20 bytes);
    ih_device_length := read_u16 (slice 20 22 bytes);
    ih_configuration_length := read_u16 (slice 22 24 bytes);
    ih_bos_length := read_u16 (slice 24 26 bytes);
    ih_string_count := byte_at bytes 26;
    ih_hid_report_count := byte_at bytes 27;
    ih_reserved := slice 28 32 bytes |}.

Definition MirrorImageHeader_encode (self : MirrorImageHeader) (out : list Z) : list Z :=
  let out := blit 0 (ih_magic self) out in
  let out := blit 4 (u16_to_le_bytes (ih_version self)) out in
  let out := blit 6 (u16_to_le_bytes (ih_header_length self)) out in
  let out := blit 8 (u32_to_le_bytes (ih_total_length self)) out in
  let out := blit 12 (u32_to_le_bytes (ih_image_crc32 self)) out in
  let out := blit 16 (u32_to_le_bytes (ih_flags self)) out in
  let out := blit 20 (u16_to_le_bytes (ih_device_length self)) out in
  let out := blit 22 (u16_to_le_bytes (ih_configuration_length self)) out in
  let out := blit 24 (u16_to_le_bytes (ih_bos_length self)) out in
  let out := blit 26 [ih_string_count self] out in
  let out := blit 27 [ih_hid_report_count self] out in
  blit 28 (ih_reserved self) out.

Record StringRecord := mkStringRecord { sr_index : Z; sr_lang_id : Z; sr_descriptor : list Z }.
#[export] Instance StringRecord_eq_dec : EqDecision StringRecord.
Proof. solve_decision. Defined.
Record HidReportRecord := mkHidReport { hr_interface_number : Z; hr_descriptor : list Z }.
#[export] Instance HidReportRecord_eq_dec : EqDecision HidReportRecord.
Proof. solve_decision. Defined.

(** ** The record iterators: the items a loop over them sees *)

Fixpoint StringRecords (count : nat) (remaining : list Z) : list StringRecord :=
  match count with
  | O => []
  | S count =>
      if decide (length remaining < STRING_RECORD_HEADER_LEN)%nat then []
      else
        let fin := (STRING_RECORD_HEADER_LEN + Z.to_nat (read_u16 (slice 3 5 remaining)))%nat in
        if decide (fin > length remaining)%nat then []
        else mkStringRecord (byte_at remaining 0) (read_u16 (slice 1 3 remaining))
               (slice STRING_RECORD_HEADER_LEN fin remaining) ::
             StringRecords count (drop fin remaining)
  end.

Fixpoint HidReportRecords (count : nat) (remaining : list Z) : list HidReportRecord :=
  match count with
  | O => []
  | S count =>
      if decide (length remaining < HID_REPORT_RECORD_HEADER_LEN)%nat then []
      else
        let fin := (HID_REPORT_RECORD_HEADER_LEN + Z.to_nat (read_u16 (slice 1 3 remaining)))%nat in
        if decide (fin > length remaining)%nat then []
        else mkHidReport (byte_at remaining 0) (slice HID_REPORT_RECORD_HEADER_LEN fin remaining) ::
             HidReportRecords count (drop fin remaining)
  end.

(** [StringDescriptorTable] and [HidReportDescriptorTable]. *)
Record DescriptorTable := mkTable { table_records : list Z; table_count : Z }.
#[export] Instance DescriptorTable_eq_dec : EqDecision DescriptorTable.
Proof. solve_decision. Defined.

Definition string_table_get (self : DescriptorTable) (index lang_id : Z) : option (list Z) :=
  sr_descriptor <$> List.find (λ r, (sr_index r =? index) && (sr_lang_id r =? lang_id))
    (StringRecords (Z.to_nat (table_count self)) (table_records self)).

Definition hid_report_table_get (self : DescriptorTable) (interface_number : Z) : option (list Z) :=
  hr_descriptor <$> List.find (λ r, hr_interface_number r =? interface_number)
    (HidReportRecords (Z.to_nat (table_count self)) (table_records self)).

Record MirrorImage := mkMirrorImage {
  mi_header : MirrorImageHeader;
  mi_device_descriptor : list Z;
  mi_configuration_descriptor : list Z;
  mi_bos_descriptor : list Z;
  mi_string_records : list Z;
  mi_hid_report_records : list Z
}.

Definition mi_strings (self : MirrorImage) : list StringRecord :=
  StringRecords (Z.to_nat (ih_string_count (mi_header self))) (mi_string_records self).
Definition mi_hid_reports (self : MirrorImage) : list HidReportRecord :=
  HidReportRecords (Z.to_nat (ih_hid_report_count (mi_header self))) (mi_hid_report_records self).
Definition mi_string_table (self : MirrorImage) : DescriptorTable :=
  mkTable (mi_string_records self) (ih_string_count (mi_header self)).
Definition mi_hid_report_table (self : MirrorImage) : DescriptorTable :=
  mkTable (mi_hid_report_records self) (ih_hid_report_count (mi_header self)).

(** ** Writing an image *)

Record MirrorImageSource := mkImageSource {
  is_flags : Z;
  is_device_descriptor : list Z;
  is_configuration_descriptor : list Z;
  is_bos_descriptor : list Z;
  is_strings : list StringRecord;
  is_hid_reports : list HidReportRecord
}.

Inductive MirrorImageEncodeError :=
| EncTooLarge | EncOutputTooSmall | EncLengthOverflow | EncTooManyRecords.

(** [usize::checked_add] *)
Definition checked_add (a b : Z) : Result MirrorImageEncodeError Z :=
  if decide (a + b ≤ USIZE_MAX) then Ok (a + b) else Err EncLengthOverflow.

(** [try_fold] over the records' lengths. *)
Fixpoint records_length (header_len : nat) (descriptors : list (list Z)) (total : Z)
  : Result MirrorImageEncodeError Z :=
  match descriptors with
  | [] => Ok total
  | d :: descriptors =>
      let? value := checked_add total (Z.of_nat header_len) in
      let? value := checked_add value (usize_len d) in
      records_length header_len descriptors value
  end.

Definition image_length (s : MirrorImageSource) : Result MirrorImageEncodeError Z :=
  let? strings := records_length STRING_RECORD_HEADER_LEN (map sr_descriptor (is_strings s)) 0 in
  let? reports := records_length HID_REPORT_RECORD_HEADER_LEN (map hr_descriptor (is_hid_reports s)) 0 in
  let? n := checked_add (Z.of_nat HSMI_HEADER_LEN) (usize_len (is_device_descriptor s)) in
  let? n := checked_add n (usize_len (is_configuration_descriptor s)) in
  let? n := checked_add n (usize_len (is_bos_descriptor s)) in
  let? n := checked_add n strings in
  checked_add n reports.

(** [u16::try_from] and [u8::try_from] of a length. *)
Definition u16_len (l : list Z) : Result MirrorImageEncodeError Z :=
  if decide (usize_len l ≤ U16_MAX) then Ok (usize_len l) else Err EncLengthOverflow.
Definition u8_count {A} (l : list A) : Result MirrorImageEncodeError Z :=
  if decide (Z.of_nat (length l) ≤ U8_MAX) then Ok (Z.of_nat (length l)) else Err EncTooManyRecords.

Fixpoint write_descriptors (ds : list (list Z)) (out : list Z) (offset : nat) : list Z * nat :=
  match ds with
  | [] => (out, offset)
  | d :: ds => write_descriptors ds (blit offset d out) (offset + length d)
  end.

Fixpoint write_strings (rs : list StringRecord) (out : list Z) (offset : nat)
  : list Z * Result MirrorImageEncodeError nat :=
  match rs with
  | [] => (out, Ok offset)
  | r :: rs =>
      let out := blit offset [sr_index r] out in
      let out := blit (offset + 1) (u16_to_le_bytes (sr_lang_id r)) out in
      match u16_len (sr_descriptor r) with
      | Err e => (out, Err e)
      | Ok len =>
          let out := blit (offset + 3) (u16_to_le_bytes len) out in
          let offset := (offset + STRING_RECORD_HEADER_LEN)%nat in
          write_strings rs (blit offset (sr_descriptor r) out) (offset + length (sr_descriptor r))
      end
  end.

Fixpoint write_reports (rs : list HidReportRecord) (out : list Z) (offset : nat)
  : list Z * Result MirrorImageEncodeError nat :=
  match rs with
  | [] => (out, Ok offset)
  | r :: rs =>
      let out := blit offset [hr_interface_number r] out in
      match u16_len (hr_descriptor r) with
      | Err e => (out, Err e)
      | Ok len =>
          let out := blit (offset + 1) (u16_to_le_bytes len) out in
          let offset := (offset + HID_REPORT_RECORD_HEADER_LEN)%nat in
          write_reports rs (blit offset (hr_descriptor r) out) (offset + length (hr_descriptor r))
      end
  end.

(** One byte of [mirror_image_crc32]: the CRC field itself counts as zero. *)
Definition image_crc_byte (crc : Z) (indexed : nat * Z) : Z :=
  let '(index, byte) := indexed in
  crc32_byte crc (if decide (12 ≤ index < 16)%nat then 0 else byte).

Definition mirror_image_crc32 (bytes : list Z) : Z :=
  Z.lxor (fold_left image_crc_byte (combine (seq 0 (length bytes)) bytes) 0xffffffff) 0xffffffff.

Definition serialize_mirror_image (source : MirrorImageSource) (out : list Z)
  : list Z * Result MirrorImageEncodeError nat :=
  match (
    let? total_length := image_length source in
    if decide (total_length > HSMI_MAX_SIZE) then Err EncTooLarge
    else if decide (usize_len out < total_length) then Err EncOutputTooSmall
    else
      let? device_length := u16_len (is_device_descriptor source) in
      let? configuration_length := u16_len (is_configuration_descriptor source) in
      let? bos_length := u16_len (is_bos_descriptor source) in
      let? string_count := u8_count (is_strings source) in
      let? hid_report_count := u8_count (is_hid_reports source) in
      Ok (mkImageHeader HSMI_MAGIC HSMI_VERSION (Z.of_nat HSMI_HEADER_LEN) (as_u32 total_length) 0
        (is_flags source) device_length configuration_length bos_length string_count
        hid_report_count [0; 0; 0; 0], Z.to_nat total_length))
  with
  | Err e => (out, Err e)
  | Ok (header, total_length) =>
      let out := blit 0 (zeros total_length) out in
      let out := MirrorImageHeader_encode header out in
      let '(out, offset) := write_descriptors
        [is_device_descriptor source; is_configuration_descriptor source; is_bos_descriptor source]
        out HSMI_HEADER_LEN in
      match write_strings (is_strings source) out offset with
      | (out, Err e) => (out, Err e)
      | (out, Ok offset) =>
          match write_reports (is_hid_reports source) out offset with
          | (out, Err e) => (out, Err e)
          | (out, Ok _) =>
              let crc := mirror_image_crc32 (take total_length out) in
              (blit 12 (u32_to_le_bytes crc) out, Ok total_length)
          end
      end
  end.

(** ** Reading an image *)

Inductive MirrorImageParseError :=
| ParseImageTooLarge | ParseTruncated | ParseInvalidMagic | ParseUnsupportedVersion
| ParseInvalidHeaderLength | ParseInvalidTotalLength | ParseInvalidReservedBytes
| ParseInvalidRecordLength | ParseCrcMismatch | ParseTrailingBytes.
#[export] Instance MirrorImageParseError_eq_dec : EqDecision MirrorImageParseError.
Proof. solve_decision. Defined.

(** [take(bytes, &mut offset, length)]: the slice and the new offset. *)
Definition image_take (bytes : list Z) (offset length' : nat)
  : Result MirrorImageParseError (list Z * nat) :=
  let fin := (offset + length')%nat in
  if decide (Z.of_nat fin > USIZE_MAX) then Err ParseInvalidRecordLength
  else if decide (fin > length bytes)%nat then Err ParseTruncated
  else Ok (slice offset fin bytes, fin).

(** The two [for _ in 0..count] loops: skip [count] records whose length field is at [field]. *)
Fixpoint skip_records (header_len field : nat) (count : nat) (bytes : list Z) (offset : nat)
  : Result MirrorImageParseError nat :=
  match count with
  | O => Ok offset
  | S count =>
      let? (record_header, offset) := image_take bytes offset header_len in
      let descriptor_length := u16_from_le_bytes (byte_at record_header field)
                                 (byte_at record_header (field + 1)) in
      let? (_, offset) := image_take bytes offset (Z.to_nat descriptor_length) in
      skip_records header_len field count bytes offset
  end.

(** The layout after the header, read field by field. *)
Definition parse_body (header : MirrorImageHeader) (bytes : list Z)
  : Result MirrorImageParseError MirrorImage :=
  let? (device, offset) := image_take bytes HSMI_HEADER_LEN (Z.to_nat (ih_device_length header)) in
  let? (configuration, offset) :=
    image_take bytes offset (Z.to_nat (ih_configuration_length header)) in
  let? (bos, offset) := image_take bytes offset (Z.to_nat (ih_bos_length header)) in
  let? offset' := skip_records STRING_RECORD_HEADER_LEN 3
    (Z.to_nat (ih_string_count header)) bytes offset in
  let string_records := slice offset offset' bytes in
  let? offset'' := skip_records HID_REPORT_RECORD_HEADER_LEN 1
    (Z.to_nat (ih_hid_report_count header)) bytes offset' in
  let hid_report_records := slice offset' offset'' bytes in
  if decide (Z.of_nat offset'' ≠ ih_total_length header) then Err ParseTrailingBytes
  else Ok (mkMirrorImage header device configuration bos string_records hid_report_records).

Definition parse_mirror_image (bytes : list Z) : Result MirrorImageParseError MirrorImage :=
  if decide (usize_len bytes > HSMI_MAX_SIZE) then Err ParseImageTooLarge
  else
    match MirrorImageHeader_decode bytes with
    | None => Err ParseTruncated
    | Some header =>
        if decide (ih_magic header ≠ HSMI_MAGIC) then Err ParseInvalidMagic
        else if decide (ih_version header ≠ HSMI_VERSION) then Err ParseUnsupportedVersion
        else if decide (ih_header_length header ≠ Z.of_nat HSMI_HEADER_LEN)
        then Err ParseInvalidHeaderLength
        else
          let total_length := ih_total_length header in
          if decide (¬ (Z.of_nat HSMI_HEADER_LEN ≤ total_length ≤ HSMI_MAX_SIZE))
          then Err ParseInvalidTotalLength
          else if decide (usize_len bytes < total_length) then Err ParseTruncated
          else if decide (usize_len bytes > total_length) then Err ParseTrailingBytes
          else if decide (ih_reserved header ≠ [0; 0; 0; 0]) then Err ParseInvalidReservedBytes
          else if decide (mirror_image_crc32 bytes ≠ ih_image_crc32 header)
          then Err ParseCrcMismatch
          else parse_body header bytes
    end.

(** ** Wire forms *)

Definition header_wire (h : MirrorImageHeader) : list Z :=
  ih_magic h ++ u16_to_le_bytes (ih_version h) ++ u16_to_le_bytes (ih_header_length h) ++
  u32_to_le_bytes (ih_total_length h) ++ u32_to_le_bytes (ih_image_crc32 h) ++
  u32_to_le_bytes (ih_flags h) ++ u16_to_le_bytes (ih_device_length h) ++
  u16_to_le_bytes (ih_configuration_length h) ++ u16_to_le_bytes (ih_bos_length h) ++
  [ih_string_count h; ih_hid_report_count h] ++ ih_reserved h.

(** A record is a header of fixed length and the descriptor whose length it declares. *)
Definition raw_record : Type := list Z * list Z.
Definition raw_string (r : StringRecord) : raw_record :=
  ([sr_index r] ++ u16_to_le_bytes (sr_lang_id r) ++ u16_to_le_bytes (usize_len (sr_descriptor r)),
   sr_descriptor r).
Definition raw_report (r : HidReportRecord) : raw_record :=
  ([hr_interface_number r] ++ u16_to_le_bytes (usize_len (hr_descriptor r)), hr_descriptor r).
Definition raw_wire (rs : list raw_record) : list Z := concat (map (λ r, r.1 ++ r.2) rs).

Definition descriptors_wire (s : MirrorImageSource) : list Z :=
  is_device_descriptor s ++ is_configuration_descriptor s ++ is_bos_descriptor s.
Definition records_bytes (s : MirrorImageSource) : list Z :=
  raw_wire (map raw_string (is_strings s)) ++ raw_wire (map raw_report (is_hid_reports s)).
Definition image_size (s : MirrorImageSource) : nat :=
  (HSMI_HEADER_LEN + length (descriptors_wire s ++ records_bytes s))%nat.

Definition image_header (s : MirrorImageSource) (crc : Z) : MirrorImageHeader :=
  mkImageHeader HSMI_MAGIC HSMI_VERSION (Z.of_nat HSMI_HEADER_LEN) (Z.of_nat (image_size s)) crc
    (is_flags s) (usize_len (is_device_descriptor s)) (usize_len (is_configuration_descriptor s))
    (usize_len (is_bos_descriptor s)) (Z.of_nat (length (is_strings s)))
    (Z.of_nat (length (is_hid_reports s))) [0; 0; 0; 0].

Definition image_wire (s : MirrorImageSource) (crc : Z) : list Z :=
  header_wire (image_header s crc) ++ descriptors_wire s ++ records_bytes s.

Definition image_crc (s : MirrorImageSource) : Z := mirror_image_crc32 (image_wire s 0).

(** Fields in the range of their types. *)
Definition string_ok (r : StringRecord) : Prop :=
  u8_ok (sr_index r) ∧ u16_ok (sr_lang_id r) ∧ bytes_ok (sr_descriptor r).
Definition report_record_ok (r : HidReportRecord) : Prop :=
  u8_ok (hr_interface_number r) ∧ bytes_ok (hr_descriptor r).
Record source_ok (s : MirrorImageSource) : Prop := {
  src_flags : u32_ok (is_flags s);
  src_descriptors : bytes_ok (descriptors_wire s);
  src_strings : Forall string_ok (is_strings s);
  src_reports : Forall report_record_ok (is_hid_reports s)
}.

(** What [serialize_mirror_image] insists on. *)
Definition source_fits (s : MirrorImageSource) : Prop :=
  Z.of_nat (image_size s) ≤ HSMI_MAX_SIZE ∧ (length (is_strings s) ≤ 255)%nat ∧
  (length (is_hid_reports s) ≤ 255)%nat.

(** ** The CRC does not depend on its own field *)

Lemma image_crc_byte_out crc k x : ¬ (12 ≤ k < 16)%nat → image_crc_byte crc (k, x) = crc32_byte crc x.
Proof. intros H. unfold image_crc_byte. by rewrite decide_False. Qed.

Lemma image_crc_fold l k crc : (k + length l ≤ 12 ∨ 16 ≤ k)%nat →
  fold_left image_crc_byte (combine (seq k (length l)) l) crc = fold_left crc32_byte l crc.
Proof. intros Hk. apply fold_indexed_ext. intros i x acc Hi. apply image_crc_byte_out. lia. Qed.

Lemma mirror_crc_eq a c b : length a = 12%nat → length c = 4%nat →
  mirror_image_crc32 (a ++ c ++ b) = crc32_ieee (a ++ zeros 4 ++ b).
Proof.
  intros Ha Hc. unfold mirror_image_crc32. rewrite !fold_indexed_app.
  rewrite (image_crc_fold a), (image_crc_fold b) by lia. rewrite crc32_ieee_eq, !fold_left_app. do 2 f_equal.
  rewrite Ha. explode c Hc. reflexivity.
Qed.

(** ** Writing *)

Lemma store_next pre s n tail o : o = length pre → (length s ≤ n)%nat →
  blit o s (pre ++ zeros n ++ tail) = (pre ++ s) ++ zeros (n - length s) ++ tail.
Proof.
  intros -> H. rewrite blit_app by done. rewrite <- app_assoc. f_equal. unfold blit. rewrite take_0, app_nil_l.
  f_equal. unfold zeros. rewrite drop_app, drop_replicate, length_replicate.
  replace (0 + length s - n)%nat with 0%nat by lia. by rewrite Nat.add_0_l, drop_0.
Qed.

Lemma header_encode_wire h rest : length (ih_magic h) = 4%nat → length (ih_reserved h) = 4%nat →
  MirrorImageHeader_encode h (zeros 32 ++ rest) = header_wire h ++ rest.
Proof.
  destruct h as [magic v hl tl crc fl dl cl bl sc rc res]. cbn [ih_magic ih_reserved]. intros Hm Hr.
  explode magic Hm. explode res Hr. reflexivity.
Qed.

Lemma length_header_wire h : length (ih_magic h) = 4%nat → length (ih_reserved h) = 4%nat →
  length (header_wire h) = 32%nat.
Proof. intros Hm Hr. unfold header_wire. by rewrite !length_app, Hm, Hr. Qed.

Lemma write_descriptors_spec ds pre n tail : (length (concat ds) ≤ n)%nat →
  write_descriptors ds (pre ++ zeros n ++ tail) (length pre) =
    ((pre ++ concat ds) ++ zeros (n - length (concat ds)) ++ tail, (length pre + length (concat ds))%nat).
Proof.
  revert pre n. induction ds as [|d ds IH]; intros pre n H; cbn [write_descriptors concat].
  - rewrite app_nil_r. cbn [length]. by rewrite Nat.sub_0_r, Nat.add_0_r.
  - cbn [concat] in H. rewrite length_app in H. rewrite store_next by (done || lia).
    rewrite <- length_app, IH by lia. rewrite <- (app_assoc pre), !length_app.
    replace (n - length d - length (concat ds))%nat with (n - (length d + length (concat ds)))%nat by lia.
    by rewrite Nat.add_assoc.
Qed.

(** What the record loops append; they fail only on a descriptor too long for its length. *)
Lemma u16_len_eq l : u16_len l = if decide (usize_len l ≤ U16_MAX) then Ok (usize_len l) else Err EncLengthOverflow.
Proof. done. Qed.

Lemma raw_wire_cons r rs : raw_wire (r :: rs) = r.1 ++ r.2 ++ raw_wire rs.
Proof. unfold raw_wire. cbn [map concat]. by rewrite <- app_assoc. Qed.

Lemma write_strings_spec rs pre n tail : (length (raw_wire (map raw_string rs)) ≤ n)%nat →
  Forall (λ r, usize_len (sr_descriptor r) ≤ U16_MAX) rs →
  write_strings rs (pre ++ zeros n ++ tail) (length pre) =
    ((pre ++ raw_wire (map raw_string rs)) ++ zeros (n - length (raw_wire (map raw_string rs))) ++ tail,
     Ok (length pre + length (raw_wire (map raw_string rs)))%nat).
Proof.
  intros H Hrs. revert pre n H. induction Hrs as [|r rs Hr Hrs IH]; intros pre n H; cbn [write_strings].
  - unfold raw_wire. cbn. by rewrite app_nil_r, Nat.sub_0_r, Nat.add_0_r.
  - cbn [map] in *. rewrite raw_wire_cons in *. cbn [raw_string fst snd] in *.
    rewrite !length_app in H. cbn [length u16_to_le_bytes] in H.
    rewrite u16_len_eq, decide_True by done. unfold STRING_RECORD_HEADER_LEN.
    rewrite store_next by (done || cbn; lia). cbn [length].
    rewrite (store_next (pre ++ _)) by (rewrite ?length_app; cbn; lia).
    rewrite (store_next ((pre ++ _) ++ _)) by (rewrite ?length_app; cbn; lia).
    rewrite (store_next (((pre ++ _) ++ _) ++ _)) by (rewrite ?length_app; cbn; lia).
    replace (length pre + 5 + length (sr_descriptor r))%nat with
      (length ((((pre ++ [sr_index r]) ++ u16_to_le_bytes (sr_lang_id r)) ++
        u16_to_le_bytes (usize_len (sr_descriptor r))) ++ sr_descriptor r))
      by (rewrite !length_app; cbn; lia).
    rewrite IH by (cbn; lia). rewrite !length_app. cbn [length u16_to_le_bytes]. f_equal; [|f_equal; lia].
    rewrite <- !app_assoc. do 8 f_equal. lia.
Qed.

Lemma write_reports_spec rs pre n tail : (length (raw_wire (map raw_report rs)) ≤ n)%nat →
  Forall (λ r, usize_len (hr_descriptor r) ≤ U16_MAX) rs →
  write_reports rs (pre ++ zeros n ++ tail) (length pre) =
    ((pre ++ raw_wire (map raw_report rs)) ++ zeros (n - length (raw_wire (map raw_report rs))) ++ tail,
     Ok (length pre + length (raw_wire (map raw_report rs)))%nat).
Proof.
  intros H Hrs. revert pre n H. induction Hrs as [|r rs Hr Hrs IH]; intros pre n H; cbn [write_reports].
  - unfold raw_wire. cbn. by rewrite app_nil_r, Nat.sub_0_r, Nat.add_0_r.
  - cbn [map] in *. rewrite raw_wire_cons in *. cbn [raw_report fst snd] in *.
    rewrite !length_app in H. cbn [length u16_to_le_bytes] in H.
    rewrite u16_len_eq, decide_True by done. unfold HID_REPORT_RECORD_HEADER_LEN.
    rewrite store_next by (done || cbn; lia). cbn [length].
    rewrite (store_next (pre ++ _)) by (rewrite ?length_app; cbn; lia).
    rewrite (store_next ((pre ++ _) ++ _)) by (rewrite ?length_app; cbn; lia).
    replace (length pre + 3 + length (hr_descriptor r))%nat with
      (length (((pre ++ [hr_interface_number r]) ++
        u16_to_le_bytes (usize_len (hr_descriptor r))) ++ hr_descriptor r))
      by (rewrite !length_app; cbn; lia).
    rewrite IH by (cbn; lia). rewrite !length_app. cbn [length u16_to_le_bytes]. f_equal; [|f_equal; lia].
    rewrite <- !app_assoc. do 7 f_equal. lia.
Qed.

(** The checked sums are the plain sum, because an image that passes is small. *)
Lemma records_length_spec hl ds total : 0 ≤ total ≤ USIZE_MAX →
  records_length hl ds total =
    let n := total + Z.of_nat (list_sum (map (λ d, hl + length d)%nat ds)) in
    if decide (n ≤ USIZE_MAX) then Ok n else Err EncLengthOverflow.
Proof.
  revert total. induction ds as [|d ds IH]; intros total H; cbn [records_length map list_sum].
  - cbn. rewrite decide_True by lia. f_equal. lia.
  - unfold checked_add, usize_len. cbn [list_sum fold_right]. set (rest := list_sum _) in *.
    case_decide; cbn [result_bind]; [|by rewrite decide_False by lia].
    case_decide; cbn [result_bind]; [|by rewrite decide_False by lia].
    rewrite IH by lia. cbn zeta.
    replace (total + Z.of_nat hl + Z.of_nat (length d) + Z.of_nat rest)
      with (total + Z.of_nat (hl + length d + rest)) by lia. done.
Qed.

Lemma length_raw_strings rs : length (raw_wire (map raw_string rs)) =
  list_sum (map (λ d, STRING_RECORD_HEADER_LEN + length d)%nat (map sr_descriptor rs)).
Proof.
  induction rs as [|r rs IH]; [done|]. cbn [map]. rewrite raw_wire_cons, !length_app, IH.
  unfold list_sum. cbn [raw_string fst snd fold_right map]. cbn [length app u16_to_le_bytes].
  unfold STRING_RECORD_HEADER_LEN. lia.
Qed.
Lemma length_raw_reports rs : length (raw_wire (map raw_report rs)) =
  list_sum (map (λ d, HID_REPORT_RECORD_HEADER_LEN + length d)%nat (map hr_descriptor rs)).
Proof.
  induction rs as [|r rs IH]; [done|]. cbn [map]. rewrite raw_wire_cons, !length_app, IH.
  unfold list_sum. cbn [raw_report fst snd fold_right map]. cbn [length app u16_to_le_bytes].
  unfold HID_REPORT_RECORD_HEADER_LEN. lia.
Qed.

Lemma image_size_eq s : image_size s = (32 + length (is_device_descriptor s) +
  length (is_configuration_descriptor s) + length (is_bos_descriptor s) +
  length (raw_wire (map raw_string (is_strings s))) + length (raw_wire (map raw_report (is_hid_reports s))))%nat.
Proof. unfold image_size, descriptors_wire, records_bytes, HSMI_HEADER_LEN. rewrite !length_app. lia. Qed.

Lemma image_length_spec s : image_length s =
  if decide (Z.of_nat (image_size s) ≤ USIZE_MAX) then Ok (Z.of_nat (image_size s)) else Err EncLengthOverflow.
Proof.
  unfold image_length. rewrite !records_length_spec by (unfold USIZE_MAX, U32_MAX; lia).
  rewrite <- length_raw_strings, <- length_raw_reports. pose proof (image_size_eq s) as Hs.
  unfold checked_add, usize_len, HSMI_HEADER_LEN. cbn zeta.
  destruct (decide (Z.of_nat (image_size s) ≤ USIZE_MAX)) as [Hle|Hgt].
  - repeat (rewrite decide_True by lia; cbn [result_bind]). f_equal. lia.
  - repeat (case_decide; cbn [result_bind]; [|done]). lia.
Qed.

Lemma strings_too_long rs : Z.of_nat (length (raw_wire (map raw_string rs))) ≤ HSMI_MAX_SIZE →
  Forall (λ r, usize_len (sr_descriptor r) ≤ U16_MAX) rs.
Proof.
  induction rs as [|r rs IH]; intros H; [apply List.Forall_nil|]. cbn [map] in H.
  rewrite raw_wire_cons, !length_app in H. apply List.Forall_cons; [|apply IH; lia].
  cbn [raw_string snd] in H. unfold usize_len, U16_MAX, HSMI_MAX_SIZE in *. lia.
Qed.
Lemma reports_too_long rs : Z.of_nat (length (raw_wire (map raw_report rs))) ≤ HSMI_MAX_SIZE →
  Forall (λ r, usize_len (hr_descriptor r) ≤ U16_MAX) rs.
Proof.
  induction rs as [|r rs IH]; intros H; [apply List.Forall_nil|]. cbn [map] in H.
  rewrite raw_wire_cons, !length_app in H. apply List.Forall_cons; [|apply IH; lia].
  cbn [raw_report snd] in H. unfold usize_len, U16_MAX, HSMI_MAX_SIZE in *. lia.
Qed.

(** The CRC of the finished image is the CRC computed before it was stored. *)
Lemma image_wire_crc s c : image_wire s c = take 12 (image_wire s 0) ++ u32_to_le_bytes c ++ drop 16 (image_wire s 0).
Proof. reflexivity. Qed.

Lemma image_crc_any s c : mirror_image_crc32 (image_wire s c) = image_crc s.
Proof.
  unfold image_crc. rewrite (image_wire_crc s c). etrans; [by apply mirror_crc_eq|].
  symmetry. exact (mirror_crc_eq (take 12 (image_wire s 0)) (u32_to_le_bytes 0)
    (drop 16 (image_wire s 0)) eq_refl eq_refl).
Qed.

Lemma length_image_wire s c : length (image_wire s c) = image_size s.
Proof. unfold image_wire, image_size. rewrite length_app, length_header_wire by done. done. Qed.

(** Exactly when it succeeds, and what it leaves in the buffer. *)
Lemma serialize_spec s out :
  (source_fits s ∧ (image_size s ≤ length out)%nat →
   serialize_mirror_image s out =
     (image_wire s (image_crc s) ++ drop (image_size s) out, Ok (image_size s))) ∧
  (∀ out' n, serialize_mirror_image s out = (out', Ok n) → source_fits s ∧ (image_size s ≤ length out)%nat).
Proof.
  split.
  - intros [Hfit Hout]. destruct Hfit as (Hmax & Hs & Hr).
    pose proof (image_size_eq s) as Heq.
    unfold serialize_mirror_image. rewrite image_length_spec. unfold HSMI_MAX_SIZE, usize_len in *.
    rewrite decide_True by (unfold USIZE_MAX, U32_MAX; lia). cbn [result_bind].
    rewrite decide_False by lia. rewrite decide_False by lia. unfold u16_len, u8_count, usize_len.
    repeat (rewrite decide_True by (unfold U16_MAX, U8_MAX; lia); cbn [result_bind]).
    replace (as_u32 (Z.of_nat (image_size s))) with (Z.of_nat (image_size s)) by words.
    fold (usize_len (is_device_descriptor s)) (usize_len (is_configuration_descriptor s))
      (usize_len (is_bos_descriptor s)). fold (image_header s 0). rewrite Nat2Z.id.
    assert (blit 0 (zeros (image_size s)) out = zeros 32 ++ zeros (image_size s - 32) ++ drop (image_size s) out) as ->.
    { unfold blit. rewrite length_zeros, take_0, app_nil_l, app_assoc, Nat.add_0_l. f_equal.
      unfold zeros. rewrite <- replicate_add. f_equal. lia. }
    rewrite header_encode_wire by done. set (tail := drop (image_size s) out).
    change HSMI_HEADER_LEN with (length (header_wire (image_header s 0))).
    rewrite write_descriptors_spec by (cbn [concat]; rewrite ?length_app; cbn [length]; lia).
    cbn [concat]. rewrite app_nil_r. fold (descriptors_wire s).
    assert (length (descriptors_wire s) = length (is_device_descriptor s) +
      length (is_configuration_descriptor s) + length (is_bos_descriptor s))%nat as Hd
      by (unfold descriptors_wire; rewrite !length_app; lia).
    rewrite <- length_app.
    rewrite write_strings_spec by (first [lia|apply strings_too_long; unfold HSMI_MAX_SIZE; lia]).
    rewrite <- length_app.
    rewrite write_reports_spec by (first [lia|apply reports_too_long; unfold HSMI_MAX_SIZE; lia]).
    rewrite <- !app_assoc.
    replace (image_size s - 32 - length (descriptors_wire s) -
      length (raw_wire (map raw_string (is_strings s))) -
      length (raw_wire (map raw_report (is_hid_reports s))))%nat with 0%nat by lia.
    cbn [zeros replicate app].
    rewrite (app_assoc (raw_wire _) (raw_wire _)). fold (records_bytes s).
    rewrite (app_assoc (descriptors_wire s)), app_assoc. fold (image_wire s 0).
    rewrite <- (length_image_wire s 0) at 1. rewrite take_app_length. fold (image_crc s). reflexivity.
  - intros out' n H. unfold serialize_mirror_image in H. rewrite image_length_spec in H.
    destruct (decide (Z.of_nat (image_size s) ≤ USIZE_MAX)); [|done]. cbn [result_bind] in H.
    destruct (decide (Z.of_nat (image_size s) > HSMI_MAX_SIZE)); [done|].
    destruct (decide (usize_len out < Z.of_nat (image_size s))) as [|Hout]; [done|].
    unfold u16_len, u8_count in H.
    repeat (match type of H with context [decide (usize_len ?l ≤ U16_MAX)] =>
      destruct (decide (usize_len l ≤ U16_MAX)); [|done] end; cbn [result_bind] in H).
    destruct (decide (Z.of_nat (length (is_strings s)) ≤ U8_MAX)) as [Hs|]; [|done]; cbn [result_bind] in H.
    destruct (decide (Z.of_nat (length (is_hid_reports s)) ≤ U8_MAX)) as [Hr|]; [|done].
    unfold usize_len in Hout. unfold U8_MAX in *. split; [split; [lia|split; lia]|lia].
Qed.

(** ** Reading *)

Lemma image_take_at pre d rest off : off = length pre → (Z.of_nat (length pre + length d) ≤ USIZE_MAX) →
  image_take (pre ++ d ++ rest) off (length d) = Ok (d, (length pre + length d)%nat).
Proof.
  intros -> H. unfold image_take. rewrite decide_False by lia.
  rewrite decide_False by (rewrite !length_app; lia). by rewrite slice_app_mid.
Qed.

Lemma image_take_inv bytes off n d off' : image_take bytes off n = Ok (d, off') →
  d = slice off off' bytes ∧ off' = (off + n)%nat ∧ (off' ≤ length bytes)%nat ∧ length d = n.
Proof.
  unfold image_take. repeat case_decide; try done. intros [= <- <-].
  split; [done|split; [done|split; [lia|]]]. rewrite length_slice; lia.
Qed.

(** A raw record declares its length at [field]. *)
Definition raw_ok (header_len field : nat) (r : raw_record) : Prop :=
  length r.1 = header_len ∧ bytes_ok r.1 ∧ bytes_ok r.2 ∧
  u16_from_le_bytes (byte_at r.1 field) (byte_at r.1 (field + 1)) = usize_len r.2.

Lemma skip_records_wire hl f rs pre post : Forall (raw_ok hl f) rs →
  Z.of_nat (length (pre ++ raw_wire rs)) ≤ USIZE_MAX →
  skip_records hl f (length rs) (pre ++ raw_wire rs ++ post) (length pre) =
    Ok (length pre + length (raw_wire rs))%nat.
Proof.
  intros Hrs. revert pre. induction Hrs as [|[h d] rs (Hl & _ & _ & Hd) Hrs IH]; intros pre Hmax;
    cbn [length skip_records].
  - unfold raw_wire. cbn. by rewrite Nat.add_0_r.
  - rewrite raw_wire_cons in *. cbn [fst snd] in *. rewrite !length_app in Hmax. rewrite <- !app_assoc.
    rewrite <- Hl, image_take_at by (done || lia). cbn [result_bind].
    rewrite Hd. unfold usize_len. rewrite Nat2Z.id, (app_assoc pre), image_take_at
      by (rewrite ?length_app; done || lia). cbn [result_bind].
    rewrite <- !length_app, app_assoc, Hl, IH by (rewrite !length_app; lia).
    f_equal. rewrite !length_app. lia.
Qed.

Lemma skip_records_inv hl f count bytes off off' : bytes_ok bytes → (off ≤ length bytes)%nat →
  (f + 1 < hl)%nat → skip_records hl f count bytes off = Ok off' →
  ∃ rs, length rs = count ∧ Forall (raw_ok hl f) rs ∧ slice off off' bytes = raw_wire rs ∧
    (off ≤ off' ≤ length bytes)%nat.
Proof.
  intros Hb Hoff Hf. revert off Hoff. induction count as [|count IH]; intros off Hoff H; cbn [skip_records] in H.
  - injection H as <-. exists []. split; [done|split; [apply List.Forall_nil|]].
    unfold slice. rewrite Nat.sub_diag. done.
  - destruct (image_take bytes off hl) as [[h mid]|] eqn:E1; [|done]. cbn [result_bind] in H.
    destruct (image_take bytes mid _) as [[d next]|] eqn:E2; [|done]. cbn [result_bind] in H.
    apply image_take_inv in E1 as (-> & -> & Hmid & Hl1). apply image_take_inv in E2 as (-> & -> & Hnext & Hl2).
    set (n := Z.to_nat _) in *.
    apply IH in H as (rs & Hlen & Hrs & Hs & Hle); [|done].
    exists ((slice off (off + hl) bytes, slice (off + hl) (off + hl + n) bytes) :: rs).
    split; [cbn; lia|]. split; [|split; [|lia]].
    + apply List.Forall_cons; [|done]. split; [done|]. split; [by apply bytes_ok_slice|].
      split; [by apply bytes_ok_slice|]. cbn [fst snd]. unfold usize_len. rewrite Hl2. unfold n.
      rewrite Z2Nat.id; [done|].
      pose proof (u16_from_le_ok (byte_at (slice off (off + hl) bytes) f)
        (byte_at (slice off (off + hl) bytes) (f + 1))) as Hu.
      destruct Hu; [by apply byte_at_ok, bytes_ok_slice..|done].
    + rewrite raw_wire_cons. cbn [fst snd]. rewrite <- Hs, !slice_split by lia. done.
Qed.

Definition string_of_raw (r : raw_record) : StringRecord :=
  mkStringRecord (byte_at r.1 0) (u16_from_le_bytes (byte_at r.1 1) (byte_at r.1 2)) r.2.
Definition report_of_raw (r : raw_record) : HidReportRecord := mkHidReport (byte_at r.1 0) r.2.

Lemma StringRecords_raw rs : Forall (raw_ok 5 3) rs →
  StringRecords (length rs) (raw_wire rs) = map string_of_raw rs.
Proof.
  induction 1 as [|[h d] rs (Hl & Hb & Hb2 & Hd) Hrs IH]; [done|]. cbn [length StringRecords map].
  rewrite raw_wire_cons. cbn [fst snd] in *. explode h Hl. unfold byte_at in Hd. cbn [nth Nat.add] in Hd.
  unfold STRING_RECORD_HEADER_LEN. rewrite decide_False by (cbn; lia).
  assert (Z.to_nat (read_u16 (slice 3 5 ([b; b0; b1; b2; b3] ++ d ++ raw_wire rs))) = length d) as ->.
  { change (read_u16 _) with (u16_from_le_bytes b2 b3). rewrite Hd. unfold usize_len. lia. }
  rewrite decide_False by (rewrite !length_app; cbn; lia). f_equal.
  - unfold string_of_raw. f_equal. cbn [snd]. by apply (slice_app_mid [b; b0; b1; b2; b3] d).
  - rewrite <- IH. f_equal. cbn [app Nat.add]. rewrite !skipn_cons. apply drop_app_length.
Qed.

Lemma HidReportRecords_raw rs : Forall (raw_ok 3 1) rs →
  HidReportRecords (length rs) (raw_wire rs) = map report_of_raw rs.
Proof.
  induction 1 as [|[h d] rs (Hl & Hb & Hb2 & Hd) Hrs IH]; [done|]. cbn [length HidReportRecords map].
  rewrite raw_wire_cons. cbn [fst snd] in *. explode h Hl. unfold byte_at in Hd. cbn [nth Nat.add] in Hd.
  unfold HID_REPORT_RECORD_HEADER_LEN. rewrite decide_False by (cbn; lia).
  assert (Z.to_nat (read_u16 (slice 1 3 ([b; b0; b1] ++ d ++ raw_wire rs))) = length d) as ->.
  { change (read_u16 _) with (u16_from_le_bytes b0 b1). rewrite Hd. unfold usize_len. lia. }
  rewrite decide_False by (rewrite !length_app; cbn; lia). f_equal.
  - unfold report_of_raw. f_equal. cbn [snd]. by apply (slice_app_mid [b; b0; b1] d).
  - rewrite <- IH. f_equal. cbn [app Nat.add]. rewrite !skipn_cons. apply drop_app_length.
Qed.

Record header_fields_ok (h : MirrorImageHeader) : Prop := {
  hf_magic : length (ih_magic h) = 4%nat;
  hf_reserved : length (ih_reserved h) = 4%nat;
  hf_version : u16_ok (ih_version h);
  hf_header_length : u16_ok (ih_header_length h);
  hf_total : u32_ok (ih_total_length h);
  hf_crc : u32_ok (ih_image_crc32 h);
  hf_flags : u32_ok (ih_flags h);
  hf_device : u16_ok (ih_device_length h);
  hf_configuration : u16_ok (ih_configuration_length h);
  hf_bos : u16_ok (ih_bos_length h);
  hf_strings : u8_ok (ih_string_count h);
  hf_reports : u8_ok (ih_hid_report_count h)
}.

Lemma header_decode_wire h rest : header_fields_ok h →
  MirrorImageHeader_decode (header_wire h ++ rest) = Some h.
Proof.
  intros []. destruct h as [magic v hl tl crc fl dl cl bl sc rc res]. 
  cbn [ih_magic ih_version ih_header_length ih_total_length ih_image_crc32 ih_flags
    ih_device_length ih_configuration_length ih_bos_length ih_string_count ih_hid_report_count ih_reserved] in *.
  explode magic hf_magic0. explode res hf_reserved0. unfold MirrorImageHeader_decode.
  rewrite decide_False by (rewrite length_app, length_header_wire by done; unfold HSMI_HEADER_LEN; lia).
  unfold header_wire, read_u16, read_u32, slice, byte_at.
  cbn -[u16_from_le_bytes u32_from_le_bytes Z.modulo Z.div].
  by rewrite !u16_from_to_le, !u32_from_to_le by done.
Qed.

Lemma header_decode_inv b h : bytes_ok b → MirrorImageHeader_decode b = Some h →
  header_fields_ok h ∧ b = header_wire h ++ drop 32 b.
Proof.
  intros Hb H. unfold MirrorImageHeader_decode in H. case_decide as Hl; [done|].
  unfold HSMI_HEADER_LEN in Hl. injection H as <-.
  assert (length (take 32 b) = 32%nat) as H32 by (rewrite length_take; lia).
  rewrite <- (take_drop 32 b). rewrite <- (take_drop 32 b) in Hb. revert Hb H32. generalize (take 32 b) (drop 32 b).
  intros l rest Hb H32. clear Hl b. explode l H32. apply bytes_ok_app in Hb as [Hb _]. split_bytes Hb.
  unfold read_u16, read_u32, slice, byte_at.
  cbn -[u16_from_le_bytes u32_from_le_bytes u16_to_le_bytes u32_to_le_bytes header_wire].
  split; [split; cbn -[u16_from_le_bytes u32_from_le_bytes]; try done; by first [apply u16_from_le_ok|apply u32_from_le_ok]|].
  unfold header_wire. cbn [ih_magic ih_version ih_header_length ih_total_length ih_image_crc32 ih_flags
    ih_device_length ih_configuration_length ih_bos_length ih_string_count ih_hid_report_count ih_reserved].
  by rewrite !u16_to_from_le, !u32_to_from_le by done.
Qed.

Lemma raw_string_ok r : string_ok r → usize_len (sr_descriptor r) ≤ U16_MAX → raw_ok 5 3 (raw_string r).
Proof.
  intros (Hi & Hl & Hd) Hlen. split; [done|]. split; [|split; [done|]].
  - cbn [raw_string fst]. solve_bytes.
  - cbn [raw_string fst snd]. unfold byte_at. cbn [nth app u16_to_le_bytes Nat.add].
    apply u16_from_to_le. unfold usize_len in *. words.
Qed.
Lemma raw_report_ok r : report_record_ok r → usize_len (hr_descriptor r) ≤ U16_MAX → raw_ok 3 1 (raw_report r).
Proof.
  intros (Hi & Hd) Hlen. split; [done|]. split; [|split; [done|]].
  - cbn [raw_report fst]. solve_bytes.
  - cbn [raw_report fst snd]. unfold byte_at. cbn [nth app u16_to_le_bytes Nat.add].
    apply u16_from_to_le. unfold usize_len in *. words.
Qed.

Lemma raw_wire_ok hl f rs : Forall (raw_ok hl f) rs → bytes_ok (raw_wire rs).
Proof.
  induction 1 as [|r rs (_ & Hh & Hd & _) Hrs IH]; [apply List.Forall_nil|].
  rewrite raw_wire_cons. by rewrite !bytes_ok_app.
Qed.

(** The records of a source that fits, raw. *)
Lemma source_raw s : source_ok s → source_fits s →
  Forall (raw_ok 5 3) (map raw_string (is_strings s)) ∧
  Forall (raw_ok 3 1) (map raw_report (is_hid_reports s)).
Proof.
  intros [_ _ Hs Hr] (Hsize & _ & _). pose proof (image_size_eq s).
  pose proof (strings_too_long (is_strings s) ltac:(lia)) as H1.
  pose proof (reports_too_long (is_hid_reports s) ltac:(lia)) as H2.
  rewrite !Forall_map. split.
  - eapply List.Forall_impl; [|exact (List.Forall_and Hs H1)]. intros r [? ?]. by apply raw_string_ok.
  - eapply List.Forall_impl; [|exact (List.Forall_and Hr H2)]. intros r [? ?]. by apply raw_report_ok.
Qed.

Lemma image_header_ok s c : source_ok s → source_fits s → u32_ok c → header_fields_ok (image_header s c).
Proof.
  intros [Hf _ _ _] (Hsize & Hs & Hr) Hc. pose proof (image_size_eq s). unfold HSMI_MAX_SIZE in *.
  split; cbn [image_header ih_magic ih_version ih_header_length ih_total_length ih_image_crc32 ih_flags
    ih_device_length ih_configuration_length ih_bos_length ih_string_count ih_hid_report_count ih_reserved];
    try done; unfold usize_len, u8_ok, u16_ok, u32_ok; lia.
Qed.

Lemma header_wire_ok h : header_fields_ok h → bytes_ok (ih_magic h) → bytes_ok (ih_reserved h) →
  bytes_ok (header_wire h).
Proof. intros [] Hm Hr. unfold header_wire. solve_bytes. Qed.

Lemma image_wire_ok s c : source_ok s → source_fits s → u32_ok c → bytes_ok (image_wire s c).
Proof.
  intros Hok Hfit Hc. destruct (source_raw s Hok Hfit) as [H1 H2]. unfold image_wire, records_bytes.
  rewrite !bytes_ok_app. split; [|split; [by destruct Hok|split; by eapply raw_wire_ok]].
  apply header_wire_ok; [by apply image_header_ok| |exact (bytes_ok_zeros 4)].
  apply (bool_decide_unpack _). vm_compute. exact I.
Qed.

Lemma image_crc_u32 s : source_ok s → source_fits s → u32_ok (image_crc s).
Proof.
  intros Hok Hfit. pose proof (image_wire_ok s 0 Hok Hfit ltac:(done)) as Hb. unfold image_crc.
  assert (mirror_image_crc32 (image_wire s 0) = crc32_ieee (image_wire s 0)) as ->.
  { exact (mirror_crc_eq (take 12 (image_wire s 0)) (zeros 4) (drop 16 (image_wire s 0)) eq_refl eq_refl). }
  by apply crc32_u32.
Qed.

Lemma string_of_raw_string r : string_ok r → string_of_raw (raw_string r) = r.
Proof.
  destruct r as [i l d]. intros (_ & Hl & _). unfold string_of_raw, raw_string, byte_at.
  cbn [sr_index sr_lang_id sr_descriptor fst snd app u16_to_le_bytes nth] in *. by rewrite u16_from_to_le.
Qed.
Lemma report_of_raw_report r : report_of_raw (raw_report r) = r.
Proof. by destruct r. Qed.

Lemma raw_string_of_raw r : raw_ok 5 3 r → raw_string (string_of_raw r) = r.
Proof.
  destruct r as [h d]. intros (Hl & Hb & Hb2 & Hd). unfold raw_string, string_of_raw. cbn [fst snd] in *.
  explode h Hl. unfold byte_at in *. cbn [nth Nat.add sr_index sr_lang_id sr_descriptor] in *.
  split_bytes Hb. rewrite <- Hd, !u16_to_from_le by done. done.
Qed.
Lemma raw_report_of_raw r : raw_ok 3 1 r → raw_report (report_of_raw r) = r.
Proof.
  destruct r as [h d]. intros (Hl & Hb & Hb2 & Hd). unfold raw_report, report_of_raw. cbn [fst snd] in *.
  explode h Hl. unfold byte_at in *. cbn [nth Nat.add hr_interface_number hr_descriptor] in *.
  split_bytes Hb. rewrite <- Hd, !u16_to_from_le by done. done.
Qed.

Lemma map_inverse {A B} (f : A → B) (g : B → A) (P : A → Prop) l :
  (∀ x, P x → g (f x) = x) → Forall P l → map g (map f l) = l.
Proof. intros Hgf. induction 1 as [|x l Hx _ IH]; [done|]. cbn [map]. by rewrite Hgf, IH. Qed.

Lemma string_of_raw_ok r : raw_ok 5 3 r → string_ok (string_of_raw r).
Proof.
  destruct r as [h d]. intros (Hl & Hb & Hb2 & Hd). split; [by apply byte_at_ok|]. split; [|done].
  apply u16_from_le_ok; by apply byte_at_ok.
Qed.
Lemma report_of_raw_ok r : raw_ok 3 1 r → report_record_ok (report_of_raw r).
Proof. destruct r as [h d]. intros (Hl & Hb & Hb2 & Hd). split; [by apply byte_at_ok|done]. Qed.

(** What was captured, read off a parsed image. *)
Definition source_of (img : MirrorImage) : MirrorImageSource :=
  mkImageSource (ih_flags (mi_header img)) (mi_device_descriptor img)
    (mi_configuration_descriptor img) (mi_bos_descriptor img) (mi_strings img) (mi_hid_reports img).

Lemma parse_body_at header hw dev conf bos strs reps :
  length hw = 32%nat → Forall (raw_ok 5 3) strs → Forall (raw_ok 3 1) reps →
  ih_device_length header = usize_len dev → ih_configuration_length header = usize_len conf →
  ih_bos_length header = usize_len bos → ih_string_count header = Z.of_nat (length strs) →
  ih_hid_report_count header = Z.of_nat (length reps) →
  let bytes := hw ++ dev ++ conf ++ bos ++ raw_wire strs ++ raw_wire reps in
  ih_total_length header = usize_len bytes → usize_len bytes ≤ HSMI_MAX_SIZE →
  parse_body header bytes = Ok (mkMirrorImage header dev conf bos (raw_wire strs) (raw_wire reps)).
Proof.
  intros Hhw Hs Hr Hd Hc Hb Hsc Hrc bytes Htotal Hmax. unfold parse_body.
  rewrite Hd, Hc, Hb, Hsc, Hrc, Htotal. unfold usize_len, HSMI_HEADER_LEN in *. rewrite !Nat2Z.id, <- Hhw.
  assert (Z.of_nat (length bytes) ≤ USIZE_MAX) as Hu by (revert Hmax; unfold HSMI_MAX_SIZE; words).
  clear Hmax Htotal. subst bytes. rewrite !length_app in Hu.
  rewrite image_take_at by (done || lia). cbn [result_bind].
  rewrite (app_assoc hw), <- length_app, image_take_at by (rewrite ?length_app; done || lia). cbn [result_bind].
  rewrite (app_assoc (hw ++ dev)), <- length_app, image_take_at by (rewrite ?length_app; done || lia).
  cbn [result_bind].
  rewrite (app_assoc ((hw ++ dev) ++ conf)), <- length_app.
  set (pre := ((hw ++ dev) ++ conf) ++ bos) in *.
  assert (length pre = length hw + length dev + length conf + length bos)%nat as Hpre
    by (unfold pre; rewrite !length_app; lia).
  rewrite skip_records_wire by (rewrite ?length_app; done || lia). cbn [result_bind].
  pose proof (skip_records_wire HID_REPORT_RECORD_HEADER_LEN 1 reps (pre ++ raw_wire strs) [] Hr) as Hskip.
  rewrite app_nil_r, <- (app_assoc pre), !length_app in Hskip.
  rewrite Hskip by lia. clear Hskip.
  cbn [result_bind]. rewrite slice_app_mid by done.
  rewrite decide_False by (rewrite !length_app; lia). do 2 f_equal.
  rewrite (app_assoc pre). rewrite <- (app_nil_r (raw_wire reps)) at 2. apply slice_app_mid; rewrite ?length_app; lia.
Qed.

Lemma parse_image_wire s : source_ok s → source_fits s →
  ∃ img, parse_mirror_image (image_wire s (image_crc s)) = Ok img ∧ source_of img = s.
Proof.
  intros Hok Hfit. destruct (source_raw s Hok Hfit) as [Hstr Hrep].
  pose proof (image_crc_u32 s Hok Hfit) as Hcrc.
  pose proof (image_header_ok s _ Hok Hfit Hcrc) as Hh. pose proof (image_size_eq s) as Hsize.
  destruct Hfit as (Hmax & Hs & Hr). pose proof (length_image_wire s (image_crc s)) as Hlen.
  set (img := mkMirrorImage (image_header s (image_crc s)) (is_device_descriptor s)
    (is_configuration_descriptor s) (is_bos_descriptor s)
    (raw_wire (map raw_string (is_strings s))) (raw_wire (map raw_report (is_hid_reports s)))).
  exists img. split.
  - assert (usize_len (image_wire s (image_crc s)) = Z.of_nat (image_size s)) as Hulen
      by (unfold usize_len; by rewrite Hlen).
    unfold parse_mirror_image. rewrite decide_False by lia. unfold image_wire at 1. rewrite header_decode_wire by done.
    cbn [image_header ih_magic ih_version ih_header_length ih_total_length ih_reserved ih_image_crc32].
    do 3 rewrite decide_False by tauto.
    rewrite decide_False by (unfold HSMI_HEADER_LEN; lia). do 2 rewrite decide_False by lia.
    rewrite decide_False by tauto. rewrite image_crc_any, decide_False by tauto.
    fold (image_header s (image_crc s)).
    change (parse_body (image_header s (image_crc s)) (image_wire s (image_crc s)) = Ok img).
    assert (image_wire s (image_crc s) = header_wire (image_header s (image_crc s)) ++
      is_device_descriptor s ++ is_configuration_descriptor s ++ is_bos_descriptor s ++
      raw_wire (map raw_string (is_strings s)) ++ raw_wire (map raw_report (is_hid_reports s))) as Hw
      by (unfold image_wire, descriptors_wire, records_bytes; by rewrite <- !app_assoc).
    rewrite Hw in *. apply parse_body_at; try done; [by rewrite length_map..|].
    by rewrite Hulen.
  - unfold source_of, mi_strings, mi_hid_reports. subst img. cbn [mi_header image_header ih_flags
      ih_string_count ih_hid_report_count mi_string_records mi_hid_report_records mi_device_descriptor
      mi_configuration_descriptor mi_bos_descriptor]. rewrite !Nat2Z.id.
    rewrite <- (length_map raw_string), <- (length_map raw_report).
    rewrite StringRecords_raw, HidReportRecords_raw by done. destruct Hok as [_ _ H1 _].
    rewrite (map_inverse _ _ string_ok) by (done || apply string_of_raw_string).
    rewrite (map_inverse _ _ (λ _, True)) by (first [intros; apply report_of_raw_report|by apply Forall_true]).
    by destruct s.
Qed.

Lemma parse_body_inv h bytes img : bytes_ok bytes → (32 ≤ length bytes)%nat →
  ih_total_length h = usize_len bytes → parse_body h bytes = Ok img →
  ∃ dev conf bos strs reps, img = mkMirrorImage h dev conf bos (raw_wire strs) (raw_wire reps) ∧
    drop 32 bytes = dev ++ conf ++ bos ++ raw_wire strs ++ raw_wire reps ∧
    length dev = Z.to_nat (ih_device_length h) ∧ length conf = Z.to_nat (ih_configuration_length h) ∧
    length bos = Z.to_nat (ih_bos_length h) ∧ length strs = Z.to_nat (ih_string_count h) ∧
    length reps = Z.to_nat (ih_hid_report_count h) ∧ Forall (raw_ok 5 3) strs ∧ Forall (raw_ok 3 1) reps.
Proof.
  intros Hb H32 Ht H. unfold parse_body, HSMI_HEADER_LEN in H.
  destruct (image_take bytes 32 _) as [[dev o1]|] eqn:E1; [|done]. cbn [result_bind] in H.
  destruct (image_take bytes o1 _) as [[conf o2]|] eqn:E2; [|done]. cbn [result_bind] in H.
  destruct (image_take bytes o2 _) as [[bos o3]|] eqn:E3; [|done]. cbn [result_bind] in H.
  destruct (skip_records _ 3 _ _ _) as [o4|] eqn:E4; [|done]. cbn [result_bind] in H.
  destruct (skip_records _ 1 _ _ _) as [o5|] eqn:E5; [|done]. cbn [result_bind] in H.
  case_decide as Hend; [done|]. injection H as <-.
  apply image_take_inv in E1 as (-> & Ho1 & Hl1 & Hd1). apply image_take_inv in E2 as (-> & Ho2 & Hl2 & Hd2).
  apply image_take_inv in E3 as (-> & Ho3 & Hl3 & Hd3).
  apply (skip_records_inv 5 3) in E4 as (strs & Hc4 & Hs4 & Hw4 & Hb4); [|done..|lia].
  apply (skip_records_inv 3 1) in E5 as (reps & Hc5 & Hs5 & Hw5 & Hb5); [|done|lia..].
  exists (slice 32 o1 bytes), (slice o1 o2 bytes), (slice o2 o3 bytes), strs, reps.
  rewrite <- Hw4, <- Hw5. split_and!; try done.
  rewrite !slice_split by lia. unfold slice. rewrite take_ge; [done|]. rewrite length_drop.
  unfold usize_len in Ht. lia.
Qed.

Lemma source_of_raw h dev conf bos strs reps : Forall (raw_ok 5 3) strs → Forall (raw_ok 3 1) reps →
  length strs = Z.to_nat (ih_string_count h) → length reps = Z.to_nat (ih_hid_report_count h) →
  source_of (mkMirrorImage h dev conf bos (raw_wire strs) (raw_wire reps)) =
    mkImageSource (ih_flags h) dev conf bos (map string_of_raw strs) (map report_of_raw reps).
Proof.
  intros Hs Hr Hsl Hrl. unfold source_of, mi_strings, mi_hid_reports. cbn [mi_header mi_string_records
    mi_hid_report_records mi_device_descriptor mi_configuration_descriptor mi_bos_descriptor].
  by rewrite <- Hsl, <- Hrl, StringRecords_raw, HidReportRecords_raw.
Qed.

Lemma image_header_eq s h : ih_magic h = HSMI_MAGIC → ih_version h = HSMI_VERSION →
  ih_header_length h = Z.of_nat HSMI_HEADER_LEN → Z.of_nat (image_size s) = ih_total_length h →
  is_flags s = ih_flags h → usize_len (is_device_descriptor s) = ih_device_length h →
  usize_len (is_configuration_descriptor s) = ih_configuration_length h →
  usize_len (is_bos_descriptor s) = ih_bos_length h →
  Z.of_nat (length (is_strings s)) = ih_string_count h →
  Z.of_nat (length (is_hid_reports s)) = ih_hid_report_count h →
  ih_reserved h = [0; 0; 0; 0] → image_header s (ih_image_crc32 h) = h.
Proof.
  intros Hm Hv Hl Ht Hf Hd Hc Hb Hs Hr Hres. unfold image_header.
  rewrite Ht, Hf, Hd, Hc, Hb, Hs, Hr, <- Hm, <- Hv, <- Hl, <- Hres. by destruct h.
Qed.

Lemma parse_image_inv bytes img : bytes_ok bytes → parse_mirror_image bytes = Ok img →
  source_ok (source_of img) ∧ source_fits (source_of img) ∧
  bytes = image_wire (source_of img) (image_crc (source_of img)).
Proof.
  intros Hb H. unfold parse_mirror_image in H. case_decide as Hmax; [done|].
  destruct (MirrorImageHeader_decode bytes) as [h|] eqn:Hh; [|done].
  apply header_decode_inv in Hh as [Hf Hw]; [|done].
  case_decide as Hm; [done|]. case_decide as Hv; [done|]. case_decide as Hl; [done|].
  case_decide as Ht; [done|]. case_decide; [done|]. case_decide; [done|].
  case_decide as Hres; [done|]. case_decide as Hcrc; [done|].
  assert (ih_total_length h = usize_len bytes) as Htl by lia. unfold HSMI_HEADER_LEN in Ht.
  apply parse_body_inv in H as (dev & conf & bos & strs & reps & -> & Hbody & Hd & Hc & Hbo & Hsl & Hrl & Hs & Hr);
    [|done|unfold usize_len in Htl; lia|done].
  rewrite source_of_raw by done. set (src := mkImageSource _ _ _ _ _ _).
  assert (bytes_ok (dev ++ conf ++ bos ++ raw_wire strs ++ raw_wire reps)) as Hbb
    by (rewrite <- Hbody; by apply bytes_ok_drop).
  assert (map raw_string (is_strings src) = strs) as Hrs
    by (apply (map_inverse _ _ (raw_ok 5 3)); [apply raw_string_of_raw|done]).
  assert (map raw_report (is_hid_reports src) = reps) as Hrr
    by (apply (map_inverse _ _ (raw_ok 3 1)); [apply raw_report_of_raw|done]).
  assert (descriptors_wire src ++ records_bytes src = drop 32 bytes) as Hdr.
  { unfold records_bytes. rewrite Hrs, Hrr, Hbody. unfold descriptors_wire. by rewrite <- !app_assoc. }
  destruct Hf as [? ? ? ? ? ? ? ? ? ? Hf1 Hf2]. unfold u8_ok in Hf1, Hf2.
  assert (Z.of_nat (image_size src) = usize_len bytes) as Hsz.
  { unfold image_size, HSMI_HEADER_LEN, usize_len in *. rewrite Hdr, length_drop. lia. }
  assert (image_header src (ih_image_crc32 h) = h) as Hhd.
  { unfold u16_ok in *. apply image_header_eq; [done..| | | | | | | |done]; subst src; unfold usize_len;
      cbn [is_flags is_device_descriptor is_configuration_descriptor is_bos_descriptor is_strings is_hid_reports];
      rewrite ?length_map; lia. }
  assert (bytes = image_wire src (ih_image_crc32 h)) as Hwire
    by (unfold image_wire; by rewrite Hhd, Hdr).
  split; [|split].
  - split; [done| | |].
    + unfold descriptors_wire. rewrite !bytes_ok_app in *. tauto.
    + subst src. cbn [is_strings]. rewrite Forall_map. eapply List.Forall_impl; [|exact Hs].
      apply string_of_raw_ok.
    + subst src. cbn [is_hid_reports]. rewrite Forall_map. eapply List.Forall_impl; [|exact Hr].
      apply report_of_raw_ok.
  - unfold source_fits. rewrite Hsz. subst src. cbn [is_strings is_hid_reports]. rewrite !length_map. lia.
  - rewrite <- (image_crc_any src (ih_image_crc32 h)), <- Hwire, Hcrc. done.
Qed.

(** C26: A captured device survives the trip from the host chip to the device chip: whenever
    [serialize_mirror_image] accepts a source, what it wrote parses, and the device, configuration and
    BOS descriptors and the string and report records read off the image are the source's.  Conversely
    an image that parses carries in-range fields, and serialising what was read off it gives back the
    image byte for byte, so every accepted image is the canonical one. *)
Theorem image_codec :
  (∀ s out out' n, source_ok s → serialize_mirror_image s out = (out', Ok n) →
     (n ≤ length out)%nat ∧ ∃ img, parse_mirror_image (take n out') = Ok img ∧ source_of img = s) ∧
  (∀ bytes img, bytes_ok bytes → parse_mirror_image bytes = Ok img →
     source_ok (source_of img) ∧
     serialize_mirror_image (source_of img) (zeros (length bytes)) = (bytes, Ok (length bytes))).
Proof.
  split.
  - intros s out out' n Hs H. destruct (serialize_spec s out) as [Hok Hinv].
    destruct (Hinv _ _ H) as [Hfit Hlen]. rewrite Hok in H by done. apply pair_eq in H as [<- [= <-]].
    split; [done|]. rewrite take_app_length' by (by rewrite length_image_wire). by apply parse_image_wire.
  - intros bytes img Hb H. destruct (parse_image_inv bytes img Hb H) as (Hs & Hfit & Hw). split; [done|].
    pose proof (length_image_wire (source_of img) (image_crc (source_of img))) as Hl. rewrite <- Hw in Hl.
    destruct (serialize_spec (source_of img) (zeros (length bytes))) as [-> _];
      [|split; [done|rewrite length_zeros; lia]].
    rewrite <- Hw, <- Hl. unfold zeros. rewrite drop_replicate, Nat.sub_diag. cbn [replicate]. by rewrite app_nil_r.
Qed.

Definition sample_source : MirrorImageSource :=
  mkImageSource 0 [18; 1; 0; 2] [9; 2; 34; 0; 1] [] [mkStringRecord 1 0x0409 [4; 3; 72; 0]]
    [mkHidReport 0 [5; 1; 9; 6]].

Lemma image_codec_witness :
  (∃ img, parse_mirror_image (take 57 (serialize_mirror_image sample_source (zeros 64)).1) = Ok img ∧
     source_of img = sample_source).
Proof.
  assert (source_ok sample_source) as Hok.
  { split; [done| | |]; apply (bool_decide_unpack _); vm_compute; exact I. }
  destruct (serialize_mirror_image sample_source (zeros 64)) as [out' r] eqn:E.
  assert (r = Ok 57%nat) as ->.
  { change r with (snd (out', r)). rewrite <- E. vm_compute. reflexivity. }
  destruct (proj1 image_codec sample_source (zeros 64) out' 57%nat Hok E) as (_ & img & H1 & H2).
  exists img. split; [exact H1|exact H2].
Defined.
