(* ===== verification/MirrorPlan.v ===== *)
(** * Validation of a mirror image ([src/src/mirror/validator.rs] and [src/src/mirror/plan.rs])

    The device chip accepts an image only after walking its descriptors and building the plan it
    will enumerate with.  Array accesses are checked reads, so that a panic would be visible. *)

From S2P Require Import Prelude Checksum MirrorImage.

Definition MIRROR_HID_INTERFACES_MAX : nat := 4.
Definition MIRROR_ENDPOINTS_MAX : nat := 8.
Definition USB_DESCRIPTOR_DEVICE : Z := 0x01.
Definition USB_DESCRIPTOR_CONFIGURATION : Z := 0x02.
Definition USB_DESCRIPTOR_STRING : Z := 0x03.
Definition USB_DESCRIPTOR_BOS : Z := 0x0f.
Definition USB_DESCRIPTOR_HID : Z := 0x21.
Definition USB_DESCRIPTOR_HID_REPORT : Z := 0x22.

Record EndpointPlan := mkEndpointPlan {
  ep_interface_number : Z; ep_address : Z; ep_max_packet_size : Z; ep_interval : Z
}.
Record HidInterfacePlan := mkInterfacePlan {
  hp_interface_number : Z; hp_subclass : Z; hp_protocol : Z;
  hp_hid_descriptor : list Z; hp_report_descriptor : list Z
}.
Record UsbDevicePlan := mkDevicePlan {
  up_device_descriptor : list Z; up_configuration_descriptor : list Z; up_bos_descriptor : list Z;
  up_strings : DescriptorTable; up_hid_reports : DescriptorTable;
  up_interfaces : list HidInterfacePlan; up_endpoints : list EndpointPlan
}.

Definition supports_remote_wakeup (self : UsbDevicePlan) : bool :=
  negb (Z.land (byte_at (up_configuration_descriptor self) 7) 0x20 =? 0).

Definition plan_device_descriptor (self : UsbDevicePlan) (descriptor_type index lang_id : Z)
  : option (list Z) :=
  if decide (descriptor_type = USB_DESCRIPTOR_DEVICE ∧ index = 0) then Some (up_device_descriptor self)
  else if decide (descriptor_type = USB_DESCRIPTOR_CONFIGURATION ∧ index = 0)
  then Some (up_configuration_descriptor self)
  else if decide (descriptor_type = USB_DESCRIPTOR_STRING)
  then string_table_get (up_strings self) index lang_id
  else if decide (descriptor_type = USB_DESCRIPTOR_BOS ∧ index = 0 ∧ up_bos_descriptor self ≠ [])
  then Some (up_bos_descriptor self)
  else None.

Definition plan_interface_descriptor (self : UsbDevicePlan) (interface_number descriptor_type : Z)
  : option (list Z) :=
  let+ interface := List.find (λ i, hp_interface_number i =? interface_number) (up_interfaces self) in
  if decide (descriptor_type = USB_DESCRIPTOR_HID) then Some (hp_hid_descriptor interface)
  else if decide (descriptor_type = USB_DESCRIPTOR_HID_REPORT)
  then Some (hp_report_descriptor interface)
  else None.

Inductive MirrorRejectReason :=
| RejectNone | RejectMalformedImage | RejectInvalidDescriptorLength | RejectMultipleConfigurations
| RejectNonHidInterface | RejectUnsupportedAlternateSetting | RejectUnsupportedEndpointType
| RejectPacketTooLarge | RejectDuplicateEndpointAddress | RejectEndpointResourceExhausted
| RejectMissingReportDescriptor | RejectImageTooLarge | RejectUnsupportedUsbVersion
| RejectRemoteWakeUnsupported | RejectStorageFailure.
#[export] Instance MirrorRejectReason_eq_dec : EqDecision MirrorRejectReason.
Proof. solve_decision. Defined.

Definition MirrorRejectReason_code (r : MirrorRejectReason) : Z :=
  match r with
  | RejectNone => 0 | RejectMalformedImage => 1 | RejectInvalidDescriptorLength => 2
  | RejectMultipleConfigurations => 3 | RejectNonHidInterface => 4
  | RejectUnsupportedAlternateSetting => 5 | RejectUnsupportedEndpointType => 6
  | RejectPacketTooLarge => 7 | RejectDuplicateEndpointAddress => 8
  | RejectEndpointResourceExhausted => 9 | RejectMissingReportDescriptor => 10
  | RejectImageTooLarge => 11 | RejectUnsupportedUsbVersion => 12
  | RejectRemoteWakeUnsupported => 13 | RejectStorageFailure => 14
  end.

(** A computation of the validator: it may reject, and might panic. *)
Definition Validation (A : Type) : Type := Run (Result MirrorRejectReason A).
Definition accept {A} (a : A) : Validation A := Returns (Ok a).
Definition reject {A} (r : MirrorRejectReason) : Validation A := Returns (Err r).

(** [vec.push(x).map_err(|_| e)] *)
Definition push_or {A} (cap : nat) (x : A) (l : list A) (e : MirrorRejectReason)
  : Validation (list A) :=
  match vec_push cap x l with Some l => accept l | None => reject e end.

Definition descriptor_length (bytes : list Z) (offset : nat) : Validation nat :=
  if decide (offset + 2 > length bytes)%nat then reject RejectInvalidDescriptorLength
  else
    let! b := at_index bytes offset in
    let length' := Z.to_nat b in
    if decide (length' < 2 ∨ offset + length' > length bytes)%nat
    then reject RejectInvalidDescriptorLength
    else accept length'.

Fixpoint walk_descriptors (fuel : nat) (bytes : list Z) (offset : nat) : Validation () :=
  if decide (offset < length bytes)%nat then
    match fuel with
    | O => OutOfFuel
    | S fuel =>
        let!? n := descriptor_length bytes offset in
        walk_descriptors fuel bytes (offset + n)
    end
  else accept ().

Definition validate_bos (descriptor : list Z) : Validation () :=
  if decide (descriptor = []) then accept ()
  else if decide (length descriptor < 5)%nat then reject RejectInvalidDescriptorLength
  else
    let! d0 := at_index descriptor 0 in
    let! d1 := at_index descriptor 1 in
    let! d2 := at_index descriptor 2 in
    let! d3 := at_index descriptor 3 in
    if decide (d0 ≠ 5 ∨ d1 ≠ 0x0f ∨ u16_from_le_bytes d2 d3 ≠ usize_len descriptor)
    then reject RejectInvalidDescriptorLength
    else walk_descriptors (length descriptor) descriptor 0.

Definition same_string (a b : StringRecord) : bool :=
  (sr_index b =? sr_index a) && (sr_lang_id b =? sr_lang_id a).

Fixpoint validate_strings_loop (strings records : list StringRecord) : Validation () :=
  match records with
  | [] => accept ()
  | record :: records =>
      let descriptor := sr_descriptor record in
      if decide (length descriptor < 2)%nat then reject RejectInvalidDescriptorLength
      else
        let! d0 := at_index descriptor 0 in
        let! d1 := at_index descriptor 1 in
        if decide (Nat.modulo (length descriptor) 2 ≠ 0%nat ∨ d0 ≠ usize_len descriptor ∨ d1 ≠ 0x03)
        then reject RejectInvalidDescriptorLength
        else if decide (length (List.filter (same_string record) strings) ≠ 1%nat)
        then reject RejectMalformedImage
        else validate_strings_loop strings records
  end.

Definition validate_strings (image : MirrorImage) : Validation () :=
  validate_strings_loop (mi_strings image) (mi_strings image).

Fixpoint collect_loop (records : list HidReportRecord) (reports : list (Z * list Z))
  : Validation (list (Z * list Z)) :=
  match records with
  | [] => accept reports
  | report :: records =>
      if decide (hr_descriptor report = []) then reject RejectMissingReportDescriptor
      else if existsb (λ r, r.1 =? hr_interface_number report) reports
      then reject RejectMalformedImage
      else
        let!? reports := push_or MIRROR_HID_INTERFACES_MAX
          (hr_interface_number report, hr_descriptor report) reports RejectEndpointResourceExhausted in
        collect_loop records reports
  end.

Definition collect_reports (image : MirrorImage) : Validation (list (Z * list Z)) :=
  collect_loop (mi_hid_reports image) [].

(** ** The configuration descriptor *)

Record ParsedInterface := mkParsed {
  pi_number : Z; pi_subclass : Z; pi_protocol : Z; pi_expected_endpoints : Z;
  pi_actual_endpoints : nat; pi_hid_descriptor : option (list Z)
}.
#[export] Instance eta_ParsedInterface : Eta ParsedInterface := λ r,
  mkParsed (pi_number r) (pi_subclass r) (pi_protocol r) (pi_expected_endpoints r)
    (pi_actual_endpoints r) (pi_hid_descriptor r).

Definition finish_interface (interfaces : list HidInterfacePlan) (reports : list (Z * list Z))
    (current : option ParsedInterface) : Validation (list HidInterfacePlan) :=
  match current with
  | None => accept interfaces
  | Some current =>
      if decide (pi_expected_endpoints current ≠ Z.of_nat (pi_actual_endpoints current))
      then reject RejectInvalidDescriptorLength
      else
        match List.find (λ r, r.1 =? pi_number current) reports with
        | None => reject RejectMissingReportDescriptor
        | Some (_, report) =>
            match pi_hid_descriptor current with
            | None => reject RejectInvalidDescriptorLength
            | Some hid_descriptor =>
                let! d7 := at_index hid_descriptor 7 in
                let! d8 := at_index hid_descriptor 8 in
                if decide (u16_from_le_bytes d7 d8 ≠ as_u16 (usize_len report))
                then reject RejectInvalidDescriptorLength
                else push_or MIRROR_HID_INTERFACES_MAX
                       (mkInterfacePlan (pi_number current) (pi_subclass current)
                         (pi_protocol current) hid_descriptor report)
                       interfaces RejectEndpointResourceExhausted
            end
        end
  end.

(** The locals of [validate_configuration]'s loop. *)
Record ConfigScan := mkScan {
  cs_interfaces : list HidInterfacePlan; cs_endpoints : list EndpointPlan;
  cs_addresses : list Z; cs_current : option ParsedInterface
}.
#[export] Instance eta_ConfigScan : Eta ConfigScan := λ r,
  mkScan (cs_interfaces r) (cs_endpoints r) (cs_addresses r) (cs_current r).

(** The [0x04] arm. *)
Definition scan_interface (reports : list (Z * list Z)) (descriptor : list Z) (s : ConfigScan)
  : Validation ConfigScan :=
  let!? interfaces := finish_interface (cs_interfaces s) reports (cs_current s) in
  if decide (length descriptor < 9)%nat then reject RejectInvalidDescriptorLength
  else
    let! d3 := at_index descriptor 3 in
    if decide (d3 ≠ 0) then reject RejectUnsupportedAlternateSetting
    else
      let! d5 := at_index descriptor 5 in
      if decide (d5 ≠ 0x03) then reject RejectNonHidInterface
      else
        let! d2 := at_index descriptor 2 in
        if existsb (λ plan, hp_interface_number plan =? d2) interfaces
        then reject RejectMalformedImage
        else
          let! d6 := at_index descriptor 6 in
          let! d7 := at_index descriptor 7 in
          let! d4 := at_index descriptor 4 in
          accept (s <| cs_interfaces := interfaces |>
                    <| cs_current := Some (mkParsed d2 d6 d7 d4 0 None) |>).

(** The class descriptors a HID descriptor lists. *)
Fixpoint hid_report_entry (count : nat) (descriptor : list Z) (hid_offset : nat)
    (declared_report : option Z) : Validation (option Z) :=
  match count with
  | O => accept declared_report
  | S count =>
      if decide (hid_offset + 3 > length descriptor)%nat
      then reject RejectInvalidDescriptorLength
      else
        let! kind := at_index descriptor hid_offset in
        if decide (kind = 0x22) then
          let! lo := at_index descriptor (hid_offset + 1) in
          let! hi := at_index descriptor (hid_offset + 2) in
          hid_report_entry count descriptor (hid_offset + 3) (Some (u16_from_le_bytes lo hi))
        else hid_report_entry count descriptor (hid_offset + 3) declared_report
  end.

(** The [0x21] arm. *)
Definition scan_hid (descriptor : list Z) (s : ConfigScan) : Validation ConfigScan :=
  match cs_current s with
  | None => reject RejectMalformedImage
  | Some current =>
      if decide (length descriptor < 9)%nat then reject RejectInvalidDescriptorLength
      else
        let! d5 := at_index descriptor 5 in
        if decide (d5 = 0) then reject RejectInvalidDescriptorLength
        else
          let!? declared_report := hid_report_entry (Z.to_nat d5) descriptor 6 None in
          if is_none declared_report || is_some (pi_hid_descriptor current)
          then reject RejectInvalidDescriptorLength
          else accept (s <| cs_current := Some (current <| pi_hid_descriptor := Some descriptor |>) |>)
  end.

(** The [0x05] arm. *)
Definition scan_endpoint (descriptor : list Z) (s : ConfigScan) : Validation ConfigScan :=
  match cs_current s with
  | None => reject RejectMalformedImage
  | Some current =>
      if decide (length descriptor < 7)%nat then reject RejectInvalidDescriptorLength
      else
        let! d3 := at_index descriptor 3 in
        if decide (Z.land d3 0x03 ≠ 0x03) then reject RejectUnsupportedEndpointType
        else
          let! address := at_index descriptor 2 in
          if decide (Z.land address 0x0f = 0 ∨ Z.land address 0x70 ≠ 0)
          then reject RejectMalformedImage
          else if existsb (Z.eqb address) (cs_addresses s)
          then reject RejectDuplicateEndpointAddress
          else
            let! d4 := at_index descriptor 4 in
            let! d5 := at_index descriptor 5 in
            let max_packet_size := u16_from_le_bytes d4 d5 in
            if decide (max_packet_size = 0 ∨ max_packet_size > 64) then reject RejectPacketTooLarge
            else
              let! d6 := at_index descriptor 6 in
              if decide (d6 = 0) then reject RejectInvalidDescriptorLength
              else
                let direction_count := length (List.filter (λ endpoint,
                  Z.land (ep_address endpoint) 0x80 =? Z.land address 0x80) (cs_endpoints s)) in
                if decide (direction_count ≥ 4)%nat then reject RejectEndpointResourceExhausted
                else
                  let!? addresses := push_or MIRROR_ENDPOINTS_MAX address (cs_addresses s)
                    RejectEndpointResourceExhausted in
                  let!? endpoints := push_or MIRROR_ENDPOINTS_MAX
                    (mkEndpointPlan (pi_number current) address max_packet_size d6)
                    (cs_endpoints s) RejectEndpointResourceExhausted in
                  accept (s <| cs_addresses := addresses |> <| cs_endpoints := endpoints |>
                            <| cs_current := Some
                                 (current <| pi_actual_endpoints ::= Datatypes.S |>) |>)
  end.

Definition scan_descriptor (reports : list (Z * list Z)) (descriptor : list Z) (s : ConfigScan)
  : Validation ConfigScan :=
  let! kind := at_index descriptor 1 in
  if decide (kind = 0x02) then reject RejectMultipleConfigurations
  else if decide (kind = 0x04) then scan_interface reports descriptor s
  else if decide (kind = 0x21) then scan_hid descriptor s
  else if decide (kind = 0x05) then scan_endpoint descriptor s
  else accept s.

Fixpoint scan_loop (fuel : nat) (reports : list (Z * list Z)) (config : list Z) (offset : nat)
    (s : ConfigScan) : Validation ConfigScan :=
  if decide (offset < length config)%nat then
    match fuel with
    | O => OutOfFuel
    | S fuel =>
        let!? n := descriptor_length config offset in
        let! descriptor := sub_slice offset (offset + n) config in
        let!? s := scan_descriptor reports descriptor s in
        scan_loop fuel reports config (offset + n) s
    end
  else accept s.

Definition validate_configuration (image : MirrorImage) (device_descriptor : list Z)
    (reports : list (Z * list Z)) : Validation UsbDevicePlan :=
  let config := mi_configuration_descriptor image in
  if decide (length config < 9)%nat then reject RejectInvalidDescriptorLength
  else
    let! c0 := at_index config 0 in
    let! c1 := at_index config 1 in
    if decide (c0 ≠ 9 ∨ c1 ≠ 0x02) then reject RejectInvalidDescriptorLength
    else
      let! c2 := at_index config 2 in
      let! c3 := at_index config 3 in
      if decide (u16_from_le_bytes c2 c3 ≠ usize_len config)
      then reject RejectInvalidDescriptorLength
      else
        let! c5 := at_index config 5 in
        let! c7 := at_index config 7 in
        if decide (c5 = 0 ∨ Z.land c7 0x9f ≠ 0x80) then reject RejectMalformedImage
        else
          let!? s := scan_loop (length config) reports config 9 (mkScan [] [] [] None) in
          let!? interfaces := finish_interface (cs_interfaces s) reports (cs_current s) in
          let! c4 := at_index config 4 in
          if decide (Z.of_nat (length interfaces) ≠ c4 ∨ interfaces = [])
          then reject RejectInvalidDescriptorLength
          else if decide (length reports ≠ length interfaces)
          then reject RejectMissingReportDescriptor
          else accept (mkDevicePlan device_descriptor config (mi_bos_descriptor image)
                 (mi_string_table image) (mi_hid_report_table image) interfaces (cs_endpoints s)).

Definition validate_parsed_image (image : MirrorImage) : Validation UsbDevicePlan :=
  let device := mi_device_descriptor image in
  if decide (length device ≠ 18%nat) then reject RejectInvalidDescriptorLength
  else
    let! d0 := at_index device 0 in
    let! d1 := at_index device 1 in
    if decide (d0 ≠ 18 ∨ d1 ≠ 0x01) then reject RejectInvalidDescriptorLength
    else
      let! d17 := at_index device 17 in
      if decide (d17 ≠ 1) then reject RejectMultipleConfigurations
      else
        let! d2 := at_index device 2 in
        let! d3 := at_index device 3 in
        if decide (¬ (0x0100 ≤ u16_from_le_bytes d2 d3 ≤ 0x0210)) then reject RejectUnsupportedUsbVersion
        else
          let! d7 := at_index device 7 in
          if negb (existsb (Z.eqb d7) [8; 16; 32; 64]) then reject RejectPacketTooLarge
          else
            let!? _ := validate_bos (mi_bos_descriptor image) in
            let!? _ := validate_strings image in
            let!? reports := collect_reports image in
            validate_configuration image device reports.

Definition map_parse_error (error : MirrorImageParseError) : MirrorRejectReason :=
  match error with
  | ParseImageTooLarge => RejectImageTooLarge
  | ParseInvalidHeaderLength | ParseInvalidRecordLength => RejectInvalidDescriptorLength
  | ParseUnsupportedVersion => RejectMalformedImage
  | _ => RejectMalformedImage
  end.

Definition validate_mirror_image (bytes : list Z) : Validation UsbDevicePlan :=
  let!? image := Returns (map_err map_parse_error (parse_mirror_image bytes)) in
  validate_parsed_image image.

(** ** What an accepted plan guarantees *)

(** The descriptors after the configuration header, read without the validator: the endpoints in
    order, each with the interface it follows, and the interfaces' numbers. *)
Definition descriptor_wf (d : list Z) : Prop := (2 ≤ length d)%nat ∧ byte_at d 0 = usize_len d.

Definition next_number (cur : Z) (d : list Z) : Z := if decide (byte_at d 1 = 4) then byte_at d 2 else cur.

Fixpoint endpoints_of (cur : Z) (ds : list (list Z)) : list EndpointPlan :=
  match ds with
  | [] => []
  | d :: ds =>
      (if decide (byte_at d 1 = 5)
       then [mkEndpointPlan cur (byte_at d 2) (u16_from_le_bytes (byte_at d 4) (byte_at d 5)) (byte_at d 6)]
       else []) ++ endpoints_of (next_number cur d) ds
  end.

Definition interface_numbers (ds : list (list Z)) : list Z :=
  map (λ d, byte_at d 2) (List.filter (λ d, byte_at d 1 =? 4) ds).

Definition endpoint_ok (e : EndpointPlan) : Prop :=
  Z.land (ep_address e) 0x0f ≠ 0 ∧ Z.land (ep_address e) 0x70 = 0 ∧
  1 ≤ ep_max_packet_size e ≤ 64 ∧ ep_interval e ≠ 0.

Definition same_direction (a : Z) (e : EndpointPlan) : bool :=
  Z.land (ep_address e) 0x80 =? Z.land a 0x80.

Record endpoints_ok (es : list EndpointPlan) : Prop := {
  eps_ok : Forall endpoint_ok es;
  eps_distinct : NoDup (map ep_address es);
  eps_max : (length es ≤ MIRROR_ENDPOINTS_MAX)%nat;
  eps_direction : ∀ a, (length (List.filter (same_direction a) es) ≤ 4)%nat
}.

(** The HID descriptor is whole and its report length is that of the captured report. *)
Definition interface_ok (reports : list (Z * list Z)) (i : HidInterfacePlan) : Prop :=
  (9 ≤ length (hp_hid_descriptor i))%nat ∧
  List.find (λ r, r.1 =? hp_interface_number i) reports =
    Some (hp_interface_number i, hp_report_descriptor i) ∧
  u16_from_le_bytes (byte_at (hp_hid_descriptor i) 7) (byte_at (hp_hid_descriptor i) 8) =
    as_u16 (usize_len (hp_report_descriptor i)).

Definition number_list (s : ConfigScan) : list Z :=
  map hp_interface_number (cs_interfaces s) ++
  match cs_current s with Some c => [pi_number c] | None => [] end.
Definition current_number (s : ConfigScan) : Z :=
  match cs_current s with Some c => pi_number c | None => 0 end.

Record scan_ok (reports : list (Z * list Z)) (s : ConfigScan) : Prop := {
  so_interfaces : Forall (interface_ok reports) (cs_interfaces s);
  so_max : (length (cs_interfaces s) ≤ MIRROR_HID_INTERFACES_MAX)%nat;
  so_numbers : NoDup (number_list s);
  so_endpoints : endpoints_ok (cs_endpoints s);
  so_addresses : cs_addresses s = map ep_address (cs_endpoints s);
  so_owned : Forall (λ e, ep_interface_number e ∈ number_list s) (cs_endpoints s);
  so_hid : ∀ c d, cs_current s = Some c → pi_hid_descriptor c = Some d → (9 ≤ length d)%nat
}.

(** *** Descriptor walks *)

Ltac val_step :=
  lazymatch goal with
  | |- yields (reject _) _ => apply yields_err
  | |- yields (if decide _ then _ else _) _ => case_decide
  | |- yields (run_bind (at_index _ _) _) _ => apply yields_at; [lia|]
  end.

Lemma push_or_yields {A} cap (x : A) l e :
  yields (push_or cap x l e) (λ l', l' = l ++ [x] ∧ (length l < cap)%nat).
Proof.
  unfold push_or. destruct (vec_push cap x l) as [l'|] eqn:H; [|apply yields_err].
  apply vec_push_Some in H as [? ->]. by apply yields_ok.
Qed.

Lemma descriptor_length_yields b off : yields (descriptor_length b off) (λ n,
  (2 ≤ n)%nat ∧ (off + n ≤ length b)%nat ∧ Z.of_nat n = byte_at b off).
Proof. unfold descriptor_length. repeat val_step. apply yields_ok. lia. Qed.

Lemma walk_yields fuel b off : (length b ≤ off + fuel)%nat → yields (walk_descriptors fuel b off) (λ _, True).
Proof.
  revert off. induction fuel as [|fuel IH]; intros off H; cbn [walk_descriptors].
  - rewrite decide_False by lia. by apply yields_ok.
  - case_decide; [|by apply yields_ok]. eapply yields_try; [apply descriptor_length_yields|].
    intros n (? & ? & _). apply IH. lia.
Qed.

Lemma bos_yields b : yields (validate_bos b) (λ _, True).
Proof. unfold validate_bos. case_decide; [by apply yields_ok|]. repeat val_step. apply walk_yields. lia. Qed.

Definition string_descriptor_ok (strings : list StringRecord) (r : StringRecord) : Prop :=
  (2 ≤ length (sr_descriptor r))%nat ∧ byte_at (sr_descriptor r) 0 = usize_len (sr_descriptor r) ∧
  byte_at (sr_descriptor r) 1 = 3 ∧ length (List.filter (same_string r) strings) = 1%nat.

Lemma strings_yields strings rs :
  yields (validate_strings_loop strings rs) (λ _, Forall (string_descriptor_ok strings) rs).
Proof.
  induction rs as [|r rs IH]; cbn [validate_strings_loop]; [by apply yields_ok|]. repeat val_step.
  eapply yields_weaken; [exact IH|]. intros ? Hrs. apply List.Forall_cons; [|done].
  repeat split; first [lia|tauto].
Qed.

Definition reports_ok (reports : list (Z * list Z)) : Prop :=
  NoDup (map fst reports) ∧ Forall (λ r, r.2 ≠ []) reports.

Lemma existsb_false {A} (f : A → bool) l : existsb f l = false → ∀ x, x ∈ l → f x = false.
Proof.
  intros H x Hx. apply not_true_iff_false. intros Hf. apply not_true_iff_false in H. apply H.
  apply existsb_exists. exists x. split; [by apply list_elem_of_In|done].
Qed.

Lemma collect_yields rs reports : reports_ok reports →
  yields (collect_loop rs reports) (λ reports',
    reports_ok reports' ∧ reports' = reports ++ map (λ r, (hr_interface_number r, hr_descriptor r)) rs).
Proof.
  revert reports. induction rs as [|r rs IH]; intros reports [Hd Hn]; cbn [collect_loop map].
  - apply yields_ok. split; [done|]. by rewrite app_nil_r.
  - val_step; [val_step|]. destruct (existsb _ reports) eqn:Hex; [apply yields_err|].
    eapply yields_try; [apply push_or_yields|]. intros l' [-> _].
    eapply yields_weaken; [apply IH|].
    + split.
      * rewrite map_app. apply list.NoDup_app. split; [done|]. split; [|cbn; apply NoDup_singleton].
        cbn [map fst]. intros x Hx Hx'. apply list_elem_of_singleton in Hx' as ->.
        apply list_elem_of_fmap in Hx as (y & Hy & Hyl). apply (existsb_false _ _ Hex) in Hyl.
        rewrite Hy, Z.eqb_refl in Hyl. done.
      * apply Forall_app. split; [done|]. by apply List.Forall_cons.
    + intros reports' [Hok ->]. split; [done|]. by rewrite <- app_assoc.
Qed.

(** *** The scan of the configuration *)

Lemma finish_yields ifs reports cur :
  (∀ c d, cur = Some c → pi_hid_descriptor c = Some d → (9 ≤ length d)%nat) →
  yields (finish_interface ifs reports cur) (λ ifs',
    match cur with
    | None => ifs' = ifs
    | Some c => ∃ i, ifs' = ifs ++ [i] ∧ (length ifs < MIRROR_HID_INTERFACES_MAX)%nat ∧
        interface_ok reports i ∧ hp_interface_number i = pi_number c
    end).
Proof.
  intros Hhid. unfold finish_interface. destruct cur as [c|]; [|by apply yields_ok]. val_step; [val_step|].
  destruct (List.find _ reports) as [[n report]|] eqn:Hf; [|apply yields_err].
  destruct (pi_hid_descriptor c) as [d|] eqn:Hd; [|apply yields_err].
  pose proof (Hhid c d eq_refl Hd) as Hl. repeat val_step.
  eapply yields_weaken; [apply push_or_yields|]. intros ifs' [-> Hmax]. eexists.
  split; [done|]. split; [done|]. split; [|done].
  pose proof (List.find_some _ _ Hf) as [_ Hn]. cbn [fst] in Hn. apply Z.eqb_eq in Hn as ->.
  split; [done|]. by split.
Qed.

(** One descriptor keeps the invariant and appends what the reference says. *)
Definition scanned (reports : list (Z * list Z)) (ds : list (list Z)) (s s' : ConfigScan) : Prop :=
  scan_ok reports s' ∧ cs_endpoints s' = cs_endpoints s ++ endpoints_of (current_number s) ds ∧
  number_list s' = number_list s ++ interface_numbers ds ∧
  current_number s' = fold_left next_number ds (current_number s).

Lemma finish_scan reports s : scan_ok reports s →
  yields (finish_interface (cs_interfaces s) reports (cs_current s)) (λ ifs,
    Forall (interface_ok reports) ifs ∧ map hp_interface_number ifs = number_list s ∧
    (length ifs ≤ MIRROR_HID_INTERFACES_MAX)%nat).
Proof.
  intros H. eapply yields_weaken; [apply finish_yields, H|]. intros ifs Hifs. unfold number_list.
  destruct H as [Hi Hm _ _ _ _ _]. destruct (cs_current s) as [c|].
  - destruct Hifs as (i & -> & Hlt & Hok & Hn). rewrite map_app, length_app. cbn [map length].
    split; [by apply Forall_app_2; [|apply List.Forall_cons]|]. split; [by rewrite Hn|lia].
  - subst ifs. by rewrite app_nil_r.
Qed.

Lemma scan_interface_yields reports d s : scan_ok reports s → byte_at d 1 = 4 →
  yields (scan_interface reports d s) (scanned reports [d] s).
Proof.
  intros H Hd. unfold scan_interface. eapply yields_try; [by apply finish_scan|].
  intros ifs (Hok & Hmap & Hmax). repeat val_step. destruct (existsb _ ifs) eqn:Hex; [apply yields_err|].
  repeat val_step. apply yields_ok.
  assert (byte_at d 2 ∉ number_list s) as Hfresh.
  { rewrite <- Hmap. intros Hin. apply list_elem_of_fmap in Hin as (i & Hi & Hin).
    apply (existsb_false _ _ Hex) in Hin. by rewrite Hi, Z.eqb_refl in Hin. }
  assert (number_list (s <| cs_interfaces := ifs |> <| cs_current :=
    Some (mkParsed (byte_at d 2) (byte_at d 6) (byte_at d 7) (byte_at d 4) 0 None) |>) =
    number_list s ++ [byte_at d 2]) as Hnl by (unfold number_list at 1; cbn; by rewrite Hmap).
  destruct H as [_ _ Hn He Ha Hown _]. split; [|split; [|split]].
  - split; try done.
    + rewrite Hnl. apply list.NoDup_app. split; [done|]. split; [|apply NoDup_singleton].
      intros x Hx Hx'. apply list_elem_of_singleton in Hx' as ->. done.
    + rewrite Hnl. eapply List.Forall_impl; [|exact Hown]. intros e Hin. cbn beta in *.
      apply elem_of_app. by left.
    + intros c d' Hc. cbn in Hc. by injection Hc as <-.
  - cbn [endpoints_of]. rewrite Hd, decide_False by done. cbn. by rewrite app_nil_r.
  - rewrite Hnl. unfold interface_numbers. cbn [List.filter map]. by rewrite Hd.
  - cbn [fold_left]. unfold next_number. by rewrite decide_True.
Qed.

Lemma hid_entry_yields n d off decl : yields (hid_report_entry n d off decl) (λ _, True).
Proof.
  revert off decl. induction n as [|n IH]; intros off decl; cbn [hid_report_entry]; [by apply yields_ok|].
  repeat val_step; apply IH.
Qed.

Lemma scanned_other reports d s : scan_ok reports s → byte_at d 1 ≠ 4 → byte_at d 1 ≠ 5 →
  scanned reports [d] s s.
Proof.
  intros H H4 H5. split; [done|]. cbn [endpoints_of]. rewrite decide_False by done.
  unfold interface_numbers. cbn [List.filter fold_left]. destruct (Z.eqb_spec (byte_at d 1) 4); [done|].
  rewrite !app_nil_r. unfold next_number. by rewrite decide_False.
Qed.

Lemma scan_hid_yields reports d s : scan_ok reports s → byte_at d 1 = 0x21 →
  yields (scan_hid d s) (scanned reports [d] s).
Proof.
  intros H Hd. unfold scan_hid. destruct (cs_current s) as [c|] eqn:Hc; [|apply yields_err].
  repeat val_step. eapply yields_try; [apply hid_entry_yields|]. intros decl _.
  destruct (_ || _); [apply yields_err|]. apply yields_ok.
  destruct (scanned_other reports d s H) as (_ & He & Hn & Hcur); [lia..|].
  assert (number_list (s <| cs_current := Some (c <| pi_hid_descriptor := Some d |>) |>) = number_list s) as Hnl
    by (unfold number_list; cbn; by rewrite Hc).
  split; [|split; [exact He|split; [by rewrite Hnl|]]].
  2: { rewrite <- Hcur. unfold current_number. cbn. by rewrite Hc. }
  destruct H. split; try done; try by rewrite Hnl.
  intros c' d' Hc'. cbn in Hc'. injection Hc' as <-. cbn. intros [= <-]. lia.
Qed.

Lemma filter_snoc_count {A} (f : A → bool) l x :
  length (List.filter f (l ++ [x])) = (length (List.filter f l) + if f x then 1 else 0)%nat.
Proof. rewrite List.filter_app, length_app. cbn. by destruct (f x). Qed.

Lemma endpoints_snoc es e : endpoints_ok es → endpoint_ok e → ep_address e ∉ map ep_address es →
  (length es < MIRROR_ENDPOINTS_MAX)%nat →
  (length (List.filter (same_direction (ep_address e)) es) < 4)%nat → endpoints_ok (es ++ [e]).
Proof.
  intros [Hok Hnd Hmax Hdir] He Hfresh Hlt Hd. split.
  - apply Forall_app_2; [done|]. by apply List.Forall_cons.
  - rewrite map_app. apply list.NoDup_app. split; [done|]. split; [|apply NoDup_singleton].
    intros x Hx Hx'. by apply list_elem_of_singleton in Hx' as ->.
  - rewrite length_app. cbn [length]. lia.
  - intros a. rewrite filter_snoc_count. specialize (Hdir a). unfold same_direction at 2.
    destruct (Z.eqb_spec (Z.land (ep_address e) 0x80) (Z.land a 0x80)) as [Heq|]; [|lia].
    assert (length (List.filter (same_direction a) es) =
      length (List.filter (same_direction (ep_address e)) es)) as ->; [|lia].
    f_equal. apply List.filter_ext. intros x. unfold same_direction. by rewrite Heq.
Qed.

Lemma scan_endpoint_yields reports d s : scan_ok reports s → byte_at d 1 = 5 → bytes_ok d →
  yields (scan_endpoint d s) (scanned reports [d] s).
Proof.
  intros H Hd Hb. unfold scan_endpoint. destruct (cs_current s) as [c|] eqn:Hc; [|apply yields_err].
  repeat val_step. destruct (existsb _ (cs_addresses s)) eqn:Hex; [apply yields_err|]. repeat val_step.
  eapply yields_try; [apply push_or_yields|]. intros addrs [-> Hlt].
  eapply yields_try; [apply push_or_yields|]. intros eps [-> _]. apply yields_ok.
  destruct H as [Hi Hm Hn He Ha Hown Hhid].
  match goal with |- context [_ <| cs_endpoints := _ ++ [?x] |>] => set (e := x) in * end.
  match goal with |- scanned _ _ _ ?x => set (s' := x) in * end.
  assert (number_list s' = number_list s) as Hnl by (unfold number_list; cbn; by rewrite Hc).
  split; [split|split; [|split]]; try done.
  - by rewrite Hnl.
  - apply endpoints_snoc; [done| | | |].
    + pose proof (u16_from_le_ok (byte_at d 4) (byte_at d 5)) as Hu.
      destruct Hu as [Hu _]; [by apply byte_at_ok..|]. split; [cbn; lia|]. split; [cbn; lia|].
      split; [|done]. cbn. lia.
    + rewrite <- Ha. intros Hin. apply (existsb_false _ _ Hex) in Hin. cbn in Hin. by rewrite Z.eqb_refl in Hin.
    + rewrite Ha, length_map in Hlt. done.
    + match goal with Hc4 : ¬ (length (List.filter _ _) ≥ 4)%nat |- _ => revert Hc4 end.
      unfold same_direction. cbn. lia.
  - cbn. by rewrite Ha, map_app.
  - rewrite Hnl. cbn. apply Forall_app_2; [done|]. apply List.Forall_cons; [|done]. unfold number_list.
    rewrite Hc. apply elem_of_app. right. by apply list_elem_of_singleton.
  - intros c' d' Hc'. cbn in Hc'. injection Hc' as <-. cbn. by apply Hhid.
  - cbn [endpoints_of]. rewrite decide_True by done. unfold current_number. by rewrite Hc.
  - rewrite Hnl. unfold interface_numbers. cbn [List.filter]. rewrite Hd. cbn. by rewrite app_nil_r.
  - cbn [fold_left]. unfold next_number. rewrite decide_False by lia. unfold current_number. cbn. by rewrite Hc.
Qed.

Lemma scan_descriptor_yields reports d s : scan_ok reports s → (2 ≤ length d)%nat → bytes_ok d →
  yields (scan_descriptor reports d s) (scanned reports [d] s).
Proof.
  intros H Hl Hb. unfold scan_descriptor. repeat val_step; [|by apply scan_hid_yields|by apply scan_endpoint_yields|].
  - by apply scan_interface_yields.
  - by apply yields_ok, scanned_other.
Qed.

Lemma endpoints_of_app cur a b : endpoints_of cur (a ++ b) =
  endpoints_of cur a ++ endpoints_of (fold_left next_number a cur) b.
Proof.
  revert cur. induction a as [|d a IH]; intros cur; [done|]. cbn [app endpoints_of fold_left].
  by rewrite IH, app_assoc.
Qed.

Lemma interface_numbers_app a b : interface_numbers (a ++ b) = interface_numbers a ++ interface_numbers b.
Proof. unfold interface_numbers. by rewrite List.filter_app, map_app. Qed.

Lemma scanned_app reports a b s s' s'' : scanned reports a s s' → scanned reports b s' s'' →
  scanned reports (a ++ b) s s''.
Proof.
  intros (_ & He & Hn & Hc) (H & He' & Hn' & Hc'). split; [done|].
  rewrite He', He, Hn', Hn, Hc', Hc, endpoints_of_app, interface_numbers_app, fold_left_app, !app_assoc. done.
Qed.

Lemma scan_loop_yields fuel reports config off s : bytes_ok config → scan_ok reports s →
  (length config ≤ off + fuel)%nat → (off ≤ length config)%nat →
  yields (scan_loop fuel reports config off s) (λ s', ∃ ds,
    Forall descriptor_wf ds ∧ drop off config = concat ds ∧ scanned reports ds s s').
Proof.
  intros Hb. revert off s. induction fuel as [|fuel IH]; intros off s H Hf Hoff; cbn [scan_loop].
  - rewrite decide_False by lia. apply yields_ok. exists []. rewrite drop_ge by lia. split; [done|]. split; [done|].
    split; [done|]. cbn. by rewrite !app_nil_r.
  - case_decide as Hlt.
    2: { apply yields_ok. exists []. rewrite drop_ge by lia. split; [done|]. split; [done|].
         split; [done|]. cbn. by rewrite !app_nil_r. }
    eapply yields_try; [apply descriptor_length_yields|]. intros n (Hn2 & Hn & Hbyte).
    apply yields_slice; [lia|]. set (d := slice off (off + n) config).
    assert (length d = n) as Hdl by (unfold d; rewrite length_slice; lia).
    eapply yields_try; [apply scan_descriptor_yields; [done|lia|by apply bytes_ok_slice]|].
    intros s' Hs'. eapply yields_weaken; [apply IH; [apply Hs'|lia..]|].
    intros s'' (ds & Hwf & Hcat & Hs''). exists (d :: ds). split; [|split].
    + apply List.Forall_cons; [|done]. split; [lia|]. unfold usize_len. rewrite Hdl, Hbyte. unfold d, slice, byte_at.
      rewrite !nth_lookup, lookup_take_lt by lia. by rewrite lookup_drop, Nat.add_0_r.
    + cbn [concat]. rewrite <- Hcat. unfold d, slice. replace (off + n - off)%nat with n by lia.
      rewrite <- (take_drop n (drop off config)) at 1. by rewrite drop_drop.
    + by apply (scanned_app _ [d] ds s s' s'').
Qed.

(** ** The plan *)

Record plan_ok (image : MirrorImage) (plan : UsbDevicePlan) : Prop := {
  po_device : length (up_device_descriptor plan) = 18%nat ∧
    plan_device_descriptor plan USB_DESCRIPTOR_DEVICE 0 0 = Some (mi_device_descriptor image);
  po_configuration :
    plan_device_descriptor plan USB_DESCRIPTOR_CONFIGURATION 0 0 = Some (mi_configuration_descriptor image);
  (** the plan is the configuration descriptor, item by item *)
  po_items : ∃ ds, Forall descriptor_wf ds ∧ drop 9 (mi_configuration_descriptor image) = concat ds ∧
    up_endpoints plan = endpoints_of 0 ds ∧
    map hp_interface_number (up_interfaces plan) = interface_numbers ds;
  po_endpoints : endpoints_ok (up_endpoints plan);
  po_owned : ∀ e, e ∈ up_endpoints plan →
    ep_interface_number e ∈ map hp_interface_number (up_interfaces plan);
  po_interfaces : NoDup (map hp_interface_number (up_interfaces plan)) ∧
    (1 ≤ length (up_interfaces plan) ≤ MIRROR_HID_INTERFACES_MAX)%nat ∧
    Z.of_nat (length (up_interfaces plan)) = byte_at (mi_configuration_descriptor image) 4;
  po_report_length : ∀ i, i ∈ up_interfaces plan → hp_report_descriptor i ≠ [] ∧
    u16_from_le_bytes (byte_at (hp_hid_descriptor i) 7) (byte_at (hp_hid_descriptor i) 8) =
      as_u16 (usize_len (hp_report_descriptor i));
  (** both ways to ask for a report descriptor give the captured one, and nothing else is served *)
  po_reports : ∀ n, plan_interface_descriptor plan n USB_DESCRIPTOR_HID_REPORT =
    hid_report_table_get (up_hid_reports plan) n;
  po_strings : ∀ r, r ∈ mi_strings image →
    plan_device_descriptor plan USB_DESCRIPTOR_STRING (sr_index r) (sr_lang_id r) = Some (sr_descriptor r)
}.

Lemma find_filter {A} (f : A → bool) l : List.find f l = head (List.filter f l).
Proof. induction l as [|x l IH]; [done|]. cbn. by destruct (f x). Qed.

Lemma find_unique {A} (f : A → bool) l x : x ∈ l → f x = true → length (List.filter f l) = 1%nat →
  List.find f l = Some x.
Proof.
  intros Hx Hf Hl. rewrite find_filter.
  assert (In x (List.filter f l)) as Hin by (apply filter_In; split; [by apply list_elem_of_In|done]).
  destruct (List.filter f l) as [|y [|z l']]; try done. destruct Hin as [->|[]]. done.
Qed.

Lemma report_find recs n :
  hr_descriptor <$> List.find (λ r, hr_interface_number r =? n) recs =
  snd <$> List.find (λ r : Z * list Z, r.1 =? n) (map (λ r, (hr_interface_number r, hr_descriptor r)) recs).
Proof. induction recs as [|r recs IH]; [done|]. cbn. by destruct (_ =? _). Qed.

Lemma find_None_fst (reports : list (Z * list Z)) n : n ∉ map fst reports →
  List.find (λ r, r.1 =? n) reports = None.
Proof.
  intros Hn. destruct (List.find _ reports) as [r|] eqn:H; [|done]. exfalso. apply Hn.
  apply List.find_some in H as [Hin Heq]. apply Z.eqb_eq in Heq as <-.
  apply list_elem_of_In. apply in_map. done.
Qed.

(** As many reports as interfaces, each interface with a report of its own: the numbers are the same. *)
Lemma numbers_covered reports ifs : reports_ok reports → Forall (interface_ok reports) ifs →
  NoDup (map hp_interface_number ifs) → length reports = length ifs →
  ∀ n, n ∈ map fst reports → n ∈ map hp_interface_number ifs.
Proof.
  intros [Hnd _] Hok Hn Hlen n Hin.
  assert (map hp_interface_number ifs ≡ₚ map fst reports) as ->; [|done].
  apply submseteq_length_Permutation; [|rewrite !length_map; lia].
  apply NoDup_submseteq; [done|]. intros x Hx. apply list_elem_of_fmap in Hx as (i & -> & Hi).
  rewrite Forall_forall in Hok. destruct (Hok i) as (_ & Hf & _); [by apply list_elem_of_In|].
  apply List.find_some in Hf as [Hf _]. apply list_elem_of_In.
  by apply (in_map fst _ (hp_interface_number i, hp_report_descriptor i)).
Qed.

Lemma reports_agree reports ifs n : reports_ok reports → Forall (interface_ok reports) ifs →
  NoDup (map hp_interface_number ifs) → length reports = length ifs →
  (hp_report_descriptor <$> List.find (λ i, hp_interface_number i =? n) ifs) =
  (snd <$> List.find (λ r : Z * list Z, r.1 =? n) reports).
Proof.
  intros Hr Hok Hnd Hlen. destruct (List.find _ ifs) as [i|] eqn:Hf.
  - apply List.find_some in Hf as [Hin Heq]. apply Z.eqb_eq in Heq as <-.
    rewrite List.Forall_forall in Hok. destruct (Hok i Hin) as (_ & Hrep & _). by rewrite Hrep.
  - rewrite find_None_fst; [done|]. intros Hin. apply (numbers_covered _ ifs) in Hin; try done.
    apply list_elem_of_fmap in Hin as (i & -> & Hi). apply list_elem_of_In in Hi.
    pose proof (List.find_none _ _ Hf i Hi) as Hne. cbn beta in Hne; by rewrite Z.eqb_refl in Hne.
Qed.

Lemma configuration_yields image reports : bytes_ok (mi_configuration_descriptor image) →
  length (mi_device_descriptor image) = 18%nat → Forall (string_descriptor_ok (mi_strings image)) (mi_strings image) →
  reports_ok reports →
  reports = map (λ r, (hr_interface_number r, hr_descriptor r)) (mi_hid_reports image) →
  yields (validate_configuration image (mi_device_descriptor image) reports) (plan_ok image).
Proof.
  intros Hb Hdev Hstr Hr Heq. unfold validate_configuration. set (config := mi_configuration_descriptor image) in *.
  repeat val_step.
  eapply yields_try; [apply (scan_loop_yields _ reports config 9 (mkScan [] [] [] None) Hb); [|lia..]|].
  { split; try done; try constructor; cbn; try lia; try constructor. all: unfold MIRROR_ENDPOINTS_MAX; lia. }
  intros s (ds & Hwf & Hcat & Hs & He & Hn & _).
  eapply yields_try; [by apply finish_scan|]. intros ifs (Hok & Hmap & Hmax). repeat val_step. apply yields_ok.
  destruct Hs as [_ _ Hnd Heps _ Hown _]. rewrite <- Hmap in *.
  match goal with |- plan_ok _ ?p => set (plan := p) end.
  assert (Forall (λ i, hp_report_descriptor i ≠ []) ifs) as Hne.
  { eapply List.Forall_impl; [|exact Hok]. intros i (_ & Hf & _). apply List.find_some in Hf as [Hin _].
    destruct Hr as [_ Hr]. rewrite List.Forall_forall in Hr. exact (Hr _ Hin). }
  split.
  - by split.
  - done.
  - exists ds. split; [done|]. split; [done|]. split; [exact He|]. subst plan. cbn [up_interfaces].
    rewrite Hn. done.
  - done.
  - intros e Hin. apply list_elem_of_In in Hin. rewrite List.Forall_forall in Hown. by apply Hown.
  - subst plan. cbn [up_interfaces]. split; [done|].
    assert (ifs ≠ [] ∧ Z.of_nat (length ifs) = byte_at config 4) as [Hnil Hcount]
      by (destruct (decide (Z.of_nat (length ifs) = byte_at config 4)); tauto).
    split; [|exact Hcount]. destruct ifs; [done|cbn in *; lia].
  - intros i Hin. apply list_elem_of_In in Hin. subst plan. cbn [up_interfaces] in Hin.
    rewrite List.Forall_forall in Hok, Hne. split; [by apply Hne|]. by destruct (Hok i Hin) as (_ & _ & ?).
  - intros n. unfold plan_interface_descriptor, hid_report_table_get. subst plan. cbn [up_interfaces up_hid_reports].
    rewrite report_find. change (HidReportRecords _ _) with (mi_hid_reports image). rewrite <- Heq.
    rewrite <- (reports_agree reports ifs n Hr Hok Hnd) by lia.
    by destruct (List.find _ ifs).
  - intros r Hin. unfold plan_device_descriptor. do 2 rewrite decide_False by (intros [? _]; discriminate).
    rewrite decide_True by done. unfold string_table_get. subst plan. cbn [up_strings].
    change (StringRecords _ _) with (mi_strings image). rewrite List.Forall_forall in Hstr.
    destruct (Hstr r) as (_ & _ & _ & Hone); [by apply list_elem_of_In|].
    rewrite (find_unique _ _ r); [done|done| |].
    + by rewrite !Z.eqb_refl.
    + done.
Qed.

Lemma parsed_image_yields image : bytes_ok (mi_configuration_descriptor image) →
  yields (validate_parsed_image image) (plan_ok image).
Proof.
  intros Hb. unfold validate_parsed_image. repeat val_step. destruct (negb _); [apply yields_err|].
  eapply yields_try; [apply bos_yields|]. intros _ _.
  eapply yields_try; [apply strings_yields|]. intros ? Hstr.
  eapply yields_try; [apply collect_yields; split; constructor|]. intros reports [Hr Heq].
  by apply configuration_yields.
Qed.

Lemma validate_yields bytes : bytes_ok bytes → yields (validate_mirror_image bytes)
  (λ plan, ∃ image, parse_mirror_image bytes = Ok image ∧ plan_ok image plan).
Proof.
  intros Hb. unfold validate_mirror_image. eapply yields_try.
  - apply yields_result. intros image Himg. exact Himg.
  - intros image Himg. destruct (parse_mirror_image bytes) as [img|] eqn:Hp; [|done]. injection Himg as <-.
    eapply yields_weaken; [apply parsed_image_yields|].
    + destruct (parse_image_inv bytes img Hb Hp) as ([_ Hd _ _] & _ & _). revert Hd.
      unfold descriptors_wire, source_of. cbn. rewrite !bytes_ok_app. tauto.
    + intros plan Hplan. by exists img.
Qed.

(** C27: Validating any byte string ends, without a panic.  When it accepts, the bytes are a parsed
    image and the plan is faithful to it: the endpoints and interfaces are, in order, exactly those of
    the configuration descriptor; every limit of the device chip holds (at most 4 interfaces and as
    many as the configuration declares, 8 endpoints, 4 per direction, distinct addresses, interrupt
    packets of 1 to 64 bytes, each endpoint on a planned interface); the HID descriptor of each
    interface announces the length of the report descriptor the plan has for it; and the device serves
    each captured string and exactly the captured report descriptors, by either lookup. *)
Theorem validated_plan_faithful bytes : bytes_ok bytes →
  ∃ r, validate_mirror_image bytes = Returns r ∧
    ∀ plan, r = Ok plan → ∃ image, parse_mirror_image bytes = Ok image ∧ plan_ok image plan.
Proof. exact (validate_yields bytes). Qed.

(** A keyboard and a mouse interface, captured and validated. *)
Definition sample_device : MirrorImageSource :=
  mkImageSource 0 [18; 1; 0; 2; 0; 0; 0; 64; 0xfe; 0xca; 1; 0x40; 0; 1; 1; 0; 0; 1]
    [9; 2; 59; 0; 2; 1; 0; 0x80; 50;
     9; 4; 0; 0; 1; 3; 1; 1; 0; 9; 0x21; 0x11; 1; 0; 1; 0x22; 2; 0; 7; 5; 0x81; 3; 8; 0; 1;
     9; 4; 1; 0; 1; 3; 0; 0; 0; 9; 0x21; 0x11; 1; 0; 1; 0x22; 3; 0; 7; 5; 0x82; 3; 64; 0; 1]
    [] [mkStringRecord 1 0x0409 [4; 3; 72; 0]] [mkHidReport 0 [5; 1]; mkHidReport 1 [5; 1; 9]].
Definition sample_image_bytes : list Z :=
  let out := (serialize_mirror_image sample_device (zeros 256)).1 in
  take (image_size sample_device) out.

Lemma validated_plan_faithful_witness :
  bytes_ok sample_image_bytes ∧ ∃ plan, validate_mirror_image sample_image_bytes = Returns (Ok plan) ∧
    map ep_address (up_endpoints plan) = [0x81; 0x82] ∧
    ∃ image, parse_mirror_image sample_image_bytes = Ok image ∧ plan_ok image plan.
Proof.
  assert (bytes_ok sample_image_bytes) as Hb by (apply (bool_decide_unpack _); vm_compute; exact I).
  split; [exact Hb|].
  destruct (validated_plan_faithful sample_image_bytes Hb) as (r & Hr & Hp).
  destruct r as [plan|e].
  - exists plan. split; [exact Hr|]. split; [|exact (Hp plan eq_refl)].
    assert (match validate_mirror_image sample_image_bytes with
            | Returns (Ok p) => map ep_address (up_endpoints p) | _ => [] end = [0x81; 0x82]) as H
      by (vm_compute; reflexivity).
    rewrite Hr in H. exact H.
  - exfalso. assert (match validate_mirror_image sample_image_bytes with
            | Returns (Err _) => true | _ => false end = false) as H by (vm_compute; reflexivity).
    rewrite Hr in H. discriminate H.
Defined.

(** The report length is read from the first class descriptor a HID descriptor lists, at bytes 7 and
    8, although the scan accepts the report descriptor at any position.  Here the first entry is a
    physical descriptor of 2 bytes and the report descriptor is declared with 9: an image with a
    2-byte report is accepted, and one with the declared 9 bytes is rejected. *)
Definition physical_first (report : list Z) : list Z :=
  let source := mkImageSource 0 (is_device_descriptor sample_device)
    [9; 2; 37; 0; 1; 1; 0; 0x80; 50; 9; 4; 0; 0; 1; 3; 1; 1; 0;
     12; 0x21; 0x11; 1; 0; 2; 0x23; 2; 0; 0x22; 9; 0; 7; 5; 0x81; 3; 8; 0; 1]
    [] [] [mkHidReport 0 report] in
  take (image_size source) (serialize_mirror_image source (zeros 256)).1.

Definition verdict (v : Validation UsbDevicePlan) : option MirrorRejectReason :=
  match v with Returns (Err e) => Some e | _ => None end.

Lemma report_length_of_first_entry :
  verdict (validate_mirror_image (physical_first [5; 1])) = None ∧
  verdict (validate_mirror_image (physical_first [5; 1; 9; 6; 0; 0; 0; 0; 0])) =
    Some RejectInvalidDescriptorLength.
Proof. split; vm_compute; reflexivity. Qed.
