(* ===== verification/ProfileTransfer.v ===== *)
(** * Profile transfer ([src/src/interchip/profile_transfer.rs])

    The host chip sends a mirror image in chunks; the device chip stages them, tolerates
    retransmitted chunks and exposes the image only after CRC and validation. *)

From S2P Require Import Prelude Checksum Message MirrorImage MirrorPlan.

Inductive ProfileTransferCommand :=
| TransferBegin (b : ProfileBegin) | TransferChunk (c : ProfileChunkData) | TransferCommit (transfer_id : Z).

Inductive ProfileTransferError :=
| TransferBusy | TransferInvalidLength | WrongTransfer | OffsetGap | ConflictingRetry.

(** ** Encoder *)

Record ProfileTransferEncoder := mkEncoder {
  pe_image : list Z; pe_begin : ProfileBegin; pe_offset : nat; pe_phase : Z
}.
#[export] Instance eta_Encoder : Eta ProfileTransferEncoder := λ r,
  mkEncoder (pe_image r) (pe_begin r) (pe_offset r) (pe_phase r).

Definition Encoder_new (transfer_id profile_hash : Z) (image : list Z)
  : Result ProfileTransferError ProfileTransferEncoder :=
  if decide (image = [] ∨ usize_len image > HSMI_MAX_SIZE) then Err TransferInvalidLength
  else Ok (mkEncoder image
         (mkProfileBegin transfer_id (as_u32 (usize_len image)) (crc32_ieee image) profile_hash) 0 0).

(** [Iterator::next]: the item and the iterator afterwards. *)
Definition Encoder_next (self : ProfileTransferEncoder)
  : option ProfileTransferCommand * ProfileTransferEncoder :=
  if decide (pe_phase self = 0)
  then (Some (TransferBegin (pe_begin self)), self <| pe_phase := 1 |>)
  else if decide (pe_offset self < length (pe_image self))%nat then
    let fin := Nat.min (pe_offset self + PROFILE_CHUNK_MAX_DATA_LEN) (length (pe_image self)) in
    match ProfileChunkData_from_borrowed (mkProfileChunk (pb_transfer_id (pe_begin self))
            (as_u32 (Z.of_nat (pe_offset self))) (slice (pe_offset self) fin (pe_image self))) with
    | Err _ => (None, self)
    | Ok chunk => (Some (TransferChunk chunk), self <| pe_offset := fin |>)
    end
  else if decide (pe_phase self = 1)
  then (Some (TransferCommit (pb_transfer_id (pe_begin self))), self <| pe_phase := 2 |>)
  else (None, self).

(** The commands a [for] loop over the encoder sees. *)
Fixpoint Encoder_collect (fuel : nat) (self : ProfileTransferEncoder)
  : option (list ProfileTransferCommand) :=
  match fuel with
  | O => None
  | S fuel =>
      match Encoder_next self with
      | (None, _) => Some []
      | (Some c, self) => cons c <$> Encoder_collect fuel self
      end
  end.

(** ** Receiver *)

Record TransferState := mkTransfer { ts_begin : ProfileBegin; ts_next_offset : nat }.
Record CommittedProfile := mkCommitted { cp_transfer_id : Z; cp_profile_hash : Z; cp_length : nat }.

Inductive ProfileChunkDisposition := Appended | Duplicate.

Record ProfileTransferReceiver := mkReceiver {
  rx_staging : list Z; rx_active : option TransferState; rx_committed : option CommittedProfile
}.
#[export] Instance eta_ProfileReceiver : Eta ProfileTransferReceiver := λ r,
  mkReceiver (rx_staging r) (rx_active r) (rx_committed r).

Definition ProfileReceiver_new (staging : list Z) : ProfileTransferReceiver := mkReceiver staging None None.

Definition receiver_begin (b : ProfileBegin) (self : ProfileTransferReceiver)
  : Result ProfileTransferError () * ProfileTransferReceiver :=
  if is_some (rx_active self) || is_some (rx_committed self) then (Err TransferBusy, self)
  else if decide (pb_total_length b > USIZE_MAX) then (Err TransferInvalidLength, self)
  else
    let total_length := pb_total_length b in
    if decide (total_length = 0 ∨ total_length > HSMI_MAX_SIZE ∨ total_length > usize_len (rx_staging self))
    then (Err TransferInvalidLength, self)
    else (Ok (), self <| rx_active := Some (mkTransfer b 0) |>).

Definition receiver_chunk (c : ProfileChunk) (self : ProfileTransferReceiver)
  : Result ProfileTransferError ProfileChunkDisposition * ProfileTransferReceiver :=
  match rx_active self with
  | None => (Err WrongTransfer, self)
  | Some state =>
      let drop_transfer := self <| rx_active := None |> in
      if decide (pc_transfer_id c ≠ pb_transfer_id (ts_begin state)) then (Err WrongTransfer, self)
      else if decide (pc_data c = []) then (Err TransferInvalidLength, drop_transfer)
      else if decide (pc_offset c > USIZE_MAX) then (Err TransferInvalidLength, drop_transfer)
      else if decide (pc_offset c + usize_len (pc_data c) > USIZE_MAX)
      then (Err TransferInvalidLength, drop_transfer)
      else
        let offset := Z.to_nat (pc_offset c) in
        let fin := (offset + length (pc_data c))%nat in
        if decide (Z.of_nat fin > pb_total_length (ts_begin state))
        then (Err TransferInvalidLength, drop_transfer)
        else if decide (offset > ts_next_offset state)%nat then (Err OffsetGap, drop_transfer)
        else if decide (offset < ts_next_offset state)%nat then
          if decide ((fin ≤ ts_next_offset state)%nat ∧ slice offset fin (rx_staging self) = pc_data c)
          then (Ok Duplicate, self)
          else (Err ConflictingRetry, drop_transfer)
        else (Ok Appended, self <| rx_staging ::= blit offset (pc_data c) |>
                <| rx_active := Some (mkTransfer (ts_begin state) fin) |>)
  end.

Definition failure_result (transfer_id profile_hash : Z) (status : ProfileResultStatus)
    (reason : MirrorRejectReason) : ProfileResult :=
  mkProfileResult transfer_id profile_hash status (MirrorRejectReason_code reason) 0.

Definition rejection_status (reason : MirrorRejectReason) : ProfileResultStatus :=
  match reason with
  | RejectEndpointResourceExhausted => ProfileResourceExhausted
  | RejectNonHidInterface | RejectUnsupportedAlternateSetting | RejectUnsupportedEndpointType
  | RejectPacketTooLarge | RejectUnsupportedUsbVersion | RejectRemoteWakeUnsupported => ProfileUnsupported
  | _ => ProfileInvalidImage
  end.

Definition receiver_commit (transfer_id : Z) (self : ProfileTransferReceiver)
  : Run (ProfileResult * ProfileTransferReceiver) :=
  match rx_active self with
  | None => Returns (failure_result transfer_id 0 ProfileInvalidImage RejectMalformedImage, self)
  | Some state =>
      let self := self <| rx_active := None |> in
      let hash := pb_profile_hash (ts_begin state) in
      if decide (pb_transfer_id (ts_begin state) ≠ transfer_id)
      then Returns (failure_result transfer_id hash ProfileBusy RejectMalformedImage, self)
      else
        let length' := Z.to_nat (pb_total_length (ts_begin state)) in
        let image := take length' (rx_staging self) in
        if decide (ts_next_offset state ≠ length' ∨ crc32_ieee image ≠ pb_crc32 (ts_begin state))
        then Returns (failure_result transfer_id hash ProfileInvalidImage RejectMalformedImage, self)
        else
          let! validated := validate_mirror_image image in
          match validated with
          | Err reason =>
              Returns (failure_result transfer_id hash (rejection_status reason) reason, self)
          | Ok _ =>
              Returns (mkProfileResult transfer_id hash ProfileAccepted (MirrorRejectReason_code RejectNone) 0,
                self <| rx_committed := Some (mkCommitted transfer_id hash length') |>)
          end
  end.

Definition receiver_committed (self : ProfileTransferReceiver) : option (CommittedProfile * list Z) :=
  let+ committed := rx_committed self in
  Some (committed, take (cp_length committed) (rx_staging self)).

Definition clear_committed (self : ProfileTransferReceiver) : ProfileTransferReceiver :=
  self <| rx_committed := None |>.
Definition cancel (self : ProfileTransferReceiver) : ProfileTransferReceiver :=
  self <| rx_active := None |>.

(** ** The commit cache *)

Definition ProfileCommitCache : Type := option ProfileResult.
Definition commit_cache_new : ProfileCommitCache := None.
Definition cache_record (result : ProfileResult) (self : ProfileCommitCache) : ProfileCommitCache := Some result.
Definition cache_replay (self : ProfileCommitCache) (transfer_id : Z) : option ProfileResult :=
  let+ result := self in if pr_transfer_id result =? transfer_id then Some result else None.
Definition cache_clear (self : ProfileCommitCache) : ProfileCommitCache := None.

(** ** The receiver without its buffer

    What a transfer is: nothing, a prefix received so far, or an image that was accepted. *)

Inductive ReceiverView :=
| ViewIdle
| ViewReceiving (b : ProfileBegin) (received : list Z)
| ViewCommitted (c : CommittedProfile) (image : list Z).

Definition view_begin (capacity : nat) (b : ProfileBegin) (v : ReceiverView)
  : Result ProfileTransferError () * ReceiverView :=
  match v with
  | ViewIdle =>
      if decide (1 ≤ pb_total_length b ≤ Z.min HSMI_MAX_SIZE (Z.of_nat capacity))
      then (Ok (), ViewReceiving b []) else (Err TransferInvalidLength, v)
  | _ => (Err TransferBusy, v)
  end.

Definition view_chunk (c : ProfileChunk) (v : ReceiverView)
  : Result ProfileTransferError ProfileChunkDisposition * ReceiverView :=
  match v with
  | ViewReceiving b received =>
      let offset := Z.to_nat (pc_offset c) in
      let fin := (offset + length (pc_data c))%nat in
      if decide (pc_transfer_id c ≠ pb_transfer_id b) then (Err WrongTransfer, v)
      else if decide (pc_data c = [] ∨ Z.of_nat fin > pb_total_length b)
      then (Err TransferInvalidLength, ViewIdle)
      else if decide (offset > length received)%nat then (Err OffsetGap, ViewIdle)
      else if decide (offset = length received) then (Ok Appended, ViewReceiving b (received ++ pc_data c))
      else if decide (slice offset fin received = pc_data c) then (Ok Duplicate, v)
      else (Err ConflictingRetry, ViewIdle)
  | _ => (Err WrongTransfer, v)
  end.

Definition view_commit (transfer_id : Z) (v : ReceiverView) : Run (ProfileResult * ReceiverView) :=
  match v with
  | ViewReceiving b received =>
      if decide (pb_transfer_id b ≠ transfer_id)
      then Returns (failure_result transfer_id (pb_profile_hash b) ProfileBusy RejectMalformedImage, ViewIdle)
      else if decide (usize_len received ≠ pb_total_length b ∨ crc32_ieee received ≠ pb_crc32 b)
      then Returns (failure_result transfer_id (pb_profile_hash b) ProfileInvalidImage RejectMalformedImage, ViewIdle)
      else
        let! validated := validate_mirror_image received in
        Returns match validated with
        | Err reason =>
            (failure_result transfer_id (pb_profile_hash b) (rejection_status reason) reason, ViewIdle)
        | Ok _ => (mkProfileResult transfer_id (pb_profile_hash b) ProfileAccepted 0 0,
                   ViewCommitted (mkCommitted transfer_id (pb_profile_hash b) (length received)) received)
        end
  | _ => Returns (failure_result transfer_id 0 ProfileInvalidImage RejectMalformedImage, v)
  end.

Definition view_of (r : ProfileTransferReceiver) : ReceiverView :=
  match rx_committed r with
  | Some c => ViewCommitted c (take (cp_length c) (rx_staging r))
  | None =>
      match rx_active r with
      | Some s => ViewReceiving (ts_begin s) (take (ts_next_offset s) (rx_staging r))
      | None => ViewIdle
      end
  end.

(** A transfer in progress fits the buffer, and an accepted image is whole and is there alone. *)
Record receiver_inv (r : ProfileTransferReceiver) : Prop := {
  ri_active : ∀ s, rx_active r = Some s → rx_committed r = None ∧
    pb_total_length (ts_begin s) ≤ Z.min HSMI_MAX_SIZE (usize_len (rx_staging r)) ∧
    Z.of_nat (ts_next_offset s) ≤ pb_total_length (ts_begin s);
  ri_committed : ∀ c, rx_committed r = Some c →
    ∃ plan, validate_mirror_image (take (cp_length c) (rx_staging r)) = Returns (Ok plan)
}.

Lemma new_receiver_inv staging : receiver_inv (ProfileReceiver_new staging).
Proof. by split. Qed.

Lemma receiver_begin_view b r : receiver_inv r → 0 ≤ pb_total_length b →
  let '(res, r') := receiver_begin b r in
  receiver_inv r' ∧ rx_staging r' = rx_staging r ∧
  view_begin (length (rx_staging r)) b (view_of r) = (res, view_of r').
Proof.
  intros H Hb. unfold receiver_begin, view_of, view_begin.
  destruct (rx_committed r) as [c|] eqn:Hc; [by rewrite orb_true_r, Hc|].
  destruct (rx_active r) as [s|] eqn:Ha; [by cbn; rewrite Hc, Ha|]. cbn [is_some is_none negb orb].
  assert (HSMI_MAX_SIZE ≤ USIZE_MAX) as Hm by done. unfold usize_len.
  case_decide; [rewrite decide_False by lia; by rewrite Hc, Ha|].
  case_decide; [rewrite decide_False by lia; by rewrite Hc, Ha|]. rewrite decide_True by lia.
  cbn. rewrite Hc. split; [|done]. split; cbn.
  - intros s [= <-]. cbn. unfold usize_len. split; [done|lia].
  - by rewrite Hc.
Qed.

Lemma take_blit_append {A} off (d l : list A) : (off + length d ≤ length l)%nat →
  take (off + length d) (blit off d l) = take off l ++ d.
Proof.
  intros H. unfold blit. rewrite app_assoc, take_app_length'; [done|].
  rewrite length_app, length_take. lia.
Qed.

Lemma slice_take {A} lo hi n (l : list A) : (hi ≤ n)%nat → slice lo hi (take n l) = slice lo hi l.
Proof.
  intros H. unfold slice. destruct (decide (lo ≤ hi)%nat); [|by replace (hi - lo)%nat with 0%nat by lia].
  rewrite !take_drop_commute, take_take. do 2 f_equal. lia.
Qed.

Lemma receiver_chunk_view c r : receiver_inv r → 0 ≤ pc_offset c →
  let '(res, r') := receiver_chunk c r in
  receiver_inv r' ∧ length (rx_staging r') = length (rx_staging r) ∧
  view_chunk c (view_of r) = (res, view_of r').
Proof.
  intros H Hoff. unfold receiver_chunk, view_of, view_chunk. destruct (rx_active r) as [s|] eqn:Ha.
  2: { destruct (rx_committed r) eqn:Hc; rewrite ?Ha, ?Hc; done. }
  destruct (ri_active r H s Ha) as (Hc & Hcap & Hnext). rewrite Hc.
  assert (HSMI_MAX_SIZE ≤ USIZE_MAX) as Hm by done. unfold usize_len in *.
  assert (receiver_inv (r <| rx_active := None |>)) as Hdrop by (split; cbn; [done|by rewrite Hc]).
  case_decide; [by rewrite Hc, Ha|]. case_decide as Hnil.
  { rewrite decide_True by tauto. cbn. by rewrite Hc. }
  case_decide; [rewrite decide_True by lia; cbn; by rewrite Hc|].
  case_decide; [rewrite decide_True by lia; cbn; by rewrite Hc|].
  set (off := Z.to_nat (pc_offset c)) in *.
  assert (length (take (ts_next_offset s) (rx_staging r)) = ts_next_offset s) as Hlen
    by (rewrite length_take; lia). rewrite Hlen.
  case_decide as Hfin; [rewrite decide_True by lia; cbn; by rewrite Hc|].
  rewrite (decide_False (P := pc_data c = [] ∨ _)) by tauto.
  case_decide; [cbn; by rewrite Hc|].
  case_decide as Hlt.
  - rewrite (decide_False (P := off = _)) by lia. case_decide as Hdup.
    + destruct Hdup as [Hle Heq]. rewrite decide_True by (rewrite slice_take by done; done).
      by rewrite Hc, Ha.
    + rewrite decide_False; [cbn; by rewrite Hc|]. intros Heq. apply Hdup.
      destruct (decide (off + length (pc_data c) ≤ ts_next_offset s)%nat) as [Hle|Hgt].
      * split; [done|]. by rewrite slice_take in Heq.
      * exfalso. apply (f_equal length) in Heq. unfold slice in Heq.
        rewrite length_take, length_drop, Hlen in Heq. lia.
  - assert (off = ts_next_offset s) as Heq by lia. rewrite (decide_True (P := off = _)) by done. cbn. rewrite Hc.
    split; [|split].
    + split; cbn; [|by rewrite Hc]. intros s' [= <-]. cbn. unfold usize_len. rewrite length_blit by lia. split; [done|lia].
    + apply length_blit. lia.
    + by rewrite take_blit_append, Heq by lia.
Qed.

Lemma receiver_commit_view t r : receiver_inv r →
  match receiver_commit t r with
  | Returns (res, r') => receiver_inv r' ∧ rx_staging r' = rx_staging r ∧
      view_commit t (view_of r) = Returns (res, view_of r')
  | Panics => view_commit t (view_of r) = Panics
  | OutOfFuel => view_commit t (view_of r) = OutOfFuel
  end.
Proof.
  intros H. unfold receiver_commit, view_of, view_commit. destruct (rx_active r) as [s|] eqn:Ha.
  2: { destruct (rx_committed r) eqn:Hc; by rewrite ?Ha. }
  destruct (ri_active r H s Ha) as (Hc & Hcap & Hnext). rewrite Hc.
  assert (receiver_inv (r <| rx_active := None |>)) as Hdrop by (split; cbn; [done|by rewrite Hc]).
  case_decide; [cbn; by rewrite Hc|]. cbn [rx_staging].
  set (img := take (Z.to_nat _) _). unfold usize_len in *.
  assert (length (take (ts_next_offset s) (rx_staging r)) = ts_next_offset s) as Hlen
    by (rewrite length_take; lia). rewrite Hlen.
  destruct (decide (ts_next_offset s = Z.to_nat (pb_total_length (ts_begin s)))) as [Heq|Hne].
  2: { rewrite decide_True by tauto. rewrite decide_True by lia. cbn. by rewrite Hc. }
  assert (take (ts_next_offset s) (rx_staging r) = img) as -> by (by rewrite Heq).
  case_decide as Hcrc.
  { rewrite decide_True by (destruct Hcrc; [done|tauto]). cbn. by rewrite Hc. }
  rewrite decide_False by (intros [?|?]; [lia|tauto]).
  destruct (validate_mirror_image img) as [[plan|e]| |] eqn:Hv; cbn [run_bind]; try done.
  - assert (length img = Z.to_nat (pb_total_length (ts_begin s))) as Himg by (unfold img; rewrite length_take; cbn; lia).
    cbn. rewrite Heq. split; [|done]. split; cbn; [done|]. intros c [= <-]. by exists plan.
  - cbn. by rewrite Hc.
Qed.

(** C28: The receiver refines the transfer it implements: whatever the operation, it answers what the
    view answers and ends in the state of the view, with the staging buffer's size unchanged.  In
    particular a chunk extends the prefix, repeats a part of it, or ends the transfer; a commit exposes
    an image only when the prefix is whole, has the announced CRC and validates; and what was exposed
    stays valid and unchanged until it is cleared. *)
Theorem receiver_refines_transfer r : receiver_inv r →
  (∀ b, 0 ≤ pb_total_length b →
     let '(res, r') := receiver_begin b r in
     receiver_inv r' ∧ view_begin (length (rx_staging r)) b (view_of r) = (res, view_of r')) ∧
  (∀ c, 0 ≤ pc_offset c →
     let '(res, r') := receiver_chunk c r in
     receiver_inv r' ∧ length (rx_staging r') = length (rx_staging r) ∧
     view_chunk c (view_of r) = (res, view_of r')) ∧
  (∀ t, match receiver_commit t r with
        | Returns (res, r') => receiver_inv r' ∧ view_commit t (view_of r) = Returns (res, view_of r')
        | _ => view_commit t (view_of r) = Panics ∨ view_commit t (view_of r) = OutOfFuel
        end) ∧
  (receiver_inv (cancel r) ∧ receiver_inv (clear_committed r) ∧
   view_of (cancel r) = match view_of r with ViewReceiving _ _ => ViewIdle | v => v end ∧
   view_of (clear_committed r) = match view_of r with ViewCommitted _ _ => ViewIdle | v => v end) ∧
  (∀ c image, receiver_committed r = Some (c, image) ↔ view_of r = ViewCommitted c image).
Proof.
  intros H. split; [|split; [|split; [|split]]].
  - intros b Hb. pose proof (receiver_begin_view b r H Hb) as Hv. destruct (receiver_begin b r). tauto.
  - intros c Hc. exact (receiver_chunk_view c r H Hc).
  - intros t. pose proof (receiver_commit_view t r H) as Hv. destruct (receiver_commit t r) as [[res r']| |]; tauto.
  - destruct H as [Ha Hc]. unfold view_of, cancel, clear_committed. destruct r as [st act com]. cbn in *.
    split; [by split|]. split; [split; cbn; [|done]|split; [by destruct com, act|]].
    + intros x Hx. split; [done|]. apply (Ha x Hx).
    + destruct com; [|by destruct act]. destruct act as [x|]; [|done]. by destruct (Ha x eq_refl).
  - intros c image. unfold receiver_committed, view_of. destruct (rx_committed r) as [c'|].
    + split; [intros [= <- <-]; done|intros [= <- <-]; done].
    + by destruct (rx_active r).
Qed.

(** ** From encoder to receiver *)

(** The chunks, one after the other, are the image from [off] on. *)
Fixpoint chunks_cover (transfer_id : Z) (image : list Z) (off : nat) (cs : list ProfileChunk) : Prop :=
  match cs with
  | [] => off = length image
  | c :: cs =>
      let fin := (off + length (pc_data c))%nat in
      pc_transfer_id c = transfer_id ∧ pc_offset c = Z.of_nat off ∧ pc_data c ≠ [] ∧
      (fin ≤ length image)%nat ∧ pc_data c = slice off fin image ∧
      chunks_cover transfer_id image fin cs
  end.

(** A stream the link may deliver: the chunks [todo] in order, with any chunk delivered before
    delivered again anywhere. *)
Inductive retried : list ProfileChunk → list ProfileChunk → list ProfileChunk → Prop :=
| retried_end sent : retried sent [] []
| retried_next sent c todo stream :
    retried (c :: sent) todo stream → retried sent (c :: todo) (c :: stream)
| retried_again sent c todo stream :
    c ∈ sent → retried sent todo stream → retried sent todo (c :: stream).

Fixpoint receive_chunks (cs : list ProfileChunk) (r : ProfileTransferReceiver)
  : list (Result ProfileTransferError ProfileChunkDisposition) * ProfileTransferReceiver :=
  match cs with
  | [] => ([], r)
  | c :: cs =>
      let '(res, r) := receiver_chunk c r in
      let '(results, r) := receive_chunks cs r in (res :: results, r)
  end.

Lemma borrowed_chunk c d : ProfileChunkData_from_borrowed c = Ok d → ProfileChunkData_as_borrowed d = c.
Proof.
  unfold ProfileChunkData_from_borrowed, PROFILE_CHUNK_MAX_DATA_LEN. case_decide as H; [done|]. intros [= <-].
  destruct c as [t o data]. unfold ProfileChunkData_as_borrowed. cbn [pcd_transfer_id pcd_offset pcd_length
    pcd_array pc_transfer_id pc_offset pc_data] in *. f_equal.
  replace (Z.to_nat (as_u8 (Z.of_nat (length data)))) with (length data) by (unfold as_u8; divmod).
  by rewrite take_blit.
Qed.

Lemma encoder_chunks fuel e : pe_phase e = 1 → (pe_offset e ≤ length (pe_image e))%nat →
  usize_len (pe_image e) ≤ HSMI_MAX_SIZE → (length (pe_image e) < pe_offset e + fuel)%nat →
  ∃ cs, Encoder_collect (S fuel) e =
      Some (map TransferChunk cs ++ [TransferCommit (pb_transfer_id (pe_begin e))]) ∧
    chunks_cover (pb_transfer_id (pe_begin e)) (pe_image e) (pe_offset e) (map ProfileChunkData_as_borrowed cs).
Proof.
  revert e. induction fuel as [|fuel IH]; intros [image b off phase] Hp Hoff Hmax Hf;
    cbn [pe_phase pe_offset pe_image pe_begin] in *; [lia|].
  subst phase. remember (S fuel) as f eqn:Hfuel. cbn [Encoder_collect]. unfold Encoder_next.
  cbn [pe_phase pe_offset pe_image pe_begin]. rewrite decide_False by done.
  case_decide as Hlt.
  - unfold ProfileChunkData_from_borrowed at 1. cbn [pc_data]. unfold PROFILE_CHUNK_MAX_DATA_LEN.
    set (fin := Nat.min (off + 96) (length image)).
    assert (length (slice off fin image) = fin - off)%nat as Hlen by (apply length_slice; lia).
    rewrite decide_False by lia.
    match goal with |- context [TransferChunk ?x] => set (d := x) end.
    assert (ProfileChunkData_as_borrowed d = mkProfileChunk (pb_transfer_id b)
      (as_u32 (Z.of_nat off)) (slice off fin image)) as Hd.
    { apply borrowed_chunk. unfold ProfileChunkData_from_borrowed, PROFILE_CHUNK_MAX_DATA_LEN. cbn [pc_data].
      by rewrite decide_False by lia. }
    subst f. destruct (IH (mkEncoder image b fin 1)) as (cs & Hcs & Hcover);
      cbn [pe_phase pe_offset pe_image pe_begin] in *; [done|lia|done|lia|].
    exists (d :: cs). cbn [upd]. change (_ <| pe_offset := fin |>) with (mkEncoder image b fin 1). rewrite Hcs.
    split; [done|]. cbn [map chunks_cover]. rewrite Hd. cbn [pc_data pc_transfer_id pc_offset].
    rewrite Hlen. replace (off + (fin - off))%nat with fin by lia.
    split; [done|]. split; [unfold as_u32, usize_len, HSMI_MAX_SIZE in *; words|].
    split; [|split; [lia|by split]]. intros Hnil. rewrite Hnil in Hlen. cbn in Hlen. lia.
  - rewrite decide_True by done. subst f. cbn [Encoder_collect]. unfold Encoder_next. cbn.
    do 2 rewrite decide_False by lia. exists []. split; [done|]. cbn. lia.
Qed.

Section delivery.
Context (b : ProfileBegin) (image : list Z).
Context (Htotal : pb_total_length b = usize_len image).

(** A chunk of the image that ends at or before [off]. *)
Definition chunk_within (off : nat) (c : ProfileChunk) : Prop :=
  pc_transfer_id c = pb_transfer_id b ∧ 0 ≤ pc_offset c ∧ pc_data c ≠ [] ∧
  let fin := (Z.to_nat (pc_offset c) + length (pc_data c))%nat in
  (fin ≤ off)%nat ∧ pc_data c = slice (Z.to_nat (pc_offset c)) fin image.

Lemma chunk_within_weaken off off' c : (off ≤ off')%nat → chunk_within off c → chunk_within off' c.
Proof. intros H (? & ? & ? & ? & ?). repeat split; try done. cbn zeta in *. lia. Qed.

Lemma duplicate_chunk off c : chunk_within off c → (off ≤ length image)%nat →
  view_chunk c (ViewReceiving b (take off image)) = (Ok Duplicate, ViewReceiving b (take off image)).
Proof.
  intros (Ht & Ho & Hn & Hfin & Hd) Hoff. cbn zeta in *. unfold view_chunk.
  assert (1 ≤ length (pc_data c))%nat by (destruct (pc_data c); [done|cbn; lia]).
  assert (length (take off image) = off) as Hl by (rewrite length_take; lia). rewrite Hl. unfold usize_len in *.
  rewrite decide_False by tauto. rewrite decide_False by (intros [?|?]; [done|lia]).
  do 2 rewrite decide_False by lia. rewrite slice_take by done. by rewrite <- Hd, decide_True.
Qed.

Lemma next_chunk off c : pc_transfer_id c = pb_transfer_id b → pc_offset c = Z.of_nat off → pc_data c ≠ [] →
  let fin := (off + length (pc_data c))%nat in
  (fin ≤ length image)%nat → pc_data c = slice off fin image →
  view_chunk c (ViewReceiving b (take off image)) = (Ok Appended, ViewReceiving b (take fin image)).
Proof.
  intros Ht Ho Hn fin Hfin Hd. unfold view_chunk. rewrite Ho, Nat2Z.id. unfold usize_len in *. fold fin.
  assert (length (take off image) = off) as Hl by (rewrite length_take; lia). rewrite Hl.
  rewrite decide_False by tauto. rewrite decide_False by (intros [?|?]; [done|lia]).
  rewrite decide_False by lia. rewrite decide_True by done. do 3 f_equal.
  rewrite Hd at 1. rewrite <- !slice_0. apply slice_split. lia.
Qed.

Lemma retried_received sent todo stream : retried sent todo stream → ∀ off r,
  receiver_inv r → view_of r = ViewReceiving b (take off image) → (off ≤ length image)%nat →
  chunks_cover (pb_transfer_id b) image off todo → Forall (chunk_within off) sent →
  let '(results, r') := receive_chunks stream r in
  receiver_inv r' ∧ view_of r' = ViewReceiving b image ∧ Forall (λ res, is_ok res = true) results.
Proof.
  induction 1 as [sent|sent c todo stream _ IH|sent c todo stream Hc _ IH]; intros off r Hr Hv Hoff Hcov Hsent;
    cbn [receive_chunks chunks_cover] in *.
  - subst off. rewrite take_ge in Hv by lia. done.
  - destruct Hcov as (Ht & Ho & Hn & Hfin & Hd & Hcov). cbn zeta in *.
    pose proof (receiver_chunk_view c r Hr ltac:(lia)) as Hstep. destruct (receiver_chunk c r) as [res r1].
    destruct Hstep as (Hr1 & _ & Hstep). rewrite Hv, next_chunk in Hstep by done.
    apply pair_eq in Hstep as [<- Hv1].
    specialize (IH _ r1 Hr1 (eq_sym Hv1) Hfin Hcov). destruct (receive_chunks stream r1) as [results r'].
    destruct IH as (H1 & H2 & H3).
    + apply List.Forall_cons.
      * split; [done|]. rewrite Ho, Nat2Z.id. split; [lia|]. by split.
      * eapply List.Forall_impl; [|exact Hsent]. intros x. apply chunk_within_weaken. lia.
    + split; [done|]. split; [done|]. by apply List.Forall_cons.
  - rewrite List.Forall_forall in Hsent. pose proof (Hsent c (proj1 (list_elem_of_In _ _) Hc)) as Hw.
    pose proof (receiver_chunk_view c r Hr ltac:(by destruct Hw as (_ & ? & _))) as Hstep.
    destruct (receiver_chunk c r) as [res r1]. destruct Hstep as (Hr1 & _ & Hstep).
    rewrite Hv, duplicate_chunk in Hstep by done. apply pair_eq in Hstep as [<- Hv1].
    rewrite <- List.Forall_forall in Hsent.
    specialize (IH off r1 Hr1 (eq_sym Hv1) Hoff Hcov Hsent). destruct (receive_chunks stream r1) as [results r'].
    destruct IH as (H1 & H2 & H3). split; [done|]. split; [done|]. by apply List.Forall_cons.
Qed.
End delivery.

(** C29: What the encoder sends arrives: a receiver at rest with a large enough buffer accepts the
    begin record and every chunk, however often chunks already delivered are delivered again, and the
    commit then exposes exactly the encoder's image under its transfer and hash if the image
    validates; otherwise it exposes nothing and the result carries the reason. *)
Theorem profile_delivered transfer_id hash image e staging :
  bytes_ok image → Encoder_new transfer_id hash image = Ok e → (length image ≤ length staging)%nat →
  ∃ cs, Encoder_collect (length image + 3) e =
      Some (TransferBegin (pe_begin e) :: map TransferChunk cs ++ [TransferCommit transfer_id]) ∧
    ∀ stream, retried [] (map ProfileChunkData_as_borrowed cs) stream →
    ∃ r1 results r2 result r3,
      receiver_begin (pe_begin e) (ProfileReceiver_new staging) = (Ok (), r1) ∧
      receive_chunks stream r1 = (results, r2) ∧ Forall (λ res, is_ok res = true) results ∧
      receiver_commit transfer_id r2 = Returns (result, r3) ∧
      match validate_mirror_image image with
      | Returns (Ok _) => result = mkProfileResult transfer_id hash ProfileAccepted 0 0 ∧
          receiver_committed r3 = Some (mkCommitted transfer_id hash (length image), image)
      | Returns (Err reason) =>
          result = failure_result transfer_id hash (rejection_status reason) reason ∧
          receiver_committed r3 = None
      | _ => False
      end.
Proof.
  intros Hb He Hst. unfold Encoder_new in He. case_decide as Hlen; [done|]. injection He as <-.
  assert (image ≠ [] ∧ usize_len image ≤ HSMI_MAX_SIZE) as [Hnil Hmax] by (split; [tauto|lia]). clear Hlen.
  assert (1 ≤ usize_len image) as H1 by (unfold usize_len; destruct image; [done|cbn; lia]).
  assert (as_u32 (usize_len image) = usize_len image) as -> by (unfold HSMI_MAX_SIZE in Hmax; words).
  cbn [pe_begin]. set (b := mkProfileBegin _ _ _ _).
  destruct (encoder_chunks (S (length image)) (mkEncoder image b 0 1)) as (cs & Hcs & Hcover);
    cbn [pe_phase pe_offset pe_image pe_begin] in *; [done|lia|done|lia|].
  exists cs. split.
  { replace (length image + 3)%nat with (S (S (S (length image)))) by lia. remember (S (S (length image))) as f.
    cbn [Encoder_collect]. unfold Encoder_next. cbn [pe_phase]. rewrite decide_True by done. cbn [pe_begin].
    change (_ <| pe_phase := 1 |>) with (mkEncoder image b 0 1). by rewrite Hcs. }
  intros stream Hstream.
  pose proof (receiver_begin_view b _ (new_receiver_inv staging) ltac:(cbn; lia)) as Hbegin.
  destruct (receiver_begin b (ProfileReceiver_new staging)) as [res r1].
  destruct Hbegin as (Hr1 & _ & Hv1). cbn in Hv1. unfold usize_len in *. rewrite decide_True in Hv1 by lia.
  apply pair_eq in Hv1 as [<- Hv1].
  pose proof (retried_received b image eq_refl _ _ _ Hstream 0 r1 Hr1 (eq_sym Hv1) ltac:(lia) Hcover
    (List.Forall_nil _)) as Hrun.
  destruct (receive_chunks stream r1) as [results r2] eqn:Hrecv. destruct Hrun as (Hr2 & Hv2 & Hall).
  pose proof (receiver_commit_view transfer_id r2 Hr2) as Hcommit. rewrite Hv2 in Hcommit. cbn -[validate_mirror_image] in Hcommit.
  rewrite decide_False in Hcommit by tauto. rewrite decide_False in Hcommit by (unfold usize_len; tauto).
  destruct (validate_yields image Hb) as (v & Hval & _). rewrite Hval in *. cbn [run_bind] in Hcommit.
  destruct (receiver_commit transfer_id r2) as [[result r3]| |] eqn:Hrc; [|done|done].
  destruct Hcommit as (_ & _ & Hv3). injection Hv3 as Hv3. exists r1, results, r2, result, r3.
  do 4 (split; [done|]). unfold receiver_committed, view_of in *. destruct v as [plan|reason].
  - apply pair_eq in Hv3 as [<- Hv3]. split; [done|]. destruct (rx_committed r3); [|by destruct (rx_active r3)].
    by injection Hv3 as <- <-.
  - apply pair_eq in Hv3 as [<- Hv3]. split; [done|]. by destruct (rx_committed r3).
Qed.

Lemma receiver_refines_transfer_witness :
  receiver_inv (ProfileReceiver_new (zeros 64)) ∧
  view_begin 64 (mkProfileBegin 7 40 0 9) ViewIdle =
    (Ok (), view_of (receiver_begin (mkProfileBegin 7 40 0 9) (ProfileReceiver_new (zeros 64))).2).
Proof.
  split; [exact (new_receiver_inv (zeros 64))|].
  destruct (receiver_refines_transfer _ (new_receiver_inv (zeros 64))) as [H _].
  exact (proj2 (H (mkProfileBegin 7 40 0 9) ltac:(cbn; lia))).
Defined.

Lemma retried_once sent cs : retried sent cs cs.
Proof. revert sent. induction cs; intros sent; constructor; auto. Qed.

Lemma profile_delivered_witness :
  bytes_ok sample_image_bytes ∧ ∃ r, receiver_committed r =
    Some (mkCommitted 7 9 (length sample_image_bytes), sample_image_bytes).
Proof.
  assert (bytes_ok sample_image_bytes) as Hb by (apply (bool_decide_unpack _); vm_compute; exact I).
  split; [exact Hb|].
  destruct (Encoder_new 7 9 sample_image_bytes) as [e|err] eqn:He.
  2: { exfalso. assert (is_ok (Encoder_new 7 9 sample_image_bytes) = true) as H by (vm_compute; reflexivity).
       rewrite He in H. discriminate H. }
  destruct (profile_delivered 7 9 sample_image_bytes e (zeros 256) Hb He ltac:(vm_compute; lia))
    as (cs & _ & Hrun).
  destruct (Hrun _ (retried_once [] _)) as (r1 & results & r2 & result & r3 & _ & _ & _ & _ & Hend).
  assert (match validate_mirror_image sample_image_bytes with Returns (Ok _) => true | _ => false end = true)
    as Hv by (vm_compute; reflexivity).
  destruct (validate_mirror_image sample_image_bytes) as [[plan|reason]| |]; try discriminate Hv.
  exists r3. exact (proj2 Hend).
Defined.
