(* ===== verification/ProfileStore.v ===== *)
(** * Profile storage ([src/src/mirror/store.rs])

    The device chip keeps two profile slots in flash, each an image and a metadata record that is
    committed last.  The store is written against an interface, [ProfileStoreBackend]; the flash below
    implements it with a supply that may fail at any byte. *)

From S2P Require Import Prelude Checksum MirrorImage FlashModel.

Definition MIRROR_PROFILE_PARTITION_LEN : Z := 0x10000.
Definition METADATA_SECTOR_LEN : Z := 0x1000.
Definition PROFILE_SLOT_LEN : Z := 0x6000.
Definition METADATA_A_OFFSET : Z := 0x0000.
Definition METADATA_B_OFFSET : Z := 0x1000.
Definition PROFILE_A_OFFSET : Z := 0x2000.
Definition PROFILE_B_OFFSET : Z := 0x8000.
Definition METADATA_LEN : nat := 32.
Definition METADATA_MAGIC : list Z := [0x48; 0x53; 0x50; 0x46].
Definition METADATA_VERSION : Z := 1.
Definition COMMIT_MARKER : Z := 0x4853434d.

(** [trait ProfileStoreBackend]: each operation gives its result and the backend afterwards. *)
Class ProfileStoreBackend (B E : Type) := {
  be_read : Z → nat → B → Result E (list Z) * B;
  be_erase : Z → Z → B → Result E () * B;
  be_write : Z → list Z → B → Result E () * B
}.

Inductive ProfileSlot := SlotA | SlotB.
#[export] Instance ProfileSlot_eq_dec : EqDecision ProfileSlot.
Proof. solve_decision. Defined.

Definition slot_other (s : ProfileSlot) : ProfileSlot := match s with SlotA => SlotB | SlotB => SlotA end.
Definition metadata_offset (s : ProfileSlot) : Z :=
  match s with SlotA => METADATA_A_OFFSET | SlotB => METADATA_B_OFFSET end.
Definition profile_offset (s : ProfileSlot) : Z :=
  match s with SlotA => PROFILE_A_OFFSET | SlotB => PROFILE_B_OFFSET end.

Record StoredProfile := mkStored {
  sp_slot : ProfileSlot; sp_generation : Z; sp_profile_hash : Z; sp_length : Z; sp_crc32 : Z
}.
#[export] Instance StoredProfile_eq_dec : EqDecision StoredProfile.
Proof. solve_decision. Defined.

Inductive ProfileCommitOutcome := Stored (p : StoredProfile) | AlreadyStored (p : StoredProfile).

Inductive ProfileStoreError (E : Type) := BackendError (e : E) | StoreImageTooLarge | ReadBackMismatch.
Arguments BackendError {E} e.
Arguments StoreImageTooLarge {E}.
Arguments ReadBackMismatch {E}.

Definition encode_metadata (profile : StoredProfile) (marker : Z) : list Z :=
  let bytes := replicate METADATA_LEN 0xff in
  let bytes := blit 0 METADATA_MAGIC bytes in
  let bytes := blit 4 (u16_to_le_bytes METADATA_VERSION) bytes in
  let bytes := blit 6 [0; 0] bytes in
  let bytes := blit 8 (u32_to_le_bytes (sp_generation profile)) bytes in
  let bytes := blit 12 (u32_to_le_bytes (sp_profile_hash profile)) bytes in
  let bytes := blit 16 (u32_to_le_bytes (as_u32 (sp_length profile))) bytes in
  let bytes := blit 20 (u32_to_le_bytes (sp_crc32 profile)) bytes in
  let metadata_crc := crc32_ieee (slice 0 24 bytes) in
  let bytes := blit 24 (u32_to_le_bytes metadata_crc) bytes in
  blit 28 (u32_to_le_bytes marker) bytes.

Definition decode_metadata (slot : ProfileSlot) (bytes : list Z) : option StoredProfile :=
  if decide (slice 0 4 bytes ≠ METADATA_MAGIC ∨ read_u16 (slice 4 6 bytes) ≠ METADATA_VERSION ∨
             slice 6 8 bytes ≠ [0; 0] ∨ read_u32 (slice 28 32 bytes) ≠ COMMIT_MARKER ∨
             read_u32 (slice 24 28 bytes) ≠ crc32_ieee (slice 0 24 bytes))
  then None
  else
    let length' := read_u32 (slice 16 20 bytes) in
    if decide (length' = 0 ∨ length' > HSMI_MAX_SIZE ∨ length' > PROFILE_SLOT_LEN) then None
    else Some (mkStored slot (read_u32 (slice 8 12 bytes)) (read_u32 (slice 12 16 bytes)) length'
                 (read_u32 (slice 20 24 bytes))).

(** [left.wrapping_sub(right) < 0x8000_0000] *)
Definition profile_generation_newer (left right : Z) : bool := as_u32 (left - right) <? 0x80000000.

(** ** The store *)

Section store.
Context {B E : Type} `{!ProfileStoreBackend B E}.

(** A store operation: its result and the backend it leaves. *)
Definition StoreOp (A : Type) : Type := B → Result (ProfileStoreError E) A * B.
Definition store_ret {A} (r : Result (ProfileStoreError E) A) : StoreOp A := λ b, (r, b).
Definition store_bind {A C} (m : StoreOp A) (k : A → StoreOp C) : StoreOp C := λ b,
  match m b with (Ok a, b) => k a b | (Err e, b) => (Err e, b) end.
(** [self.backend.op(..).map_err(ProfileStoreError::Backend)] *)
Definition backend {A} (op : B → Result E A * B) : StoreOp A := λ b,
  let '(r, b) := op b in (map_err BackendError r, b).
Notation "'let*' x ':=' m 'in' k" := (store_bind m (fun x => k))
  (at level 10, x pattern, m at level 100, k at level 200).

Definition read_metadata (slot : ProfileSlot) : StoreOp (option StoredProfile) :=
  let* bytes := backend (be_read (metadata_offset slot) METADATA_LEN) in
  store_ret (Ok (decode_metadata slot bytes)).

Definition newest (a b : option StoredProfile) : option StoredProfile :=
  match a, b with
  | Some a, Some b => Some (if profile_generation_newer (sp_generation a) (sp_generation b) then a else b)
  | Some profile, None | None, Some profile => Some profile
  | None, None => None
  end.

Definition store_active : StoreOp (option StoredProfile) :=
  let* a := read_metadata SlotA in
  let* b := read_metadata SlotB in
  store_ret (Ok (newest a b)).

Definition store_find (profile_hash : Z) : StoreOp (option StoredProfile) :=
  let* a := read_metadata SlotA in
  let* b := read_metadata SlotB in
  store_ret (Ok (List.find (λ p, sp_profile_hash p =? profile_hash) (omap id [a; b]))).

(** [read_profile(profile, out)] with a buffer of [capacity] bytes; the bytes read. *)
Definition read_profile (profile : StoredProfile) (capacity : Z) : StoreOp (list Z) :=
  if decide (capacity < sp_length profile) then store_ret (Err StoreImageTooLarge)
  else
    let* out := backend (be_read (profile_offset (sp_slot profile)) (Z.to_nat (sp_length profile))) in
    if decide (crc32_ieee out ≠ sp_crc32 profile) then store_ret (Err ReadBackMismatch)
    else store_ret (Ok out).

(** The read-back loop, in blocks of 256 bytes; [None] only without fuel. *)
Fixpoint readback_loop (fuel : nat) (base : Z) (len offset : nat) (crc : Crc32) : StoreOp (option Crc32) :=
  if decide (offset < len)%nat then
    match fuel with
    | O => store_ret (Ok None)
    | S fuel =>
        let length' := Nat.min (len - offset) 256 in
        let* readback := backend (be_read (base + Z.of_nat offset) length') in
        readback_loop fuel base len (offset + length') (Crc32_update crc readback)
    end
  else store_ret (Ok (Some crc)).

(** [commit] once the slot and the generation are chosen. *)
Definition write_slot (slot : ProfileSlot) (generation : Z) (image : list Z) (profile_hash : Z)
  : StoreOp ProfileCommitOutcome :=
  let image_crc := crc32_ieee image in
  let* _ := backend (be_erase (profile_offset slot) PROFILE_SLOT_LEN) in
  let* _ := backend (be_write (profile_offset slot) image) in
  let* crc := readback_loop (length image) (profile_offset slot) (length image) 0 Crc32_new in
  match crc with
  | None => store_ret (Err ReadBackMismatch)
  | Some crc =>
      if decide (Crc32_finalize crc ≠ image_crc) then store_ret (Err ReadBackMismatch)
      else
        let profile := mkStored slot generation profile_hash (usize_len image) image_crc in
        let metadata := encode_metadata profile U32_MAX in
        let* _ := backend (be_erase (metadata_offset slot) METADATA_SECTOR_LEN) in
        let* _ := backend (be_write (metadata_offset slot) (slice 0 28 metadata)) in
        let* _ := backend (be_write (metadata_offset slot + 28) (u32_to_le_bytes COMMIT_MARKER)) in
        store_ret (Ok (Stored profile))
  end.

Definition store_commit (image : list Z) (profile_hash : Z) : StoreOp ProfileCommitOutcome :=
  if decide (image = [] ∨ usize_len image > HSMI_MAX_SIZE ∨ usize_len image > PROFILE_SLOT_LEN)
  then store_ret (Err StoreImageTooLarge)
  else
    let* active := store_active in
    match active with
    | Some p =>
        if decide (sp_profile_hash p = profile_hash ∧ sp_length p = usize_len image ∧
                   sp_crc32 p = crc32_ieee image)
        then store_ret (Ok (AlreadyStored p))
        else write_slot (slot_other (sp_slot p)) (as_u32 (sp_generation p + 1)) image profile_hash
    | None => write_slot SlotA 1 image profile_hash
    end.
End store.

(** ** The flash as a backend *)

#[export] Instance flash_backend : ProfileStoreBackend Flash FlashError := {|
  be_read off n b := (Ok (flash_read (fl_mem b) off n), b);
  be_erase off len b :=
    let n := Z.min len (fl_power b) in
    (if decide (n < len) then Err PowerLost else Ok (),
     mkFlash (erased (fl_mem b) off n) (fl_power b - n));
  be_write off data b :=
    let n := Z.min (usize_len data) (fl_power b) in
    (if decide (n < usize_len data) then Err PowerLost else Ok (),
     mkFlash (programmed (fl_mem b) off data n) (fl_power b - n))
|}.

(** What the flash says is stored. *)
Definition slot_metadata (m : Z → Z) (s : ProfileSlot) : option StoredProfile :=
  decode_metadata s (flash_read m (metadata_offset s) METADATA_LEN).
Definition active_of (m : Z → Z) : option StoredProfile := newest (slot_metadata m SlotA) (slot_metadata m SlotB).

(** *** The read-back *)

Lemma readback_spec fuel base len off crc b : (len ≤ off + fuel)%nat →
  readback_loop fuel base len off crc b =
    (Ok (Some (Crc32_update crc (flash_read (fl_mem b) (base + Z.of_nat off) (len - off)))), b).
Proof.
  revert off crc. induction fuel as [|fuel IH]; intros off crc H; cbn [readback_loop].
  - rewrite decide_False by lia. replace (len - off)%nat with 0%nat by lia. by destruct crc.
  - case_decide as Hlt.
    2: { replace (len - off)%nat with 0%nat by lia. by destruct crc. }
    unfold store_bind, backend. cbn [be_read flash_backend map_err]. rewrite IH by lia.
    set (n := Nat.min _ _).
    assert (flash_read (fl_mem b) (base + Z.of_nat off) (len - off) =
      flash_read (fl_mem b) (base + Z.of_nat off) n ++
      flash_read (fl_mem b) (base + Z.of_nat (off + n)) (len - (off + n))) as ->.
    { replace (len - off)%nat with (n + (len - (off + n)))%nat by lia. rewrite flash_read_app. do 2 f_equal; lia. }
    unfold Crc32_update. cbn [crc32_state]. by rewrite fold_left_app.
Qed.

Lemma store_active_spec b : store_active b = (Ok (active_of (fl_mem b)), b).
Proof. reflexivity. Qed.

(** *** Metadata *)

Definition stored_ok (p : StoredProfile) : Prop :=
  u32_ok (sp_generation p) ∧ u32_ok (sp_profile_hash p) ∧ u32_ok (sp_crc32 p) ∧ 1 ≤ sp_length p ≤ HSMI_MAX_SIZE.

Definition metadata_body (p : StoredProfile) : list Z :=
  METADATA_MAGIC ++ u16_to_le_bytes METADATA_VERSION ++ [0; 0] ++ u32_to_le_bytes (sp_generation p) ++
  u32_to_le_bytes (sp_profile_hash p) ++ u32_to_le_bytes (as_u32 (sp_length p)) ++ u32_to_le_bytes (sp_crc32 p).

Lemma encode_metadata_eq p marker : encode_metadata p marker =
  (metadata_body p ++ u32_to_le_bytes (crc32_ieee (metadata_body p))) ++ u32_to_le_bytes marker.
Proof. reflexivity. Qed.

Lemma metadata_body_ok p : bytes_ok (metadata_body p).
Proof. unfold metadata_body. repeat (apply bytes_ok_app; split); auto with hid; repeat constructor; words. Qed.

Lemma decode_metadata_inv s bytes p : bytes_ok bytes → decode_metadata s bytes = Some p →
  sp_slot p = s ∧ stored_ok p ∧ slice 0 4 bytes = METADATA_MAGIC ∧ read_u32 (slice 28 32 bytes) = COMMIT_MARKER.
Proof.
  intros Hb H. unfold decode_metadata in H. case_decide as Hc; [done|]. case_decide as Hl; [done|].
  injection H as <-.
  assert (∀ i j, u32_ok (read_u32 (slice i j bytes))) as Hu.
  { intros i j. unfold read_u32. apply u32_from_le_ok; by apply byte_at_ok, bytes_ok_slice. }
  pose proof (Hu 16%nat 20%nat) as H16. unfold u32_ok in H16.
  split; [done|]. split; [|split].
  - split; [apply Hu|split; [apply Hu|split; [apply Hu|]]]. cbn [sp_length]. lia.
  - destruct (decide (slice 0 4 bytes = METADATA_MAGIC)); [done|tauto].
  - destruct (decide (read_u32 (slice 28 32 bytes) = COMMIT_MARKER)); [done|tauto].
Qed.

Lemma decode_encode_metadata p : stored_ok p →
  decode_metadata (sp_slot p) (encode_metadata p COMMIT_MARKER) = Some p.
Proof.
  intros (Hg & Hh & Hc & Hl). rewrite encode_metadata_eq. unfold decode_metadata.
  set (crc := crc32_ieee (metadata_body p)).
  assert (u32_ok crc) as Hcrc by (apply crc32_u32, metadata_body_ok).
  assert (slice 0 24 ((metadata_body p ++ u32_to_le_bytes crc) ++ u32_to_le_bytes COMMIT_MARKER) = metadata_body p)
    as Hbody by reflexivity. rewrite Hbody. fold crc.
  assert (as_u32 (sp_length p) = sp_length p) as Hlen by (unfold HSMI_MAX_SIZE in Hl; words).
  change (read_u32 (slice 24 28 _)) with (u32_from_le_bytes (crc mod 256) (crc / 256 mod 256)
    (crc / 65536 mod 256) (crc / 16777216 mod 256)). rewrite (u32_from_to_le crc) by done.
  rewrite decide_False by (intros [?|[?|[?|[?|?]]]]; done).
  unfold metadata_body, read_u32, slice, byte_at. cbn -[u32_from_le_bytes Z.modulo Z.div as_u32].
  rewrite !u32_from_to_le by (rewrite ?Hlen; first [done|unfold HSMI_MAX_SIZE in Hl; words]). rewrite Hlen.
  rewrite decide_False by (unfold HSMI_MAX_SIZE, PROFILE_SLOT_LEN in *; lia). by destruct p.
Qed.

(** *** One commit, byte by byte *)

Lemma profile_byte_at_slice l lo hi i : (i < hi - lo)%nat → byte_at (slice lo hi l) i = byte_at l (lo + i).
Proof.
  intros H. unfold byte_at, slice. rewrite !nth_lookup, lookup_take_lt by lia. by rewrite lookup_drop.
Qed.

Lemma slot_metadata_inv m s p : flash_ok m → slot_metadata m s = Some p →
  sp_slot p = s ∧ stored_ok p ∧ m (metadata_offset s) = 0x48 ∧ m (metadata_offset s + 31) ≠ 0xff.
Proof.
  intros Hm H. unfold slot_metadata in H. set (bytes := flash_read _ _ _) in H.
  assert (bytes_ok bytes) as Hb by by apply flash_read_ok.
  destruct (decode_metadata_inv _ _ _ Hb H) as (Hs & Hok & Hmagic & Hmark).
  split; [done|]. split; [done|]. split.
  - apply (f_equal (λ l, byte_at l 0)) in Hmagic. rewrite profile_byte_at_slice in Hmagic by lia.
    unfold bytes in Hmagic. rewrite flash_read_at in Hmagic by (unfold METADATA_LEN; lia).
    change (Z.of_nat (0 + 0)) with 0 in Hmagic. rewrite Z.add_0_r in Hmagic. exact Hmagic.
  - intros Hff. unfold read_u32 in Hmark. rewrite !profile_byte_at_slice in Hmark by lia. cbn [Nat.add] in Hmark.
    assert (byte_at bytes 31 = 0xff) as H31.
    { unfold bytes. rewrite flash_read_at by (unfold METADATA_LEN; lia). exact Hff. }
    rewrite H31 in Hmark. pose proof (byte_at_ok bytes 28 Hb). pose proof (byte_at_ok bytes 29 Hb).
    pose proof (byte_at_ok bytes 30 Hb). unfold u32_from_le_bytes, COMMIT_MARKER in Hmark. words.
Qed.

Lemma slot_metadata_same m m' s : same_on (metadata_offset s) METADATA_SECTOR_LEN m m' →
  slot_metadata m' s = slot_metadata m s.
Proof.
  intros H. unfold slot_metadata. f_equal. apply flash_read_same. eapply same_on_sub; [..|exact H]; [lia|].
  unfold METADATA_LEN, METADATA_SECTOR_LEN. lia.
Qed.

(** The slot a commit writes: not the active one. *)
Definition target_slot (m : Z → Z) : ProfileSlot :=
  match active_of m with Some p => slot_other (sp_slot p) | None => SlotA end.

(** [m'] leaves the other slot alone and has not gained metadata in slot [x]. *)
Record untouched (x : ProfileSlot) (m m' : Z → Z) : Prop := {
  ut_ok : flash_ok m';
  ut_metadata : same_on (metadata_offset (slot_other x)) METADATA_SECTOR_LEN m m';
  ut_profile : same_on (profile_offset (slot_other x)) PROFILE_SLOT_LEN m m';
  ut_slot : slot_metadata m' x = slot_metadata m x ∨ slot_metadata m' x = None
}.

Lemma newest_slots m p : flash_ok m → active_of m = Some p → slot_metadata m (sp_slot p) = Some p.
Proof.
  intros Hm. unfold active_of, newest. destruct (slot_metadata m SlotA) as [a|] eqn:Ha;
    destruct (slot_metadata m SlotB) as [b|] eqn:Hb; try done; intros [= <-].
  - destruct (profile_generation_newer _ _).
    + by destruct (slot_metadata_inv _ _ _ Hm Ha) as [-> _].
    + by destruct (slot_metadata_inv _ _ _ Hm Hb) as [-> _].
  - by destruct (slot_metadata_inv _ _ _ Hm Ha) as [-> _].
  - by destruct (slot_metadata_inv _ _ _ Hm Hb) as [-> _].
Qed.

Lemma untouched_active m m' : flash_ok m → untouched (target_slot m) m m' → active_of m' = active_of m.
Proof.
  intros Hm [Hm' Hmeta _ Hslot]. apply slot_metadata_same in Hmeta. revert Hmeta Hslot. unfold target_slot.
  destruct (active_of m) as [p|] eqn:Hact.
  - pose proof (newest_slots m p Hm Hact) as Hp. revert Hact. unfold active_of.
    destruct (sp_slot p); cbn [slot_other]; rewrite Hp; intros Hact Hmeta Hslot; rewrite Hmeta;
      destruct Hslot as [->| ->]; first [exact Hact|done].
  - cbn [slot_other]. unfold active_of in *.
    destruct (slot_metadata m SlotA), (slot_metadata m SlotB); try done. by intros -> [->| ->].
Qed.

Lemma flash_erase off len m p : 0 ≤ p →
  backend (be_erase off len) (mkFlash m p) =
    if decide (len ≤ p) then (Ok (), mkFlash (erased m off len) (p - len))
    else (Err (BackendError PowerLost), mkFlash (erased m off p) 0).
Proof.
  intros Hp. unfold backend. cbn [be_erase flash_backend fl_mem fl_power].
  case_decide as H; case_decide as H'; try lia; cbn [map_err].
  - rewrite Z.min_r by lia. do 2 f_equal. lia.
  - rewrite Z.min_l by lia. done.
Qed.

Lemma flash_write off data m p : 0 ≤ p →
  backend (be_write off data) (mkFlash m p) =
    if decide (usize_len data ≤ p) then (Ok (), mkFlash (programmed m off data (usize_len data)) (p - usize_len data))
    else (Err (BackendError PowerLost), mkFlash (programmed m off data p) 0).
Proof.
  intros Hp. unfold backend. cbn [be_write flash_backend fl_mem fl_power].
  case_decide as H; case_decide as H'; try lia; cbn [map_err].
  - rewrite Z.min_r by lia. do 2 f_equal. lia.
  - rewrite Z.min_l by lia. done.
Qed.

(** What the commit has done when it succeeds. *)
Record written (x : ProfileSlot) (generation : Z) (image : list Z) (hash : Z) (m m' : Z → Z) : Prop := {
  wr_ok : flash_ok m';
  wr_metadata : same_on (metadata_offset (slot_other x)) METADATA_SECTOR_LEN m m';
  wr_profile : same_on (profile_offset (slot_other x)) PROFILE_SLOT_LEN m m';
  wr_slot : slot_metadata m' x = Some (mkStored x generation hash (usize_len image) (crc32_ieee image));
  wr_image : flash_read m' (profile_offset x) (length image) = image
}.

(** The two regions of a slot, and those of the other slot, do not overlap. *)
Ltac apart x := destruct x; cbn [slot_other metadata_offset profile_offset];
  unfold METADATA_A_OFFSET, METADATA_B_OFFSET, PROFILE_A_OFFSET, PROFILE_B_OFFSET, METADATA_SECTOR_LEN,
    PROFILE_SLOT_LEN, METADATA_LEN in *; lia.

(** Steps inside the profile region of slot [x] leave everything that is stored alone. *)
Record image_phase (x : ProfileSlot) (m m' : Z → Z) : Prop := {
  ip_ok : flash_ok m';
  ip_metadata : ∀ s, same_on (metadata_offset s) METADATA_SECTOR_LEN m m';
  ip_profile : same_on (profile_offset (slot_other x)) PROFILE_SLOT_LEN m m'
}.

Lemma image_phase_untouched x m m' : image_phase x m m' → untouched x m m'.
Proof. intros [H1 H2 H3]. split; [done|apply H2|done|]. left. apply slot_metadata_same, H2. Qed.

Lemma image_erase x m n : flash_ok m → n ≤ PROFILE_SLOT_LEN → image_phase x m (erased m (profile_offset x) n).
Proof.
  intros Hm Hn. split; [by apply erased_ok| |].
  - intros s. apply erased_other. destruct s; apart x.
  - apply erased_other. apart x.
Qed.

Lemma image_write x m m' data n : image_phase x m m' → bytes_ok data → n ≤ PROFILE_SLOT_LEN →
  image_phase x m (programmed m' (profile_offset x) data n).
Proof.
  intros [H1 H2 H3] Hd Hn. split; [by apply programmed_ok| |].
  - intros s. eapply same_on_trans; [apply H2|]. apply programmed_other. destruct s; apart x.
  - eapply same_on_trans; [apply H3|]. apply programmed_other. apart x.
Qed.

(** Steps inside the metadata sector. *)
Record metadata_phase (x : ProfileSlot) (m m' : Z → Z) : Prop := {
  mp_ok : flash_ok m';
  mp_metadata : same_on (metadata_offset (slot_other x)) METADATA_SECTOR_LEN m m';
  mp_profile : ∀ s, same_on (profile_offset s) PROFILE_SLOT_LEN m m'
}.

Lemma metadata_erase x m n : flash_ok m → n ≤ METADATA_SECTOR_LEN → metadata_phase x m (erased m (metadata_offset x) n).
Proof.
  intros Hm Hn. split; [by apply erased_ok| |].
  - apply erased_other. apart x.
  - intros s. apply erased_other. destruct s; apart x.
Qed.

Lemma metadata_write x m m' k data n : metadata_phase x m m' → bytes_ok data → 0 ≤ k → k + n ≤ METADATA_SECTOR_LEN →
  metadata_phase x m (programmed m' (metadata_offset x + k) data n).
Proof.
  intros [H1 H2 H3] Hd Hk Hn. split; [by apply programmed_ok| |].
  - eapply same_on_trans; [apply H2|]. apply programmed_other. apart x.
  - intros s. eapply same_on_trans; [apply H3|]. apply programmed_other. destruct s; apart x.
Qed.

Lemma untouched_of_phases x m m1 m2 : untouched x m m1 → metadata_phase x m1 m2 →
  slot_metadata m2 x = slot_metadata m1 x ∨ slot_metadata m2 x = None → untouched x m m2.
Proof.
  intros [_ H2 H3 H4] [H1' H2' H3'] Hs. split; [done| | |].
  - eapply same_on_trans; [apply H2|done].
  - eapply same_on_trans; [apply H3|apply H3'].
  - destruct Hs as [->| ->]; [done|by right].
Qed.

Lemma slot_metadata_none m x : flash_ok m → m (metadata_offset x) ≠ 0x48 ∨ m (metadata_offset x + 31) = 0xff →
  slot_metadata m x = None.
Proof.
  intros Hm H. destruct (slot_metadata m x) as [p|] eqn:Hp; [|done].
  destruct (slot_metadata_inv m x p Hm Hp) as (_ & _ & ? & ?). by destruct H.
Qed.

Definition metadata_record (p : StoredProfile) : list Z :=
  metadata_body p ++ u32_to_le_bytes (crc32_ieee (metadata_body p)).

Lemma metadata_record_slice p : slice 0 28 (encode_metadata p U32_MAX) = metadata_record p.
Proof. reflexivity. Qed.

Lemma metadata_record_ok p : bytes_ok (metadata_record p) ∧ length (metadata_record p) = 28%nat.
Proof. split; [|done]. apply bytes_ok_app. split; [apply metadata_body_ok|apply u32_to_le_bytes_ok]. Qed.

(** The three flash operations that commit the metadata: whatever cuts them short leaves no
    metadata in the slot, and only all of them leave the new one. *)
Definition write_metadata (p : StoredProfile) : @StoreOp Flash FlashError ProfileCommitOutcome :=
  let x := sp_slot p in
  store_bind (backend (be_erase (metadata_offset x) METADATA_SECTOR_LEN)) (λ _,
  store_bind (backend (be_write (metadata_offset x) (slice 0 28 (encode_metadata p U32_MAX)))) (λ _,
  store_bind (backend (be_write (metadata_offset x + 28) (u32_to_le_bytes COMMIT_MARKER))) (λ _,
  store_ret (Ok (Stored p))))).

Lemma write_metadata_spec p m power : flash_ok m → stored_ok p → 0 ≤ power →
  let '(r, b) := write_metadata p (mkFlash m power) in
  (METADATA_SECTOR_LEN + 32 ≤ power → is_ok r = true) ∧ metadata_phase (sp_slot p) m (fl_mem b) ∧
  match r with
  | Ok o => o = Stored p ∧ slot_metadata (fl_mem b) (sp_slot p) = Some p
  | Err e => e = BackendError PowerLost ∧
      (slot_metadata (fl_mem b) (sp_slot p) = slot_metadata m (sp_slot p) ∨ slot_metadata (fl_mem b) (sp_slot p) = None)
  end.
Proof.
  intros Hm Hp Hpow. unfold write_metadata, store_bind. rewrite metadata_record_slice. set (x := sp_slot p) in *.
  destruct (metadata_record_ok p) as [Hrec Hrl]. set (rec := metadata_record p) in *.
  assert (usize_len rec = 28) as Hul by (unfold usize_len; by rewrite Hrl).
  change (usize_len (u32_to_le_bytes COMMIT_MARKER)) with 4 in *.
  rewrite flash_erase by done. case_decide as H1.
  2: { unfold METADATA_SECTOR_LEN in *. split; [lia|]. cbn [fl_mem].
       split; [apply metadata_erase; [done|unfold METADATA_SECTOR_LEN; lia]|]. split; [done|].
       destruct (decide (power = 0)) as [->|Hne].
       - left. apply slot_metadata_same. intros a Ha. unfold erased. by rewrite decide_False by lia.
       - right. apply slot_metadata_none; [by apply erased_ok|]. left. unfold erased. by rewrite decide_True by lia. }
  pose proof (metadata_erase x m METADATA_SECTOR_LEN Hm ltac:(lia)) as Ph1.
  set (m1 := erased m _ _) in *.
  assert (∀ k, 0 ≤ k < METADATA_SECTOR_LEN → m1 (metadata_offset x + k) = 0xff) as Hff1
    by (intros k Hk; unfold m1, erased; by rewrite decide_True by lia).
  rewrite flash_write, Hul by lia. pose proof (metadata_write x m m1 0 rec) as Hw. rewrite Z.add_0_r in Hw.
  unfold METADATA_SECTOR_LEN in *. case_decide as H2.
  2: { split; [lia|]. cbn [fl_mem]. split; [apply Hw; [done|done|lia|lia]|]. split; [done|]. right.
       apply slot_metadata_none; [apply Hw; [done|done|lia|lia]|]. right.
       unfold programmed. rewrite decide_False by lia. apply Hff1. lia. }
  specialize (Hw 28 Ph1 Hrec ltac:(lia) ltac:(lia)). set (m2 := programmed m1 _ _ _) in *.
  assert (∀ k, 28 ≤ k < 32 → m2 (metadata_offset x + k) = 0xff) as Hff2.
  { intros k Hk. unfold m2, programmed. rewrite decide_False by lia. apply Hff1. lia. }
  rewrite flash_write by lia. change (usize_len (u32_to_le_bytes COMMIT_MARKER)) with 4.
  assert (∀ n, n ≤ 4 → metadata_phase x m (programmed m2 (metadata_offset x + 28) (u32_to_le_bytes COMMIT_MARKER) n)) as Hw2.
  { intros n Hn. apply metadata_write; [done|apply u32_to_le_bytes_ok|lia|unfold METADATA_SECTOR_LEN; lia]. }
  case_decide as H3.
  2: { split; [lia|]. cbn [fl_mem]. split; [apply Hw2; lia|]. split; [done|]. right.
       apply slot_metadata_none; [apply Hw2; lia|]. right.
       unfold programmed. rewrite decide_False by lia. apply Hff2. lia. }
  cbn [store_ret fl_mem is_ok]. split; [done|]. split; [apply Hw2; lia|]. split; [done|].
  unfold slot_metadata. rewrite <- (decode_encode_metadata p Hp). fold x. f_equal. rewrite encode_metadata_eq.
  change METADATA_LEN with (28 + 4)%nat. rewrite flash_read_app. f_equal.
  - rewrite (flash_read_same m2) by (apply programmed_other; lia).
    change 28%nat with (length rec). unfold m2. change 28 with (usize_len rec). apply programmed_read; [done|].
    intros i Hi. apply Hff1. change (i < 28)%nat in Hi. lia.
  - refine (programmed_read m2 (metadata_offset x + 28) (u32_to_le_bytes COMMIT_MARKER) _ _);
      [apply u32_to_le_bytes_ok|]. intros i Hi. change (i < 4)%nat in Hi. rewrite <- Z.add_assoc. apply Hff2. lia.
Qed.

(** Writing a slot: all or nothing. *)
Lemma write_slot_spec x generation image hash m power : flash_ok m → bytes_ok image → 0 ≤ power →
  1 ≤ usize_len image ≤ HSMI_MAX_SIZE → u32_ok generation → u32_ok hash →
  let '(r, b) := write_slot x generation image hash (mkFlash m power) in
  (PROFILE_SLOT_LEN + usize_len image + METADATA_SECTOR_LEN + 32 ≤ power → is_ok r = true) ∧
  match r with
  | Ok o => o = Stored (mkStored x generation hash (usize_len image) (crc32_ieee image)) ∧
      written x generation image hash m (fl_mem b)
  | Err e => e = BackendError PowerLost ∧ untouched x m (fl_mem b)
  end.
Proof.
  intros Hm Hb Hpow Hlen Hg Hh. unfold write_slot, store_bind at 1. rewrite flash_erase by done.
  assert (HSMI_MAX_SIZE ≤ PROFILE_SLOT_LEN) as Hmax by done. case_decide as H1.
  2: { unfold METADATA_SECTOR_LEN, PROFILE_SLOT_LEN in *. split; [lia|]. split; [done|].
       apply image_phase_untouched, image_erase; [done|unfold PROFILE_SLOT_LEN; lia]. }
  pose proof (image_erase x m PROFILE_SLOT_LEN Hm ltac:(lia)) as Ph1. set (m1 := erased m _ _) in *.
  unfold store_bind at 1. rewrite flash_write by lia. case_decide as H2.
  2: { unfold METADATA_SECTOR_LEN in *. split; [lia|]. split; [done|].
       apply image_phase_untouched, image_write; [done|done|lia]. }
  pose proof (image_write x m m1 image (usize_len image) Ph1 Hb ltac:(lia)) as Ph2.
  assert (flash_read (programmed m1 (profile_offset x) image (usize_len image)) (profile_offset x) (length image) = image) as Himg.
  { apply programmed_read; [done|]. intros i Hi. unfold m1, erased. unfold usize_len in *. by rewrite decide_True by lia. }
  set (m2 := programmed m1 _ _ _) in *. unfold store_bind at 1. rewrite readback_spec by lia. cbn [fl_mem].
  change (Z.of_nat 0) with 0. rewrite Z.add_0_r, Nat.sub_0_r, Himg.
  change (Crc32_finalize (Crc32_update Crc32_new image)) with (crc32_ieee image).
  rewrite decide_False by tauto. set (p := mkStored x generation hash (usize_len image) (crc32_ieee image)).
  change (let '(r, b) := write_metadata p (mkFlash m2 (power - PROFILE_SLOT_LEN - usize_len image)) in
    (PROFILE_SLOT_LEN + usize_len image + METADATA_SECTOR_LEN + 32 ≤ power → is_ok r = true) ∧
    match r with
    | Ok o => o = Stored p ∧ written x generation image hash m (fl_mem b)
    | Err e => e = BackendError PowerLost ∧ untouched x m (fl_mem b)
    end).
  destruct Ph2 as [Hm2 Hmeta2 Hprof2].
  assert (stored_ok p) as Hp by (split; [done|split; [done|split; [by apply crc32_u32|done]]]).
  pose proof (write_metadata_spec p m2 (power - PROFILE_SLOT_LEN - usize_len image) Hm2 Hp ltac:(lia)) as Hw.
  destruct (write_metadata p _) as [r b]. destruct Hw as (Hok & Hph & Hr). cbn [sp_slot p] in Hph, Hr.
  split; [intros; apply Hok; lia|]. destruct r as [o|e].
  - destruct Hr as [-> Hs]. split; [done|]. destruct Hph as [Hok' Hmeta Hprof]. split; [done| | |done|].
    + eapply same_on_trans; [apply Hmeta2|apply Hmeta].
    + eapply same_on_trans; [apply Hprof2|apply Hprof].
    + rewrite <- Himg at 2. apply flash_read_same. eapply same_on_sub; [..|apply (Hprof x)]; [lia|].
      unfold usize_len in *. lia.
  - destruct Hr as [-> Hs]. split; [done|]. apply (untouched_of_phases x m m2); [|done|done].
    by apply image_phase_untouched.
Qed.

Lemma newer_succ g : u32_ok g →
  profile_generation_newer (as_u32 (g + 1)) g = true ∧ profile_generation_newer g (as_u32 (g + 1)) = false.
Proof.
  intros Hg. unfold profile_generation_newer, as_u32, u32_ok in *. split; [apply Z.ltb_lt|apply Z.ltb_ge]; divmod.
Qed.

(** A written slot is the active one. *)
Lemma written_active m m' image hash : flash_ok m →
  let generation := match active_of m with Some p => as_u32 (sp_generation p + 1) | None => 1 end in
  written (target_slot m) generation image hash m m' →
  active_of m' = Some (mkStored (target_slot m) generation hash (usize_len image) (crc32_ieee image)).
Proof.
  intros Hm generation [_ Hmeta _ Hslot _]. apply slot_metadata_same in Hmeta. revert Hmeta Hslot. subst generation.
  unfold target_slot. destruct (active_of m) as [p|] eqn:Hact.
  - pose proof (newest_slots m p Hm Hact) as Hp.
    destruct (slot_metadata_inv m _ p Hm Hp) as (_ & (Hg & _) & _). destruct (newer_succ _ Hg) as [N1 N2].
    unfold active_of. destruct (sp_slot p); cbn [slot_other]; rewrite Hp; intros -> ->; cbn [newest sp_generation];
      by rewrite ?N1, ?N2.
  - cbn [slot_other]. unfold active_of in *.
    destruct (slot_metadata m SlotA), (slot_metadata m SlotB); try done. by intros -> ->.
Qed.

(** ** Histories of commits

    The abstract store: the profile committed last, if any, and its image. *)

Definition LastStored : Type := option (StoredProfile * list Z).

Record store_inv (m : Z → Z) (last : LastStored) : Prop := {
  si_ok : flash_ok m;
  si_active : active_of m = fst <$> last;
  si_image : ∀ p image, last = Some (p, image) →
    flash_read m (profile_offset (sp_slot p)) (length image) = image ∧
    sp_length p = usize_len image ∧ sp_crc32 p = crc32_ieee image ∧ usize_len image ≤ PROFILE_SLOT_LEN
}.

Definition after_commit (image : list Z) (r : Result (ProfileStoreError FlashError) ProfileCommitOutcome)
    (last : LastStored) : LastStored :=
  match r with Ok (Stored p) => Some (p, image) | _ => last end.

(** Attempts to commit, each with the supply it has before power fails. *)
Record CommitAttempt := mkAttempt { ca_image : list Z; ca_hash : Z; ca_power : Z }.
Definition attempt_ok (a : CommitAttempt) : Prop :=
  bytes_ok (ca_image a) ∧ u32_ok (ca_hash a) ∧ 0 ≤ ca_power a.

Fixpoint store_history (attempts : list CommitAttempt) (m : Z → Z) (last : LastStored) : (Z → Z) * LastStored :=
  match attempts with
  | [] => (m, last)
  | a :: attempts =>
      let '(r, b) := store_commit (ca_image a) (ca_hash a) (mkFlash m (ca_power a)) in
      store_history attempts (fl_mem b) (after_commit (ca_image a) r last)
  end.

Definition image_fits (image : list Z) : Prop := 1 ≤ usize_len image ≤ HSMI_MAX_SIZE.

(** The supply a commit needs at most. *)
Definition commit_power (image : list Z) : Z := PROFILE_SLOT_LEN + usize_len image + METADATA_SECTOR_LEN + 32.

Lemma untouched_inv m last m' : store_inv m last → untouched (target_slot m) m m' → store_inv m' last.
Proof.
  intros [Hm Ha Hi] Hu. split; [apply Hu| |].
  - by rewrite (untouched_active m m').
  - intros p image Hl. destruct (Hi p image Hl) as (Hr & Hlen & Hc & Hmax). split; [|done].
    rewrite <- Hr at 2. apply flash_read_same. destruct Hu as [_ _ Hu _].
    subst last. cbn in Ha. unfold target_slot in Hu. rewrite Ha in Hu.
    replace (slot_other (slot_other (sp_slot p))) with (sp_slot p) in Hu by (by destruct (sp_slot p)).
    eapply same_on_sub; [..|exact Hu]; [lia|]. unfold usize_len in *. lia.
Qed.

Lemma commit_step image hash power m last : store_inv m last → bytes_ok image → u32_ok hash → 0 ≤ power →
  let '(r, b) := store_commit image hash (mkFlash m power) in
  store_inv (fl_mem b) (after_commit image r last) ∧
  (image_fits image → commit_power image ≤ power → is_ok r = true) ∧
  (is_ok r = true → ∃ p, active_of (fl_mem b) = Some p ∧
     sp_profile_hash p = hash ∧ sp_length p = usize_len image ∧ sp_crc32 p = crc32_ieee image).
Proof.
  intros Hinv Hb Hh Hpow. unfold store_commit, image_fits, commit_power. case_decide as Hbad.
  { cbn. split; [done|]. split; [|done]. intros Hfit _. exfalso. destruct Hbad as [->|Hbad]; [unfold usize_len in Hfit; cbn in Hfit; lia|].
    unfold HSMI_MAX_SIZE, PROFILE_SLOT_LEN in *. lia. }
  assert (1 ≤ usize_len image ≤ HSMI_MAX_SIZE) as Hfit.
  { unfold usize_len in *. destruct image as [|z image]; [tauto|]. cbn [length] in *. lia. }
  unfold store_bind. rewrite store_active_spec. cbn [fl_mem].
  set (gen := match active_of m with Some p => as_u32 (sp_generation p + 1) | None => 1 end).
  assert (u32_ok gen) as Hgen by (unfold gen; destruct (active_of m); [apply as_u32_ok|done]).
  pose proof (write_slot_spec (target_slot m) gen image hash m power (si_ok _ _ Hinv) Hb Hpow Hfit Hgen Hh) as Hw.
  assert (let '(r, b) := write_slot (target_slot m) gen image hash (mkFlash m power) in
    store_inv (fl_mem b) (after_commit image r last) ∧
    (1 ≤ usize_len image ≤ HSMI_MAX_SIZE →
     PROFILE_SLOT_LEN + usize_len image + METADATA_SECTOR_LEN + 32 ≤ power → is_ok r = true) ∧
    (is_ok r = true → ∃ p, active_of (fl_mem b) = Some p ∧
      sp_profile_hash p = hash ∧ sp_length p = usize_len image ∧ sp_crc32 p = crc32_ieee image)) as Hfresh.
  { destruct (write_slot _ _ _ _ _) as [[o|e] b].
    - destruct Hw as (Hok & -> & Hwr).
      pose proof (written_active m (fl_mem b) image hash (si_ok _ _ Hinv) Hwr) as Hact. fold gen in Hact.
      split; [|split; [done|]].
      + split; [apply Hwr|exact Hact|]. intros p img [= <- <-]. split; [apply Hwr|]. cbn.
        unfold HSMI_MAX_SIZE, PROFILE_SLOT_LEN in *. lia.
      + intros _. by eexists.
    - destruct Hw as (Hok & -> & Hu). split; [by apply (untouched_inv m)|]. split; [by intros _|done]. }
  unfold target_slot, gen in Hfresh. clear Hw Hgen. subst gen. revert Hfresh.
  destruct (active_of m) as [p|] eqn:Hact; intros Hfresh; [|exact Hfresh].
  case_decide as Hsame; [|exact Hfresh]. cbn. split; [done|]. split; [done|]. intros _. by exists p.
Qed.

Lemma store_history_inv attempts m last : store_inv m last → Forall attempt_ok attempts →
  store_inv (store_history attempts m last).1 (store_history attempts m last).2.
Proof.
  intros Hinv Hall. revert m last Hinv. induction Hall as [|a attempts (Hb & Hh & Hp) _ IH]; intros m last Hinv; [done|].
  cbn [store_history]. pose proof (commit_step _ _ _ m last Hinv Hb Hh Hp) as Hstep.
  destruct (store_commit _ _ _) as [r b]. apply IH, Hstep.
Qed.

(** C30: The profile store survives power loss.  Start from any flash that holds a committed profile
    or none, and attempt any commits, each cut off at any byte it erases or programs (or not at all).
    Then the active profile is the one of the last attempt that reported it stored, its image reads
    back byte for byte, an attempt that failed has changed nothing of it; and a commit of an image
    that fits, given enough supply, succeeds and leaves its hash, length and CRC active. *)
Theorem store_survives_power_loss m last attempts :
  store_inv m last → Forall attempt_ok attempts →
  let '(m', last') := store_history attempts m last in
  (∀ power, store_active (mkFlash m' power) = (Ok (fst <$> last'), mkFlash m' power)) ∧
  (∀ power p image capacity, last' = Some (p, image) → usize_len image ≤ capacity →
     read_profile p capacity (mkFlash m' power) = (Ok image, mkFlash m' power)) ∧
  (∀ a, attempt_ok a → image_fits (ca_image a) → commit_power (ca_image a) ≤ ca_power a →
     ∃ o b p, store_commit (ca_image a) (ca_hash a) (mkFlash m' (ca_power a)) = (Ok o, b) ∧
       store_active b = (Ok (Some p), b) ∧ sp_profile_hash p = ca_hash a ∧
       sp_length p = usize_len (ca_image a) ∧ sp_crc32 p = crc32_ieee (ca_image a)).
Proof.
  intros Hinv Hall. pose proof (store_history_inv attempts m last Hinv Hall) as H.
  destruct (store_history attempts m last) as [m' last']. cbn [fst snd] in H. split; [|split].
  - intros power. rewrite store_active_spec. cbn [fl_mem]. by rewrite (si_active _ _ H).
  - intros power p image capacity Hl Hcap. destruct (si_image _ _ H p image Hl) as (Hr & Hlen & Hc & _).
    unfold read_profile, store_bind, backend. rewrite Hlen, decide_False by lia. cbn [be_read flash_backend fl_mem map_err].
    unfold usize_len. rewrite Nat2Z.id, Hr, Hc, decide_False by tauto. done.
  - intros a (Hb & Hh & Hp) Hfit Hpow. pose proof (commit_step _ _ _ m' last' H Hb Hh Hp) as Hstep.
    destruct (store_commit _ _ _) as [r b]. destruct Hstep as (_ & Hok & Hact). specialize (Hok Hfit Hpow). destruct (Hact Hok) as (p & Hp1 & Hp2).
    destruct r as [o|]; [|done]. exists o, b, p. split; [done|]. rewrite store_active_spec. by rewrite Hp1.
Qed.

Definition blank_flash : Z → Z := λ _, 0xff.

Lemma blank_inv : store_inv blank_flash None.
Proof. split; [intros a; unfold blank_flash; words|vm_compute; reflexivity|done]. Qed.

(** A first profile, and two commits that die while their metadata is written. *)
Definition sample_attempts : list CommitAttempt :=
  [mkAttempt [1; 2; 3] 7 40000; mkAttempt [4; 5] 8 28690; mkAttempt [6] 9 28700].

Lemma store_survives_power_loss_witness :
  store_inv blank_flash None ∧ Forall attempt_ok sample_attempts ∧
  let '(m', last') := store_history sample_attempts blank_flash None in
  last' = Some (mkStored SlotA 1 7 3 (crc32_ieee [1; 2; 3]), [1; 2; 3]) ∧
  ∀ power, store_active (mkFlash m' power) = (Ok (fst <$> last'), mkFlash m' power).
Proof.
  assert (Forall attempt_ok sample_attempts) as Hok.
  { repeat (apply List.Forall_cons; [split; [apply (bool_decide_unpack _); vm_compute; exact I|split; cbn; words]|]).
    apply List.Forall_nil. }
  split; [exact blank_inv|]. split; [exact Hok|].
  pose proof (store_survives_power_loss blank_flash None sample_attempts blank_inv Hok) as H.
  assert ((store_history sample_attempts blank_flash None).2 =
    Some (mkStored SlotA 1 7 3 (crc32_ieee [1; 2; 3]), [1; 2; 3])) as Hl by (vm_compute; reflexivity).
  destruct (store_history sample_attempts blank_flash None) as [m' last']. cbn [snd] in Hl.
  split; [exact Hl|exact (proj1 H)].
Defined.
